(** * Prysm beacon-chain state core: a shallow embedding

    The development follows three Go packages of the repository:

    - [state]: the read accessors of the versioned state container and the
      [ReadOnlyValidator] view;
    - [blocks]: attestation processing ([ProcessAttestation] and
      [ProcessAttestationNoVerifySignature]);
    - [pbp2p]: the generated SSZ codec and hash-tree-root of the records of
      package [ethereum_beacon_p2p_v1].

    Go values are modelled as follows.  A [uint64] is a [Z] in the range
    [0, 2^64) with wrap-around written out ([wrap64]); a nil-able pointer
    is an [option]; a slice whose nil-ness the code inspects is an
    [option (list _)], any other slice is the list of its elements; a
    run-time panic is an explicit outcome. *)

From stdpp Require Import base list numbers functions.
From Stdlib Require Import ZArith Lia.
From Stdlib.Strings Require Import Byte.

Local Open Scope Z_scope.

(** ** Go values *)

Module Go.

Definition byte := Byte.byte.
Abbreviation bytes := (list Byte.byte) (only parsing).

(** The ways a modelled function can panic. *)
Inductive panic : Type :=
| NilDereference
| IndexOutOfRange
| DivideByZero
| SlotOverflow.

(** A Go call either returns or panics. *)
Inductive outcome (A : Type) : Type :=
| Returns (a : A)
| Panics (p : panic).
Arguments Returns {A} a.
Arguments Panics {A} p.

Definition obind {A B} (o : outcome A) (k : A -> outcome B) : outcome B :=
  match o with
  | Returns a => k a
  | Panics p => Panics p
  end.

(** [*p] for a pointer [p]. *)
Definition deref {A} (p : option A) : outcome A :=
  match p with
  | Some a => Returns a
  | None => Panics NilDereference
  end.

Definition uint64_limit : Z := 2 ^ 64.
Definition wrap64 (z : Z) : Z := z mod uint64_limit.
Definition is_uint64 (z : Z) : Prop := 0 <= z < uint64_limit.

(** [len(s)] of a slice, as the unsigned integer Go compares it with. *)
Definition len {A} (l : list A) : Z := Z.of_nat (length l).

(** [len(s)] of a slice that may be nil. *)
Definition len_nilable {A} (s : option (list A)) : Z :=
  match s with
  | Some l => len l
  | None => 0
  end.

(** [copy(dst[:], src)] into a zeroed array of [n] bytes. *)
Definition copy_into_array (n : nat) (src : bytes) : bytes :=
  take n (src ++ replicate n Byte.x00).

End Go.

Export Go.

#[global] Instance outcome_ret : MRet outcome := fun _ a => Returns a.
#[global] Instance outcome_bind : MBind outcome := fun _ _ k o => obind o k.

(** ** Records of the [ethereumapis] dependency (package [v1alpha1])

    Only the data declarations are needed; their field lists are those the
    sources read ([v.validator.EffectiveBalance], [data.Target.Epoch], ...). *)

Module Validator.
Record t : Type := mk {
  PublicKey : bytes;
  WithdrawalCredentials : bytes;
  EffectiveBalance : Z;
  Slashed : bool;
  ActivationEligibilityEpoch : Z;
  ActivationEpoch : Z;
  ExitEpoch : Z;
  WithdrawableEpoch : Z
}.
(** [&ethpb.Validator{}] *)
Definition zero : t := mk [] [] 0 false 0 0 0 0.
End Validator.

Module Checkpoint.
Record t : Type := mk {
  Epoch : Z;
  Root : bytes
}.
(** [new(ethpb.Checkpoint)] *)
Definition zero : t := mk 0 [].
End Checkpoint.

Module AttestationData.
Record t : Type := mk {
  Slot : Z;
  CommitteeIndex : Z;
  BeaconBlockRoot : bytes;
  Source : option Checkpoint.t;
  Target : option Checkpoint.t
}.
End AttestationData.

Module Attestation.
Record t : Type := mk {
  AggregationBits : bytes;
  Data : option AttestationData.t;
  Signature : bytes
}.
End Attestation.

(** ** Records of package [ethereum_beacon_p2p_v1] as package [state] holds them *)

Module Fork.
Record t : Type := mk {
  PreviousVersion : bytes;
  CurrentVersion : bytes;
  Epoch : Z
}.
(** [new(Fork)] *)
Definition zero : t := mk [] [] 0.
End Fork.

Module SyncCommittee.
Record t : Type := mk {
  Pubkeys : list bytes;
  PubkeyAggregates : list bytes
}.
(** [new(SyncCommittee)] *)
Definition zero : t := mk [] [].
End SyncCommittee.

Module BeaconBlockHeader.
Record t : Type := mk {
  Slot : Z;
  ProposerIndex : Z;
  ParentRoot : bytes;
  StateRoot : bytes;
  BodyRoot : bytes
}.
(** [new(ethpb.BeaconBlockHeader)] *)
Definition zero : t := mk 0 0 [] [] [].
End BeaconBlockHeader.

Module Eth1Data.
Record t : Type := mk {
  DepositRoot : bytes;
  DepositCount : Z;
  BlockHash : bytes
}.
(** [new(ethpb.Eth1Data)] *)
Definition zero : t := mk [] 0 [].
End Eth1Data.

(** * Package [state]: the state container *)

Module State.

(** The protobuf state behind the container ([b.state]).  A slice field
    the accessors compare with [nil] is an [option]. *)
Module Inner.
Record t : Type := mk {
  GenesisTime : Z;
  GenesisValidatorsRoot : option bytes;
  Slot : Z;
  Fork : option Fork.t;
  LatestBlockHeader : option BeaconBlockHeader.t;
  BlockRoots : option (list bytes);
  StateRoots : option (list bytes);
  HistoricalRoots : option (list bytes);
  Eth1Data : option Eth1Data.t;
  Eth1DataVotes : option (list (option Eth1Data.t));
  Eth1DepositIndex : Z;
  Validators : option (list (option Validator.t));
  Balances : option (list Z);
  RandaoMixes : option (list bytes);
  Slashings : option (list Z);
  PreviousEpochParticipation : option bytes;
  CurrentEpochParticipation : option bytes;
  JustificationBits : option bytes;
  PreviousJustifiedCheckpoint : option Checkpoint.t;
  CurrentJustifiedCheckpoint : option Checkpoint.t;
  FinalizedCheckpoint : option Checkpoint.t;
  CurrentSyncCommittee : option SyncCommittee.t;
  NextSyncCommittee : option SyncCommittee.t
}.

(** [new(pbp2p.BeaconState)]: every field zero or nil. *)
Definition zero : t :=
  mk 0 None 0 None None None None None None None 0 None None None
    None None None None None None None None None.

(** Field assignments [b.state.F = val] used by the modelled code. *)
Definition with_Slot (slot : Z) (s : t) : t :=
  mk (GenesisTime s) (GenesisValidatorsRoot s) slot (Fork s)
    (LatestBlockHeader s) (BlockRoots s) (StateRoots s) (HistoricalRoots s)
    (Eth1Data s) (Eth1DataVotes s) (Eth1DepositIndex s) (Validators s)
    (Balances s) (RandaoMixes s) (Slashings s) (PreviousEpochParticipation s)
    (CurrentEpochParticipation s) (JustificationBits s)
    (PreviousJustifiedCheckpoint s) (CurrentJustifiedCheckpoint s)
    (FinalizedCheckpoint s) (CurrentSyncCommittee s) (NextSyncCommittee s).

Definition with_Validators (vs : option (list (option Validator.t)))
  (s : t) : t :=
  mk (GenesisTime s) (GenesisValidatorsRoot s) (Slot s) (Fork s)
    (LatestBlockHeader s) (BlockRoots s) (StateRoots s) (HistoricalRoots s)
    (Eth1Data s) (Eth1DataVotes s) (Eth1DepositIndex s) vs
    (Balances s) (RandaoMixes s) (Slashings s) (PreviousEpochParticipation s)
    (CurrentEpochParticipation s) (JustificationBits s)
    (PreviousJustifiedCheckpoint s) (CurrentJustifiedCheckpoint s)
    (FinalizedCheckpoint s) (CurrentSyncCommittee s) (NextSyncCommittee s).

Definition with_Balances (bs : option (list Z)) (s : t) : t :=
  mk (GenesisTime s) (GenesisValidatorsRoot s) (Slot s) (Fork s)
    (LatestBlockHeader s) (BlockRoots s) (StateRoots s) (HistoricalRoots s)
    (Eth1Data s) (Eth1DataVotes s) (Eth1DepositIndex s) (Validators s)
    bs (RandaoMixes s) (Slashings s) (PreviousEpochParticipation s)
    (CurrentEpochParticipation s) (JustificationBits s)
    (PreviousJustifiedCheckpoint s) (CurrentJustifiedCheckpoint s)
    (FinalizedCheckpoint s) (CurrentSyncCommittee s) (NextSyncCommittee s).

Definition with_PreviousEpochParticipation (p : option bytes)
  (s : t) : t :=
  mk (GenesisTime s) (GenesisValidatorsRoot s) (Slot s) (Fork s)
    (LatestBlockHeader s) (BlockRoots s) (StateRoots s) (HistoricalRoots s)
    (Eth1Data s) (Eth1DataVotes s) (Eth1DepositIndex s) (Validators s)
    (Balances s) (RandaoMixes s) (Slashings s) p
    (CurrentEpochParticipation s) (JustificationBits s)
    (PreviousJustifiedCheckpoint s) (CurrentJustifiedCheckpoint s)
    (FinalizedCheckpoint s) (CurrentSyncCommittee s) (NextSyncCommittee s).

Definition with_CurrentEpochParticipation (p : option bytes)
  (s : t) : t :=
  mk (GenesisTime s) (GenesisValidatorsRoot s) (Slot s) (Fork s)
    (LatestBlockHeader s) (BlockRoots s) (StateRoots s) (HistoricalRoots s)
    (Eth1Data s) (Eth1DataVotes s) (Eth1DepositIndex s) (Validators s)
    (Balances s) (RandaoMixes s) (Slashings s) (PreviousEpochParticipation s)
    p (JustificationBits s)
    (PreviousJustifiedCheckpoint s) (CurrentJustifiedCheckpoint s)
    (FinalizedCheckpoint s) (CurrentSyncCommittee s) (NextSyncCommittee s).

Definition with_JustifiedCheckpoints (prev curr : option Checkpoint.t)
  (s : t) : t :=
  mk (GenesisTime s) (GenesisValidatorsRoot s) (Slot s) (Fork s)
    (LatestBlockHeader s) (BlockRoots s) (StateRoots s) (HistoricalRoots s)
    (Eth1Data s) (Eth1DataVotes s) (Eth1DepositIndex s) (Validators s)
    (Balances s) (RandaoMixes s) (Slashings s) (PreviousEpochParticipation s)
    (CurrentEpochParticipation s) (JustificationBits s)
    prev curr
    (FinalizedCheckpoint s) (CurrentSyncCommittee s) (NextSyncCommittee s).
End Inner.

(** The container; its lock, dirty-field marks and index map carry no
    consensus data and are left out. *)
Record BeaconState : Type := mkBeaconState {
  state : option Inner.t
}.

Inductive error : Type :=
| ErrNilInnerState
| ErrIndexOutOfRange (idx : Z)     (* "index %d out of range" *)
| ErrIndexDoesNotExist (idx : Z).  (* "index of %d does not exist" *)

(** [s[i]] with Go's bounds check. *)
Definition index {A} (s : list A) (i : Z) : outcome A :=
  if i <? 0 then Panics IndexOutOfRange
  else match s !! Z.to_nat i with
       | Some a => Returns a
       | None => Panics IndexOutOfRange
       end.

(** [s[i]] on a slice that may be nil. *)
Definition index_nilable {A} (s : option (list A)) (i : Z) : outcome A :=
  index (default [] s) i.

(** A view over one validator record. *)
Record ReadOnlyValidator : Type := mkReadOnlyValidator {
  validator : option Validator.t
}.

Definition IsNil (v : ReadOnlyValidator) : bool :=
  match validator v with
  | None => true
  | Some _ => false
  end.

Definition zero48 : bytes := replicate 48 Byte.x00.

Module ReadOnly.

Definition EffectiveBalance (v : ReadOnlyValidator) : outcome Z :=
  if IsNil v then mret 0
  else val ← deref (validator v); mret (Validator.EffectiveBalance val).

Definition ActivationEligibilityEpoch (v : ReadOnlyValidator) : outcome Z :=
  if IsNil v then mret 0
  else val ← deref (validator v); mret (Validator.ActivationEligibilityEpoch val).

Definition ActivationEpoch (v : ReadOnlyValidator) : outcome Z :=
  if IsNil v then mret 0
  else val ← deref (validator v); mret (Validator.ActivationEpoch val).

Definition WithdrawableEpoch (v : ReadOnlyValidator) : outcome Z :=
  if IsNil v then mret 0
  else val ← deref (validator v); mret (Validator.WithdrawableEpoch val).

Definition ExitEpoch (v : ReadOnlyValidator) : outcome Z :=
  if IsNil v then mret 0
  else val ← deref (validator v); mret (Validator.ExitEpoch val).

Definition PublicKey (v : ReadOnlyValidator) : outcome bytes :=
  if IsNil v then mret zero48
  else val ← deref (validator v);
       mret (copy_into_array 48 (Validator.PublicKey val)).

(** No [IsNil] guard here: the length of the credentials is read through
    the pointer straight away. *)
Definition WithdrawalCredentials (v : ReadOnlyValidator) : outcome bytes :=
  val ← deref (validator v);
  mret (Validator.WithdrawalCredentials val).

Definition Slashed (v : ReadOnlyValidator) : outcome bool :=
  if IsNil v then mret false
  else val ← deref (validator v); mret (Validator.Slashed val).

End ReadOnly.

Section Accessors.

(** [CopyValidator] and [bytesutil.ToBytes48] live in files outside the
    sources at hand. *)
Variable CopyValidator : option Validator.t -> outcome (option Validator.t).
Variable ToBytes48 : bytes -> bytes.

Definition ReadOnly_CopyValidator (v : ReadOnlyValidator)
  : outcome (option Validator.t) :=
  if IsNil v then mret None
  else CopyValidator (validator v).

Definition HasInnerState (b : option BeaconState) : bool :=
  match b with
  | Some b' => bool_decide (is_Some (state b'))
  | None => false
  end.

(** [b.state] once the receiver is known to hold one. *)
Definition inner (b : option BeaconState) : outcome Inner.t :=
  b' ← deref b; deref (state b').

(** [b.Slot()] *)
Definition Slot (b : option BeaconState) : outcome Z :=
  if negb (HasInnerState b) then mret 0
  else st ← inner b; mret (Inner.Slot st).

(** [b.Fork()]: a copy of the fork record. *)
Definition Fork (b : option BeaconState) : outcome (option Fork.t) :=
  if negb (HasInnerState b) then mret None
  else
    st ← inner b;
    match Inner.Fork st with
    | None => mret None
    | Some f =>
        mret (Some (Fork.mk (Fork.PreviousVersion f) (Fork.CurrentVersion f)
                      (Fork.Epoch f)))
    end.

(** [params.BeaconConfig().ZeroHash] *)
Definition ZeroHash : bytes := replicate 32 Byte.x00.

(** [b.GenesisValidatorRoot()] *)
Definition GenesisValidatorRoot (b : option BeaconState)
  : outcome (option bytes) :=
  if negb (HasInnerState b) then mret None
  else
    st ← inner b;
    match Inner.GenesisValidatorsRoot st with
    | None => mret (Some ZeroHash)
    | Some r => mret (Some (copy_into_array 32 r))
    end.

(** [safeCopyCheckpoint]: a copy has the fields of its source. *)
Definition safeCopyCheckpoint (input : option Checkpoint.t)
  : option Checkpoint.t :=
  match input with
  | None => None
  | Some c => Some (Checkpoint.mk (Checkpoint.Epoch c) (Checkpoint.Root c))
  end.

(** [b.PreviousJustifiedCheckpoint()] *)
Definition PreviousJustifiedCheckpoint (b : option BeaconState)
  : outcome (option Checkpoint.t) :=
  if negb (HasInnerState b) then mret None
  else
    st ← inner b;
    match Inner.PreviousJustifiedCheckpoint st with
    | None => mret None
    | Some _ => mret (safeCopyCheckpoint (Inner.PreviousJustifiedCheckpoint st))
    end.

(** [b.CurrentJustifiedCheckpoint()] *)
Definition CurrentJustifiedCheckpoint (b : option BeaconState)
  : outcome (option Checkpoint.t) :=
  if negb (HasInnerState b) then mret None
  else
    st ← inner b;
    match Inner.CurrentJustifiedCheckpoint st with
    | None => mret None
    | Some _ => mret (safeCopyCheckpoint (Inner.CurrentJustifiedCheckpoint st))
    end.

(** [b.CurrentEpochParticipation()]: a fresh slice with the same bytes. *)
Definition CurrentEpochParticipation (b : option BeaconState)
  : outcome (option bytes) :=
  if negb (HasInnerState b) then mret None
  else
    st ← inner b;
    match Inner.CurrentEpochParticipation st with
    | None => mret None
    | Some p => mret (Some p)
    end.

(** [b.PreviousEpochParticipation()] *)
Definition PreviousEpochParticipation (b : option BeaconState)
  : outcome (option bytes) :=
  if negb (HasInnerState b) then mret None
  else
    st ← inner b;
    match Inner.PreviousEpochParticipation st with
    | None => mret None
    | Some p => mret (Some p)
    end.

Definition ValidatorAtIndex (b : option BeaconState) (idx : Z)
  : outcome (option Validator.t * option error) :=
  if negb (HasInnerState b) then mret (None, Some ErrNilInnerState)
  else
    st ← inner b;
    match Inner.Validators st with
    | None => mret (Some Validator.zero, None)
    | Some vs =>
        if len vs <=? idx then mret (None, Some (ErrIndexOutOfRange idx))
        else val ← index vs idx;
             c ← CopyValidator val;
             mret (c, None)
    end.

Definition ValidatorAtIndexReadOnly (b : option BeaconState) (idx : Z)
  : outcome (ReadOnlyValidator * option error) :=
  if negb (HasInnerState b)
  then mret (mkReadOnlyValidator None, Some ErrNilInnerState)
  else
    st ← inner b;
    match Inner.Validators st with
    | None => mret (mkReadOnlyValidator None, None)
    | Some vs =>
        if len vs <=? idx
        then mret (mkReadOnlyValidator None, Some (ErrIndexOutOfRange idx))
        else val ← index vs idx;
             mret (mkReadOnlyValidator val, None)
    end.

(** The result type is the bare 48-byte key: there is no error to return. *)
Definition PubkeyAtIndex (b : option BeaconState) (idx : Z) : outcome bytes :=
  if negb (HasInnerState b) then mret zero48
  else
    st ← inner b;
    if len_nilable (Inner.Validators st) <=? idx then mret zero48
    else
      val ← index_nilable (Inner.Validators st) idx;
      match val with
      | None => mret zero48
      | Some v => mret (ToBytes48 (Validator.PublicKey v))
      end.

Definition BalanceAtIndex (b : option BeaconState) (idx : Z)
  : outcome (Z * option error) :=
  if negb (HasInnerState b) then mret (0, Some ErrNilInnerState)
  else
    st ← inner b;
    match Inner.Balances st with
    | None => mret (0, None)
    | Some bs =>
        if len bs <=? idx then mret (0, Some (ErrIndexDoesNotExist idx))
        else bal ← index bs idx; mret (bal, None)
    end.

(** [NumValidators], the validator count the accessors are indexed by. *)
Definition NumValidators (b : option BeaconState) : outcome Z :=
  if negb (HasInnerState b) then mret 0
  else st ← inner b; mret (len_nilable (Inner.Validators st)).

End Accessors.

End State.

(** ** Facts about the accessors *)

Module StateFacts.
Import State.

(** On a nil record the guarded accessors return the zero value of their
    result type. *)
Lemma ReadOnly_guarded_nil :
  let v := mkReadOnlyValidator None in
  ReadOnly.EffectiveBalance v = Returns 0 /\
  ReadOnly.ActivationEligibilityEpoch v = Returns 0 /\
  ReadOnly.ActivationEpoch v = Returns 0 /\
  ReadOnly.ExitEpoch v = Returns 0 /\
  ReadOnly.WithdrawableEpoch v = Returns 0 /\
  ReadOnly.PublicKey v = Returns zero48 /\
  ReadOnly.Slashed v = Returns false /\
  (forall copy, ReadOnly_CopyValidator copy v = Returns None).
Proof. repeat split. Qed.

(** C10 (failing input).  [WithdrawalCredentials] is the one accessor of
    [ReadOnlyValidator] without the [IsNil] guard: on a view over a nil
    validator record it dereferences the nil pointer and panics, where its
    siblings return the zero value. *)
Theorem C10_WithdrawalCredentials_nil_panics :
  ReadOnly.WithdrawalCredentials (mkReadOnlyValidator None)
  = Panics NilDereference.
Proof. reflexivity. Qed.

(** On a non-nil record [WithdrawalCredentials] returns the credentials. *)
Lemma WithdrawalCredentials_some val :
  ReadOnly.WithdrawalCredentials (mkReadOnlyValidator (Some val))
  = Returns (Validator.WithdrawalCredentials val).
Proof. reflexivity. Qed.

Lemma inner_some b st :
  state b = Some st -> inner (Some b) = Returns st.
Proof. intros H. unfold inner. simpl. rewrite H. reflexivity. Qed.

Lemma HasInnerState_some b st :
  state b = Some st -> HasInnerState (Some b) = true.
Proof.
  intros H. unfold HasInnerState. rewrite H.
  apply bool_decide_eq_true. eauto.
Qed.

(** C9 (as amended).  On an initialised state whose validator and balance
    slices are not nil, an index at or beyond their lengths makes
    [ValidatorAtIndex] and [ValidatorAtIndexReadOnly] return the
    "index out of range" error and [BalanceAtIndex] the "does not exist"
    error, each with a nil or zero value; [PubkeyAtIndex] has no error
    result and returns the zero 48-byte key. *)
Theorem C9_index_beyond_count
    (CopyValidator : option Validator.t -> outcome (option Validator.t))
    (ToBytes48 : bytes -> bytes)
    (b : BeaconState) (st : Inner.t)
    (vs : list (option Validator.t)) (bs : list Z) (idx : Z) :
  state b = Some st ->
  Inner.Validators st = Some vs ->
  Inner.Balances st = Some bs ->
  len vs <= idx ->
  len bs <= idx ->
  ValidatorAtIndex CopyValidator (Some b) idx
    = Returns (None, Some (ErrIndexOutOfRange idx)) /\
  ValidatorAtIndexReadOnly (Some b) idx
    = Returns (mkReadOnlyValidator None, Some (ErrIndexOutOfRange idx)) /\
  BalanceAtIndex (Some b) idx
    = Returns (0, Some (ErrIndexDoesNotExist idx)) /\
  PubkeyAtIndex ToBytes48 (Some b) idx = Returns zero48.
Proof.
  intros Hst Hvs Hbs Hv Hb.
  unfold ValidatorAtIndex, ValidatorAtIndexReadOnly, BalanceAtIndex,
    PubkeyAtIndex.
  rewrite (HasInnerState_some _ _ Hst), (inner_some _ _ Hst). simpl.
  rewrite Hvs, Hbs. simpl.
  apply Z.leb_le in Hv as ->. apply Z.leb_le in Hb as ->.
  repeat split.
Qed.

(** A state with one validator and one balance. *)
Definition one_validator_state : BeaconState :=
  mkBeaconState
    (Some (Inner.with_Balances (Some [32000000000])
            (Inner.with_Validators
               (Some [Some (Validator.mk (replicate 48 Byte.x01) []
                              32000000000 false 0 0 0 0)])
               Inner.zero))).

Lemma C9_index_beyond_count_witness :
  ValidatorAtIndex Returns (Some one_validator_state) 1
    = Returns (None, Some (ErrIndexOutOfRange 1)) /\
  ValidatorAtIndexReadOnly (Some one_validator_state) 1
    = Returns (mkReadOnlyValidator None, Some (ErrIndexOutOfRange 1)) /\
  BalanceAtIndex (Some one_validator_state) 1
    = Returns (0, Some (ErrIndexDoesNotExist 1)) /\
  PubkeyAtIndex (copy_into_array 48) (Some one_validator_state) 1
    = Returns zero48.
Proof.
  eapply (C9_index_beyond_count Returns (copy_into_array 48)
            one_validator_state _ _ _ 1);
    [reflexivity | reflexivity | reflexivity | vm_compute; discriminate
    | vm_compute; discriminate].
Defined.

(** C9 (counterexample).  Index 1 is at the validator count of
    [one_validator_state], yet [PubkeyAtIndex] returns a key, not an
    error; and on an initialised state whose validator and balance slices
    are nil (count 0) [ValidatorAtIndex], [ValidatorAtIndexReadOnly] and
    [BalanceAtIndex] return a value with a nil error at index 5. *)
Lemma C9_counterexample :
  NumValidators (Some one_validator_state) = Returns 1 /\
  PubkeyAtIndex (copy_into_array 48) (Some one_validator_state) 1
    = Returns zero48 /\
  NumValidators (Some (mkBeaconState (Some Inner.zero))) = Returns 0 /\
  ValidatorAtIndex Returns (Some (mkBeaconState (Some Inner.zero))) 5
    = Returns (Some Validator.zero, None) /\
  ValidatorAtIndexReadOnly (Some (mkBeaconState (Some Inner.zero))) 5
    = Returns (mkReadOnlyValidator None, None) /\
  BalanceAtIndex (Some (mkBeaconState (Some Inner.zero))) 5
    = Returns (0, None).
Proof. repeat split. Qed.

End StateFacts.

(** * Package [blocks]: attestation processing *)

Module IndexedAttestation.
Record t : Type := mk {
  AttestingIndices : list Z;
  Data : option AttestationData.t;
  Signature : bytes
}.
End IndexedAttestation.

#[global] Instance byte_eq_decision : EqDecision Byte.byte := Byte.byte_eq_dec.

Module Blocks.

(** The fields of [params.BeaconConfig()] the transition reads. *)
Record BeaconChainConfig : Type := mkConfig {
  MinAttestationInclusionDelay : Z;
  SlotsPerEpoch : Z;
  TimelyHeadFlag : byte;
  TimelySourceFlag : byte;
  TimelyTargetFlag : byte;
  TimelyHeadNumerator : Z;
  TimelySourceNumerator : Z;
  TimelyTargetNumerator : Z;
  RewardDenominator : Z;
  ProposerRewardQuotient : Z;
  DomainBeaconAttester : bytes
}.

Inductive error : Type :=
| ErrTargetEpoch (target prev curr : Z)
| ErrSlotTargetEpoch (slotEpoch target : Z)
| ErrMinInclusion (s delay slot : Z)
| ErrEpochInclusion (slot s slotsPerEpoch : Z)
| ErrCommitteeIndex (idx count : Z)
| ErrBitfields (cause : error)
| ErrFfgTargetEpoch (ffg target : Z)
| ErrSourceMismatch
| ErrPublicKey (cause : error)
| ErrInvalidBalanceIndex (idx : Z)
| ErrState (e : State.error)
| ErrExternal (code : nat).  (* made by a helper outside the sources *)

(** The result of a Go call returning [(T, error)] that may also panic. *)
Inductive res (A : Type) : Type :=
| Ok (a : A)
| Fail (e : error)
| Crash (p : panic).
Arguments Ok {A} a.
Arguments Fail {A} e.
Arguments Crash {A} p.

(** The object behind the [*stateTrie.BeaconState] argument.  The calls
    below mutate it in place, so every step maps a store to a store. *)
Definition store : Type := option State.BeaconState.

Definition M (A : Type) : Type := store -> store * res A.

#[global] Instance M_ret : MRet M := fun _ a h => (h, Ok a).
#[global] Instance M_bind : MBind M := fun _ _ k m h =>
  match m h with
  | (h', Ok a) => k a h'
  | (h', Fail e) => (h', Fail e)
  | (h', Crash p) => (h', Crash p)
  end.

Definition fail {A} (e : error) : M A := fun h => (h, Fail e).

Definition of_outcome {A} (o : outcome A) : res A :=
  match o with
  | Returns a => Ok a
  | Panics p => Crash p
  end.

(** A call that does not touch the state. *)
Definition call {A} (o : outcome A) : M A := fun h => (h, of_outcome o).

(** A method of the container that only reads it. *)
Definition read {A} (f : store -> outcome A) : M A :=
  fun h => (h, of_outcome (f h)).

(** A helper reading the state and returning [(T, error)]. *)
Definition query {A} (f : store -> res A) : M A := fun h => (h, f h).

(** [if err := f(); err != nil { return nil, err }] *)
Definition check (e : option error) : M unit :=
  match e with
  | Some e' => fail e'
  | None => mret tt
  end.

(** [a / b] on [uint64]. *)
Definition div64 (a b : Z) : outcome Z :=
  if b =? 0 then Panics DivideByZero else Returns (a / b).

(** Outcome of the timeliness computation: Go's [map[uint8]bool], absent
    keys reading as [false]. *)
Abbreviation flagmap := (Byte.byte -> bool) (only parsing).
Definition no_flags : flagmap := fun _ => false.

(** What the checks of lines 134-224 leave in local variables. *)
Record checked : Type := mkChecked {
  c_data : AttestationData.t;
  c_target : Checkpoint.t;
  c_currEpoch : Z;
  c_committee : list Z;
  c_epochParticipation : option bytes;
  c_matchingSource : bool;
  c_matchingTarget : bool;
  c_matchingHead : bool
}.

(** Helpers of packages [helpers], [attestationutil], [epoch] and [bls],
    whose files are outside the sources at hand.  Each reads the state,
    if at all, and returns a value or an error. *)
Class Helpers : Type := mkHelpers {
  PublicKey : Type;
  ValidateNilAttestation : option Attestation.t -> option error;
  ActiveValidatorCount : store -> Z -> res Z;
  SlotCommitteeCount : Z -> Z;
  VerifyAttestationBitfieldLengths :
  store -> option Attestation.t -> option error;
  BeaconCommitteeFromState : store -> Z -> Z -> res (list Z);
  ConvertToIndexed :
  option Attestation.t -> list Z -> res (option IndexedAttestation.t);
  IsValidAttestationIndices :
  option IndexedAttestation.t -> option error;
  CheckPointIsEqual :
  option Checkpoint.t -> option Checkpoint.t -> bool;
  BlockRoot : store -> Z -> res bytes;
  BlockRootAtSlot : store -> Z -> res bytes;
  AttestingIndices : bytes -> list Z -> res (list Z);
  BaseReward : store -> Z -> res Z;
  HasValidatorFlag : Byte.byte -> Byte.byte -> bool;
  AddValidatorFlag : Byte.byte -> Byte.byte -> Byte.byte;
  BeaconProposerIndex : store -> res Z;
  Domain : option Fork.t -> Z -> bytes -> option bytes -> res bytes;
  PublicKeyFromBytes : bytes -> res PublicKey;
  VerifyIndexedAttestationSig :
  option IndexedAttestation.t -> list PublicKey -> bytes -> option error;
  ToBytes48 : bytes -> bytes
}.

Section Transition.

Variable cfg : BeaconChainConfig.
Context {helpers : Helpers}.

(** Modelled from the spec: [helpers.SlotToEpoch], the epoch containing a
    slot (glossary: an epoch is a fixed-length span of consecutive slots);
    the division panics on a zero divisor. *)
Definition SlotToEpoch (slot : Z) : outcome Z :=
  div64 slot (SlotsPerEpoch cfg).

(** Modelled from the spec: [helpers.CurrentEpoch], the epoch of the
    state's slot (4.3 step 1). *)
Definition CurrentEpoch (h : store) : outcome Z :=
  slot ← State.Slot h; SlotToEpoch slot.

(** Modelled from the spec: [helpers.PrevEpoch], the epoch before the
    current one, the genesis epoch being its own predecessor
    ([get_previous_epoch] of the pseudocode above [ProcessAttestation]). *)
Definition PrevEpoch (h : store) : outcome Z :=
  curr ← CurrentEpoch h;
  mret (if curr =? 0 then 0 else curr - 1).

(** Modelled from the spec: [helpers.ValidateSlotTargetEpoch], "target
    epoch must equal the epoch containing the attested slot" (4.3 step 2). *)
Definition ValidateSlotTargetEpoch (data : option AttestationData.t)
  : outcome (option error) :=
  d ← deref data;
  t ← deref (AttestationData.Target d);
  e ← SlotToEpoch (AttestationData.Slot d);
  mret (if bool_decide (e = Checkpoint.Epoch t) then None
        else Some (ErrSlotTargetEpoch e (Checkpoint.Epoch t))).

(** Modelled from the spec: [mathutil.IntegerSquareRoot],
    floor(sqrt(n)) (4.3 step 9). *)
Definition IntegerSquareRoot (n : Z) : Z := Z.sqrt n.

(** [types.Slot.Add] of the [eth2-types] dependency: the sum, with a
    panic when it does not fit 64 bits. *)
Definition Slot_Add (s x : Z) : outcome Z :=
  if s + x <? uint64_limit then Returns (s + x) else Panics SlotOverflow.

(** Modelled from the spec: the setters of the two participation arrays
    (4.1: a setter swaps the field's backing storage; before
    initialisation it fails). *)
Definition SetCurrentParticipationBits (val : option bytes) : M unit :=
  fun h =>
    match h with
    | Some (State.mkBeaconState (Some st)) =>
        (Some (State.mkBeaconState
                 (Some (State.Inner.with_CurrentEpochParticipation val st))),
         Ok tt)
    | _ => (h, Fail (ErrState State.ErrNilInnerState))
    end.

Definition SetPreviousParticipationBits (val : option bytes) : M unit :=
  fun h =>
    match h with
    | Some (State.mkBeaconState (Some st)) =>
        (Some (State.mkBeaconState
                 (Some (State.Inner.with_PreviousEpochParticipation val st))),
         Ok tt)
    | _ => (h, Fail (ErrState State.ErrNilInnerState))
    end.

(** Modelled from the spec: [UpdateBalancesAtIndex], the setter of one
    balance; it fails on an index outside the balance list. *)
Definition UpdateBalancesAtIndex (idx val : Z) : M unit :=
  fun h =>
    match h with
    | Some (State.mkBeaconState (Some st)) =>
        if len_nilable (State.Inner.Balances st) <=? idx
        then (h, Fail (ErrInvalidBalanceIndex idx))
        else
          (Some (State.mkBeaconState
                   (Some (State.Inner.with_Balances
                            (option_map (fun bs => <[Z.to_nat idx := val]> bs)
                               (State.Inner.Balances st)) st))),
           Ok tt)
    | _ => (h, Fail (ErrState State.ErrNilInnerState))
    end.

(** Modelled from the spec: [helpers.IncreaseBalance], "credit the result
    to the ... balance" (4.3 step 11): read the balance through
    [BalanceAtIndex], store the [uint64] sum. *)
Definition IncreaseBalance (idx delta : Z) : M unit :=
  r ← read (fun h => State.BalanceAtIndex h idx);
  match r with
  | (_, Some e) => fail (ErrState e)
  | (balAtIdx, None) => UpdateBalancesAtIndex idx (wrap64 (balAtIdx + delta))
  end.

(** Lines 152-170: the two inclusion-delay comparisons, on [uint64] sums. *)
Definition inclusionDelayChecks (s : Z) : M unit :=
  slot ← read State.Slot;
  let minInclusionCheck :=
    wrap64 (s + MinAttestationInclusionDelay cfg) <=? slot in
  if negb minInclusionCheck
  then fail (ErrMinInclusion s (MinAttestationInclusionDelay cfg) slot)
  else
    slot ← read State.Slot;
    let epochInclusionCheck := slot <=? wrap64 (s + SlotsPerEpoch cfg) in
    if negb epochInclusionCheck
    then fail (ErrEpochInclusion slot s (SlotsPerEpoch cfg))
    else mret tt.

(** Lines 196-207: the justified checkpoint, FFG target epoch and
    participation array of the attestation's target epoch. *)
Definition selectEpoch (targetEpoch currEpoch prevEpoch : Z)
  : M (option Checkpoint.t * Z * option bytes) :=
  if bool_decide (targetEpoch = currEpoch)
  then
    j ← read State.CurrentJustifiedCheckpoint;
    p ← read State.CurrentEpochParticipation;
    mret (j, currEpoch, p)
  else
    j ← read State.PreviousJustifiedCheckpoint;
    p ← read State.PreviousEpochParticipation;
    mret (j, prevEpoch, p).

(** Lines 134-224: every check that precedes the flag computation. *)
Definition attestationChecks (att : option Attestation.t) : M checked :=
  _ ← check (ValidateNilAttestation att);
  currEpoch ← read CurrentEpoch;
  prevEpoch ← read PrevEpoch;
  a ← call (deref att);
  data ← call (deref (Attestation.Data a));
  target ← call (deref (AttestationData.Target data));
  if negb (bool_decide (Checkpoint.Epoch target = prevEpoch))
     && negb (bool_decide (Checkpoint.Epoch target = currEpoch))
  then fail (ErrTargetEpoch (Checkpoint.Epoch target) prevEpoch currEpoch)
  else
    e ← call (ValidateSlotTargetEpoch (Attestation.Data a));
    _ ← check e;
    let s := AttestationData.Slot data in
    _ ← inclusionDelayChecks s;
    activeValidatorCount ←
      query (fun h => ActiveValidatorCount h (Checkpoint.Epoch target));
    let c := SlotCommitteeCount activeValidatorCount in
    if c <=? AttestationData.CommitteeIndex data
    then fail (ErrCommitteeIndex (AttestationData.CommitteeIndex data) c)
    else
      _ ← query (fun h =>
             match VerifyAttestationBitfieldLengths h att with
             | Some e' => Fail (ErrBitfields e')
             | None => Ok tt
             end);
      committee ←
        query (fun h => BeaconCommitteeFromState h s
                          (AttestationData.CommitteeIndex data));
      indexedAtt ← query (fun _ => ConvertToIndexed att committee);
      _ ← check (IsValidAttestationIndices indexedAtt);
      sel ← selectEpoch (Checkpoint.Epoch target) currEpoch prevEpoch;
      let '(justifiedCheckpt, ffgTargetEpoch, epochParticipation) := sel in
      if negb (bool_decide (Checkpoint.Epoch target = ffgTargetEpoch))
      then fail (ErrFfgTargetEpoch ffgTargetEpoch (Checkpoint.Epoch target))
      else
        let matchingSource :=
          CheckPointIsEqual (AttestationData.Source data) justifiedCheckpt in
        if negb matchingSource then fail ErrSourceMismatch
        else
          r ← query (fun h => BlockRoot h (Checkpoint.Epoch target));
          let matchingTarget := bool_decide (r = Checkpoint.Root target) in
          r ← query (fun h => BlockRootAtSlot h (AttestationData.Slot data));
          let matchingHead :=
            bool_decide (r = AttestationData.BeaconBlockRoot data) in
          mret (mkChecked data target currEpoch committee epochParticipation
                  matchingSource matchingTarget matchingHead).

(** Lines 227-239: the timeliness flags. *)
Definition participationFlags (c : checked) : M flagmap :=
  let data := c_data c in
  let participatedFlags := no_flags in
  let headFlag := TimelyHeadFlag cfg in
  let sourceFlag := TimelySourceFlag cfg in
  let targetFlag := TimelyTargetFlag cfg in
  participatedFlags ←
    (if c_matchingHead c && c_matchingTarget c
     then slot ← read State.Slot;
          mret (if slot <=? wrap64 (AttestationData.Slot data
                                     + MinAttestationInclusionDelay cfg)
                then <[headFlag := true]> participatedFlags
                else participatedFlags)
     else mret participatedFlags);
  participatedFlags ←
    (if c_matchingSource c
     then slot ← read State.Slot;
          lim ← call (Slot_Add (AttestationData.Slot data)
                        (IntegerSquareRoot (SlotsPerEpoch cfg)));
          mret (if slot <=? lim
                then <[sourceFlag := true]> participatedFlags
                else participatedFlags)
     else mret participatedFlags);
  participatedFlags ←
    (if c_matchingTarget c
     then slot ← read State.Slot;
          mret (if slot <=? wrap64 (AttestationData.Slot data
                                     + SlotsPerEpoch cfg)
                then <[targetFlag := true]> participatedFlags
                else participatedFlags)
     else mret participatedFlags);
  mret participatedFlags.

(** One of the three [if] statements of the loop body (lines 250-261), on
    the local participation slice and the running numerator. *)
Definition applyFlag (participatedFlags : flagmap) (flag : Byte.byte)
    (numerator index br : Z) (acc : option bytes * Z)
  : outcome (option bytes * Z) :=
  let '(epochParticipation, proposerRewardNumerator) := acc in
  if participatedFlags flag
  then
    cur ← State.index_nilable epochParticipation index;
    if negb (HasValidatorFlag cur flag)
    then mret (option_map
                 (fun l => <[Z.to_nat index := AddValidatorFlag cur flag]> l)
                 epochParticipation,
               wrap64 (proposerRewardNumerator + wrap64 (br * numerator)))
    else mret acc
  else mret acc.

(** Lines 245-262: the loop over the attesting indices. *)
Fixpoint attestingLoop (participatedFlags : flagmap) (indices : list Z)
    (acc : option bytes * Z) : M (option bytes * Z) :=
  match indices with
  | [] => mret acc
  | index :: rest =>
      br ← query (fun h => BaseReward h index);
      acc ← call (applyFlag participatedFlags (TimelyHeadFlag cfg)
                    (TimelyHeadNumerator cfg) index br acc);
      acc ← call (applyFlag participatedFlags (TimelySourceFlag cfg)
                    (TimelySourceNumerator cfg) index br acc);
      acc ← call (applyFlag participatedFlags (TimelyTargetFlag cfg)
                    (TimelyTargetNumerator cfg) index br acc);
      attestingLoop participatedFlags rest acc
  end.

(** Lines 264-280: write-back of the participation slice and the
    proposer reward. *)
Definition storeAndReward (c : checked) (epochParticipation : option bytes)
    (proposerRewardNumerator : Z) : M unit :=
  _ ← (if bool_decide (Checkpoint.Epoch (c_target c) = c_currEpoch c)
       then SetCurrentParticipationBits epochParticipation
       else SetPreviousParticipationBits epochParticipation);
  proposerReward ←
    call (div64 proposerRewardNumerator
            (wrap64 (RewardDenominator cfg * ProposerRewardQuotient cfg)));
  i ← query BeaconProposerIndex;
  IncreaseBalance i proposerReward.

(** [ProcessAttestationNoVerifySignature].  The Go function returns the
    state pointer it was given, or nil with the error; the store is the
    object behind that pointer after the call. *)
Definition ProcessAttestationNoVerifySignature (att : option Attestation.t)
  : M unit :=
  c ← attestationChecks att;
  participatedFlags ← participationFlags c;
  a ← call (deref att);
  indices ←
    query (fun _ => AttestingIndices (Attestation.AggregationBits a)
                      (c_committee c));
  acc ← attestingLoop participatedFlags indices (c_epochParticipation c, 0);
  storeAndReward c acc.1 acc.2.

(** Lines 330-337: the public keys of the attesting indices. *)
Fixpoint collectPubkeys (indices : list Z) (pubkeys : list PublicKey)
  : M (list PublicKey) :=
  match indices with
  | [] => mret pubkeys
  | i :: rest =>
      pubkeyAtIdx ← read (fun h => State.PubkeyAtIndex ToBytes48 h i);
      pk ← query (fun _ =>
             match PublicKeyFromBytes pubkeyAtIdx with
             | Fail e => Fail (ErrPublicKey e)
             | r => r
             end);
      collectPubkeys rest (pubkeys ++ [pk])
  end.

(** [VerifyIndexedAttestation] *)
Definition VerifyIndexedAttestation
    (indexedAtt : option IndexedAttestation.t) : M unit :=
  _ ← check (IsValidAttestationIndices indexedAtt);
  ia ← call (deref indexedAtt);
  d ← call (deref (IndexedAttestation.Data ia));
  t ← call (deref (AttestationData.Target d));
  fork ← read State.Fork;
  root ← read State.GenesisValidatorRoot;
  domain ← query (fun _ => Domain fork (Checkpoint.Epoch t)
                             (DomainBeaconAttester cfg) root);
  pubkeys ← collectPubkeys (IndexedAttestation.AttestingIndices ia) [];
  check (VerifyIndexedAttestationSig indexedAtt pubkeys domain).

(** [VerifyAttestationSignature] *)
Definition VerifyAttestationSignature (att : option Attestation.t) : M unit :=
  _ ← check (ValidateNilAttestation att);
  a ← call (deref att);
  d ← call (deref (Attestation.Data a));
  committee ←
    query (fun h => BeaconCommitteeFromState h (AttestationData.Slot d)
                      (AttestationData.CommitteeIndex d));
  indexedAtt ← query (fun _ => ConvertToIndexed att committee);
  VerifyIndexedAttestation indexedAtt.

(** [ProcessAttestation]: the signature is verified on the state that
    [ProcessAttestationNoVerifySignature] has already updated. *)
Definition ProcessAttestation (att : option Attestation.t) : M unit :=
  _ ← ProcessAttestationNoVerifySignature att;
  VerifyAttestationSignature att.

End Transition.

End Blocks.

(** ** A concrete configuration and concrete helpers

    Used to run the transition on explicit inputs. *)

Module Example.
Import Blocks.

(** [uint8] bit operations on bytes. *)
Definition byte_of_N (n : N) : Byte.byte :=
  default Byte.x00 (Byte.of_N (n mod 256)%N).

Definition has_flag (flags flag : Byte.byte) : bool :=
  N.eqb (N.land (Byte.to_N flags) (Byte.to_N flag)) (Byte.to_N flag).

Definition add_flag (flags flag : Byte.byte) : Byte.byte :=
  byte_of_N (N.lor (Byte.to_N flags) (Byte.to_N flag)).

(** The slot, flag and reward constants of the main network. *)
Definition config : BeaconChainConfig :=
  mkConfig 1 32 Byte.x01 Byte.x02 Byte.x04 12 12 24 64 8
    [Byte.x01; Byte.x00; Byte.x00; Byte.x00].

Definition root_a : bytes := replicate 32 Byte.xaa.
Definition good_signature : bytes := replicate 96 Byte.x01.
Definition bad_signature : bytes := replicate 96 Byte.x00.

Definition checkpoint_eq (a b : option Checkpoint.t) : bool :=
  match a, b with
  | Some x, Some y =>
      bool_decide (Checkpoint.Epoch x = Checkpoint.Epoch y)
      && bool_decide (Checkpoint.Root x = Checkpoint.Root y)
  | _, _ => false
  end.

Definition validate_nil (att : option Attestation.t) : option error :=
  match att with
  | Some (Attestation.mk _ (Some (AttestationData.mk _ _ _ (Some _) (Some _))) _) =>
      None
  | _ => Some (ErrExternal 1)
  end.

(** A four-member committee at every slot, every member attesting; the
    proposer has index 0; a signature is valid when it is
    [good_signature]. *)
#[global] Instance helpers : Helpers := {|
  PublicKey := bytes;
  ValidateNilAttestation := validate_nil;
  ActiveValidatorCount := fun h _ =>
    match State.NumValidators h with
    | Returns n => Ok n
    | Panics p => Crash p
    end;
  SlotCommitteeCount := fun _ => 1;
  VerifyAttestationBitfieldLengths := fun _ _ => None;
  BeaconCommitteeFromState := fun _ _ _ => Ok [0; 1; 2; 3];
  ConvertToIndexed := fun att committee =>
    match att with
    | Some a =>
        Ok (Some (IndexedAttestation.mk committee (Attestation.Data a)
                    (Attestation.Signature a)))
    | None => Crash NilDereference
    end;
  IsValidAttestationIndices := fun _ => None;
  CheckPointIsEqual := checkpoint_eq;
  BlockRoot := fun _ _ => Ok root_a;
  BlockRootAtSlot := fun _ _ => Ok root_a;
  AttestingIndices := fun _ committee => Ok committee;
  BaseReward := fun _ _ => Ok 64000;
  HasValidatorFlag := has_flag;
  AddValidatorFlag := add_flag;
  BeaconProposerIndex := fun _ => Ok 0;
  Domain := fun _ _ _ _ => Ok (replicate 32 Byte.x07);
  PublicKeyFromBytes := fun b => Ok b;
  VerifyIndexedAttestationSig := fun ia _ _ =>
    match ia with
    | Some i =>
        if bool_decide (IndexedAttestation.Signature i = good_signature)
        then None else Some (ErrExternal 2)
    | None => Some (ErrExternal 3)
    end;
  ToBytes48 := copy_into_array 48
|}.

(** The same helpers, with a proposer-index lookup that fails. *)
Definition helpers_no_proposer : Helpers :=
  mkHelpers bytes validate_nil (@ActiveValidatorCount helpers)
    (fun _ => 1) (fun _ _ => None) (fun _ _ _ => Ok [0; 1; 2; 3])
    (@ConvertToIndexed helpers) (fun _ => None) checkpoint_eq
    (fun _ _ => Ok root_a) (fun _ _ => Ok root_a)
    (fun _ committee => Ok committee) (fun _ _ => Ok 64000)
    has_flag add_flag (fun _ => Fail (ErrExternal 4))
    (fun _ _ _ _ => Ok (replicate 32 Byte.x07)) (fun b => Ok b)
    (@VerifyIndexedAttestationSig helpers) (copy_into_array 48).

Definition validator (n : Byte.byte) : option Validator.t :=
  Some (Validator.mk (replicate 48 n) (replicate 32 Byte.x00)
          32000000000 false 0 0 0 18446744073709551615).

Definition checkpoint0 : Checkpoint.t := Checkpoint.mk 0 root_a.

(** A state at the given slot with four validators, no flag recorded. *)
Definition state_at (slot : Z) : store :=
  Some (State.mkBeaconState (Some
    (State.Inner.mk 0 (Some (replicate 32 Byte.x00)) slot
       (Some (Fork.mk (replicate 4 Byte.x00) (replicate 4 Byte.x00) 0))
       None None None None None None 0
       (Some [validator Byte.x01; validator Byte.x02; validator Byte.x03;
              validator Byte.x04])
       (Some [32000000000; 32000000000; 32000000000; 32000000000])
       None None
       (Some (replicate 4 Byte.x00)) (Some (replicate 4 Byte.x00))
       (Some [Byte.x00])
       (Some checkpoint0) (Some checkpoint0) (Some checkpoint0) None None))).

(** An attestation for the given slot and target epoch by the whole
    committee, with matching source, target and head roots. *)
Definition attestation (slot targetEpoch : Z) (sig : bytes)
  : option Attestation.t :=
  Some (Attestation.mk [Byte.x1f]
          (Some (AttestationData.mk slot 0 root_a
                   (Some checkpoint0)
                   (Some (Checkpoint.mk targetEpoch root_a))))
          sig).

End Example.

(** ** Facts about attestation processing *)

Module BlocksFacts.
Import Blocks.

(** *** Stepping through the state-and-error monad *)

Lemma bind_ok_inv {A B} (m : M A) (k : A -> M B) h h' b :
  (m ≫= k) h = (h', Ok b) ->
  exists a h1, m h = (h1, Ok a) /\ k a h1 = (h', Ok b).
Proof.
  unfold mbind, M_bind. destruct (m h) as [h1 [a|e|p]]; intros H;
    [eauto | discriminate | discriminate].
Qed.

Lemma bind_ok {A B} (m : M A) (k : A -> M B) h h1 a :
  m h = (h1, Ok a) -> (m ≫= k) h = k a h1.
Proof. intros H. unfold mbind, M_bind. rewrite H. reflexivity. Qed.

Lemma bind_not_ok {A B} (m : M A) (k : A -> M B) h h1 :
  (forall a, (m h).2 <> Ok a) -> m h = (h1, (m h).2) ->
  (m ≫= k) h = (h1, match (m h).2 with
                     | Ok _ => Crash NilDereference
                     | Fail e => Fail e
                     | Crash p => Crash p
                     end).
Proof.
  intros Hn Hm. unfold mbind, M_bind. destruct (m h) as [h2 [a|e|p]];
    simpl in *; [exfalso; eapply Hn; reflexivity | congruence | congruence].
Qed.

Lemma read_ok_inv {A} (f : store -> outcome A) h h' a :
  read f h = (h', Ok a) -> h' = h /\ f h = Returns a.
Proof.
  unfold read, of_outcome. destruct (f h); intros H; inversion H; auto.
Qed.

Lemma call_ok_inv {A} (o : outcome A) h h' a :
  call o h = (h', Ok a) -> h' = h /\ o = Returns a.
Proof.
  unfold call, of_outcome. destruct o; intros H; inversion H; auto.
Qed.

Lemma query_ok_inv {A} (f : store -> res A) h h' a :
  query f h = (h', Ok a) -> h' = h /\ f h = Ok a.
Proof. unfold query. intros H; inversion H; auto. Qed.

Lemma check_ok_inv e h h' u :
  check e h = (h', Ok u) -> h' = h /\ e = None.
Proof.
  unfold check, fail. destruct e; intros H; inversion H; auto.
Qed.

Lemma fail_not_ok {A} e h h' (a : A) : fail e h = (h', Ok a) -> False.
Proof. unfold fail. intros H; inversion H. Qed.

Lemma mret_ok_inv {A} (x : A) h h' a :
  (mret x : M A) h = (h', Ok a) -> h' = h /\ a = x.
Proof. unfold mret, M_ret. intros H; inversion H; auto. Qed.

(** The steps that only read leave the store as it was, whatever they
    return. *)
Lemma read_store {A} (f : store -> outcome A) h : (read f h).1 = h.
Proof. reflexivity. Qed.

Lemma call_store {A} (o : outcome A) h : (call o h).1 = h.
Proof. reflexivity. Qed.

Lemma query_store {A} (f : store -> res A) h : (query f h).1 = h.
Proof. reflexivity. Qed.

Lemma check_store e h : (check e h).1 = h.
Proof. destruct e; reflexivity. Qed.

Lemma fail_store {A} e h : (@fail A e h).1 = h.
Proof. reflexivity. Qed.

(** A computation is read-only when it returns the store it was given. *)
Definition readonly {A} (m : M A) : Prop := forall h, (m h).1 = h.

Lemma readonly_bind {A B} (m : M A) (k : A -> M B) :
  readonly m -> (forall a, readonly (k a)) -> readonly (m ≫= k).
Proof.
  intros Hm Hk h. unfold mbind, M_bind.
  specialize (Hm h). destruct (m h) as [h1 [a|e|p]]; simpl in *; subst;
    [apply Hk | reflexivity | reflexivity].
Qed.

Lemma readonly_ret {A} (a : A) : readonly (mret a : M A).
Proof. intros h. reflexivity. Qed.

Lemma readonly_read {A} (f : store -> outcome A) : readonly (read f).
Proof. intros h. reflexivity. Qed.

Lemma readonly_call {A} (o : outcome A) : readonly (call o).
Proof. intros h. reflexivity. Qed.

Lemma readonly_query {A} (f : store -> res A) : readonly (query f).
Proof. intros h. reflexivity. Qed.

Lemma readonly_check e : readonly (check e).
Proof. intros h. apply check_store. Qed.

Lemma readonly_fail {A} e : readonly (@fail A e).
Proof. intros h. reflexivity. Qed.

Lemma readonly_if {A} (b : bool) (m1 m2 : M A) :
  readonly m1 -> readonly m2 -> readonly (if b then m1 else m2).
Proof. destruct b; auto. Qed.

Create HintDb readonly.
#[export] Hint Resolve readonly_ret readonly_read readonly_call
  readonly_query readonly_check readonly_fail : readonly.

Ltac readonly_tac :=
  repeat first
    [ progress eauto with readonly
    | apply readonly_bind; [ | intros ? ]
    | apply readonly_if
    | match goal with
      | |- readonly (let '(_, _) := ?x in _) => destruct x
      | |- readonly (match ?x with _ => _ end) => destruct x
      end ].

(** *** The inclusion-delay window (lines 152-170) *)

Lemma wrap64_small z : 0 <= z < uint64_limit -> wrap64 z = z.
Proof. intros H. unfold wrap64. apply Z.mod_small. exact H. Qed.

Lemma inclusionDelayChecks_readonly cfg s : readonly (inclusionDelayChecks cfg s).
Proof. unfold inclusionDelayChecks. readonly_tac. Qed.

(** The check in terms of the two [uint64] sums it compares. *)
Lemma inclusionDelayChecks_spec cfg s h slot :
  State.Slot h = Returns slot ->
  inclusionDelayChecks cfg s h =
    (h, if wrap64 (s + MinAttestationInclusionDelay cfg) <=? slot
        then if slot <=? wrap64 (s + SlotsPerEpoch cfg)
             then Ok tt
             else Fail (ErrEpochInclusion slot s (SlotsPerEpoch cfg))
        else Fail (ErrMinInclusion s (MinAttestationInclusionDelay cfg) slot)).
Proof.
  intros Hs. unfold inclusionDelayChecks.
  rewrite (bind_ok _ _ h h slot) by (unfold read; rewrite Hs; reflexivity).
  destruct (wrap64 (s + MinAttestationInclusionDelay cfg) <=? slot); simpl;
    [ | reflexivity ].
  rewrite (bind_ok _ _ h h slot) by (unfold read; rewrite Hs; reflexivity).
  destruct (slot <=? wrap64 (s + SlotsPerEpoch cfg)); reflexivity.
Qed.

(** C4 (as amended).  When neither [attestation.slot +
    MIN_ATTESTATION_INCLUSION_DELAY] nor [attestation.slot +
    SLOTS_PER_EPOCH] exceeds 64 bits, the window check rejects exactly
    when [attestation.slot + MIN_ATTESTATION_INCLUSION_DELAY > state.slot]
    or [state.slot > attestation.slot + SLOTS_PER_EPOCH]; both bounds are
    inclusive: with the delay at most an epoch, [state.slot ==
    attestation.slot + SLOTS_PER_EPOCH] passes.  The check never changes
    the state. *)
Theorem C4_inclusion_window cfg (h : store) (s slot : Z) :
  State.Slot h = Returns slot ->
  0 <= s ->
  0 <= MinAttestationInclusionDelay cfg ->
  0 <= SlotsPerEpoch cfg ->
  s + MinAttestationInclusionDelay cfg < uint64_limit ->
  s + SlotsPerEpoch cfg < uint64_limit ->
  ((exists e, inclusionDelayChecks cfg s h = (h, Fail e)) <->
     (s + MinAttestationInclusionDelay cfg > slot
      \/ slot > s + SlotsPerEpoch cfg)) /\
  (inclusionDelayChecks cfg s h = (h, Ok tt) <->
     s + MinAttestationInclusionDelay cfg <= slot <= s + SlotsPerEpoch cfg) /\
  (MinAttestationInclusionDelay cfg <= SlotsPerEpoch cfg ->
   slot = s + SlotsPerEpoch cfg ->
   inclusionDelayChecks cfg s h = (h, Ok tt)) /\
  (s + MinAttestationInclusionDelay cfg > slot ->
   inclusionDelayChecks cfg s h
   = (h, Fail (ErrMinInclusion s (MinAttestationInclusionDelay cfg) slot))).
Proof.
  intros Hs H0 HD HE HsD HsE.
  rewrite (inclusionDelayChecks_spec cfg s h slot Hs).
  rewrite !wrap64_small by lia.
  destruct (Z.leb_spec (s + MinAttestationInclusionDelay cfg) slot) as [H1|H1];
    [destruct (Z.leb_spec slot (s + SlotsPerEpoch cfg)) as [H2|H2] | ];
    repeat split; intros;
    repeat match goal with
      | H : exists _, _ |- _ => destruct H
      | H : (_, _) = (_, _) |- _ => inversion H; clear H
      | H : _ \/ _ |- _ => destruct H
      end;
    try lia; try reflexivity; try discriminate;
    try (eexists; reflexivity); try (left; lia); try (right; lia).
Qed.

Lemma C4_inclusion_window_witness :
  ((exists e, inclusionDelayChecks Example.config 68 (Example.state_at 100)
              = (Example.state_at 100, Fail e)) <->
     (68 + MinAttestationInclusionDelay Example.config > 100
      \/ 100 > 68 + SlotsPerEpoch Example.config)) /\
  (inclusionDelayChecks Example.config 68 (Example.state_at 100)
   = (Example.state_at 100, Ok tt) <->
     68 + MinAttestationInclusionDelay Example.config <= 100
       <= 68 + SlotsPerEpoch Example.config) /\
  (MinAttestationInclusionDelay Example.config
     <= SlotsPerEpoch Example.config ->
   100 = 68 + SlotsPerEpoch Example.config ->
   inclusionDelayChecks Example.config 68 (Example.state_at 100)
   = (Example.state_at 100, Ok tt)) /\
  (68 + MinAttestationInclusionDelay Example.config > 100 ->
   inclusionDelayChecks Example.config 68 (Example.state_at 100)
   = (Example.state_at 100,
      Fail (ErrMinInclusion 68
              (MinAttestationInclusionDelay Example.config) 100))).
Proof.
  apply (C4_inclusion_window Example.config (Example.state_at 100) 68 100);
    [ reflexivity | lia | simpl; lia | simpl; lia
    | vm_compute; reflexivity | vm_compute; reflexivity ].
Defined.

(** C4 (counterexample).  With the main-network constants, attestation
    slot [2^64 - 32] and state slot [2^64 - 31] lie inside the window
    ([slot + 1 <= state.slot <= slot + 32]), yet the check rejects: the
    sum [slot + 32] wraps to 0 in [uint64].  The target epoch
    [2^59 - 1] is the state's current epoch and the epoch of the attested
    slot, so the attestation reaches the check and is rejected by it. *)
Lemma C4_counterexample :
  ~ (18446744073709551584 + MinAttestationInclusionDelay Example.config
       > 18446744073709551585
     \/ 18446744073709551585
          > 18446744073709551584 + SlotsPerEpoch Example.config) /\
  inclusionDelayChecks Example.config 18446744073709551584
    (Example.state_at 18446744073709551585)
  = (Example.state_at 18446744073709551585,
     Fail (ErrEpochInclusion 18446744073709551585 18446744073709551584 32)) /\
  ProcessAttestationNoVerifySignature Example.config
    (Example.attestation 18446744073709551584 576460752303423487
       Example.good_signature)
    (Example.state_at 18446744073709551585)
  = (Example.state_at 18446744073709551585,
     Fail (ErrEpochInclusion 18446744073709551585 18446744073709551584 32)).
Proof.
  split; [ simpl; lia | split; vm_compute; reflexivity ].
Qed.

(** *** What the checks of lines 134-224 establish *)

Ltac inv_bind H :=
  let a := fresh "v" in
  let h1 := fresh "h" in
  let H1 := fresh "E" in
  apply bind_ok_inv in H; destruct H as (a & h1 & H1 & H).

Ltac inv_prim H :=
  first
    [ apply read_ok_inv in H; destruct H as [-> H]
    | apply call_ok_inv in H; destruct H as [-> H]
    | apply query_ok_inv in H; destruct H as [-> H]
    | apply check_ok_inv in H; destruct H as [-> H]
    | apply mret_ok_inv in H; destruct H as [-> H] ].

Lemma Slot_returns (h : store) : exists slot, State.Slot h = Returns slot.
Proof.
  unfold State.Slot. destruct h as [[[st|]]|]; simpl; eauto.
Qed.

Lemma div64_inv a b q :
  div64 a b = Returns q -> b <> 0 /\ q = a / b.
Proof.
  unfold div64. destruct (Z.eqb_spec b 0); intros H; inversion H; auto.
Qed.

Lemma CurrentEpoch_inv cfg h e :
  CurrentEpoch cfg h = Returns e ->
  exists slot, State.Slot h = Returns slot /\ SlotsPerEpoch cfg <> 0
               /\ e = slot / SlotsPerEpoch cfg.
Proof.
  unfold CurrentEpoch. destruct (Slot_returns h) as [slot Hs]. rewrite Hs.
  simpl. unfold SlotToEpoch. intros H. apply div64_inv in H. eauto.
Qed.

Lemma PrevEpoch_inv cfg h e :
  PrevEpoch cfg h = Returns e ->
  exists curr, CurrentEpoch cfg h = Returns curr
               /\ e = (if curr =? 0 then 0 else curr - 1).
Proof.
  unfold PrevEpoch. destruct (CurrentEpoch cfg h) as [curr|p]; simpl;
    intros H; inversion H; eauto.
Qed.

Lemma ValidateSlotTargetEpoch_inv cfg d t :
  AttestationData.Target d = Some t ->
  ValidateSlotTargetEpoch cfg (Some d) = Returns None ->
  AttestationData.Slot d / SlotsPerEpoch cfg = Checkpoint.Epoch t.
Proof.
  intros Ht. unfold ValidateSlotTargetEpoch. simpl. rewrite Ht. simpl.
  unfold SlotToEpoch, div64. destruct (SlotsPerEpoch cfg =? 0); simpl;
    [discriminate | ].
  case_bool_decide; [auto | discriminate].
Qed.

Lemma inclusionDelayChecks_ok_inv cfg s h h' u :
  inclusionDelayChecks cfg s h = (h', Ok u) ->
  h' = h /\
  exists slot, State.Slot h = Returns slot
    /\ wrap64 (s + MinAttestationInclusionDelay cfg) <= slot
    /\ slot <= wrap64 (s + SlotsPerEpoch cfg).
Proof.
  destruct (Slot_returns h) as [slot Hs].
  rewrite (inclusionDelayChecks_spec cfg s h slot Hs).
  destruct (Z.leb_spec (wrap64 (s + MinAttestationInclusionDelay cfg)) slot)
    as [H1|H1];
    [ destruct (Z.leb_spec slot (wrap64 (s + SlotsPerEpoch cfg))) as [H2|H2]
    | ];
    intros H; inversion H; subst;
    (split; [reflexivity | exists slot; auto]).
Qed.

Lemma selectEpoch_ok_inv t curr prev h h' j ffg p :
  selectEpoch t curr prev h = (h', Ok (j, ffg, p)) ->
  h' = h /\
  if bool_decide (t = curr)
  then State.CurrentJustifiedCheckpoint h = Returns j
       /\ State.CurrentEpochParticipation h = Returns p /\ ffg = curr
  else State.PreviousJustifiedCheckpoint h = Returns j
       /\ State.PreviousEpochParticipation h = Returns p /\ ffg = prev.
Proof.
  unfold selectEpoch. intros Hs.
  destruct (bool_decide (t = curr));
    inv_bind Hs; inv_prim E; inv_bind Hs; inv_prim E0;
    apply mret_ok_inv in Hs as [-> Hs]; inversion Hs; subst; auto.
Qed.

(** The facts the flag computation may rely on. *)
Inductive passed (cfg : BeaconChainConfig) {hp : Helpers} (h : store)
    (att : option Attestation.t) (c : checked) : Prop :=
| mkPassed
    (p_slot : Z)
    (p_justified : option Checkpoint.t)
    (p_targetRoot : bytes)
    (p_headRoot : bytes)
    (p_att : exists a, att = Some a /\ Attestation.Data a = Some (c_data c))
    (p_target : AttestationData.Target (c_data c) = Some (c_target c))
    (p_state_slot : State.Slot h = Returns p_slot)
    (p_spe : SlotsPerEpoch cfg <> 0)
    (p_curr : c_currEpoch c = p_slot / SlotsPerEpoch cfg)
    (p_epoch :
       Checkpoint.Epoch (c_target c) = c_currEpoch c
       \/ Checkpoint.Epoch (c_target c)
          = (if c_currEpoch c =? 0 then 0 else c_currEpoch c - 1))
    (p_slot_epoch :
       AttestationData.Slot (c_data c) / SlotsPerEpoch cfg
       = Checkpoint.Epoch (c_target c))
    (p_min :
       wrap64 (AttestationData.Slot (c_data c)
               + MinAttestationInclusionDelay cfg) <= p_slot)
    (p_max :
       p_slot <= wrap64 (AttestationData.Slot (c_data c) + SlotsPerEpoch cfg))
    (p_committee :
       BeaconCommitteeFromState h (AttestationData.Slot (c_data c))
         (AttestationData.CommitteeIndex (c_data c)) = Ok (c_committee c))
    (p_select :
       if bool_decide (Checkpoint.Epoch (c_target c) = c_currEpoch c)
       then State.CurrentJustifiedCheckpoint h = Returns p_justified
            /\ State.CurrentEpochParticipation h
               = Returns (c_epochParticipation c)
       else State.PreviousJustifiedCheckpoint h = Returns p_justified
            /\ State.PreviousEpochParticipation h
               = Returns (c_epochParticipation c))
    (p_source :
       c_matchingSource c = true
       /\ CheckPointIsEqual (AttestationData.Source (c_data c)) p_justified
          = true)
    (p_target_root :
       BlockRoot h (Checkpoint.Epoch (c_target c)) = Ok p_targetRoot
       /\ c_matchingTarget c
          = bool_decide (p_targetRoot = Checkpoint.Root (c_target c)))
    (p_head_root :
       BlockRootAtSlot h (AttestationData.Slot (c_data c)) = Ok p_headRoot
       /\ c_matchingHead c
          = bool_decide
              (p_headRoot = AttestationData.BeaconBlockRoot (c_data c))).

Lemma attestationChecks_ok_inv cfg {hp : Helpers} att h h' c :
  attestationChecks cfg att h = (h', Ok c) ->
  h' = h /\ passed cfg h att c.
Proof.
  intros H. unfold attestationChecks in H.
  inv_bind H. inv_prim E.
  inv_bind H. inv_prim E0.
  inv_bind H. inv_prim E1.
  inv_bind H. inv_prim E2.
  inv_bind H. inv_prim E3.
  inv_bind H. inv_prim E4.
  destruct (negb (bool_decide (Checkpoint.Epoch v4 = v1))
            && negb (bool_decide (Checkpoint.Epoch v4 = v0))) eqn:Hep;
    [ exfalso; eapply fail_not_ok; exact H | ].
  inv_bind H. inv_prim E5.
  inv_bind H. inv_prim E6.
  inv_bind H. apply inclusionDelayChecks_ok_inv in E7
    as [-> (slot & Hslot & Hmin & Hmax)].
  inv_bind H. inv_prim E7.
  destruct (SlotCommitteeCount v8 <=? AttestationData.CommitteeIndex v3);
    [ exfalso; eapply fail_not_ok; exact H | ].
  inv_bind H. inv_prim E8.
  inv_bind H. inv_prim E9.
  inv_bind H. inv_prim E10.
  inv_bind H. inv_prim E11.
  inv_bind H. destruct v13 as [[j ffg] p].
  apply selectEpoch_ok_inv in E12 as [-> Hsel].
  destruct (negb (bool_decide (Checkpoint.Epoch v4 = ffg))) eqn:Hffg;
    [ exfalso; eapply fail_not_ok; exact H | ].
  destruct (negb (CheckPointIsEqual (AttestationData.Source v3) j)) eqn:Hsrc;
    [ exfalso; eapply fail_not_ok; exact H | ].
  inv_bind H. inv_prim E12.
  inv_bind H. inv_prim E13.
  apply mret_ok_inv in H as [-> ->].
  split; [reflexivity | ].
  destruct att as [a|]; [ | discriminate ].
  simpl in E2. inversion E2; subst v2.
  destruct (Attestation.Data a) as [d|] eqn:Hd; [ | discriminate ].
  simpl in E3. inversion E3; subst v3.
  destruct (AttestationData.Target d) as [t|] eqn:Ht; [ | discriminate ].
  simpl in E4. inversion E4; subst v4.
  apply CurrentEpoch_inv in E0 as (slot0 & Hslot0 & Hspe & Hcurr).
  rewrite Hslot in Hslot0. inversion Hslot0; subst slot0.
  apply PrevEpoch_inv in E1 as (curr & Hc & Hprev).
  apply CurrentEpoch_inv in Hc as (slot1 & Hslot1 & _ & Hcurr').
  rewrite Hslot in Hslot1. inversion Hslot1; subst slot1.
  rewrite <- Hcurr in Hcurr'. subst curr.
  subst v5.
  apply (ValidateSlotTargetEpoch_inv cfg d t Ht) in E5.
  apply negb_false_iff in Hsrc.
  apply (mkPassed cfg h (Some a) _ slot j v13 v14); simpl; auto.
  - eauto.
  - apply andb_false_iff in Hep. rewrite !negb_false_iff in Hep.
    destruct Hep as [Hep|Hep]; apply bool_decide_eq_true in Hep;
      [ right; congruence | left; exact Hep ].
  - destruct (bool_decide (Checkpoint.Epoch t = v0)); tauto.
Qed.

(** Under the checks no sum of the flag computation leaves 64 bits. *)
Lemma window_no_wrap E D s slot curr t :
  0 < E <= 2 ^ 63 -> 0 <= D <= E ->
  is_uint64 s -> is_uint64 slot ->
  curr = slot / E ->
  (t = curr \/ t = (if curr =? 0 then 0 else curr - 1)) ->
  s / E = t ->
  wrap64 (s + D) <= slot ->
  slot <= wrap64 (s + E) ->
  s + E < uint64_limit.
Proof.
  unfold is_uint64, wrap64, uint64_limit.
  intros HE HD Hs Hslot Hcurr Ht Hst Hmin Hmax.
  destruct (Z_lt_ge_dec (s + E) (2 ^ 64)) as [Hlt|Hge]; [exact Hlt | exfalso].
  assert (Hw : (s + E) mod 2 ^ 64 = s + E - 2 ^ 64).
  { symmetry. apply (Z.mod_unique_pos _ _ 1); lia. }
  rewrite Hw in Hmax.
  assert (Hcurr0 : curr = 0) by (subst curr; apply Z.div_small; lia).
  assert (Ht0 : t = 0) by (destruct Ht as [->| ->]; rewrite Hcurr0; reflexivity).
  rewrite Ht0 in Hst.
  apply Z.div_small_iff in Hst; lia.
Qed.

(** *** The timeliness flags (lines 227-239) *)

Lemma Slot_Add_fits s x :
  s + x < uint64_limit -> Slot_Add s x = Returns (s + x).
Proof.
  intros H. unfold Slot_Add.
  destruct (Z.ltb_spec (s + x) uint64_limit); [reflexivity | lia].
Qed.

(** The map the computation returns when no sum wraps. *)
Definition flags_of (cfg : BeaconChainConfig) (c : checked) (slot : Z)
  : flagmap :=
  let s := AttestationData.Slot (c_data c) in
  let f1 :=
    if c_matchingHead c && c_matchingTarget c
    then if slot <=? s + MinAttestationInclusionDelay cfg
         then <[TimelyHeadFlag cfg := true]> no_flags else no_flags
    else no_flags in
  let f2 :=
    if c_matchingSource c
    then if slot <=? s + Z.sqrt (SlotsPerEpoch cfg)
         then <[TimelySourceFlag cfg := true]> f1 else f1
    else f1 in
  if c_matchingTarget c
  then if slot <=? s + SlotsPerEpoch cfg
       then <[TimelyTargetFlag cfg := true]> f2 else f2
  else f2.

Lemma participationFlags_eval cfg (c : checked) (h : store) (slot : Z) :
  State.Slot h = Returns slot ->
  0 <= AttestationData.Slot (c_data c) ->
  0 <= MinAttestationInclusionDelay cfg <= SlotsPerEpoch cfg ->
  AttestationData.Slot (c_data c) + SlotsPerEpoch cfg < uint64_limit ->
  participationFlags cfg c h = (h, Ok (flags_of cfg c slot)).
Proof.
  intros Hslot Hs HD HE.
  assert (Hsq : Z.sqrt (SlotsPerEpoch cfg) <= SlotsPerEpoch cfg)
    by (apply Z.sqrt_le_lin; lia).
  assert (Hsq0 : 0 <= Z.sqrt (SlotsPerEpoch cfg)) by apply Z.sqrt_nonneg.
  unfold participationFlags, flags_of, IntegerSquareRoot.
  rewrite Slot_Add_fits by lia.
  rewrite !wrap64_small by (unfold uint64_limit in *; lia).
  assert (Hrd : read State.Slot h = (h, Ok slot))
    by (unfold read; rewrite Hslot; reflexivity).
  destruct (c_matchingHead c), (c_matchingTarget c), (c_matchingSource c);
    cbn [andb]; unfold mbind, M_bind;
    repeat (cbv beta iota; rewrite ?Hrd;
            unfold mret, M_ret, call, of_outcome);
    reflexivity.
Qed.

Lemma insert_true_inv (g : Byte.byte -> bool) (k f : Byte.byte) :
  <[k := true]> g f = true -> f = k \/ g f = true.
Proof.
  destruct (decide (k = f)) as [->|Hne]; [auto | ].
  rewrite fn_lookup_insert_ne by exact Hne. auto.
Qed.

(** C2.  Once an attestation has passed the checks that precede it, the
    timeliness-flag computation grants exactly: HEAD iff matching head and
    matching target and [state.slot <= attestation.slot +
    MIN_ATTESTATION_INCLUSION_DELAY]; SOURCE iff matching source and
    [state.slot <= attestation.slot + floor(sqrt(SLOTS_PER_EPOCH))];
    TARGET iff matching target and [state.slot <= attestation.slot +
    SLOTS_PER_EPOCH]; and no other flag.  Matching head compares the
    attestation's beacon-block root with [BlockRootAtSlot] at the attested
    slot, matching target compares the target root with [BlockRoot] at the
    target epoch.  The configuration is assumed to have three distinct
    flag constants, an epoch of at most [2^63] slots and an inclusion
    delay of at most an epoch; slots are [uint64] values. *)
Theorem C2_timeliness_flags cfg {hp : Helpers}
    (h h' : store) (att : option Attestation.t) (c : checked) :
  0 < SlotsPerEpoch cfg <= 2 ^ 63 ->
  0 <= MinAttestationInclusionDelay cfg <= SlotsPerEpoch cfg ->
  TimelyHeadFlag cfg <> TimelySourceFlag cfg ->
  TimelyHeadFlag cfg <> TimelyTargetFlag cfg ->
  TimelySourceFlag cfg <> TimelyTargetFlag cfg ->
  (forall slot, State.Slot h = Returns slot -> is_uint64 slot) ->
  (forall a d, att = Some a -> Attestation.Data a = Some d ->
               is_uint64 (AttestationData.Slot d)) ->
  attestationChecks cfg att h = (h', Ok c) ->
  exists (flags : flagmap) (slot : Z) (headRoot targetRoot : bytes),
    participationFlags cfg c h' = (h', Ok flags) /\
    State.Slot h' = Returns slot /\
    BlockRootAtSlot h' (AttestationData.Slot (c_data c)) = Ok headRoot /\
    BlockRoot h' (Checkpoint.Epoch (c_target c)) = Ok targetRoot /\
    c_matchingSource c = true /\
    (flags (TimelyHeadFlag cfg) = true <->
       headRoot = AttestationData.BeaconBlockRoot (c_data c)
       /\ targetRoot = Checkpoint.Root (c_target c)
       /\ slot <= AttestationData.Slot (c_data c)
                  + MinAttestationInclusionDelay cfg) /\
    (flags (TimelySourceFlag cfg) = true <->
       c_matchingSource c = true
       /\ slot <= AttestationData.Slot (c_data c)
                  + Z.sqrt (SlotsPerEpoch cfg)) /\
    (flags (TimelyTargetFlag cfg) = true <->
       targetRoot = Checkpoint.Root (c_target c)
       /\ slot <= AttestationData.Slot (c_data c) + SlotsPerEpoch cfg) /\
    (forall f, flags f = true ->
       f = TimelyHeadFlag cfg \/ f = TimelySourceFlag cfg
       \/ f = TimelyTargetFlag cfg).
Proof.
  intros HE HD Hhs Hht Hst Hslot64 Hatt64 Hchecks.
  apply attestationChecks_ok_inv in Hchecks as [-> Hp].
  destruct Hp as [slot j rT rH [a [-> Hda]] Htgt Hslot Hspe Hcurr Hep Hse
                    Hmin Hmax Hcomm Hsel [Hms Hcp] [HrT HmT] [HrH HmH]].
  pose proof (Hslot64 slot Hslot) as Hslot_rng.
  pose proof (Hatt64 a _ eq_refl Hda) as Hs_rng.
  pose proof (window_no_wrap _ _ _ _ _ _ HE HD Hs_rng Hslot_rng Hcurr Hep
                Hse Hmin Hmax) as Hfit.
  exists (flags_of cfg c slot), slot, rH, rT.
  split; [ apply participationFlags_eval; auto; unfold is_uint64 in *; lia | ].
  do 4 (split; [assumption | ]).
  unfold flags_of. rewrite HmH, HmT, Hms.
  destruct (bool_decide_reflect
              (rH = AttestationData.BeaconBlockRoot (c_data c))) as [HH|HH],
           (bool_decide_reflect (rT = Checkpoint.Root (c_target c)))
             as [HT|HT];
    simpl;
    destruct (Z.leb_spec slot (AttestationData.Slot (c_data c)
                               + MinAttestationInclusionDelay cfg)),
             (Z.leb_spec slot (AttestationData.Slot (c_data c)
                               + Z.sqrt (SlotsPerEpoch cfg))),
             (Z.leb_spec slot (AttestationData.Slot (c_data c)
                               + SlotsPerEpoch cfg));
    unfold no_flags;
    repeat split; intros;
    repeat match goal with
      | H : _ /\ _ |- _ => destruct H
      | H : context [ <[ ?k := _ ]> _ ?k ] |- _ =>
          rewrite fn_lookup_insert in H
      | H : context [ <[ ?k := _ ]> _ ?k' ] |- _ =>
          rewrite fn_lookup_insert_ne in H by congruence
      | |- context [ <[ ?k := _ ]> _ ?k ] => rewrite fn_lookup_insert
      | |- context [ <[ ?k := _ ]> _ ?k' ] =>
          rewrite fn_lookup_insert_ne by congruence
      end;
    try reflexivity; try discriminate; try lia; try congruence; auto;
    repeat match goal with
      | H : <[ _ := true ]> _ _ = true |- _ =>
          apply insert_true_inv in H as [->|H]; [ tauto | ]
      end;
    discriminate.
Qed.

(** What the checks leave for the example attestation of slot 5 in the
    example state at slot 6. *)
Definition example_checked : checked :=
  mkChecked
    (AttestationData.mk 5 0 Example.root_a (Some Example.checkpoint0)
       (Some (Checkpoint.mk 0 Example.root_a)))
    (Checkpoint.mk 0 Example.root_a) 0 [0; 1; 2; 3]
    (Some (replicate 4 Byte.x00)) true true true.

Lemma example_checks :
  attestationChecks Example.config
    (Example.attestation 5 0 Example.good_signature) (Example.state_at 6)
  = (Example.state_at 6, Ok example_checked).
Proof. vm_compute. reflexivity. Qed.

Lemma example_slot_uint64 (slot0 : Z) :
  forall slot, State.Slot (Example.state_at slot0) = Returns slot ->
               is_uint64 slot0 -> is_uint64 slot.
Proof. intros slot H. inversion H. auto. Qed.

Lemma C2_timeliness_flags_witness :
  exists (flags : flagmap) (slot : Z) (headRoot targetRoot : bytes),
    participationFlags Example.config example_checked (Example.state_at 6)
      = (Example.state_at 6, Ok flags) /\
    State.Slot (Example.state_at 6) = Returns slot /\
    BlockRootAtSlot (Example.state_at 6)
      (AttestationData.Slot (c_data example_checked)) = Ok headRoot /\
    BlockRoot (Example.state_at 6)
      (Checkpoint.Epoch (c_target example_checked)) = Ok targetRoot /\
    c_matchingSource example_checked = true /\
    (flags (TimelyHeadFlag Example.config) = true <->
       headRoot = AttestationData.BeaconBlockRoot (c_data example_checked)
       /\ targetRoot = Checkpoint.Root (c_target example_checked)
       /\ slot <= AttestationData.Slot (c_data example_checked)
                  + MinAttestationInclusionDelay Example.config) /\
    (flags (TimelySourceFlag Example.config) = true <->
       c_matchingSource example_checked = true
       /\ slot <= AttestationData.Slot (c_data example_checked)
                  + Z.sqrt (SlotsPerEpoch Example.config)) /\
    (flags (TimelyTargetFlag Example.config) = true <->
       targetRoot = Checkpoint.Root (c_target example_checked)
       /\ slot <= AttestationData.Slot (c_data example_checked)
                  + SlotsPerEpoch Example.config) /\
    (forall f, flags f = true ->
       f = TimelyHeadFlag Example.config
       \/ f = TimelySourceFlag Example.config
       \/ f = TimelyTargetFlag Example.config).
Proof.
  apply (C2_timeliness_flags Example.config (Example.state_at 6)
           (Example.state_at 6)
           (Example.attestation 5 0 Example.good_signature) example_checked).
  - simpl. lia.
  - simpl. lia.
  - discriminate.
  - discriminate.
  - discriminate.
  - intros slot H. inversion H. unfold is_uint64, uint64_limit. lia.
  - intros a d Ha Hd. inversion Ha; subst a. inversion Hd; subst d.
    unfold is_uint64, uint64_limit. simpl. lia.
  - exact example_checks.
Defined.

(** *** The loop over the attesting indices (lines 245-262) *)

Section Loop.

Variable cfg : BeaconChainConfig.
Context {hp : Helpers}.
Variable participatedFlags : flagmap.

(** The three flags with their reward numerators, in the order of the
    loop body. *)
Definition flag_table : list (Byte.byte * Z) :=
  [ (TimelyHeadFlag cfg, TimelyHeadNumerator cfg);
    (TimelySourceFlag cfg, TimelySourceNumerator cfg);
    (TimelyTargetFlag cfg, TimelyTargetNumerator cfg) ].

Definition is_flag (f : Byte.byte) : Prop :=
  f = TimelyHeadFlag cfg \/ f = TimelySourceFlag cfg
  \/ f = TimelyTargetFlag cfg.

(** What the flag helpers are assumed to do: adding a flag records it,
    and leaves the two other flags as they were. *)
Definition flag_laws : Prop :=
  (forall b f, HasValidatorFlag (AddValidatorFlag b f) f = true) /\
  (forall b f g, is_flag f -> is_flag g -> f <> g ->
     HasValidatorFlag (AddValidatorFlag b f) g = HasValidatorFlag b g).

(** Is flag [f] recorded for validator [idx]? *)
Definition has_at (ep : option bytes) (idx : Z) (f : Byte.byte) : bool :=
  match State.index_nilable ep idx with
  | Returns cur => HasValidatorFlag cur f
  | Panics _ => false
  end.

Definition set_at (ep : option bytes) (idx : Z) (v : Byte.byte)
  : option bytes :=
  option_map (fun l => <[Z.to_nat idx := v]> l) ep.

(** One iteration of the loop body, after the base reward is known. *)
Definition body (index br : Z) (acc : option bytes * Z)
  : outcome (option bytes * Z) :=
  acc ← applyFlag participatedFlags (TimelyHeadFlag cfg)
          (TimelyHeadNumerator cfg) index br acc;
  acc ← applyFlag participatedFlags (TimelySourceFlag cfg)
          (TimelySourceNumerator cfg) index br acc;
  applyFlag participatedFlags (TimelyTargetFlag cfg)
    (TimelyTargetNumerator cfg) index br acc.

Lemma attestingLoop_readonly indices acc :
  readonly (attestingLoop cfg participatedFlags indices acc).
Proof.
  revert acc. induction indices as [|i rest IH]; intros acc; simpl.
  - apply readonly_ret.
  - readonly_tac.
Qed.

Lemma attestingLoop_cons_inv i rest acc h h' r :
  attestingLoop cfg participatedFlags (i :: rest) acc h = (h', Ok r) ->
  exists br acc',
    BaseReward h i = Ok br /\
    body i br acc = Returns acc' /\
    attestingLoop cfg participatedFlags rest acc' h = (h', Ok r).
Proof.
  simpl. intros H.
  inv_bind H. inv_prim E.
  inv_bind H. inv_prim E0.
  inv_bind H. inv_prim E1.
  inv_bind H. inv_prim E2.
  exists v, v2. split; [exact E | split; [ | exact H]].
  unfold body. rewrite E0. simpl. rewrite E1. simpl. exact E2.
Qed.

Lemma attestingLoop_nil_inv acc h h' r :
  attestingLoop cfg participatedFlags [] acc h = (h', Ok r) ->
  h' = h /\ r = acc.
Proof. simpl. intros H. apply mret_ok_inv in H. exact H. Qed.

(** If the iterations succeed, so does the loop. *)
Lemma attestingLoop_cons i rest acc h br acc' :
  BaseReward h i = Ok br ->
  body i br acc = Returns acc' ->
  attestingLoop cfg participatedFlags (i :: rest) acc h
  = attestingLoop cfg participatedFlags rest acc' h.
Proof.
  intros Hbr Hbody. simpl. unfold body in Hbody.
  rewrite (bind_ok _ _ h h br) by (unfold query; rewrite Hbr; reflexivity).
  cbv beta.
  destruct (applyFlag participatedFlags (TimelyHeadFlag cfg)
              (TimelyHeadNumerator cfg) i br acc) as [a1|] eqn:E1;
    [ | discriminate ].
  simpl in Hbody.
  destruct (applyFlag participatedFlags (TimelySourceFlag cfg)
              (TimelySourceNumerator cfg) i br a1) as [a2|] eqn:E2;
    [ | discriminate ].
  simpl in Hbody.
  rewrite (bind_ok _ _ h h a1) by reflexivity. cbv beta.
  rewrite (bind_ok _ _ h h a2) by (unfold call; rewrite E2; reflexivity).
  cbv beta.
  rewrite (bind_ok _ _ h h acc') by (unfold call; rewrite Hbody; reflexivity).
  reflexivity.
Qed.

(** One [if] of the body, spelled out. *)
Lemma applyFlag_spec flag numerator index br ep num :
  applyFlag participatedFlags flag numerator index br (ep, num) =
  if participatedFlags flag
  then match State.index_nilable ep index with
       | Returns cur =>
           if HasValidatorFlag cur flag then Returns (ep, num)
           else Returns (set_at ep index (AddValidatorFlag cur flag),
                         wrap64 (num + wrap64 (br * numerator)))
       | Panics p => Panics p
       end
  else Returns (ep, num).
Proof.
  unfold applyFlag. destruct (participatedFlags flag); [ | reflexivity ].
  destruct (State.index_nilable ep index) as [cur|p]; simpl; [ | reflexivity ].
  destruct (HasValidatorFlag cur flag); reflexivity.
Qed.

(** A flag that is already recorded is left alone and adds nothing to the
    numerator. *)
Lemma applyFlag_recorded flag numerator index br ep num :
  has_at ep index flag = true ->
  applyFlag participatedFlags flag numerator index br (ep, num)
  = Returns (ep, num).
Proof.
  intros H. rewrite applyFlag_spec. unfold has_at in H.
  destruct (participatedFlags flag); [ | reflexivity ].
  destruct (State.index_nilable ep index) as [cur|p]; [ | discriminate ].
  rewrite H. reflexivity.
Qed.

Lemma index_set_at_eq ep idx cur v :
  State.index_nilable ep idx = Returns cur ->
  State.index_nilable (set_at ep idx v) idx = Returns v.
Proof.
  unfold State.index_nilable, State.index, set_at.
  destruct (idx <? 0) eqn:Hneg; [ destruct ep; discriminate | ].
  destruct ep as [l|]; simpl; rewrite ?Hneg.
  - destruct (l !! Z.to_nat idx) eqn:Hl; [ | discriminate ].
    intros _. rewrite list_lookup_insert_eq; [reflexivity | ].
    apply lookup_lt_Some in Hl. exact Hl.
  - discriminate.
Qed.

Lemma index_set_at_ne ep idx j v cur :
  State.index_nilable ep idx = Returns cur ->
  j <> idx ->
  State.index_nilable (set_at ep idx v) j = State.index_nilable ep j.
Proof.
  unfold State.index_nilable, State.index, set_at.
  destruct (Z.ltb_spec idx 0) as [Hneg|Hpos];
    [ destruct ep; discriminate | ].
  intros _ Hne.
  destruct (Z.ltb_spec j 0) as [Hj|Hj]; [ destruct ep; reflexivity | ].
  destruct ep as [l|]; simpl; [ | reflexivity ].
  rewrite list_lookup_insert_ne by lia. reflexivity.
Qed.

Lemma has_at_set_at_ne ep idx j v cur g :
  State.index_nilable ep idx = Returns cur ->
  j <> idx ->
  has_at (set_at ep idx v) j g = has_at ep j g.
Proof.
  intros Hi Hne. unfold has_at.
  rewrite (index_set_at_ne ep idx j v cur Hi Hne). reflexivity.
Qed.

Lemma outcome_bind_returns {A B} (a : A) (k : A -> outcome B) :
  (Returns a ≫= k) = k a.
Proof. reflexivity. Qed.

Lemma wrap64_range z : is_uint64 (wrap64 z).
Proof.
  unfold is_uint64, wrap64, uint64_limit. apply Z.mod_pos_bound. lia.
Qed.

Lemma wrap64_add_wrap a b : wrap64 (a + wrap64 b) = wrap64 (a + b).
Proof. unfold wrap64. apply Zplus_mod_idemp_r. Qed.

Lemma wrap64_wrap_add a b : wrap64 (wrap64 a + b) = wrap64 (a + b).
Proof. unfold wrap64. apply Zplus_mod_idemp_l. Qed.

Hypothesis laws : flag_laws.

Lemma has_add_same b f : HasValidatorFlag (AddValidatorFlag b f) f = true.
Proof. apply laws. Qed.

Lemma has_add_keeps b f g :
  is_flag f -> is_flag g ->
  HasValidatorFlag b g = true ->
  HasValidatorFlag (AddValidatorFlag b f) g = true.
Proof.
  intros Hf Hg H. destruct (decide (f = g)) as [->|Hne].
  - apply has_add_same.
  - destruct laws as [_ L]. rewrite (L b f g Hf Hg Hne). exact H.
Qed.

(** What one [if] of the body does to the flags and to the numerator. *)
Lemma applyFlag_effect f numerator idx br ep num ep' num' :
  is_flag f ->
  applyFlag participatedFlags f numerator idx br (ep, num)
  = Returns (ep', num') ->
  (forall j g, is_flag g -> has_at ep j g = true -> has_at ep' j g = true) /\
  (participatedFlags f = true -> has_at ep' idx f = true) /\
  (forall j, j <> idx ->
     State.index_nilable ep' j = State.index_nilable ep j) /\
  (forall g, is_flag g -> g <> f -> has_at ep' idx g = has_at ep idx g) /\
  num' = (if participatedFlags f && negb (has_at ep idx f)
          then wrap64 (num + wrap64 (br * numerator)) else num) /\
  (participatedFlags f && negb (has_at ep idx f) = false -> ep' = ep).
Proof.
  intros Hf. rewrite applyFlag_spec.
  destruct (participatedFlags f) eqn:Hp; simpl.
  2:{ intros H; inversion H; subst. repeat split; auto; discriminate. }
  destruct (State.index_nilable ep idx) as [cur|p] eqn:Hi; [ | discriminate ].
  assert (Hha : has_at ep idx f = HasValidatorFlag cur f)
    by (unfold has_at; rewrite Hi; reflexivity).
  rewrite Hha.
  destruct (HasValidatorFlag cur f) eqn:Hh; simpl; intros H; inversion H;
    subst; clear H.
  - repeat split; auto.
  - repeat split.
    + intros j g Hg. destruct (decide (j = idx)) as [->|Hne].
      * unfold has_at. rewrite (index_set_at_eq _ _ _ _ Hi), Hi.
        apply has_add_keeps; assumption.
      * rewrite (has_at_set_at_ne _ _ _ _ _ _ Hi Hne). auto.
    + intros _. unfold has_at. rewrite (index_set_at_eq _ _ _ _ Hi).
      apply has_add_same.
    + intros j Hne. apply (index_set_at_ne _ _ _ _ _ Hi Hne).
    + intros g Hg Hne. unfold has_at.
      rewrite (index_set_at_eq _ _ _ _ Hi), Hi.
      destruct laws as [_ L]. apply L; auto.
    + discriminate.
Qed.

(** The flags the attestation was granted. *)
Definition granted_at (ep : option bytes) (idx : Z) : Prop :=
  forall f, is_flag f -> participatedFlags f = true -> has_at ep idx f = true.

(** The body on an index whose granted flags are all recorded: nothing
    changes. *)
Lemma body_recorded idx br ep num :
  granted_at ep idx -> body idx br (ep, num) = Returns (ep, num).
Proof.
  intros Hg. unfold body.
  assert (Hstep : forall f numerator, is_flag f ->
            applyFlag participatedFlags f numerator idx br (ep, num)
            = Returns (ep, num)).
  { intros f numerator Hf. rewrite applyFlag_spec.
    destruct (participatedFlags f) eqn:Hp; [ | reflexivity ].
    specialize (Hg f Hf Hp). unfold has_at in Hg.
    destruct (State.index_nilable ep idx); [ | discriminate ].
    rewrite Hg. reflexivity. }
  rewrite Hstep by (unfold is_flag; auto). rewrite outcome_bind_returns.
  rewrite Hstep by (unfold is_flag; auto). rewrite outcome_bind_returns.
  apply Hstep. unfold is_flag; auto.
Qed.

(** The body records every granted flag of its index, keeps every
    recorded flag, and touches no other index. *)
Lemma body_effect idx br ep num ep' num' :
  body idx br (ep, num) = Returns (ep', num') ->
  (forall j g, is_flag g -> has_at ep j g = true -> has_at ep' j g = true) /\
  granted_at ep' idx /\
  (forall j, j <> idx ->
     State.index_nilable ep' j = State.index_nilable ep j).
Proof.
  unfold body. intros H.
  destruct (applyFlag participatedFlags (TimelyHeadFlag cfg)
              (TimelyHeadNumerator cfg) idx br (ep, num))
    as [[ep1 n1]|] eqn:E1; [ | discriminate ].
  rewrite outcome_bind_returns in H.
  destruct (applyFlag participatedFlags (TimelySourceFlag cfg)
              (TimelySourceNumerator cfg) idx br (ep1, n1))
    as [[ep2 n2]|] eqn:E2; [ | discriminate ].
  rewrite outcome_bind_returns in H.
  apply applyFlag_effect in E1 as (M1 & G1 & O1 & _);
    [ | unfold is_flag; auto ].
  apply applyFlag_effect in E2 as (M2 & G2 & O2 & _);
    [ | unfold is_flag; auto ].
  apply applyFlag_effect in H as (M3 & G3 & O3 & _);
    [ | unfold is_flag; auto ].
  repeat split.
  - intros j g Hg Hh. auto.
  - intros f [->|[->| ->]] Hp.
    + apply M3, M2; [unfold is_flag; auto .. | auto].
    + apply M3; [unfold is_flag; auto | auto].
    + auto.
  - intros j Hne. rewrite O3, O2, O1 by exact Hne. reflexivity.
Qed.

(** After the loop every granted flag of every attesting index is
    recorded, and no recorded flag was lost. *)
Lemma attestingLoop_records indices ep num h h' ep' num' :
  attestingLoop cfg participatedFlags indices (ep, num) h
  = (h', Ok (ep', num')) ->
  (forall j g, is_flag g -> has_at ep j g = true -> has_at ep' j g = true) /\
  (forall idx, idx ∈ indices -> granted_at ep' idx).
Proof.
  revert ep num. induction indices as [|i rest IH]; intros ep num H.
  - apply attestingLoop_nil_inv in H as [_ H]. inversion H; subst.
    split; [auto | intros idx Hin; inversion Hin].
  - apply attestingLoop_cons_inv in H as (br & [ep1 n1] & Hbr & Hbody & H).
    apply body_effect in Hbody as (M1 & G1 & _).
    apply IH in H as (M2 & G2).
    split; [auto | ].
    intros idx Hin. apply elem_of_cons in Hin as [->|Hin]; [ | auto ].
    intros f Hf Hp. apply M2; auto.
Qed.

(** A run of the loop on a slice in which every granted flag of every
    attesting index is already recorded changes neither the slice nor the
    numerator. *)
Lemma attestingLoop_recorded indices ep num h h' r :
  (forall idx, idx ∈ indices -> granted_at ep idx) ->
  attestingLoop cfg participatedFlags indices (ep, num) h = (h', Ok r) ->
  h' = h /\ r = (ep, num).
Proof.
  induction indices as [|i rest IH]; intros Hg H.
  - apply attestingLoop_nil_inv in H. exact H.
  - apply attestingLoop_cons_inv in H as (br & acc' & Hbr & Hbody & H).
    rewrite body_recorded in Hbody by (apply Hg; left).
    inversion Hbody; subst acc'.
    apply IH; [ | exact H]. intros idx Hin. apply Hg. right. exact Hin.
Qed.

(** **** The proposer-reward numerator *)

Definition flags_distinct : Prop :=
  TimelyHeadFlag cfg <> TimelySourceFlag cfg /\
  TimelyHeadFlag cfg <> TimelyTargetFlag cfg /\
  TimelySourceFlag cfg <> TimelyTargetFlag cfg.

(** The term one flag adds for one index: the base reward times the
    flag's numerator when the flag is granted and not yet recorded. *)
Definition flag_term (ep : option bytes) (idx br : Z) (f : Byte.byte)
    (numerator : Z) : Z :=
  if participatedFlags f && negb (has_at ep idx f) then br * numerator else 0.

Definition contribution (ep : option bytes) (idx br : Z) : Z :=
  flag_term ep idx br (TimelyHeadFlag cfg) (TimelyHeadNumerator cfg)
  + flag_term ep idx br (TimelySourceFlag cfg) (TimelySourceNumerator cfg)
  + flag_term ep idx br (TimelyTargetFlag cfg) (TimelyTargetNumerator cfg).

Lemma body_numerator idx br ep num ep' num' :
  flags_distinct ->
  is_uint64 num ->
  body idx br (ep, num) = Returns (ep', num') ->
  num' = wrap64 (num + contribution ep idx br).
Proof.
  intros (Hhs & Hht & Hst) Hnum. unfold body. intros H.
  destruct (applyFlag participatedFlags (TimelyHeadFlag cfg)
              (TimelyHeadNumerator cfg) idx br (ep, num))
    as [[ep1 n1]|] eqn:E1; [ | discriminate ].
  rewrite outcome_bind_returns in H.
  destruct (applyFlag participatedFlags (TimelySourceFlag cfg)
              (TimelySourceNumerator cfg) idx br (ep1, n1))
    as [[ep2 n2]|] eqn:E2; [ | discriminate ].
  rewrite outcome_bind_returns in H.
  apply applyFlag_effect in E1 as (_ & _ & _ & K1 & N1 & _);
    [ | unfold is_flag; auto ].
  apply applyFlag_effect in E2 as (_ & _ & _ & K2 & N2 & _);
    [ | unfold is_flag; auto ].
  apply applyFlag_effect in H as (_ & _ & _ & _ & N3 & _);
    [ | unfold is_flag; auto ].
  rewrite (K1 (TimelySourceFlag cfg)) in N2
    by (unfold is_flag; auto || congruence).
  rewrite (K2 (TimelyTargetFlag cfg)), (K1 (TimelyTargetFlag cfg)) in N3
    by (unfold is_flag; auto || congruence).
  unfold contribution, flag_term.
  subst num' n2 n1.
  destruct (participatedFlags (TimelyHeadFlag cfg)
            && negb (has_at ep idx (TimelyHeadFlag cfg)));
    destruct (participatedFlags (TimelySourceFlag cfg)
              && negb (has_at ep idx (TimelySourceFlag cfg)));
    destruct (participatedFlags (TimelyTargetFlag cfg)
              && negb (has_at ep idx (TimelyTargetFlag cfg)));
    rewrite ?Z.add_0_r;
    repeat match goal with
      | |- context [wrap64 (?a + wrap64 ?b)] =>
          rewrite (wrap64_add_wrap a b)
      | |- context [wrap64 (wrap64 ?a + ?b)] =>
          rewrite (wrap64_wrap_add a b)
      | |- context [wrap64 ?a + ?b + ?c] =>
          replace (wrap64 a + b + c) with (wrap64 a + (b + c)) by lia
      end;
    try (f_equal; lia);
    symmetry; apply wrap64_small; exact Hnum.
Qed.

(** The attesting indices in order, each at its first occurrence only
    ([seen] lists the indices met so far). *)
Fixpoint firsts (seen indices : list Z) : list Z :=
  match indices with
  | [] => []
  | i :: rest =>
      if bool_decide (i ∈ seen) then firsts seen rest
      else i :: firsts (i :: seen) rest
  end.

Lemma firsts_NoDup seen indices :
  NoDup indices -> (forall i, i ∈ indices -> i ∉ seen) ->
  firsts seen indices = indices.
Proof.
  revert seen. induction indices as [|i rest IH]; intros seen Hnd Hs;
    [reflexivity | ].
  inversion Hnd as [|? ? Hi Hnd']; subst. simpl.
  rewrite bool_decide_eq_false_2 by (apply Hs; left).
  f_equal. apply IH; [exact Hnd' | ].
  intros j Hj. rewrite not_elem_of_cons. split.
  - intros ->. contradiction.
  - apply Hs. right. exact Hj.
Qed.

(** [epoch.BaseReward] as a function of the index, on a state where it
    does not fail. *)
Definition base_reward (h : store) (idx : Z) : Z :=
  match BaseReward h idx with
  | Ok br => br
  | _ => 0
  end.

(** The sum of the contributions of a list of indices. *)
Definition total (h : store) (ep : option bytes) (indices : list Z) : Z :=
  foldr (fun i acc => contribution ep i (base_reward h i) + acc) 0 indices.

Lemma contribution_same_index ep ep0 idx br :
  State.index_nilable ep idx = State.index_nilable ep0 idx ->
  contribution ep idx br = contribution ep0 idx br.
Proof.
  intros H. unfold contribution, flag_term, has_at. rewrite H. reflexivity.
Qed.

Lemma attestingLoop_numerator_from ep0 indices :
  flags_distinct ->
  forall seen ep num h h' ep' num',
    is_uint64 num ->
    (forall j, j ∈ seen -> granted_at ep j) ->
    (forall j, j ∉ seen ->
       State.index_nilable ep j = State.index_nilable ep0 j) ->
    attestingLoop cfg participatedFlags indices (ep, num) h
    = (h', Ok (ep', num')) ->
    num' = wrap64 (num + total h ep0 (firsts seen indices)).
Proof.
  intros Hd. induction indices as [|i rest IH];
    intros seen ep num h h' ep' num' Hnum Hseen Hother H.
  - apply attestingLoop_nil_inv in H as [_ H]. inversion H; subst.
    simpl. rewrite Z.add_0_r. symmetry. apply wrap64_small. exact Hnum.
  - apply attestingLoop_cons_inv in H as (br & [ep1 n1] & Hbr & Hbody & H).
    simpl. case_bool_decide as Hin.
    + rewrite body_recorded in Hbody by (apply Hseen; exact Hin).
      inversion Hbody; subst ep1 n1.
      apply (IH seen ep num h h' ep' num'); assumption.
    + pose proof (body_numerator _ _ _ _ _ _ Hd Hnum Hbody) as Hn1.
      pose proof (body_effect _ _ _ _ _ _ Hbody) as (Mono & Gi & Oth).
      rewrite (contribution_same_index ep ep0) in Hn1 by (apply Hother; exact Hin).
      assert (Hb : base_reward h i = br)
        by (unfold base_reward; rewrite Hbr; reflexivity).
      simpl. rewrite Hb.
      rewrite (IH (i :: seen) ep1 n1 h h' ep' num'); try assumption.
      * subst n1. rewrite wrap64_wrap_add. f_equal. lia.
      * subst n1. apply wrap64_range.
      * intros j Hj. apply elem_of_cons in Hj as [->|Hj]; [exact Gi | ].
        intros f Hf Hp. apply Mono; [exact Hf | apply Hseen; assumption].
      * intros j Hj. apply not_elem_of_cons in Hj as [Hne Hj].
        rewrite Oth by exact Hne. apply Hother. exact Hj.
Qed.

(** The numerator the loop returns: the [uint64] sum, over the distinct
    attesting indices, of the contributions of the flags that are granted
    and were not recorded before the loop. *)
Lemma attestingLoop_numerator indices ep0 h h' ep' num' :
  flags_distinct ->
  attestingLoop cfg participatedFlags indices (ep0, 0) h
  = (h', Ok (ep', num')) ->
  num' = wrap64 (total h ep0 (firsts [] indices)).
Proof.
  intros Hd H.
  rewrite (attestingLoop_numerator_from ep0 indices Hd [] ep0 0 h h' ep' num');
    [ reflexivity | unfold is_uint64, uint64_limit; lia
    | intros j Hj; inversion Hj | reflexivity | exact H ].
Qed.

End Loop.


(** *** The whole transition *)

Section Whole.

Variable cfg : BeaconChainConfig.
Context {hp : Helpers}.

Lemma selectEpoch_readonly t curr prev : readonly (selectEpoch t curr prev).
Proof. unfold selectEpoch. readonly_tac. Qed.

Lemma attestationChecks_readonly att : readonly (attestationChecks cfg att).
Proof.
  unfold attestationChecks.
  repeat first
    [ apply inclusionDelayChecks_readonly
    | apply selectEpoch_readonly
    | progress eauto with readonly
    | apply readonly_bind; [ | intros ? ]
    | apply readonly_if
    | match goal with
      | |- readonly (let '(_, _) := ?x in _) => destruct x
      end ].
Qed.

Lemma participationFlags_readonly c : readonly (participationFlags cfg c).
Proof. unfold participationFlags. readonly_tac. Qed.

Lemma collectPubkeys_readonly indices pubkeys :
  readonly (collectPubkeys indices pubkeys).
Proof.
  revert pubkeys. induction indices as [|i rest IH]; intros pubkeys; simpl.
  - apply readonly_ret.
  - readonly_tac.
Qed.

Lemma VerifyIndexedAttestation_readonly ia :
  readonly (VerifyIndexedAttestation cfg ia).
Proof.
  unfold VerifyIndexedAttestation.
  repeat first
    [ apply collectPubkeys_readonly
    | progress eauto with readonly
    | apply readonly_bind; [ | intros ? ] ].
Qed.

(** Signature verification never writes to the state. *)
Lemma VerifyAttestationSignature_readonly att :
  readonly (VerifyAttestationSignature cfg att).
Proof.
  unfold VerifyAttestationSignature.
  repeat first
    [ apply VerifyIndexedAttestation_readonly
    | progress eauto with readonly
    | apply readonly_bind; [ | intros ? ] ].
Qed.

(** Everything [ProcessAttestationNoVerifySignature] does before line 264:
    the checks, the flags, the attesting indices and the loop. *)
Definition prepare (att : option Attestation.t)
  : M (checked * (option bytes * Z)) :=
  c ← attestationChecks cfg att;
  participatedFlags ← participationFlags cfg c;
  a ← call (deref att);
  indices ←
    query (fun _ => AttestingIndices (Attestation.AggregationBits a)
                      (c_committee c));
  acc ← attestingLoop cfg participatedFlags indices
          (c_epochParticipation c, 0);
  mret (c, acc).

Lemma prepare_readonly att : readonly (prepare att).
Proof.
  unfold prepare.
  repeat first
    [ apply attestationChecks_readonly
    | apply participationFlags_readonly
    | apply attestingLoop_readonly
    | progress eauto with readonly
    | apply readonly_bind; [ | intros ? ] ].
Qed.

Lemma bind_assoc {A B C} (m : M A) (k : A -> M B) (k' : B -> M C) h :
  ((m ≫= k) ≫= k') h = (m ≫= (fun a => k a ≫= k')) h.
Proof.
  unfold mbind, M_bind. destruct (m h) as [h1 [a|e|p]]; reflexivity.
Qed.

Lemma bind_ext {A B} (m : M A) (k k' : A -> M B) h :
  (forall a h1, k a h1 = k' a h1) -> (m ≫= k) h = (m ≫= k') h.
Proof.
  intros H. unfold mbind, M_bind. destruct (m h) as [h1 [a|e|p]]; auto.
Qed.

Lemma bind_ret_l {A B} (a : A) (k : A -> M B) h : (mret a ≫= k) h = k a h.
Proof. reflexivity. Qed.

(** The transition is the read-only preparation followed by the
    write-back and the proposer reward. *)
Lemma ProcessAttestationNoVerifySignature_split att h :
  ProcessAttestationNoVerifySignature cfg att h
  = (prepare att ≫= fun r => storeAndReward cfg r.1 r.2.1 r.2.2) h.
Proof.
  unfold ProcessAttestationNoVerifySignature, prepare.
  rewrite bind_assoc. apply bind_ext. intros c h1.
  rewrite bind_assoc. apply bind_ext. intros fl h2.
  rewrite bind_assoc. apply bind_ext. intros a h3.
  rewrite bind_assoc. apply bind_ext. intros ix h4.
  rewrite bind_assoc. apply bind_ext. intros acc h5.
  rewrite bind_ret_l. reflexivity.
Qed.

Lemma prepare_ok_inv att h h' c ep num :
  prepare att h = (h', Ok (c, (ep, num))) ->
  h' = h /\
  exists participatedFlags a indices,
    attestationChecks cfg att h = (h, Ok c) /\
    participationFlags cfg c h = (h, Ok participatedFlags) /\
    att = Some a /\
    AttestingIndices (Attestation.AggregationBits a) (c_committee c)
      = Ok indices /\
    attestingLoop cfg participatedFlags indices (c_epochParticipation c, 0) h
      = (h, Ok (ep, num)).
Proof.
  intros H.
  pose proof (prepare_readonly att h) as Hro. rewrite H in Hro.
  simpl in Hro. subst h'. split; [reflexivity | ].
  unfold prepare in H.
  inv_bind H.
  pose proof (attestationChecks_readonly att h) as R1. rewrite E in R1.
  simpl in R1. subst h0.
  inv_bind H.
  pose proof (participationFlags_readonly v h) as R2. rewrite E0 in R2.
  simpl in R2. subst h0.
  inv_bind H. inv_prim E1.
  inv_bind H. inv_prim E2.
  inv_bind H.
  pose proof (attestingLoop_readonly cfg v0 v2 (c_epochParticipation v, 0) h)
    as R3.
  rewrite E3 in R3. simpl in R3. subst h0.
  apply mret_ok_inv in H as [_ H]. inversion H; subst.
  destruct att as [a0|]; [ | discriminate ]. inversion E1; subst.
  eexists _, _, _. repeat split; eauto.
Qed.

(** **** Failure and the state *)

(** Lines 264-272: the write-back of the participation slice. *)
Definition writeBack (c : checked) (epochParticipation : option bytes)
  : M unit :=
  if bool_decide (Checkpoint.Epoch (c_target c) = c_currEpoch c)
  then SetCurrentParticipationBits epochParticipation
  else SetPreviousParticipationBits epochParticipation.

(** The state after the write-back: the selected participation array is
    replaced, every other field is kept. *)
Lemma writeBack_store c ep h :
  (writeBack c ep h).1 = h \/
  exists st,
    h = Some (State.mkBeaconState (Some st)) /\
    (writeBack c ep h).2 = Ok tt /\
    (writeBack c ep h).1 =
      Some (State.mkBeaconState (Some
        (if bool_decide (Checkpoint.Epoch (c_target c) = c_currEpoch c)
         then State.Inner.with_CurrentEpochParticipation ep st
         else State.Inner.with_PreviousEpochParticipation ep st))).
Proof.
  unfold writeBack, SetCurrentParticipationBits, SetPreviousParticipationBits.
  destruct h as [[[st|]]|];
    destruct (bool_decide (Checkpoint.Epoch (c_target c) = c_currEpoch c));
    simpl; eauto.
Qed.

Lemma IncreaseBalance_fail_store idx delta h :
  (forall u, (IncreaseBalance idx delta h).2 <> Ok u) ->
  (IncreaseBalance idx delta h).1 = h.
Proof.
  unfold IncreaseBalance, UpdateBalancesAtIndex, mbind, M_bind, read,
    of_outcome, fail.
  destruct (State.BalanceAtIndex h idx) as [[bal [e|]]|p]; simpl; auto.
  destruct h as [[[st|]]|]; simpl; auto.
  destruct (len_nilable (State.Inner.Balances st) <=? idx); simpl; auto.
  intros H. exfalso. apply (H tt). reflexivity.
Qed.

(** When the write-back and reward step fails, the state holds at most
    the write-back. *)
(** The write-back and reward step, stage by stage. *)
Lemma storeAndReward_unfold c ep num h :
  storeAndReward cfg c ep num h =
  match writeBack c ep h with
  | (hmid, Ok _) =>
      match div64 num (wrap64 (RewardDenominator cfg
                               * ProposerRewardQuotient cfg)) with
      | Returns reward =>
          match BeaconProposerIndex hmid with
          | Ok i => IncreaseBalance i reward hmid
          | Fail e => (hmid, Fail e)
          | Crash p => (hmid, Crash p)
          end
      | Panics p => (hmid, Crash p)
      end
  | (hmid, Fail e) => (hmid, Fail e)
  | (hmid, Crash p) => (hmid, Crash p)
  end.
Proof.
  unfold storeAndReward. fold (writeBack c ep).
  unfold mbind, M_bind.
  destruct (writeBack c ep h) as [hmid [u|e|p]]; [ | reflexivity .. ].
  unfold call, of_outcome.
  destruct (div64 num (wrap64 (RewardDenominator cfg
                               * ProposerRewardQuotient cfg)));
    [ | reflexivity ].
  unfold query. destruct (BeaconProposerIndex hmid); reflexivity.
Qed.

Lemma storeAndReward_fail_store c ep num h :
  (forall u, (storeAndReward cfg c ep num h).2 <> Ok u) ->
  (storeAndReward cfg c ep num h).1 = (writeBack c ep h).1.
Proof.
  rewrite storeAndReward_unfold.
  destruct (writeBack c ep h) as [hmid [u|e|p]]; simpl; auto.
  destruct (div64 num (wrap64 (RewardDenominator cfg
                               * ProposerRewardQuotient cfg)));
    simpl; auto.
  destruct (BeaconProposerIndex hmid); simpl; auto.
  apply IncreaseBalance_fail_store.
Qed.

(** C1 (as amended).  A failure raised before the write-back of line 264
    (by a check, the flag computation, the attesting-indices derivation or
    a base-reward lookup) leaves the state as it was, with or without
    signature verification.  A failure raised after it (reward division,
    proposer-index lookup, balance credit) leaves the state with at most
    the participation write-back applied.  When
    [ProcessAttestationNoVerifySignature] succeeds, [ProcessAttestation]
    returns the verdict of the signature verification together with the
    fully updated state. *)
Theorem C1_failure_and_state (att : option Attestation.t) (h : store) :
  (forall e, (prepare att h).2 = Fail e ->
     ProcessAttestationNoVerifySignature cfg att h = (h, Fail e)
     /\ ProcessAttestation cfg att h = (h, Fail e)) /\
  (forall p, (prepare att h).2 = Crash p ->
     ProcessAttestationNoVerifySignature cfg att h = (h, Crash p)
     /\ ProcessAttestation cfg att h = (h, Crash p)) /\
  (forall c ep num, (prepare att h).2 = Ok (c, (ep, num)) ->
     (forall u, (ProcessAttestationNoVerifySignature cfg att h).2 <> Ok u) ->
     (ProcessAttestationNoVerifySignature cfg att h).1 = (writeBack c ep h).1
     /\ ProcessAttestation cfg att h
        = ProcessAttestationNoVerifySignature cfg att h) /\
  (forall h1 u, ProcessAttestationNoVerifySignature cfg att h = (h1, Ok u) ->
     ProcessAttestation cfg att h
     = (h1, (VerifyAttestationSignature cfg att h1).2)).
Proof.
  pose proof (prepare_readonly att h) as Hro.
  pose proof (ProcessAttestationNoVerifySignature_split att h) as Hsplit.
  unfold mbind, M_bind in Hsplit.
  destruct (prepare att h) as [h0 [[c [ep num]]|e|p]] eqn:Hp;
    simpl in Hro; subst h0; simpl in Hsplit.
  - repeat split; try discriminate.
    + inversion H; subst. rewrite Hsplit.
      apply storeAndReward_fail_store. rewrite <- Hsplit. exact H0.
    + unfold ProcessAttestation, mbind, M_bind.
      destruct (ProcessAttestationNoVerifySignature cfg att h)
        as [h1 [u|e|p]]; simpl in *; [ | reflexivity | reflexivity ].
      exfalso. apply (H0 u). reflexivity.
    + intros h1 u H. unfold ProcessAttestation, mbind, M_bind. rewrite H.
      pose proof (VerifyAttestationSignature_readonly att h1) as Hv.
      destruct (VerifyAttestationSignature cfg att h1) as [h2 r].
      simpl in *. subst h2. reflexivity.
  - repeat split; try discriminate.
    + inversion H; subst. exact Hsplit.
    + inversion H; subst. unfold ProcessAttestation, mbind, M_bind.
      rewrite Hsplit. reflexivity.
    + intros h1 u H. rewrite Hsplit in H. inversion H.
  - repeat split; try discriminate.
    + inversion H; subst. exact Hsplit.
    + inversion H; subst. unfold ProcessAttestation, mbind, M_bind.
      rewrite Hsplit. reflexivity.
    + intros h1 u H. rewrite Hsplit in H. inversion H.
Qed.

(** **** Success: what is written *)

Lemma BalanceAtIndex_some st idx :
  State.BalanceAtIndex (Some (State.mkBeaconState (Some st))) idx =
  match State.Inner.Balances st with
  | None => Returns (0, None)
  | Some bs =>
      if len bs <=? idx
      then Returns (0, Some (State.ErrIndexDoesNotExist idx))
      else bal ← State.index bs idx; mret (bal, None)
  end.
Proof.
  unfold State.BalanceAtIndex.
  rewrite (StateFacts.HasInnerState_some (State.mkBeaconState (Some st)) st
             eq_refl).
  rewrite (StateFacts.inner_some (State.mkBeaconState (Some st)) st eq_refl).
  reflexivity.
Qed.

Lemma IncreaseBalance_ok_inv idx delta h h1 u :
  0 <= idx ->
  IncreaseBalance idx delta h = (h1, Ok u) ->
  exists st bals bal,
    h = Some (State.mkBeaconState (Some st)) /\
    State.Inner.Balances st = Some bals /\
    bals !! Z.to_nat idx = Some bal /\
    h1 = Some (State.mkBeaconState (Some
           (State.Inner.with_Balances
              (Some (<[Z.to_nat idx := wrap64 (bal + delta)]> bals)) st))).
Proof.
  intros Hidx H. unfold IncreaseBalance in H.
  inv_bind H. inv_prim E. destruct v as [bal [e|]];
    [ exfalso; eapply fail_not_ok; exact H | ].
  unfold UpdateBalancesAtIndex in H.
  destruct h as [[[st|]]|]; try (inversion H; fail).
  rewrite BalanceAtIndex_some in E.
  destruct (State.Inner.Balances st) as [bals|] eqn:Hb; simpl in H.
  2:{ destruct (Z.leb_spec 0 idx); [inversion H | lia]. }
  destruct (Z.leb_spec (len bals) idx) as [Hle|Hlt]; [inversion H | ].
  inversion H; subst. clear H.
  unfold State.index in E.
  destruct (Z.ltb_spec idx 0) as [Hneg|Hpos]; [discriminate | ].
  destruct (bals !! Z.to_nat idx) as [bal0|] eqn:Hl; [ | discriminate ].
  simpl in E. inversion E; subst bal0.
  exists st, bals, bal. rewrite Hb. repeat split; auto.
Qed.

(** The proposer index is a [uint64]. *)
Definition proposer_index_typed : Prop :=
  forall h i, BeaconProposerIndex h = Ok i -> 0 <= i.

Lemma storeAndReward_ok_inv c ep num h h1 u :
  proposer_index_typed ->
  storeAndReward cfg c ep num h = (h1, Ok u) ->
  exists st i bals bal,
    let st' :=
      if bool_decide (Checkpoint.Epoch (c_target c) = c_currEpoch c)
      then State.Inner.with_CurrentEpochParticipation ep st
      else State.Inner.with_PreviousEpochParticipation ep st in
    let divisor :=
      wrap64 (RewardDenominator cfg * ProposerRewardQuotient cfg) in
    h = Some (State.mkBeaconState (Some st)) /\
    divisor <> 0 /\
    BeaconProposerIndex (Some (State.mkBeaconState (Some st'))) = Ok i /\
    State.Inner.Balances st = Some bals /\
    0 <= i /\
    bals !! Z.to_nat i = Some bal /\
    h1 = Some (State.mkBeaconState (Some
           (State.Inner.with_Balances
              (Some (<[Z.to_nat i := wrap64 (bal + num / divisor)]> bals))
              st'))).
Proof.
  intros Hty. rewrite storeAndReward_unfold.
  unfold writeBack, SetCurrentParticipationBits, SetPreviousParticipationBits.
  destruct h as [[[st|]]|];
    destruct (bool_decide (Checkpoint.Epoch (c_target c) = c_currEpoch c));
    try discriminate;
    intros H;
    destruct (div64 num (wrap64 (RewardDenominator cfg
                                 * ProposerRewardQuotient cfg)))
      as [reward|] eqn:Hdiv; try discriminate;
    apply div64_inv in Hdiv as [Hnz ->];
    match type of H with
    | context [BeaconProposerIndex ?x] =>
        destruct (BeaconProposerIndex x) as [i| |] eqn:Hi
    end; try discriminate;
    pose proof (Hty _ _ Hi) as Hi0;
    apply (IncreaseBalance_ok_inv _ _ _ _ _ Hi0) in H
      as (st2 & bals & bal & Hst2 & Hb & Hl & ->);
    inversion Hst2; subst st2;
    exists st, i, bals, bal; cbv zeta; repeat split; auto.
Qed.

(** What success leaves in the balances: the proposer [i] (the index
    [BeaconProposerIndex] returns on the state after the participation
    write-back) holds [bal + reward] and every other balance is as
    before, where [reward = sum / product] rounded down, [sum] being the
    total over the distinct attesting indices of the contributions of the
    newly-set flags and [product = REWARD_DENOMINATOR *
    PROPOSER_REWARD_QUOTIENT].  All values are [uint64]; the last clause
    gives the exact amount when nothing overflows. *)
Definition proposer_rewarded (att : option Attestation.t) (h h1 : store)
  : Prop :=
  exists c participatedFlags a indices ep st i bals bal,
    let sum :=
      total cfg participatedFlags h (c_epochParticipation c)
        (firsts [] indices) in
    let product := RewardDenominator cfg * ProposerRewardQuotient cfg in
    let reward := wrap64 sum / wrap64 product in
    let st' :=
      if bool_decide (Checkpoint.Epoch (c_target c) = c_currEpoch c)
      then State.Inner.with_CurrentEpochParticipation ep st
      else State.Inner.with_PreviousEpochParticipation ep st in
    attestationChecks cfg att h = (h, Ok c) /\
    participationFlags cfg c h = (h, Ok participatedFlags) /\
    att = Some a /\
    AttestingIndices (Attestation.AggregationBits a) (c_committee c)
      = Ok indices /\
    h = Some (State.mkBeaconState (Some st)) /\
    BeaconProposerIndex (Some (State.mkBeaconState (Some st'))) = Ok i /\
    State.Inner.Balances st = Some bals /\
    bals !! Z.to_nat i = Some bal /\
    wrap64 product <> 0 /\
    h1 = Some (State.mkBeaconState (Some
           (State.Inner.with_Balances
              (Some (<[Z.to_nat i := wrap64 (bal + reward)]> bals)) st'))) /\
    (forall j, j <> Z.to_nat i ->
       <[Z.to_nat i := wrap64 (bal + reward)]> bals !! j = bals !! j) /\
    (0 <= sum < uint64_limit ->
     0 < product < uint64_limit ->
     0 <= bal ->
     bal + sum / product < uint64_limit ->
     wrap64 (bal + reward) = bal + sum / product).

(** C5.  On success the balance of the current block proposer is
    credited with [numerator / (REWARD_DENOMINATOR *
    PROPOSER_REWARD_QUOTIENT)], rounded down, where the numerator is the
    sum over the attesting indices and over the flags that are granted and
    were not yet recorded (the newly-set flags) of [base_reward(index)]
    times the flag's numerator constant; no other balance changes
    ([proposer_rewarded]).  The flag helpers are assumed to satisfy
    [flag_laws], the three flag constants to be distinct and the proposer
    index to be non-negative. *)
Theorem C5_proposer_reward (att : option Attestation.t) (h h1 : store) :
  flag_laws cfg ->
  flags_distinct cfg ->
  proposer_index_typed ->
  ProcessAttestationNoVerifySignature cfg att h = (h1, Ok tt) ->
  proposer_rewarded att h h1.
Proof.
  intros Hlaws Hdist Hty H.
  rewrite ProcessAttestationNoVerifySignature_split in H.
  apply bind_ok_inv in H as ([c [ep num]] & h' & Hprep & Hstore).
  apply prepare_ok_inv in Hprep
    as [-> (fl & a & indices & Hchk & Hfl & Hatt & Hidx & Hloop)].
  simpl in Hstore.
  apply (attestingLoop_numerator cfg fl Hlaws) in Hloop as Hnum;
    [ | exact Hdist ].
  apply (storeAndReward_ok_inv _ _ _ _ _ _ Hty) in Hstore
    as (st & i & bals & bal & Hh & Hnz & Hprop & Hb & Hi0 & Hl & Hh1).
  exists c, fl, a, indices, ep, st, i, bals, bal. cbv zeta.
  subst num.
  repeat split; try assumption.
  - intros j Hj. apply list_lookup_insert_ne. auto.
  - intros Hsum Hprod Hbal Hfit.
    rewrite (wrap64_small (total cfg fl h (c_epochParticipation c)
                             (firsts [] indices))) by exact Hsum.
    rewrite (wrap64_small (RewardDenominator cfg
                           * ProposerRewardQuotient cfg)) by lia.
    apply wrap64_small. split; [ | exact Hfit ].
    assert (0 <= total cfg fl h (c_epochParticipation c) (firsts [] indices)
                 / (RewardDenominator cfg * ProposerRewardQuotient cfg))
      by (apply Z.div_pos; lia).
    lia.
Qed.

(** **** Applying the same attestation again *)

(** A state with the participation arrays and the balances blanked: what
    committee assignment and block-root lookup may depend on. *)
Definition forget (h : store) : store :=
  match h with
  | Some (State.mkBeaconState (Some st)) =>
      Some (State.mkBeaconState (Some
        (State.Inner.with_Balances None
           (State.Inner.with_CurrentEpochParticipation None
              (State.Inner.with_PreviousEpochParticipation None st)))))
  | _ => h
  end.

(** The committee and block-root helpers read neither the participation
    arrays nor the balances. *)
Definition reads_chain_only : Prop :=
  forall h h', forget h = forget h' ->
    (forall s i, BeaconCommitteeFromState h s i
                 = BeaconCommitteeFromState h' s i) /\
    (forall e, BlockRoot h e = BlockRoot h' e) /\
    (forall s, BlockRootAtSlot h s = BlockRootAtSlot h' s).

(** Every balance of the state is a [uint64]. *)
Definition balances_typed (h : store) : Prop :=
  forall st bals b,
    h = Some (State.mkBeaconState (Some st)) ->
    State.Inner.Balances st = Some bals -> b ∈ bals -> is_uint64 b.

(** The flags depend on the checks' outcome and on the state's slot only. *)
Lemma participationFlags_ext c c' h h' :
  c_data c = c_data c' ->
  c_matchingHead c = c_matchingHead c' ->
  c_matchingTarget c = c_matchingTarget c' ->
  c_matchingSource c = c_matchingSource c' ->
  State.Slot h = State.Slot h' ->
  (participationFlags cfg c h).2 = (participationFlags cfg c' h').2.
Proof.
  intros Hd HH HT HS Hslot.
  destruct (Slot_returns h') as [slot Hs'].
  assert (Hrd' : read State.Slot h' = (h', Ok slot))
    by (unfold read; rewrite Hs'; reflexivity).
  assert (Hrd : read State.Slot h = (h, Ok slot))
    by (unfold read; rewrite Hslot, Hs'; reflexivity).
  unfold participationFlags. rewrite Hd, HH, HT, HS.
  destruct (Slot_Add (AttestationData.Slot (c_data c'))
              (IntegerSquareRoot (SlotsPerEpoch cfg)));
    destruct (c_matchingHead c'), (c_matchingTarget c'),
      (c_matchingSource c');
    cbn [andb]; unfold mbind, M_bind;
    repeat (cbv beta iota; rewrite ?Hrd, ?Hrd';
            unfold mret, M_ret, call, of_outcome);
    reflexivity.
Qed.

(** The state a successful run leaves, given the state it started from. *)
Lemma success_shape att h h1 :
  proposer_index_typed ->
  ProcessAttestationNoVerifySignature cfg att h = (h1, Ok tt) ->
  exists c fl a indices ep num st i bals bal,
    attestationChecks cfg att h = (h, Ok c) /\
    participationFlags cfg c h = (h, Ok fl) /\
    att = Some a /\
    AttestingIndices (Attestation.AggregationBits a) (c_committee c)
      = Ok indices /\
    attestingLoop cfg fl indices (c_epochParticipation c, 0) h
      = (h, Ok (ep, num)) /\
    h = Some (State.mkBeaconState (Some st)) /\
    State.Inner.Balances st = Some bals /\
    bals !! Z.to_nat i = Some bal /\
    h1 = Some (State.mkBeaconState (Some
           (State.Inner.with_Balances
              (Some (<[Z.to_nat i :=
                       wrap64 (bal + num / wrap64 (RewardDenominator cfg
                                        * ProposerRewardQuotient cfg))]> bals))
              (if bool_decide (Checkpoint.Epoch (c_target c) = c_currEpoch c)
               then State.Inner.with_CurrentEpochParticipation ep st
               else State.Inner.with_PreviousEpochParticipation ep st)))).
Proof.
  intros Hty H.
  rewrite ProcessAttestationNoVerifySignature_split in H.
  apply bind_ok_inv in H as ([c [ep num]] & h' & Hprep & Hstore).
  apply prepare_ok_inv in Hprep
    as [-> (fl & a & indices & Hchk & Hfl & Hatt & Hidx & Hloop)].
  simpl in Hstore.
  apply (storeAndReward_ok_inv _ _ _ _ _ _ Hty) in Hstore
    as (st & i & bals & bal & Hh & Hnz & Hprop & Hb & Hi0 & Hl & Hh1).
  exists c, fl, a, indices, ep, num, st, i, bals, bal.
  repeat split; assumption.
Qed.

Lemma CurrentEpochParticipation_some st :
  State.CurrentEpochParticipation (Some (State.mkBeaconState (Some st)))
  = Returns (State.Inner.CurrentEpochParticipation st).
Proof.
  unfold State.CurrentEpochParticipation.
  rewrite (StateFacts.HasInnerState_some (State.mkBeaconState (Some st)) st
             eq_refl).
  rewrite (StateFacts.inner_some (State.mkBeaconState (Some st)) st eq_refl).
  simpl. destruct (State.Inner.CurrentEpochParticipation st); reflexivity.
Qed.

Lemma PreviousEpochParticipation_some st :
  State.PreviousEpochParticipation (Some (State.mkBeaconState (Some st)))
  = Returns (State.Inner.PreviousEpochParticipation st).
Proof.
  unfold State.PreviousEpochParticipation.
  rewrite (StateFacts.HasInnerState_some (State.mkBeaconState (Some st)) st
             eq_refl).
  rewrite (StateFacts.inner_some (State.mkBeaconState (Some st)) st eq_refl).
  simpl. destruct (State.Inner.PreviousEpochParticipation st); reflexivity.
Qed.

Lemma Slot_some st :
  State.Slot (Some (State.mkBeaconState (Some st)))
  = Returns (State.Inner.Slot st).
Proof.
  unfold State.Slot.
  rewrite (StateFacts.HasInnerState_some (State.mkBeaconState (Some st)) st
             eq_refl).
  rewrite (StateFacts.inner_some (State.mkBeaconState (Some st)) st eq_refl).
  reflexivity.
Qed.

(** The state after a successful run, written as one update of the state
    before it. *)
Definition updated (isCurrent : bool) (ep : option bytes) (bals : list Z)
    (st : State.Inner.t) : State.Inner.t :=
  State.Inner.with_Balances (Some bals)
    (if isCurrent then State.Inner.with_CurrentEpochParticipation ep st
     else State.Inner.with_PreviousEpochParticipation ep st).

Lemma updated_again isCurrent ep bals st :
  updated isCurrent ep bals (updated isCurrent ep bals st)
  = updated isCurrent ep bals st.
Proof. destruct isCurrent; reflexivity. Qed.

Lemma forget_updated isCurrent ep bals st :
  State.Inner.Balances st <> None ->
  forget (Some (State.mkBeaconState (Some (updated isCurrent ep bals st))))
  = forget (Some (State.mkBeaconState (Some st))).
Proof. intros _. destruct isCurrent; reflexivity. Qed.

Lemma selected_updated (isCurrent : bool) ep bals st :
  (if isCurrent
   then State.CurrentEpochParticipation
          (Some (State.mkBeaconState (Some (updated isCurrent ep bals st))))
   else State.PreviousEpochParticipation
          (Some (State.mkBeaconState (Some (updated isCurrent ep bals st)))))
  = Returns ep.
Proof.
  destruct isCurrent;
    rewrite ?CurrentEpochParticipation_some, ?PreviousEpochParticipation_some;
    reflexivity.
Qed.

(** A second successful run on the state the first one left changes
    nothing. *)
Lemma second_application att h h1 h2 :
  flag_laws cfg ->
  reads_chain_only ->
  proposer_index_typed ->
  balances_typed h ->
  ProcessAttestationNoVerifySignature cfg att h = (h1, Ok tt) ->
  ProcessAttestationNoVerifySignature cfg att h1 = (h2, Ok tt) ->
  h2 = h1.
Proof.
  intros Hlaws Hframe Hty Hbt H1 H2.
  apply (success_shape _ _ _ Hty) in H1
    as (c & fl & a & indices & ep & num & st & i & bals & bal
        & Hchk & Hfl & Hatt & Hidx & Hloop & Hh & Hb & Hl & Hh1).
  apply (success_shape _ _ _ Hty) in H2
    as (c' & fl' & a' & indices' & ep' & num' & st' & i' & bals' & bal'
        & Hchk' & Hfl' & Hatt' & Hidx' & Hloop' & Hh' & Hb' & Hl' & Hh2).
  set (isCurrent :=
         bool_decide (Checkpoint.Epoch (c_target c) = c_currEpoch c)) in *.
  set (bals1 :=
         <[Z.to_nat i :=
             wrap64 (bal + num / wrap64 (RewardDenominator cfg
                                         * ProposerRewardQuotient cfg))]>
           bals) in *.
  fold (updated isCurrent ep bals1 st) in Hh1.
  subst att. inversion Hatt'; subst a'. clear Hatt'.
  apply attestationChecks_ok_inv in Hchk as [_ P].
  apply attestationChecks_ok_inv in Hchk' as [_ P'].
  destruct P as [slot j rT rH [a0 [Ha0 Hda]] Htgt Hslot Hspe Hcurr Hep Hse
                   Hmin Hmax Hcomm Hsel [Hms Hcp] [HrT HmT] [HrH HmH]].
  destruct P' as [slot' j' rT' rH' [a1 [Ha1 Hda']] Htgt' Hslot' Hspe' Hcurr'
                    Hep' Hse' Hmin' Hmax' Hcomm' Hsel' [Hms' Hcp'] [HrT' HmT']
                    [HrH' HmH']].
  inversion Ha0; subst a0. inversion Ha1; subst a1. clear Ha0 Ha1.
  assert (Hdata : c_data c' = c_data c) by congruence.
  assert (Htarget : c_target c' = c_target c) by congruence.
  assert (Hst1 : st' = updated isCurrent ep bals1 st) by congruence.
  assert (Hslots : State.Slot h1 = State.Slot h).
  { rewrite Hh1, Hh, !Slot_some. unfold updated.
    destruct isCurrent; reflexivity. }
  assert (Hcurrs : c_currEpoch c' = c_currEpoch c).
  { rewrite Hcurr, Hcurr'. rewrite Hslots, Hslot in Hslot'.
    inversion Hslot'. reflexivity. }
  assert (Hforget : forget h1 = forget h).
  { rewrite Hh1, Hh. apply forget_updated. rewrite Hb. discriminate. }
  destruct (Hframe h1 h Hforget) as (Fc & Fr & Fs).
  assert (Hcommittee : c_committee c' = c_committee c).
  { rewrite Hdata, Fc, Hcomm in Hcomm'. inversion Hcomm'. reflexivity. }
  assert (HmT2 : c_matchingTarget c' = c_matchingTarget c).
  { rewrite HmT, HmT'. rewrite Htarget, Fr, HrT in HrT'.
    inversion HrT'. rewrite Htarget. reflexivity. }
  assert (HmH2 : c_matchingHead c' = c_matchingHead c).
  { rewrite HmH, HmH'. rewrite Hdata, Fs, HrH in HrH'.
    inversion HrH'. rewrite Hdata. reflexivity. }
  assert (Hfls : fl' = fl).
  { pose proof (participationFlags_ext c' c h1 h Hdata HmH2 HmT2
                  (eq_trans Hms' (eq_sym Hms)) Hslots) as He.
    rewrite Hfl, Hfl' in He. simpl in He. inversion He. reflexivity. }
  assert (Hidxs : indices' = indices).
  { rewrite Hcommittee, Hidx in Hidx'. inversion Hidx'. reflexivity. }
  assert (Hep1 : c_epochParticipation c' = ep).
  { rewrite Htarget, Hcurrs in Hsel'. fold isCurrent in Hsel'.
    pose proof (selected_updated isCurrent ep bals1 st) as Hs.
    rewrite Hh1 in Hsel'.
    destruct isCurrent; destruct Hsel' as [_ Hsel'];
      rewrite Hs in Hsel'; inversion Hsel'; reflexivity. }
  subst fl' indices'. rewrite Hep1 in Hloop'.
  apply (attestingLoop_records cfg fl Hlaws) in Hloop as [_ Hgranted].
  apply (attestingLoop_recorded cfg fl indices ep 0 h1 h1 (ep', num')
           Hgranted) in Hloop' as [_ Hacc].
  inversion Hacc; subst ep' num'. clear Hacc.
  rewrite Htarget, Hcurrs in Hh2. fold isCurrent in Hh2.
  rewrite Zdiv_0_l, Z.add_0_r in Hh2.
  subst st'.
  assert (Hbals' : bals' = bals1).
  { unfold updated in Hb'. destruct isCurrent; simpl in Hb';
      inversion Hb'; reflexivity. }
  subst bals'.
  assert (Hbal' : is_uint64 bal').
  { unfold bals1 in Hl'. apply list_lookup_insert_Some in Hl'
      as [(_ & <- & _)|(_ & Hl')].
    - apply wrap64_range.
    - apply (Hbt st bals bal' Hh Hb). apply list_elem_of_lookup. eauto. }
  rewrite (wrap64_small bal' Hbal') in Hh2.
  rewrite (list_insert_id bals1 (Z.to_nat i') bal' Hl') in Hh2.
  fold (updated isCurrent ep bals1 (updated isCurrent ep bals1 st)) in Hh2.
  rewrite updated_again in Hh2. congruence.
Qed.

(** What a successful run does to the participation flags: the selected
    array of the new state is the loop's result [ep]; every flag recorded
    before is still recorded; every granted flag of every attesting index
    is recorded; a flag already recorded makes its [if] return the slice
    and the numerator untouched; and the loop run again on [ep] returns
    [ep] and a zero numerator. *)
Definition participation_monotonic (att : option Attestation.t)
    (h h1 : store) : Prop :=
  exists c participatedFlags a indices ep num,
    attestationChecks cfg att h = (h, Ok c) /\
    participationFlags cfg c h = (h, Ok participatedFlags) /\
    att = Some a /\
    AttestingIndices (Attestation.AggregationBits a) (c_committee c)
      = Ok indices /\
    attestingLoop cfg participatedFlags indices (c_epochParticipation c, 0) h
      = (h, Ok (ep, num)) /\
    (if bool_decide (Checkpoint.Epoch (c_target c) = c_currEpoch c)
     then State.CurrentEpochParticipation h1
     else State.PreviousEpochParticipation h1) = Returns ep /\
    (forall j g, is_flag cfg g ->
       has_at (c_epochParticipation c) j g = true -> has_at ep j g = true) /\
    (forall idx, idx ∈ indices -> granted_at cfg participatedFlags ep idx) /\
    (forall f numerator idx br slice n,
       has_at slice idx f = true ->
       applyFlag participatedFlags f numerator idx br (slice, n)
       = Returns (slice, n)) /\
    (forall h' h2 ep2 num2,
       attestingLoop cfg participatedFlags indices (ep, 0) h'
       = (h2, Ok (ep2, num2)) ->
       ep2 = ep /\ num2 = 0).

(** C3.  Participation updates are monotonic and re-application is a
    no-op.  For a state and an attestation that processes successfully,
    a flag already set in the selected participation array stays set and
    contributes nothing to the proposer-reward numerator
    ([participation_monotonic]); and processing the same attestation again
    on the resulting state, when it succeeds, returns that state
    unchanged: no new participation bit, no further credit.  Assumed: the
    flag helpers satisfy [flag_laws], the committee and block-root helpers
    read neither participation nor balances, the proposer index is
    non-negative and the balances are [uint64] values. *)
Theorem C3_monotonic_participation (att : option Attestation.t)
    (h h1 : store) :
  flag_laws cfg ->
  reads_chain_only ->
  proposer_index_typed ->
  balances_typed h ->
  ProcessAttestationNoVerifySignature cfg att h = (h1, Ok tt) ->
  participation_monotonic att h h1 /\
  (forall h2,
     ProcessAttestationNoVerifySignature cfg att h1 = (h2, Ok tt) ->
     h2 = h1).
Proof.
  intros Hlaws Hframe Hty Hbt H1.
  split; [ | intros h2 H2; eapply second_application; eassumption ].
  apply (success_shape _ _ _ Hty) in H1
    as (c & fl & a & indices & ep & num & st & i & bals & bal
        & Hchk & Hfl & Hatt & Hidx & Hloop & Hh & Hb & Hl & Hh1).
  exists c, fl, a, indices, ep, num.
  pose proof (attestingLoop_records cfg fl Hlaws _ _ _ _ _ _ _ Hloop)
    as [Hmono Hgranted].
  repeat split; try assumption.
  - rewrite Hh1.
    match goal with
    | |- context [State.Inner.with_Balances (Some ?b) _] =>
        apply (selected_updated _ ep b st)
    end.
  - intros f numerator idx br slice n Hrec.
    apply applyFlag_recorded. exact Hrec.
  - apply (attestingLoop_recorded cfg fl indices ep 0 h' h2 (ep2, num2)
             Hgranted) in H as [_ H]. inversion H. reflexivity.
  - apply (attestingLoop_recorded cfg fl indices ep 0 h' h2 (ep2, num2)
             Hgranted) in H as [_ H]. inversion H. reflexivity.
Qed.

End Whole.

(** C1 (counterexample).  The example attestation of slot 5 carries an
    invalid signature and is processed on the example state at slot 6:
    [ProcessAttestation] returns the signature error, yet the state now
    records all three flags for the four attesters and the proposer's
    balance has grown by 24000.  With a failing proposer-index lookup,
    [ProcessAttestationNoVerifySignature] returns that error and the
    state still records the flags. *)
Lemma C1_counterexample :
  let att := Example.attestation 5 0 Example.bad_signature in
  let h := Example.state_at 6 in
  let r := ProcessAttestation Example.config att h in
  let r' := ProcessAttestationNoVerifySignature (helpers := Example.helpers_no_proposer)
              Example.config att h in
  State.CurrentEpochParticipation h = Returns (Some (replicate 4 Byte.x00)) /\
  State.BalanceAtIndex h 0 = Returns (32000000000, None) /\
  r.2 = Fail (ErrExternal 2) /\
  State.CurrentEpochParticipation r.1
    = Returns (Some (replicate 4 Byte.x07)) /\
  State.BalanceAtIndex r.1 0 = Returns (32000024000, None) /\
  r'.2 = Fail (ErrExternal 4) /\
  State.CurrentEpochParticipation r'.1
    = Returns (Some (replicate 4 Byte.x07)).
Proof. vm_compute. repeat split. Qed.

(** *** The example helpers satisfy the assumptions *)

Lemma example_has_add_same (b f : Byte.byte) :
  Example.has_flag (Example.add_flag b f) f = true.
Proof. destruct b, f; reflexivity. Qed.

Lemma example_flag_laws : flag_laws Example.config.
Proof.
  split.
  - exact example_has_add_same.
  - intros b f g [->|[->| ->]] [->|[->| ->]] Hne;
      try (exfalso; apply Hne; reflexivity);
      destruct b; reflexivity.
Qed.

Lemma example_flags_distinct : flags_distinct Example.config.
Proof. repeat split; discriminate. Qed.

Lemma example_proposer_typed : proposer_index_typed.
Proof. intros h i H. inversion H. lia. Qed.

Lemma C5_proposer_reward_witness :
  proposer_rewarded Example.config
    (Example.attestation 5 0 Example.good_signature)
    (Example.state_at 6)
    (ProcessAttestationNoVerifySignature Example.config
       (Example.attestation 5 0 Example.good_signature)
       (Example.state_at 6)).1.
Proof.
  apply (C5_proposer_reward Example.config
           (Example.attestation 5 0 Example.good_signature)
           (Example.state_at 6)).
  - exact example_flag_laws.
  - exact example_flags_distinct.
  - exact example_proposer_typed.
  - vm_compute. reflexivity.
Defined.

Lemma example_reads_chain_only : reads_chain_only.
Proof. intros h h' _. repeat split. Qed.

Lemma example_balances_typed slot : balances_typed (Example.state_at slot).
Proof.
  intros st bals b Hh Hb Hin. inversion Hh; subst st. simpl in Hb.
  inversion Hb; subst bals.
  rewrite !elem_of_cons in Hin.
  unfold is_uint64, uint64_limit.
  destruct Hin as [->|[->|[->|[->|Hin]]]]; try lia. inversion Hin.
Qed.

Lemma C3_monotonic_participation_witness :
  participation_monotonic Example.config
    (Example.attestation 5 0 Example.good_signature)
    (Example.state_at 6)
    (ProcessAttestationNoVerifySignature Example.config
       (Example.attestation 5 0 Example.good_signature)
       (Example.state_at 6)).1 /\
  (forall h2,
     ProcessAttestationNoVerifySignature Example.config
       (Example.attestation 5 0 Example.good_signature)
       (ProcessAttestationNoVerifySignature Example.config
          (Example.attestation 5 0 Example.good_signature)
          (Example.state_at 6)).1
     = (h2, Ok tt) ->
     h2 = (ProcessAttestationNoVerifySignature Example.config
             (Example.attestation 5 0 Example.good_signature)
             (Example.state_at 6)).1).
Proof.
  apply (C3_monotonic_participation Example.config
           (Example.attestation 5 0 Example.good_signature)
           (Example.state_at 6)).
  - exact example_flag_laws.
  - exact example_reads_chain_only.
  - exact example_proposer_typed.
  - exact (example_balances_typed 6).
  - vm_compute. reflexivity.
Defined.

(** The example attestation applied twice: the second run succeeds and
    returns the state of the first. *)
Lemma example_applied_twice :
  let att := Example.attestation 5 0 Example.good_signature in
  let r1 := ProcessAttestationNoVerifySignature Example.config att
              (Example.state_at 6) in
  let r2 := ProcessAttestationNoVerifySignature Example.config att r1.1 in
  r1.2 = Ok tt /\ r2 = (r1.1, Ok tt) /\ r1.1 <> Example.state_at 6.
Proof. vm_compute. repeat split. discriminate. Qed.

End BlocksFacts.

(** * Package [ethereum_beacon_p2p_v1]: the generated SSZ codec *)

(** ** Primitives of the [fastssz] dependency

    Modelled from the spec (4.2): integers are little-endian, an offset is
    a 4-byte little-endian integer, a list whose element count exceeds its
    limit is refused. *)

Module SSZ.

Inductive error : Type :=
| ErrSize
| ErrOffset
| ErrBytesLength
| ErrVectorLength
| ErrListTooBig
| ErrIncorrectListSize
| ErrDivideInt
| ErrExternal (code : nat).  (* made by a codec outside the sources *)

Inductive result (A : Type) : Type :=
| Ok (a : A)
| Err (e : error).
Arguments Ok {A} a.
Arguments Err {A} e.

#[global] Instance result_ret : MRet result := fun _ a => Ok a.
#[global] Instance result_bind : MBind result := fun _ _ k r =>
  match r with
  | Ok a => k a
  | Err e => Err e
  end.

Definition is_ok {A} (r : result A) : bool :=
  match r with
  | Ok _ => true
  | Err _ => false
  end.

Definition byte_of_Z (z : Z) : Byte.byte :=
  default Byte.x00 (Byte.of_N (Z.to_N (z mod 256))).

Definition Z_of_byte (b : Byte.byte) : Z := Z.of_N (Byte.to_N b).

(** The [n] low bytes of [v], least significant first. *)
Fixpoint le_bytes (n : nat) (v : Z) : bytes :=
  match n with
  | O => []
  | S k => byte_of_Z v :: le_bytes k (v / 256)
  end.

Fixpoint le_value (bs : bytes) : Z :=
  match bs with
  | [] => 0
  | b :: rest => Z_of_byte b + 256 * le_value rest
  end.

(** [buf[lo:hi]] *)
Definition slice (buf : bytes) (lo hi : Z) : bytes :=
  take (Z.to_nat (hi - lo)) (drop (Z.to_nat lo) buf).

(** [buf[lo:]] *)
Definition slice_from (buf : bytes) (lo : Z) : bytes :=
  drop (Z.to_nat lo) buf.

(** Modelled from the spec: [ssz.MarshalUint64], eight bytes,
    little-endian. *)
Definition MarshalUint64 (dst : bytes) (v : Z) : bytes := dst ++ le_bytes 8 v.

(** Modelled from the spec: [ssz.UnmarshallUint64], on an 8-byte slice. *)
Definition UnmarshallUint64 (src : bytes) : Z := le_value (take 8 src).

(** Modelled from the spec: [ssz.WriteOffset], the offset as a 4-byte
    little-endian integer. *)
Definition WriteOffset (dst : bytes) (offset : Z) : bytes :=
  dst ++ le_bytes 4 offset.

(** Modelled from the spec: [ssz.ReadOffset], on a 4-byte slice. *)
Definition ReadOffset (src : bytes) : Z := le_value (take 4 src).

(** Modelled from the spec: [ssz.DivideInt2], the element count of a
    region of [a] bytes holding
    elements of [b] bytes, at most [max] of them. *)
Definition DivideInt2 (a b max : Z) : result Z :=
  if negb (a mod b =? 0) then Err ErrDivideInt
  else if max <? a / b then Err ErrListTooBig
  else Ok (a / b).

(** The [count] consecutive elements of [size] bytes of a region,
    [buf[ii*size:(ii+1)*size]] for [ii < count]. *)
Definition chunks (count : nat) (size : Z) (buf : bytes) : list bytes :=
  map (fun ii => slice buf (Z.of_nat ii * size) ((Z.of_nat ii + 1) * size))
    (seq 0 count).

(** The loop [for ii := 0; ii < n; ii++] that appends the elements of a
    vector of byte strings, each of which must have [size] bytes. *)
Fixpoint marshal_bytes_vector (size : Z) (v : list bytes) (dst : bytes)
  : result bytes :=
  match v with
  | [] => Ok dst
  | x :: rest =>
      if negb (len x =? size) then Err ErrBytesLength
      else marshal_bytes_vector size rest (dst ++ x)
  end.

(** The loop that appends the elements of a vector of [uint64]. *)
Definition marshal_uint64_vector (v : list Z) (dst : bytes) : bytes :=
  foldl MarshalUint64 dst v.

(** The [count] [uint64] elements of a region, [buf[ii*8:(ii+1)*8]] for
    [ii < count]. *)
Definition unmarshal_uint64_vector (count : nat) (buf : bytes) : list Z :=
  map UnmarshallUint64 (chunks count 8 buf).

End SSZ.


(** ** The generated codecs *)

Module Status.
Record t : Type := mk {
  ForkDigest : bytes;
  FinalizedRoot : bytes;
  FinalizedEpoch : Z;
  HeadRoot : bytes;
  HeadSlot : Z
}.
Definition zero : t := mk [] [] 0 [] 0.
End Status.

Module SigningData.
Record t : Type := mk {
  ObjectRoot : bytes;
  Domain : bytes
}.
Definition zero : t := mk [] [].
End SigningData.

Module ForkData.
Record t : Type := mk {
  CurrentVersion : bytes;
  GenesisValidatorsRoot : bytes
}.
Definition zero : t := mk [] [].
End ForkData.

Module DepositMessage.
Record t : Type := mk {
  PublicKey : bytes;
  WithdrawalCredentials : bytes;
  Amount : Z
}.
Definition zero : t := mk [] [] 0.
End DepositMessage.

Module HistoricalBatch.
Record t : Type := mk {
  BlockRoots : list bytes;
  StateRoots : list bytes
}.
Definition zero : t := mk [] [].
End HistoricalBatch.

Module P2P.
Import SSZ.

(** [ssz.MarshalSSZ(x)] calls [x.MarshalSSZTo] on an empty buffer.  In
    every [UnmarshalSSZ] the receiver is the record decoded into: a byte
    field is appended to what the receiver holds, a vector of byte strings
    is replaced, a vector of integers is written into the slice the helper
    [ssz.ExtendUint64] makes of the one the receiver holds. *)

(** *** Status *)

Definition Status_MarshalSSZTo (s : Status.t) (buf : bytes) : result bytes :=
  let dst := buf in
  if negb (len (Status.ForkDigest s) =? 4) then Err ErrBytesLength else
  let dst := dst ++ Status.ForkDigest s in
  if negb (len (Status.FinalizedRoot s) =? 32) then Err ErrBytesLength else
  let dst := dst ++ Status.FinalizedRoot s in
  let dst := MarshalUint64 dst (Status.FinalizedEpoch s) in
  if negb (len (Status.HeadRoot s) =? 32) then Err ErrBytesLength else
  let dst := dst ++ Status.HeadRoot s in
  let dst := MarshalUint64 dst (Status.HeadSlot s) in
  Ok dst.

Definition Status_MarshalSSZ (s : Status.t) : result bytes :=
  Status_MarshalSSZTo s [].

Definition Status_UnmarshalSSZ (s : Status.t) (buf : bytes)
  : result Status.t :=
  let size := len buf in
  if negb (size =? 84) then Err ErrSize else
  Ok (Status.mk
        (Status.ForkDigest s ++ slice buf 0 4)
        (Status.FinalizedRoot s ++ slice buf 4 36)
        (UnmarshallUint64 (slice buf 36 44))
        (Status.HeadRoot s ++ slice buf 44 76)
        (UnmarshallUint64 (slice buf 76 84))).


(** *** Fork *)

Definition Fork_MarshalSSZTo (f : Fork.t) (buf : bytes) : result bytes :=
  let dst := buf in
  if negb (len (Fork.PreviousVersion f) =? 4) then Err ErrBytesLength else
  let dst := dst ++ Fork.PreviousVersion f in
  if negb (len (Fork.CurrentVersion f) =? 4) then Err ErrBytesLength else
  let dst := dst ++ Fork.CurrentVersion f in
  let dst := MarshalUint64 dst (Fork.Epoch f) in
  Ok dst.

Definition Fork_MarshalSSZ (f : Fork.t) : result bytes :=
  Fork_MarshalSSZTo f [].

Definition Fork_UnmarshalSSZ (f : Fork.t) (buf : bytes) : result Fork.t :=
  let size := len buf in
  if negb (size =? 16) then Err ErrSize else
  Ok (Fork.mk
        (Fork.PreviousVersion f ++ slice buf 0 4)
        (Fork.CurrentVersion f ++ slice buf 4 8)
        (UnmarshallUint64 (slice buf 8 16))).


(** *** SigningData *)

Definition SigningData_MarshalSSZTo (s : SigningData.t) (buf : bytes)
  : result bytes :=
  let dst := buf in
  if negb (len (SigningData.ObjectRoot s) =? 32) then Err ErrBytesLength else
  let dst := dst ++ SigningData.ObjectRoot s in
  if negb (len (SigningData.Domain s) =? 32) then Err ErrBytesLength else
  let dst := dst ++ SigningData.Domain s in
  Ok dst.

Definition SigningData_MarshalSSZ (s : SigningData.t) : result bytes :=
  SigningData_MarshalSSZTo s [].

Definition SigningData_UnmarshalSSZ (s : SigningData.t) (buf : bytes)
  : result SigningData.t :=
  let size := len buf in
  if negb (size =? 64) then Err ErrSize else
  Ok (SigningData.mk
        (SigningData.ObjectRoot s ++ slice buf 0 32)
        (SigningData.Domain s ++ slice buf 32 64)).


(** *** ForkData *)

Definition ForkData_MarshalSSZTo (f : ForkData.t) (buf : bytes)
  : result bytes :=
  let dst := buf in
  if negb (len (ForkData.CurrentVersion f) =? 4) then Err ErrBytesLength else
  let dst := dst ++ ForkData.CurrentVersion f in
  if negb (len (ForkData.GenesisValidatorsRoot f) =? 32)
  then Err ErrBytesLength else
  let dst := dst ++ ForkData.GenesisValidatorsRoot f in
  Ok dst.

Definition ForkData_MarshalSSZ (f : ForkData.t) : result bytes :=
  ForkData_MarshalSSZTo f [].

Definition ForkData_UnmarshalSSZ (f : ForkData.t) (buf : bytes)
  : result ForkData.t :=
  let size := len buf in
  if negb (size =? 36) then Err ErrSize else
  Ok (ForkData.mk
        (ForkData.CurrentVersion f ++ slice buf 0 4)
        (ForkData.GenesisValidatorsRoot f ++ slice buf 4 36)).


(** *** DepositMessage *)

Definition DepositMessage_MarshalSSZTo (d : DepositMessage.t) (buf : bytes)
  : result bytes :=
  let dst := buf in
  if negb (len (DepositMessage.PublicKey d) =? 48) then Err ErrBytesLength else
  let dst := dst ++ DepositMessage.PublicKey d in
  if negb (len (DepositMessage.WithdrawalCredentials d) =? 32)
  then Err ErrBytesLength else
  let dst := dst ++ DepositMessage.WithdrawalCredentials d in
  let dst := MarshalUint64 dst (DepositMessage.Amount d) in
  Ok dst.

Definition DepositMessage_MarshalSSZ (d : DepositMessage.t) : result bytes :=
  DepositMessage_MarshalSSZTo d [].

Definition DepositMessage_UnmarshalSSZ (d : DepositMessage.t) (buf : bytes)
  : result DepositMessage.t :=
  let size := len buf in
  if negb (size =? 88) then Err ErrSize else
  Ok (DepositMessage.mk
        (DepositMessage.PublicKey d ++ slice buf 0 48)
        (DepositMessage.WithdrawalCredentials d ++ slice buf 48 80)
        (UnmarshallUint64 (slice buf 80 88))).


(** *** SyncCommittee *)

Definition SyncCommittee_MarshalSSZTo (s : SyncCommittee.t) (buf : bytes)
  : result bytes :=
  let dst := buf in
  if negb (len (SyncCommittee.Pubkeys s) =? 1024) then Err ErrVectorLength else
  dst ← marshal_bytes_vector 48 (SyncCommittee.Pubkeys s) dst;
  if negb (len (SyncCommittee.PubkeyAggregates s) =? 16)
  then Err ErrVectorLength else
  dst ← marshal_bytes_vector 48 (SyncCommittee.PubkeyAggregates s) dst;
  Ok dst.

Definition SyncCommittee_MarshalSSZ (s : SyncCommittee.t) : result bytes :=
  SyncCommittee_MarshalSSZTo s [].

Definition SyncCommittee_UnmarshalSSZ (s : SyncCommittee.t) (buf : bytes)
  : result SyncCommittee.t :=
  let size := len buf in
  if negb (size =? 49920) then Err ErrSize else
  Ok (SyncCommittee.mk
        (chunks (Z.to_nat 1024) 48 (slice buf 0 49152))
        (chunks (Z.to_nat 16) 48 (slice buf 49152 49920))).


(** *** HistoricalBatch *)

Definition HistoricalBatch_MarshalSSZTo (h : HistoricalBatch.t) (buf : bytes)
  : result bytes :=
  let dst := buf in
  if negb (len (HistoricalBatch.BlockRoots h) =? 8192)
  then Err ErrVectorLength else
  dst ← marshal_bytes_vector 32 (HistoricalBatch.BlockRoots h) dst;
  if negb (len (HistoricalBatch.StateRoots h) =? 8192)
  then Err ErrVectorLength else
  dst ← marshal_bytes_vector 32 (HistoricalBatch.StateRoots h) dst;
  Ok dst.

Definition HistoricalBatch_MarshalSSZ (h : HistoricalBatch.t) : result bytes :=
  HistoricalBatch_MarshalSSZTo h [].

Definition HistoricalBatch_UnmarshalSSZ (h : HistoricalBatch.t) (buf : bytes)
  : result HistoricalBatch.t :=
  let size := len buf in
  if negb (size =? 524288) then Err ErrSize else
  Ok (HistoricalBatch.mk
        (chunks (Z.to_nat 8192) 32 (slice buf 0 262144))
        (chunks (Z.to_nat 8192) 32 (slice buf 262144 524288))).


(** *** BeaconState *)

(** The codecs of package [v1alpha1], generated like the ones above but
    outside the sources.  A marshaller is called on a pointer, which is
    [nil] for a [nil] element of a list; an unmarshaller is only called on
    a receiver the caller has made non-nil.

    With them, the helper [ssz.ExtendUint64(b, needLen)] of the decoder,
    of package [ssz], outside the sources as well: it returns the slice [b]
    grown and cut to [needLen] elements.  It has no error result; where it
    does not return (a slice expression beyond the capacity it has made is
    a run-time panic), the parameter fails, and the decoder with it. *)
Class External : Type := mkExternal {
  BeaconBlockHeader_MarshalSSZTo :
    option BeaconBlockHeader.t -> bytes -> result bytes;
  BeaconBlockHeader_UnmarshalSSZ :
    BeaconBlockHeader.t -> bytes -> result BeaconBlockHeader.t;
  Eth1Data_MarshalSSZTo : option Eth1Data.t -> bytes -> result bytes;
  Eth1Data_UnmarshalSSZ : Eth1Data.t -> bytes -> result Eth1Data.t;
  Checkpoint_MarshalSSZTo : option Checkpoint.t -> bytes -> result bytes;
  Checkpoint_UnmarshalSSZ : Checkpoint.t -> bytes -> result Checkpoint.t;
  Validator_MarshalSSZTo : option Validator.t -> bytes -> result bytes;
  Validator_UnmarshalSSZ : Validator.t -> bytes -> result Validator.t;
  ExtendUint64 : option (list Z) -> Z -> result (list Z)
}.

(** [if p == nil { p = new(T) }], the pointer the methods are then called
    on.  The assignment to the field of the marshalled record is not
    modelled. *)
Definition or_new {T} (new : T) (p : option T) : T := default new p.

(** The loop [for ii := 0; ii < len(v); ii++] over a list of records. *)
Fixpoint marshal_elements {T} (marshal : option T -> bytes -> result bytes)
  (v : list (option T)) (dst : bytes) : result bytes :=
  match v with
  | [] => Ok dst
  | x :: rest => dst ← marshal x dst; marshal_elements marshal rest dst
  end.

(** The loop that decodes the elements of a list of records, each into a
    new record. *)
Fixpoint unmarshal_elements {T} (new : T) (unmarshal : T -> bytes -> result T)
  (regions : list bytes) : result (list (option T)) :=
  match regions with
  | [] => Ok []
  | region :: rest =>
      x ← unmarshal new region;
      xs ← unmarshal_elements new unmarshal rest;
      Ok (Some x :: xs)
  end.

(** The loop [for ii := 0; ii < count; ii++] that writes the elements of
    a region, [v[ii] = ssz.UnmarshallUint64(buf[ii*8:(ii+1)*8])], into the
    slice [v] that [ssz.ExtendUint64] has returned.  The helper returns
    [count] elements, so that every index is within [v]; beyond it, where
    Go panics, the list is left as it is. *)
Definition fill_uint64_vector (v : list Z) (count : nat) (buf : bytes)
  : list Z :=
  foldl (fun v ii =>
           <[ii := UnmarshallUint64
                     (slice buf (Z.of_nat ii * 8) ((Z.of_nat ii + 1) * 8))]> v)
    v (seq 0 count).

Record offsets : Type := mkOffsets {
  o7 : Z; o9 : Z; o11 : Z; o12 : Z; o15 : Z; o16 : Z
}.

Section BeaconState.
Context {external : External}.
Import State.

Definition BeaconState_MarshalSSZTo (b : Inner.t) (buf : bytes)
  : result bytes :=
  let dst := buf in
  let offset := 2787217 in
  let dst := MarshalUint64 dst (Inner.GenesisTime b) in
  if negb (len_nilable (Inner.GenesisValidatorsRoot b) =? 32)
  then Err ErrBytesLength else
  let dst := dst ++ default [] (Inner.GenesisValidatorsRoot b) in
  let dst := MarshalUint64 dst (Inner.Slot b) in
  dst ← Fork_MarshalSSZTo (or_new Fork.zero (Inner.Fork b)) dst;
  dst ← BeaconBlockHeader_MarshalSSZTo
          (Some (or_new BeaconBlockHeader.zero (Inner.LatestBlockHeader b))) dst;
  if negb (len_nilable (Inner.BlockRoots b) =? 8192)
  then Err ErrVectorLength else
  dst ← marshal_bytes_vector 32 (default [] (Inner.BlockRoots b)) dst;
  if negb (len_nilable (Inner.StateRoots b) =? 8192)
  then Err ErrVectorLength else
  dst ← marshal_bytes_vector 32 (default [] (Inner.StateRoots b)) dst;
  let dst := WriteOffset dst offset in
  let offset := offset + len_nilable (Inner.HistoricalRoots b) * 32 in
  dst ← Eth1Data_MarshalSSZTo
          (Some (or_new Eth1Data.zero (Inner.Eth1Data b))) dst;
  let dst := WriteOffset dst offset in
  let offset := offset + len_nilable (Inner.Eth1DataVotes b) * 72 in
  let dst := MarshalUint64 dst (Inner.Eth1DepositIndex b) in
  let dst := WriteOffset dst offset in
  let offset := offset + len_nilable (Inner.Validators b) * 121 in
  let dst := WriteOffset dst offset in
  let offset := offset + len_nilable (Inner.Balances b) * 8 in
  if negb (len_nilable (Inner.RandaoMixes b) =? 65536)
  then Err ErrVectorLength else
  dst ← marshal_bytes_vector 32 (default [] (Inner.RandaoMixes b)) dst;
  if negb (len_nilable (Inner.Slashings b) =? 8192)
  then Err ErrVectorLength else
  let dst := marshal_uint64_vector (default [] (Inner.Slashings b)) dst in
  let dst := WriteOffset dst offset in
  let offset := offset + len_nilable (Inner.PreviousEpochParticipation b) in
  let dst := WriteOffset dst offset in
  if negb (len_nilable (Inner.JustificationBits b) =? 1)
  then Err ErrBytesLength else
  let dst := dst ++ default [] (Inner.JustificationBits b) in
  dst ← Checkpoint_MarshalSSZTo
          (Some (or_new Checkpoint.zero (Inner.PreviousJustifiedCheckpoint b)))
          dst;
  dst ← Checkpoint_MarshalSSZTo
          (Some (or_new Checkpoint.zero (Inner.CurrentJustifiedCheckpoint b)))
          dst;
  dst ← Checkpoint_MarshalSSZTo
          (Some (or_new Checkpoint.zero (Inner.FinalizedCheckpoint b))) dst;
  dst ← SyncCommittee_MarshalSSZTo
          (or_new SyncCommittee.zero (Inner.CurrentSyncCommittee b)) dst;
  dst ← SyncCommittee_MarshalSSZTo
          (or_new SyncCommittee.zero (Inner.NextSyncCommittee b)) dst;
  if 16777216 <? len_nilable (Inner.HistoricalRoots b)
  then Err ErrListTooBig else
  dst ← marshal_bytes_vector 32 (default [] (Inner.HistoricalRoots b)) dst;
  if 2048 <? len_nilable (Inner.Eth1DataVotes b) then Err ErrListTooBig else
  dst ← marshal_elements Eth1Data_MarshalSSZTo
          (default [] (Inner.Eth1DataVotes b)) dst;
  if 1099511627776 <? len_nilable (Inner.Validators b)
  then Err ErrListTooBig else
  dst ← marshal_elements Validator_MarshalSSZTo
          (default [] (Inner.Validators b)) dst;
  if 1099511627776 <? len_nilable (Inner.Balances b)
  then Err ErrListTooBig else
  let dst := marshal_uint64_vector (default [] (Inner.Balances b)) dst in
  if 1099511627776 <? len_nilable (Inner.PreviousEpochParticipation b)
  then Err ErrBytesLength else
  let dst := dst ++ default [] (Inner.PreviousEpochParticipation b) in
  if 1099511627776 <? len_nilable (Inner.CurrentEpochParticipation b)
  then Err ErrBytesLength else
  let dst := dst ++ default [] (Inner.CurrentEpochParticipation b) in
  Ok dst.

Definition BeaconState_MarshalSSZ (b : Inner.t) : result bytes :=
  BeaconState_MarshalSSZTo b [].

Definition BeaconState_SizeSSZ (b : Inner.t) : Z :=
  let size := 2787217 in
  let size := size + len_nilable (Inner.HistoricalRoots b) * 32 in
  let size := size + len_nilable (Inner.Eth1DataVotes b) * 72 in
  let size := size + len_nilable (Inner.Validators b) * 121 in
  let size := size + len_nilable (Inner.Balances b) * 8 in
  let size := size + len_nilable (Inner.PreviousEpochParticipation b) in
  let size := size + len_nilable (Inner.CurrentEpochParticipation b) in
  size.

(** The first pass of [UnmarshalSSZ]: the fields of fixed size and the six
    offsets, each offset checked where it is read. *)
Definition unmarshalFixed (b : Inner.t) (buf : bytes)
  : result (Inner.t * offsets) :=
  let size := len buf in
  let genesisTime := UnmarshallUint64 (slice buf 0 8) in
  let genesisValidatorsRoot :=
    default [] (Inner.GenesisValidatorsRoot b) ++ slice buf 8 40 in
  let slot := UnmarshallUint64 (slice buf 40 48) in
  fork ← Fork_UnmarshalSSZ (or_new Fork.zero (Inner.Fork b)) (slice buf 48 64);
  latestBlockHeader ←
    BeaconBlockHeader_UnmarshalSSZ
      (or_new BeaconBlockHeader.zero (Inner.LatestBlockHeader b))
      (slice buf 64 176);
  let blockRoots := chunks (Z.to_nat 8192) 32 (slice buf 176 262320) in
  let stateRoots := chunks (Z.to_nat 8192) 32 (slice buf 262320 524464) in
  let o7 := ReadOffset (slice buf 524464 524468) in
  if size <? o7 then Err ErrOffset else
  eth1Data ←
    Eth1Data_UnmarshalSSZ (or_new Eth1Data.zero (Inner.Eth1Data b))
      (slice buf 524468 524540);
  let o9 := ReadOffset (slice buf 524540 524544) in
  if (size <? o9) || (o9 <? o7) then Err ErrOffset else
  let eth1DepositIndex := UnmarshallUint64 (slice buf 524544 524552) in
  let o11 := ReadOffset (slice buf 524552 524556) in
  if (size <? o11) || (o11 <? o9) then Err ErrOffset else
  let o12 := ReadOffset (slice buf 524556 524560) in
  if (size <? o12) || (o12 <? o11) then Err ErrOffset else
  let randaoMixes := chunks (Z.to_nat 65536) 32 (slice buf 524560 2621712) in
  slashings ← ExtendUint64 (Inner.Slashings b) 8192;
  let slashings :=
    fill_uint64_vector slashings (Z.to_nat 8192)
      (slice buf 2621712 2687248) in
  let o15 := ReadOffset (slice buf 2687248 2687252) in
  if (size <? o15) || (o15 <? o12) then Err ErrOffset else
  let o16 := ReadOffset (slice buf 2687252 2687256) in
  if (size <? o16) || (o16 <? o15) then Err ErrOffset else
  let justificationBits :=
    default [] (Inner.JustificationBits b) ++ slice buf 2687256 2687257 in
  previousJustifiedCheckpoint ←
    Checkpoint_UnmarshalSSZ
      (or_new Checkpoint.zero (Inner.PreviousJustifiedCheckpoint b))
      (slice buf 2687257 2687297);
  currentJustifiedCheckpoint ←
    Checkpoint_UnmarshalSSZ
      (or_new Checkpoint.zero (Inner.CurrentJustifiedCheckpoint b))
      (slice buf 2687297 2687337);
  finalizedCheckpoint ←
    Checkpoint_UnmarshalSSZ
      (or_new Checkpoint.zero (Inner.FinalizedCheckpoint b))
      (slice buf 2687337 2687377);
  currentSyncCommittee ←
    SyncCommittee_UnmarshalSSZ
      (or_new SyncCommittee.zero (Inner.CurrentSyncCommittee b))
      (slice buf 2687377 2737297);
  nextSyncCommittee ←
    SyncCommittee_UnmarshalSSZ
      (or_new SyncCommittee.zero (Inner.NextSyncCommittee b))
      (slice buf 2737297 2787217);
  Ok (Inner.mk genesisTime (Some genesisValidatorsRoot) slot (Some fork)
        (Some latestBlockHeader) (Some blockRoots) (Some stateRoots)
        (Inner.HistoricalRoots b) (Some eth1Data) (Inner.Eth1DataVotes b)
        eth1DepositIndex (Inner.Validators b) (Inner.Balances b)
        (Some randaoMixes) (Some slashings)
        (Inner.PreviousEpochParticipation b)
        (Inner.CurrentEpochParticipation b) (Some justificationBits)
        (Some previousJustifiedCheckpoint) (Some currentJustifiedCheckpoint)
        (Some finalizedCheckpoint) (Some currentSyncCommittee)
        (Some nextSyncCommittee),
      mkOffsets o7 o9 o11 o12 o15 o16).

(** The second pass: the six fields of variable size, each from its own
    region [tail[o:o']] of the whole buffer. *)
Definition unmarshalVariable (b : Inner.t) (tail : bytes) (o : offsets)
  : result Inner.t :=
  let buf := slice tail (o7 o) (o9 o) in
  num ← DivideInt2 (len buf) 32 16777216;
  let historicalRoots := chunks (Z.to_nat num) 32 buf in
  let buf := slice tail (o9 o) (o11 o) in
  num ← DivideInt2 (len buf) 72 2048;
  eth1DataVotes ←
    unmarshal_elements Eth1Data.zero Eth1Data_UnmarshalSSZ
      (chunks (Z.to_nat num) 72 buf);
  let buf := slice tail (o11 o) (o12 o) in
  num ← DivideInt2 (len buf) 121 1099511627776;
  validators ←
    unmarshal_elements Validator.zero Validator_UnmarshalSSZ
      (chunks (Z.to_nat num) 121 buf);
  let buf := slice tail (o12 o) (o15 o) in
  num ← DivideInt2 (len buf) 8 1099511627776;
  balances ← ExtendUint64 (Inner.Balances b) num;
  let balances := fill_uint64_vector balances (Z.to_nat num) buf in
  let buf := slice tail (o15 o) (o16 o) in
  if 1099511627776 <? len buf then Err ErrBytesLength else
  let previousEpochParticipation :=
    default [] (Inner.PreviousEpochParticipation b) ++ buf in
  let buf := slice_from tail (o16 o) in
  if 1099511627776 <? len buf then Err ErrBytesLength else
  let currentEpochParticipation :=
    default [] (Inner.CurrentEpochParticipation b) ++ buf in
  Ok (Inner.mk (Inner.GenesisTime b) (Inner.GenesisValidatorsRoot b)
        (Inner.Slot b) (Inner.Fork b) (Inner.LatestBlockHeader b)
        (Inner.BlockRoots b) (Inner.StateRoots b) (Some historicalRoots)
        (Inner.Eth1Data b) (Some eth1DataVotes) (Inner.Eth1DepositIndex b)
        (Some validators) (Some balances) (Inner.RandaoMixes b)
        (Inner.Slashings b) (Some previousEpochParticipation)
        (Some currentEpochParticipation) (Inner.JustificationBits b)
        (Inner.PreviousJustifiedCheckpoint b)
        (Inner.CurrentJustifiedCheckpoint b) (Inner.FinalizedCheckpoint b)
        (Inner.CurrentSyncCommittee b) (Inner.NextSyncCommittee b)).

(** On an error the fields assigned so far stay in the receiver; the model
    returns the error alone. *)
Definition BeaconState_UnmarshalSSZ (b : Inner.t) (buf : bytes)
  : result Inner.t :=
  let size := len buf in
  if size <? 2787217 then Err ErrSize else
  '(b, o) ← unmarshalFixed b buf;
  unmarshalVariable b buf o.

End BeaconState.

(** *** What a codec has to satisfy *)

(** The bytes [x.MarshalSSZTo] appends. *)
Definition encoding {T} (marshal : T -> bytes -> result bytes) (x : T)
  : bytes :=
  match marshal x [] with
  | Ok e => e
  | Err _ => []
  end.

(** A codec of a record of fixed size [size]: marshalling appends the
    encoding to the target, the encoding has [size] bytes, a new record has
    no encoding, decoding an encoding into a new record gives the record
    back, and decoding [size] bytes succeeds. *)
Record codec_laws {T} (new : T) (size : Z) (typed : T -> Prop)
  (marshal : T -> bytes -> result bytes)
  (unmarshal : T -> bytes -> result T) : Prop := mkCodecLaws {
  law_dst : forall x dst, marshal x dst = (e ← marshal x []; Ok (dst ++ e));
  law_size : forall x e, marshal x [] = Ok e -> len e = size;
  law_new : is_ok (marshal new []) = false;
  law_roundtrip : forall x e,
    typed x -> marshal x [] = Ok e -> unmarshal new e = Ok x;
  law_total : forall r buf, len buf = size -> is_ok (unmarshal r buf) = true
}.

(** Typing of the model: an integer field holds a [uint64]. *)
Definition Status_typed (s : Status.t) : Prop :=
  is_uint64 (Status.FinalizedEpoch s) /\ is_uint64 (Status.HeadSlot s).
Definition Fork_typed (f : Fork.t) : Prop := is_uint64 (Fork.Epoch f).
Definition DepositMessage_typed (d : DepositMessage.t) : Prop :=
  is_uint64 (DepositMessage.Amount d).
Definition Checkpoint_typed (c : Checkpoint.t) : Prop :=
  is_uint64 (Checkpoint.Epoch c).
Definition BeaconBlockHeader_typed (h : BeaconBlockHeader.t) : Prop :=
  is_uint64 (BeaconBlockHeader.Slot h) /\
  is_uint64 (BeaconBlockHeader.ProposerIndex h).
Definition Eth1Data_typed (e : Eth1Data.t) : Prop :=
  is_uint64 (Eth1Data.DepositCount e).
Definition Validator_typed (v : Validator.t) : Prop :=
  is_uint64 (Validator.EffectiveBalance v) /\
  is_uint64 (Validator.ActivationEligibilityEpoch v) /\
  is_uint64 (Validator.ActivationEpoch v) /\
  is_uint64 (Validator.ExitEpoch v) /\
  is_uint64 (Validator.WithdrawableEpoch v).

(** A pointer that is [nil] or points to a typed record. *)
Definition typed_ptr {T} (typed : T -> Prop) (p : option T) : Prop :=
  match p with
  | Some x => typed x
  | None => True
  end.

Definition BeaconState_typed (b : State.Inner.t) : Prop :=
  is_uint64 (State.Inner.GenesisTime b) /\
  is_uint64 (State.Inner.Slot b) /\
  typed_ptr Fork_typed (State.Inner.Fork b) /\
  typed_ptr BeaconBlockHeader_typed (State.Inner.LatestBlockHeader b) /\
  typed_ptr Eth1Data_typed (State.Inner.Eth1Data b) /\
  Forall (typed_ptr Eth1Data_typed) (default [] (State.Inner.Eth1DataVotes b)) /\
  is_uint64 (State.Inner.Eth1DepositIndex b) /\
  Forall (typed_ptr Validator_typed) (default [] (State.Inner.Validators b)) /\
  Forall is_uint64 (default [] (State.Inner.Balances b)) /\
  Forall is_uint64 (default [] (State.Inner.Slashings b)) /\
  typed_ptr Checkpoint_typed (State.Inner.PreviousJustifiedCheckpoint b) /\
  typed_ptr Checkpoint_typed (State.Inner.CurrentJustifiedCheckpoint b) /\
  typed_ptr Checkpoint_typed (State.Inner.FinalizedCheckpoint b).

(** The laws of the codecs outside the sources; a [nil] receiver makes no
    encoding. *)
Record ExternalLaws {external : External} : Prop := mkExternalLaws {
  header_laws :
    codec_laws BeaconBlockHeader.zero 112 BeaconBlockHeader_typed
      (fun x => BeaconBlockHeader_MarshalSSZTo (Some x))
      BeaconBlockHeader_UnmarshalSSZ;
  eth1data_laws :
    codec_laws Eth1Data.zero 72 Eth1Data_typed
      (fun x => Eth1Data_MarshalSSZTo (Some x)) Eth1Data_UnmarshalSSZ;
  checkpoint_laws :
    codec_laws Checkpoint.zero 40 Checkpoint_typed
      (fun x => Checkpoint_MarshalSSZTo (Some x)) Checkpoint_UnmarshalSSZ;
  validator_laws :
    codec_laws Validator.zero 121 Validator_typed
      (fun x => Validator_MarshalSSZTo (Some x)) Validator_UnmarshalSSZ;
  eth1data_nil : forall dst, is_ok (Eth1Data_MarshalSSZTo None dst) = false;
  validator_nil : forall dst, is_ok (Validator_MarshalSSZTo None dst) = false
}.
Arguments ExternalLaws external : clear implicits.

(** The laws of the helper [ssz.ExtendUint64]: when it returns, the slice
    has [needLen] elements, and it returns on a [nil] slice. *)
Record HelperLaws {external : External} : Prop := mkHelperLaws {
  extend_len : forall b n v, 0 <= n -> ExtendUint64 b n = Ok v -> len v = n;
  extend_new : forall n, 0 <= n -> is_ok (ExtendUint64 None n) = true
}.
Arguments HelperLaws external : clear implicits.

End P2P.

(** ** An instance of the codecs outside the sources *)

Module ExampleCodec.
Import SSZ P2P.

(** Modelled from the spec: [ssz.MarshalBool], one byte, 1 for true. *)
Definition MarshalBool (dst : bytes) (b : bool) : bytes :=
  dst ++ [if b then Byte.x01 else Byte.x00].

(** Modelled from the spec: [ssz.UnmarshalBool], on a 1-byte slice. *)
Definition UnmarshalBool (src : bytes) : bool :=
  match src with
  | b :: _ => bool_decide (b = Byte.x01)
  | [] => false
  end.

(** Modelled from the spec: a record of fixed shape is encoded as its
    fields in declaration order, by code generated like the codecs of the
    sources.  A [nil] receiver stops the encoder. *)
Definition Checkpoint_MarshalSSZTo (p : option Checkpoint.t) (buf : bytes)
  : result bytes :=
  match p with
  | None => Err (ErrExternal 0)
  | Some c =>
      let dst := buf in
      let dst := MarshalUint64 dst (Checkpoint.Epoch c) in
      if negb (len (Checkpoint.Root c) =? 32) then Err ErrBytesLength else
      let dst := dst ++ Checkpoint.Root c in
      Ok dst
  end.

(** Modelled from the spec: the decoder of a checkpoint, 40 bytes. *)
Definition Checkpoint_UnmarshalSSZ (c : Checkpoint.t) (buf : bytes)
  : result Checkpoint.t :=
  let size := len buf in
  if negb (size =? 40) then Err ErrSize else
  Ok (Checkpoint.mk
        (UnmarshallUint64 (slice buf 0 8))
        (Checkpoint.Root c ++ slice buf 8 40)).

(** Modelled from the spec: the encoder of a block header. *)
Definition BeaconBlockHeader_MarshalSSZTo (p : option BeaconBlockHeader.t)
  (buf : bytes) : result bytes :=
  match p with
  | None => Err (ErrExternal 0)
  | Some h =>
      let dst := buf in
      let dst := MarshalUint64 dst (BeaconBlockHeader.Slot h) in
      let dst := MarshalUint64 dst (BeaconBlockHeader.ProposerIndex h) in
      if negb (len (BeaconBlockHeader.ParentRoot h) =? 32)
      then Err ErrBytesLength else
      let dst := dst ++ BeaconBlockHeader.ParentRoot h in
      if negb (len (BeaconBlockHeader.StateRoot h) =? 32)
      then Err ErrBytesLength else
      let dst := dst ++ BeaconBlockHeader.StateRoot h in
      if negb (len (BeaconBlockHeader.BodyRoot h) =? 32)
      then Err ErrBytesLength else
      let dst := dst ++ BeaconBlockHeader.BodyRoot h in
      Ok dst
  end.

(** Modelled from the spec: the decoder of a block header, 112 bytes. *)
Definition BeaconBlockHeader_UnmarshalSSZ (h : BeaconBlockHeader.t)
  (buf : bytes) : result BeaconBlockHeader.t :=
  let size := len buf in
  if negb (size =? 112) then Err ErrSize else
  Ok (BeaconBlockHeader.mk
        (UnmarshallUint64 (slice buf 0 8))
        (UnmarshallUint64 (slice buf 8 16))
        (BeaconBlockHeader.ParentRoot h ++ slice buf 16 48)
        (BeaconBlockHeader.StateRoot h ++ slice buf 48 80)
        (BeaconBlockHeader.BodyRoot h ++ slice buf 80 112)).

(** Modelled from the spec: the encoder of the Eth1 deposit metadata. *)
Definition Eth1Data_MarshalSSZTo (p : option Eth1Data.t) (buf : bytes)
  : result bytes :=
  match p with
  | None => Err (ErrExternal 0)
  | Some e =>
      let dst := buf in
      if negb (len (Eth1Data.DepositRoot e) =? 32)
      then Err ErrBytesLength else
      let dst := dst ++ Eth1Data.DepositRoot e in
      let dst := MarshalUint64 dst (Eth1Data.DepositCount e) in
      if negb (len (Eth1Data.BlockHash e) =? 32) then Err ErrBytesLength else
      let dst := dst ++ Eth1Data.BlockHash e in
      Ok dst
  end.

(** Modelled from the spec: the decoder of the Eth1 deposit metadata, 72
    bytes. *)
Definition Eth1Data_UnmarshalSSZ (e : Eth1Data.t) (buf : bytes)
  : result Eth1Data.t :=
  let size := len buf in
  if negb (size =? 72) then Err ErrSize else
  Ok (Eth1Data.mk
        (Eth1Data.DepositRoot e ++ slice buf 0 32)
        (UnmarshallUint64 (slice buf 32 40))
        (Eth1Data.BlockHash e ++ slice buf 40 72)).

(** Modelled from the spec: the encoder of a validator record. *)
Definition Validator_MarshalSSZTo (p : option Validator.t) (buf : bytes)
  : result bytes :=
  match p with
  | None => Err (ErrExternal 0)
  | Some v =>
      let dst := buf in
      if negb (len (Validator.PublicKey v) =? 48) then Err ErrBytesLength else
      let dst := dst ++ Validator.PublicKey v in
      if negb (len (Validator.WithdrawalCredentials v) =? 32)
      then Err ErrBytesLength else
      let dst := dst ++ Validator.WithdrawalCredentials v in
      let dst := MarshalUint64 dst (Validator.EffectiveBalance v) in
      let dst := MarshalBool dst (Validator.Slashed v) in
      let dst := MarshalUint64 dst (Validator.ActivationEligibilityEpoch v) in
      let dst := MarshalUint64 dst (Validator.ActivationEpoch v) in
      let dst := MarshalUint64 dst (Validator.ExitEpoch v) in
      let dst := MarshalUint64 dst (Validator.WithdrawableEpoch v) in
      Ok dst
  end.

(** Modelled from the spec: the decoder of a validator record, 121 bytes. *)
Definition Validator_UnmarshalSSZ (v : Validator.t) (buf : bytes)
  : result Validator.t :=
  let size := len buf in
  if negb (size =? 121) then Err ErrSize else
  Ok (Validator.mk
        (Validator.PublicKey v ++ slice buf 0 48)
        (Validator.WithdrawalCredentials v ++ slice buf 48 80)
        (UnmarshallUint64 (slice buf 80 88))
        (UnmarshalBool (slice buf 88 89))
        (UnmarshallUint64 (slice buf 89 97))
        (UnmarshallUint64 (slice buf 97 105))
        (UnmarshallUint64 (slice buf 105 113))
        (UnmarshallUint64 (slice buf 113 121))).

(** The helper [ssz.ExtendUint64] of the examples: the slice followed by
    zeros, cut to [needLen] elements.  It always returns. *)
Definition ExtendUint64 (b : option (list Z)) (needLen : Z)
  : result (list Z) :=
  Ok (take (Z.to_nat needLen)
        (default [] b ++ replicate (Z.to_nat needLen) 0)).

Definition external : External :=
  mkExternal BeaconBlockHeader_MarshalSSZTo BeaconBlockHeader_UnmarshalSSZ
    Eth1Data_MarshalSSZTo Eth1Data_UnmarshalSSZ
    Checkpoint_MarshalSSZTo Checkpoint_UnmarshalSSZ
    Validator_MarshalSSZTo Validator_UnmarshalSSZ ExtendUint64.

End ExampleCodec.

(** ** Facts about the primitives *)

Module SSZFacts.
Import SSZ.

Lemma Z_of_byte_range b : 0 <= Z_of_byte b < 256.
Proof.
  unfold Z_of_byte. pose proof (Byte.to_N_bounded b) as H. lia.
Qed.

Lemma Z_of_byte_of_Z z : Z_of_byte (byte_of_Z z) = z mod 256.
Proof.
  unfold byte_of_Z, Z_of_byte.
  assert (Hr : 0 <= z mod 256 < 256) by (apply Z.mod_pos_bound; lia).
  destruct (Byte.of_N (Z.to_N (z mod 256))) as [b|] eqn:Hb; simpl.
  - apply Byte.to_of_N in Hb. rewrite Hb. lia.
  - apply Byte.of_N_None_iff in Hb. lia.
Qed.

Lemma length_le_bytes n v : length (le_bytes n v) = n.
Proof. revert v. induction n; intros v; simpl; [reflexivity | f_equal; auto]. Qed.

Lemma len_le_bytes n v : len (le_bytes n v) = Z.of_nat n.
Proof. unfold len. rewrite length_le_bytes. reflexivity. Qed.

Lemma le_value_le_bytes n v :
  le_value (le_bytes n v) = v mod 256 ^ Z.of_nat n.
Proof.
  revert v. induction n as [|n IH]; intros v.
  - simpl. rewrite Z.mod_1_r. reflexivity.
  - cbn [le_bytes le_value]. rewrite Z_of_byte_of_Z, IH.
    rewrite Nat2Z.inj_succ, Z.pow_succ_r by lia.
    rewrite Z.rem_mul_r by lia. lia.
Qed.

Lemma le_value_le_bytes_small n v :
  0 <= v < 256 ^ Z.of_nat n -> le_value (le_bytes n v) = v.
Proof. intros H. rewrite le_value_le_bytes. apply Z.mod_small. exact H. Qed.

Lemma le_value_range bs : 0 <= le_value bs < 256 ^ len bs.
Proof.
  induction bs as [|b rest IH].
  - simpl. unfold len. simpl. lia.
  - cbn [le_value]. pose proof (Z_of_byte_range b).
    unfold len in *. cbn [length]. rewrite Nat2Z.inj_succ, Z.pow_succ_r by lia.
    lia.
Qed.

(** *** Slices of a buffer built from segments *)

Lemma len_app {A} (l k : list A) : len (l ++ k) = len l + len k.
Proof. unfold len. rewrite length_app. lia. Qed.

Lemma len_nil {A} : len (@nil A) = 0.
Proof. reflexivity. Qed.

Lemma len_cons {A} (x : A) l : len (x :: l) = 1 + len l.
Proof. unfold len. cbn [length]. lia. Qed.

Lemma len_nonneg {A} (l : list A) : 0 <= len l.
Proof. unfold len. lia. Qed.

Lemma to_nat_len {A} (l : list A) : Z.to_nat (len l) = length l.
Proof. unfold len. apply Nat2Z.id. Qed.

Lemma slice_middle (pre x post : bytes) lo hi :
  lo = len pre -> hi = lo + len x ->
  slice (pre ++ x ++ post) lo hi = x.
Proof.
  intros -> ->. unfold slice.
  replace (len pre + len x - len pre) with (len x) by lia.
  rewrite !to_nat_len, drop_app_length, take_app_length. reflexivity.
Qed.

Lemma slice_from_end (pre x : bytes) lo :
  lo = len pre -> slice_from (pre ++ x) lo = x.
Proof.
  intros ->. unfold slice_from. rewrite to_nat_len, drop_app_length.
  reflexivity.
Qed.

Lemma len_slice buf lo hi :
  0 <= lo <= hi -> hi <= len buf -> len (slice buf lo hi) = hi - lo.
Proof.
  intros H1 H2. unfold slice, len in *.
  rewrite length_take, length_drop. lia.
Qed.

Lemma len_concat_cons {A} (x : list A) l :
  len (concat (x :: l)) = len x + len (concat l).
Proof. cbn [concat]. apply len_app. Qed.

(** A field of a buffer laid out as a sequence of segments. *)
Lemma slice_concat (pre : list bytes) (x : bytes) (post : list bytes) lo hi :
  lo = len (concat pre) -> hi = lo + len x ->
  slice (concat (pre ++ x :: post)) lo hi = x.
Proof.
  intros Hlo Hhi. rewrite concat_app. cbn [concat].
  apply slice_middle; assumption.
Qed.

(** *** Vectors *)

Lemma len_concat_fixed (size : Z) (v : list bytes) :
  Forall (fun x => len x = size) v ->
  len (concat v) = Z.of_nat (length v) * size.
Proof.
  induction 1 as [|x rest Hx _ IH]; [reflexivity | ].
  rewrite len_concat_cons, IH, Hx. cbn [length]. lia.
Qed.

Lemma chunks_concat (size : Z) (v : list bytes) :
  Forall (fun x => len x = size) v ->
  chunks (length v) size (concat v) = v.
Proof.
  intros Hv. unfold chunks.
  assert (Hgen : forall pre,
            Forall (fun x => len x = size) pre ->
            map (fun ii => slice (concat (pre ++ v)) (Z.of_nat ii * size)
                             ((Z.of_nat ii + 1) * size))
              (seq (length pre) (length v)) = v).
  { induction Hv as [|x rest Hx Hrest IH]; intros pre Hpre; [reflexivity | ].
    cbn [length seq map]. f_equal.
    - apply slice_concat.
      + rewrite (len_concat_fixed size pre Hpre). reflexivity.
      + rewrite Hx. lia.
    - specialize (IH (pre ++ [x])).
      rewrite length_app in IH. cbn [length] in IH.
      rewrite Nat.add_1_r in IH. rewrite <- app_assoc in IH.
      apply IH. apply Forall_app. split; [exact Hpre | ].
      constructor; [exact Hx | constructor]. }
  apply (Hgen [] (Forall_nil _)).
Qed.

Lemma marshal_bytes_vector_ok size v dst out :
  marshal_bytes_vector size v dst = Ok out ->
  Forall (fun x => len x = size) v /\ out = dst ++ concat v.
Proof.
  revert dst. induction v as [|x rest IH]; intros dst; cbn [marshal_bytes_vector].
  - intros H. inversion H. rewrite app_nil_r. auto.
  - destruct (Z.eqb_spec (len x) size) as [Hx|Hx]; [ | discriminate ].
    cbn [negb]. intros H. apply IH in H as [Hrest ->].
    split; [constructor; assumption | ].
    cbn [concat]. rewrite app_assoc. reflexivity.
Qed.

Lemma marshal_bytes_vector_valid size v dst :
  Forall (fun x => len x = size) v ->
  marshal_bytes_vector size v dst = Ok (dst ++ concat v).
Proof.
  intros Hv. revert dst.
  induction Hv as [|x rest Hx _ IH]; intros dst; cbn [marshal_bytes_vector].
  - rewrite app_nil_r. reflexivity.
  - rewrite Hx, Z.eqb_refl. cbn [negb]. rewrite IH.
    cbn [concat]. rewrite app_assoc. reflexivity.
Qed.

Lemma marshal_uint64_vector_eq v dst :
  marshal_uint64_vector v dst = dst ++ concat (map (le_bytes 8) v).
Proof.
  unfold marshal_uint64_vector. revert dst.
  induction v as [|x rest IH]; intros dst; cbn [foldl map concat].
  - rewrite app_nil_r. reflexivity.
  - rewrite IH. unfold MarshalUint64. rewrite app_assoc. reflexivity.
Qed.

Lemma UnmarshallUint64_le_bytes v :
  is_uint64 v -> UnmarshallUint64 (le_bytes 8 v) = v.
Proof.
  intros H. unfold UnmarshallUint64.
  rewrite take_ge by (rewrite length_le_bytes; lia).
  apply le_value_le_bytes_small. exact H.
Qed.

Lemma ReadOffset_le_bytes v : ReadOffset (le_bytes 4 v) = v mod 2 ^ 32.
Proof.
  unfold ReadOffset. rewrite take_ge by (rewrite length_le_bytes; lia).
  apply le_value_le_bytes.
Qed.

Lemma unmarshal_uint64_vector_roundtrip v :
  Forall is_uint64 v ->
  unmarshal_uint64_vector (length v) (concat (map (le_bytes 8) v)) = v.
Proof.
  intros Hv. unfold unmarshal_uint64_vector.
  pose proof (chunks_concat 8 (map (le_bytes 8) v)) as Hc.
  rewrite length_map in Hc. rewrite Hc; clear Hc.
  - induction Hv as [|x rest Hx _ IH]; [reflexivity | ].
    cbn [map]. rewrite UnmarshallUint64_le_bytes by exact Hx.
    f_equal. exact IH.
  - induction v as [|x rest IH]; constructor.
    + apply len_le_bytes.
    + apply IH. inversion Hv; assumption.
Qed.

End SSZFacts.

(** ** Facts about the generated codecs *)

Module P2PFacts.
Import SSZ P2P SSZFacts.

(** *** Fields of a buffer laid out as segments of known length *)

Fixpoint field (segs : list (Z * bytes)) (lo hi : Z) : option bytes :=
  match segs with
  | [] => None
  | (n, x) :: rest =>
      if (lo =? 0) && (hi =? n) then Some x
      else field rest (lo - n) (hi - n)
  end.

Fixpoint total_length (segs : list (Z * bytes)) : Z :=
  match segs with
  | [] => 0
  | (n, _) :: rest => n + total_length rest
  end.

Definition laid_out (segs : list (Z * bytes)) : Prop :=
  Forall (fun s => len (snd s) = fst s) segs.

Definition buffer (segs : list (Z * bytes)) : bytes := concat (map snd segs).

Lemma len_buffer segs : laid_out segs -> len (buffer segs) = total_length segs.
Proof.
  unfold buffer. induction 1 as [|[n x] rest Hx _ IH]; [reflexivity | ].
  cbn [map snd concat total_length]. rewrite len_app, IH. cbn in Hx. lia.
Qed.

Lemma field_nonneg segs lo hi x :
  laid_out segs -> field segs lo hi = Some x -> 0 <= lo.
Proof.
  intros Hs. revert lo hi.
  induction Hs as [|[n y] rest Hy _ IH]; intros lo hi; cbn [field];
    [discriminate | ].
  destruct (Z.eqb_spec lo 0) as [->|Hlo]; cbn [andb].
  - destruct (hi =? n); [lia | ].
    intros H. apply IH in H. cbn in Hy. pose proof (len_nonneg y). lia.
  - intros H. apply IH in H. cbn in Hy. pose proof (len_nonneg y). lia.
Qed.

Lemma slice_cons_ge (x rest : bytes) lo hi :
  len x <= lo -> slice (x ++ rest) lo hi = slice rest (lo - len x) (hi - len x).
Proof.
  intros H. unfold slice.
  replace (hi - len x - (lo - len x)) with (hi - lo) by lia.
  rewrite drop_app_ge by (unfold len in *; lia).
  do 2 f_equal. unfold len in *. lia.
Qed.

Lemma slice_field segs lo hi x :
  laid_out segs -> field segs lo hi = Some x -> slice (buffer segs) lo hi = x.
Proof.
  intros Hs. revert lo hi.
  induction Hs as [|[n y] rest Hy Hrest IH]; intros lo hi; cbn [field];
    [discriminate | ].
  cbn in Hy. unfold buffer in *. cbn [map snd concat].
  destruct (Z.eqb_spec lo 0) as [->|Hlo]; cbn [andb].
  - destruct (Z.eqb_spec hi n) as [->|Hhi].
    + intros [= <-]. apply (slice_middle [] y); [reflexivity | lia].
    + intros H. pose proof (field_nonneg _ _ _ _ Hrest H).
      pose proof (len_nonneg y).
      assert (n = 0) as -> by lia.
      assert (y = []) as -> by (destruct y; [reflexivity | discriminate]).
      cbn [app]. rewrite !Z.sub_0_r in H. apply IH. exact H.
  - intros H. pose proof (field_nonneg _ _ _ _ Hrest H).
    rewrite slice_cons_ge by lia. rewrite Hy. apply IH. exact H.
Qed.

Lemma slice_from_buffer (pre : list (Z * bytes)) (x : bytes) lo :
  laid_out pre -> lo = total_length pre ->
  slice_from (buffer pre ++ x) lo = x.
Proof.
  intros Hp ->. apply slice_from_end. symmetry. apply len_buffer. exact Hp.
Qed.

(** *** Records of fixed size *)

Lemma Ok_inj {A} (a b : A) : Ok a = Ok b -> a = b.
Proof. congruence. Qed.

Lemma is_ok_inv {A} (r : result A) : is_ok r = true -> exists a, r = Ok a.
Proof. destruct r; [eauto | discriminate]. Qed.

(** Runs an encoder that succeeded: each length check that it passed
    becomes a hypothesis. *)
Ltac run_marshal H :=
  repeat match type of H with
         | context [negb (len ?l =? ?n)] =>
             destruct (Z.eqb_spec (len l) n);
             try change (negb true) with false in H;
             try change (negb false) with true in H;
             cbv beta iota zeta in H;
             [ | discriminate H ]
         end.

(** Both sides as one right-nested concatenation. *)
Ltac flatten :=
  repeat match goal with S := _ : list (Z * _) |- _ => unfold S end;
  unfold buffer, MarshalUint64; cbn [map snd concat app];
  rewrite ?app_nil_r, <- ?app_assoc; try reflexivity.

Ltac laid_out_tac :=
  unfold laid_out;
  repeat match goal with S := _ : list (Z * _) |- _ => unfold S end;
  repeat (apply List.Forall_cons;
          [ cbn [fst snd]; first [assumption | apply len_le_bytes | reflexivity]
          | ]);
  apply List.Forall_nil.

(** Runs a decoder on a buffer laid out as [segs]. *)
Ltac run_unmarshal Hs :=
  rewrite (len_buffer _ Hs); cbn [total_length];
  try match goal with
      | |- context [negb (?a =? ?b)] =>
          let v := eval vm_compute in (negb (a =? b)) in
          change (negb (a =? b)) with v; cbv beta iota
      end;
  repeat match goal with
         | |- context [slice (buffer ?S) ?lo ?hi] =>
             rewrite (slice_field S lo hi _ Hs eq_refl)
         end;
  cbn [app];
  rewrite ?UnmarshallUint64_le_bytes by assumption.

Lemma Fork_laws :
  codec_laws Fork.zero 16 Fork_typed Fork_MarshalSSZTo Fork_UnmarshalSSZ.
Proof.
  split.
  - intros x dst. unfold Fork_MarshalSSZTo.
    repeat (destruct (negb _); [reflexivity | ]).
    cbn. f_equal. flatten.
  - intros x e H. unfold Fork_MarshalSSZTo in H. run_marshal H.
    apply Ok_inj in H; subst e. unfold MarshalUint64.
    rewrite ?len_app, ?len_le_bytes, ?len_cons, ?len_nil. lia.
  - reflexivity.
  - intros [pv cv ep] e Ht H. unfold Fork_MarshalSSZTo in H.
    cbn [Fork.PreviousVersion Fork.CurrentVersion Fork.Epoch] in H.
    run_marshal H. apply Ok_inj in H; subst e.
    set (segs := [(4, pv); (4, cv); (8, le_bytes 8 ep)]).
    assert (Hs : laid_out segs) by laid_out_tac.
    replace (MarshalUint64 _ _) with (buffer segs) by flatten.
    unfold Fork_UnmarshalSSZ. unfold Fork_typed in Ht. cbn in Ht.
    run_unmarshal Hs. reflexivity.
  - intros r buf H. unfold Fork_UnmarshalSSZ. rewrite H. reflexivity.
Qed.

(** The first three laws and the last, which need no layout. *)
Ltac easy_laws :=
  match goal with
  | |- forall x dst, _ = _ =>
      intros x dst; cbv beta delta [Status_MarshalSSZTo Fork_MarshalSSZTo
        SigningData_MarshalSSZTo ForkData_MarshalSSZTo
        DepositMessage_MarshalSSZTo ExampleCodec.Checkpoint_MarshalSSZTo
        ExampleCodec.BeaconBlockHeader_MarshalSSZTo
        ExampleCodec.Eth1Data_MarshalSSZTo
        ExampleCodec.Validator_MarshalSSZTo]; cbv beta iota zeta;
      repeat (destruct (negb _); [reflexivity | ]);
      cbn; f_equal; unfold ExampleCodec.MarshalBool; flatten
  | |- forall x e, _ = Ok _ -> len _ = _ =>
      let H := fresh "H" in
      intros x e H; cbv beta delta [Status_MarshalSSZTo Fork_MarshalSSZTo
        SigningData_MarshalSSZTo ForkData_MarshalSSZTo
        DepositMessage_MarshalSSZTo ExampleCodec.Checkpoint_MarshalSSZTo
        ExampleCodec.BeaconBlockHeader_MarshalSSZTo
        ExampleCodec.Eth1Data_MarshalSSZTo
        ExampleCodec.Validator_MarshalSSZTo] in H; cbv beta iota zeta in H;
      run_marshal H; apply Ok_inj in H; subst e;
      unfold MarshalUint64, ExampleCodec.MarshalBool;
      rewrite ?len_app, ?len_le_bytes, ?len_cons, ?len_nil; lia
  | |- is_ok _ = false => reflexivity
  | |- forall r buf, len buf = _ -> is_ok _ = true =>
      let H := fresh "H" in
      intros r buf H; cbv beta delta [Status_UnmarshalSSZ Fork_UnmarshalSSZ
        SigningData_UnmarshalSSZ ForkData_UnmarshalSSZ
        DepositMessage_UnmarshalSSZ ExampleCodec.Checkpoint_UnmarshalSSZ
        ExampleCodec.BeaconBlockHeader_UnmarshalSSZ
        ExampleCodec.Eth1Data_UnmarshalSSZ
        ExampleCodec.Validator_UnmarshalSSZ]; cbv beta zeta;
      rewrite H; reflexivity
  end.





(** *** The example instance of the codecs outside the sources *)

Lemma Checkpoint_laws :
  codec_laws Checkpoint.zero 40 Checkpoint_typed
    (fun x => ExampleCodec.Checkpoint_MarshalSSZTo (Some x))
    ExampleCodec.Checkpoint_UnmarshalSSZ.
Proof.
  split; try easy_laws.
  intros [ep root] e Ht H. unfold ExampleCodec.Checkpoint_MarshalSSZTo in H.
  cbn in Ht, H. run_marshal H. apply Ok_inj in H; subst e.
  set (segs := [(8, le_bytes 8 ep); (32, root)]).
  assert (Hs : laid_out segs) by laid_out_tac.
  match goal with |- _ _ ?enc = _ => replace enc with (buffer segs) by flatten end.
  unfold ExampleCodec.Checkpoint_UnmarshalSSZ. run_unmarshal Hs. reflexivity.
Qed.

Lemma BeaconBlockHeader_laws :
  codec_laws BeaconBlockHeader.zero 112 BeaconBlockHeader_typed
    (fun x => ExampleCodec.BeaconBlockHeader_MarshalSSZTo (Some x))
    ExampleCodec.BeaconBlockHeader_UnmarshalSSZ.
Proof.
  split; try easy_laws.
  intros [sl pi pr sr br] e [Ht1 Ht2] H.
  unfold ExampleCodec.BeaconBlockHeader_MarshalSSZTo in H.
  cbn in Ht1, Ht2, H. run_marshal H. apply Ok_inj in H; subst e.
  set (segs := [(8, le_bytes 8 sl); (8, le_bytes 8 pi); (32, pr); (32, sr);
                (32, br)]).
  assert (Hs : laid_out segs) by laid_out_tac.
  match goal with |- _ _ ?enc = _ => replace enc with (buffer segs) by flatten end.
  unfold ExampleCodec.BeaconBlockHeader_UnmarshalSSZ. run_unmarshal Hs.
  reflexivity.
Qed.

Lemma Eth1Data_laws :
  codec_laws Eth1Data.zero 72 Eth1Data_typed
    (fun x => ExampleCodec.Eth1Data_MarshalSSZTo (Some x))
    ExampleCodec.Eth1Data_UnmarshalSSZ.
Proof.
  split; try easy_laws.
  intros [dr dc bh] e Ht H. unfold ExampleCodec.Eth1Data_MarshalSSZTo in H.
  cbn in Ht, H. run_marshal H. apply Ok_inj in H; subst e.
  set (segs := [(32, dr); (8, le_bytes 8 dc); (32, bh)]).
  assert (Hs : laid_out segs) by laid_out_tac.
  match goal with |- _ _ ?enc = _ => replace enc with (buffer segs) by flatten end.
  unfold ExampleCodec.Eth1Data_UnmarshalSSZ. run_unmarshal Hs. reflexivity.
Qed.

Lemma Validator_laws :
  codec_laws Validator.zero 121 Validator_typed
    (fun x => ExampleCodec.Validator_MarshalSSZTo (Some x))
    ExampleCodec.Validator_UnmarshalSSZ.
Proof.
  split; try easy_laws.
  intros [pk wc eb sl ae a ex w] e (Ht1 & Ht2 & Ht3 & Ht4 & Ht5) H.
  unfold ExampleCodec.Validator_MarshalSSZTo in H.
  cbn in Ht1, Ht2, Ht3, Ht4, Ht5, H. run_marshal H. apply Ok_inj in H; subst e.
  set (segs := [(48, pk); (32, wc); (8, le_bytes 8 eb);
                (1, [if sl then Byte.x01 else Byte.x00]);
                (8, le_bytes 8 ae); (8, le_bytes 8 a); (8, le_bytes 8 ex);
                (8, le_bytes 8 w)]).
  assert (Hs : laid_out segs) by laid_out_tac.
  match goal with
  | |- _ _ ?enc = _ =>
      replace enc with (buffer segs)
        by (unfold ExampleCodec.MarshalBool; flatten)
  end.
  unfold ExampleCodec.Validator_UnmarshalSSZ. run_unmarshal Hs.
  destruct sl; reflexivity.
Qed.

Lemma example_external_laws : ExternalLaws ExampleCodec.external.
Proof.
  split; cbn.
  - exact BeaconBlockHeader_laws.
  - exact Eth1Data_laws.
  - exact Checkpoint_laws.
  - exact Validator_laws.
  - reflexivity.
  - reflexivity.
Qed.

Lemma example_helper_laws : HelperLaws ExampleCodec.external.
Proof.
  split; cbn.
  - intros b n v Hn H. unfold ExampleCodec.ExtendUint64 in H.
    apply Ok_inj in H. subst v. unfold len.
    rewrite length_take, length_app, length_replicate. lia.
  - reflexivity.
Qed.

(** *** Records made of vectors *)

Lemma marshal_bytes_vector_dst size v dst :
  marshal_bytes_vector size v dst =
  (e ← marshal_bytes_vector size v []; Ok (dst ++ e)).
Proof.
  revert dst. induction v as [|x rest IH]; intros dst;
    cbn [marshal_bytes_vector].
  - cbn. rewrite app_nil_r. reflexivity.
  - destruct (negb _); [reflexivity | ].
    rewrite (IH (dst ++ x)), (IH ([] ++ x)).
    destruct (marshal_bytes_vector size rest []); cbn; [ | reflexivity ].
    rewrite app_assoc. reflexivity.
Qed.

Lemma bind_Ok_inv {A B} (r : result A) (k : A -> result B) b :
  (x ← r; k x) = Ok b -> exists a, r = Ok a /\ k a = Ok b.
Proof. destruct r as [a|]; [eauto | discriminate]. Qed.

Lemma chunks_vector (n size : Z) (v : list bytes) :
  len v = n -> Forall (fun x => len x = size) v ->
  chunks (Z.to_nat n) size (concat v) = v.
Proof.
  intros <- Hv. rewrite to_nat_len. apply chunks_concat. exact Hv.
Qed.

Lemma len_vector (n size : Z) (v : list bytes) :
  len v = n -> Forall (fun x => len x = size) v -> len (concat v) = n * size.
Proof. intros <- Hv. rewrite (len_concat_fixed size v Hv). reflexivity. Qed.

Lemma two_vectors_dst n1 s1 n2 s2 (v1 v2 : list bytes) dst :
  (if negb (len v1 =? n1) then Err ErrVectorLength else
   dst ← marshal_bytes_vector s1 v1 dst;
   if negb (len v2 =? n2) then Err ErrVectorLength else
   dst ← marshal_bytes_vector s2 v2 dst; Ok dst) =
  (e ← (if negb (len v1 =? n1) then Err ErrVectorLength else
        dst ← marshal_bytes_vector s1 v1 [];
        if negb (len v2 =? n2) then Err ErrVectorLength else
        dst ← marshal_bytes_vector s2 v2 dst; Ok dst);
   Ok (dst ++ e)).
Proof.
  destruct (negb (len v1 =? n1)); [reflexivity | ].
  rewrite (marshal_bytes_vector_dst s1 v1 dst).
  destruct (marshal_bytes_vector s1 v1 []) as [e1|]; cbn; [ | reflexivity ].
  destruct (negb (len v2 =? n2)); [reflexivity | ].
  rewrite (marshal_bytes_vector_dst s2 v2 (dst ++ e1)),
    (marshal_bytes_vector_dst s2 v2 e1).
  destruct (marshal_bytes_vector s2 v2 []); cbn; [ | reflexivity ].
  rewrite app_assoc. reflexivity.
Qed.

Lemma two_vectors_inv n1 s1 n2 s2 (v1 v2 : list bytes) e :
  (if negb (len v1 =? n1) then Err ErrVectorLength else
   dst ← marshal_bytes_vector s1 v1 [];
   if negb (len v2 =? n2) then Err ErrVectorLength else
   dst ← marshal_bytes_vector s2 v2 dst; Ok dst) = Ok e ->
  len v1 = n1 /\ Forall (fun x => len x = s1) v1 /\
  len v2 = n2 /\ Forall (fun x => len x = s2) v2 /\
  e = buffer [(n1 * s1, concat v1); (n2 * s2, concat v2)].
Proof.
  intros H.
  destruct (Z.eqb_spec (len v1) n1) as [H1|]; [ | discriminate ].
  cbn [negb] in H. apply bind_Ok_inv in H as (d1 & E1 & H).
  apply marshal_bytes_vector_ok in E1 as [F1 ->].
  destruct (Z.eqb_spec (len v2) n2) as [H2|]; [ | discriminate ].
  cbn [negb] in H. apply bind_Ok_inv in H as (d2 & E2 & H).
  apply marshal_bytes_vector_ok in E2 as [F2 ->].
  apply Ok_inj in H. subst e. repeat split; try assumption.
  unfold buffer. cbn [map snd concat app]. rewrite app_nil_r. reflexivity.
Qed.

Lemma two_vectors_laid_out n1 s1 n2 s2 (v1 v2 : list bytes) :
  len v1 = n1 -> Forall (fun x => len x = s1) v1 ->
  len v2 = n2 -> Forall (fun x => len x = s2) v2 ->
  laid_out [(n1 * s1, concat v1); (n2 * s2, concat v2)].
Proof.
  intros H1 F1 H2 F2. unfold laid_out.
  repeat (apply List.Forall_cons; [cbn [fst snd]; apply len_vector; assumption | ]).
  apply List.Forall_nil.
Qed.

Lemma SyncCommittee_laws :
  codec_laws SyncCommittee.zero 49920 (fun _ => True)
    SyncCommittee_MarshalSSZTo SyncCommittee_UnmarshalSSZ.
Proof.
  split.
  - intros [pk ag] dst. apply two_vectors_dst.
  - intros x e H. apply two_vectors_inv in H as (H1 & F1 & H2 & F2 & ->).
    rewrite len_buffer by (apply two_vectors_laid_out; assumption).
    reflexivity.
  - reflexivity.
  - intros x e _ H.
    apply two_vectors_inv in H as (H1 & F1 & H2 & F2 & ->).
    pose proof (two_vectors_laid_out _ _ _ _ _ _ H1 F1 H2 F2) as Hs.
    unfold SyncCommittee_UnmarshalSSZ. run_unmarshal Hs.
    rewrite (chunks_vector 1024 48 _ H1 F1), (chunks_vector 16 48 _ H2 F2).
    destruct x; reflexivity.
  - intros r buf H. unfold SyncCommittee_UnmarshalSSZ. rewrite H. reflexivity.
Qed.


(** *** Offsets of the state decoder *)

(** The six offsets as the first pass reads them. *)
Definition read_offsets (buf : bytes) : offsets :=
  mkOffsets (ReadOffset (slice buf 524464 524468))
    (ReadOffset (slice buf 524540 524544))
    (ReadOffset (slice buf 524552 524556))
    (ReadOffset (slice buf 524556 524560))
    (ReadOffset (slice buf 2687248 2687252))
    (ReadOffset (slice buf 2687252 2687256)).

(** No offset exceeds the buffer length and none is smaller than the one
    read before it. *)
Definition offsets_valid (size : Z) (o : offsets) : Prop :=
  o7 o <= size /\ o9 o <= size /\ o11 o <= size /\ o12 o <= size /\
  o15 o <= size /\ o16 o <= size /\
  o7 o <= o9 o /\ o9 o <= o11 o /\ o11 o <= o12 o /\ o12 o <= o15 o /\
  o15 o <= o16 o.

(** The same of the four offsets that are read before the helper
    [ssz.ExtendUint64] is called. *)
Definition first_offsets_valid (size : Z) (o : offsets) : Prop :=
  o7 o <= size /\ o9 o <= size /\ o11 o <= size /\ o12 o <= size /\
  o7 o <= o9 o /\ o9 o <= o11 o /\ o11 o <= o12 o.

Lemma Fork_UnmarshalSSZ_ok r buf :
  len buf = 16 -> exists f, Fork_UnmarshalSSZ r buf = Ok f.
Proof. intros H. apply is_ok_inv. apply Fork_laws. exact H. Qed.

Lemma check_inv (size o prev : Z) :
  (size <? o) || (o <? prev) = false -> o <= size /\ prev <= o.
Proof. intros H. apply orb_false_elim in H as [H1 H2]. lia. Qed.

(** The loop that fills the slice the helper has returned writes the
    elements of the region. *)
Lemma fill_prefix {A} (f : nat -> A) (v : list A) (m : nat) :
  (m <= length v)%nat ->
  foldl (fun v ii => <[ii := f ii]> v) v (seq 0 m)
  = map f (seq 0 m) ++ drop m v.
Proof.
  induction m as [|m IH]; intros Hm; [reflexivity | ].
  rewrite seq_S, foldl_app, IH by lia. cbn [foldl Nat.add].
  destruct (lookup_lt_is_Some_2 v m ltac:(lia)) as [y Hy].
  rewrite (drop_S v y m Hy).
  rewrite insert_app_r_alt by (rewrite length_map, length_seq; lia).
  rewrite length_map, length_seq, Nat.sub_diag. cbn [insert list_insert].
  rewrite map_app, <- app_assoc. reflexivity.
Qed.

Lemma fill_uint64_vector_eq (v : list Z) (count : nat) (buf : bytes) :
  length v = count ->
  fill_uint64_vector v count buf = unmarshal_uint64_vector count buf.
Proof.
  intros Hl. unfold fill_uint64_vector, unmarshal_uint64_vector, chunks.
  rewrite (fill_prefix
             (fun ii => UnmarshallUint64
                          (slice buf (Z.of_nat ii * 8)
                             ((Z.of_nat ii + 1) * 8))) v count) by lia.
  rewrite drop_ge, app_nil_r by lia. rewrite map_map. reflexivity.
Qed.

Section Offsets.
Context {external : External}.

Lemma unmarshalFixed_ok_inv b buf b' o :
  unmarshalFixed b buf = Ok (b', o) ->
  o = read_offsets buf /\ offsets_valid (len buf) o.
Proof.
  unfold unmarshalFixed. cbv zeta. intros H.
  repeat match type of H with
         | mbind _ _ = Ok _ => apply bind_Ok_inv in H as (? & _ & H)
         | (if ?c then Err _ else _) = Ok _ =>
             let E := fresh "E" in destruct c eqn:E; [discriminate H | ]
         end.
  apply Ok_inj in H. injection H as _ <-.
  repeat match goal with
         | E : _ || _ = false |- _ => apply check_inv in E
         end.
  split; [reflexivity | ]. unfold offsets_valid. cbn [o7 o9 o11 o12 o15 o16].
  lia.
Qed.

Hypothesis header_total : forall r buf,
  len buf = 112 -> is_ok (BeaconBlockHeader_UnmarshalSSZ r buf) = true.
Hypothesis eth1data_total : forall r buf,
  len buf = 72 -> is_ok (Eth1Data_UnmarshalSSZ r buf) = true.

Lemma unmarshalFixed_first_violation b buf :
  2787217 <= len buf ->
  ~ first_offsets_valid (len buf) (read_offsets buf) ->
  unmarshalFixed b buf = Err ErrOffset.
Proof.
  intros Hsize Hbad. unfold unmarshalFixed. cbv zeta.
  destruct (Fork_UnmarshalSSZ_ok (or_new Fork.zero (State.Inner.Fork b))
              (slice buf 48 64)) as [f ->]; [apply len_slice; lia | ].
  destruct (is_ok_inv _ (header_total
              (or_new BeaconBlockHeader.zero (State.Inner.LatestBlockHeader b))
              (slice buf 64 176) ltac:(apply len_slice; lia))) as [h ->].
  cbn [mbind result_bind].
  destruct (Z.ltb_spec (len buf) (ReadOffset (slice buf 524464 524468)));
    [reflexivity | ].
  destruct (is_ok_inv _ (eth1data_total
              (or_new Eth1Data.zero (State.Inner.Eth1Data b))
              (slice buf 524468 524540) ltac:(apply len_slice; lia)))
    as [e1 ->].
  cbn [mbind result_bind].
  repeat match goal with
         | |- (if (?a <? ?b) || (?c <? ?d) then _ else _) = _ =>
             destruct (Z.ltb_spec a b); [reflexivity | ];
             destruct (Z.ltb_spec c d); [reflexivity | ]; cbn [orb]
         end.
  exfalso. apply Hbad. unfold first_offsets_valid, read_offsets.
  cbn [o7 o9 o11 o12]. lia.
Qed.

Lemma unmarshalFixed_violation b buf :
  2787217 <= len buf ->
  ~ offsets_valid (len buf) (read_offsets buf) ->
  is_ok (ExtendUint64 (State.Inner.Slashings b) 8192) = true ->
  unmarshalFixed b buf = Err ErrOffset.
Proof.
  intros Hsize Hbad Hext. apply is_ok_inv in Hext as [sl Hext].
  unfold unmarshalFixed. cbv zeta.
  destruct (Fork_UnmarshalSSZ_ok (or_new Fork.zero (State.Inner.Fork b))
              (slice buf 48 64)) as [f ->]; [apply len_slice; lia | ].
  destruct (is_ok_inv _ (header_total
              (or_new BeaconBlockHeader.zero (State.Inner.LatestBlockHeader b))
              (slice buf 64 176) ltac:(apply len_slice; lia))) as [h ->].
  cbn [mbind result_bind].
  destruct (Z.ltb_spec (len buf) (ReadOffset (slice buf 524464 524468)));
    [reflexivity | ].
  destruct (is_ok_inv _ (eth1data_total
              (or_new Eth1Data.zero (State.Inner.Eth1Data b))
              (slice buf 524468 524540) ltac:(apply len_slice; lia)))
    as [e1 ->].
  cbn [mbind result_bind].
  repeat match goal with
         | |- (if (?a <? ?b) || (?c <? ?d) then _ else _) = _ =>
             destruct (Z.ltb_spec a b); [reflexivity | ];
             destruct (Z.ltb_spec c d); [reflexivity | ]; cbn [orb]
         end.
  rewrite Hext. cbn [mbind result_bind].
  repeat match goal with
         | |- (if (?a <? ?b) || (?c <? ?d) then _ else _) = _ =>
             destruct (Z.ltb_spec a b); [reflexivity | ];
             destruct (Z.ltb_spec c d); [reflexivity | ]; cbn [orb]
         end.
  exfalso. apply Hbad. unfold offsets_valid, read_offsets.
  cbn [o7 o9 o11 o12 o15 o16]. lia.
Qed.

(** C8: on a buffer that holds the fixed part, [BeaconState.UnmarshalSSZ]
    returns the offset error as soon as one of the six offsets exceeds the
    buffer length or is smaller than the offset read before it, given that
    the decoders of the block header and of the Eth1 data accept their 112
    and 72 bytes: for the first four offsets whatever the receiver holds,
    and for the last two where the helper [ssz.ExtendUint64], called
    between the fourth offset and the fifth, returns on the slashings of
    the receiver; the second pass, which decodes the variable sections, is
    reached only with offsets [o7 <= o9 <= o11 <= o12 <= o15 <= o16], each
    at most the buffer length; so a decoded state has such offsets. *)
Theorem C8_offset_validation b buf :
  2787217 <= len buf ->
  (~ first_offsets_valid (len buf) (read_offsets buf) ->
   BeaconState_UnmarshalSSZ b buf = Err ErrOffset) /\
  (~ offsets_valid (len buf) (read_offsets buf) ->
   is_ok (ExtendUint64 (State.Inner.Slashings b) 8192) = true ->
   BeaconState_UnmarshalSSZ b buf = Err ErrOffset) /\
  (forall b1 o, unmarshalFixed b buf = Ok (b1, o) ->
                o = read_offsets buf /\ offsets_valid (len buf) o) /\
  (forall b', BeaconState_UnmarshalSSZ b buf = Ok b' ->
              offsets_valid (len buf) (read_offsets buf)).
Proof.
  intros Hsize. split; [ | split; [ | split ] ].
  - intros Hbad. unfold BeaconState_UnmarshalSSZ. cbv zeta.
    destruct (Z.ltb_spec (len buf) 2787217); [lia | ].
    rewrite (unmarshalFixed_first_violation b buf Hsize Hbad). reflexivity.
  - intros Hbad Hext. unfold BeaconState_UnmarshalSSZ. cbv zeta.
    destruct (Z.ltb_spec (len buf) 2787217); [lia | ].
    rewrite (unmarshalFixed_violation b buf Hsize Hbad Hext). reflexivity.
  - intros b1 o. apply unmarshalFixed_ok_inv.
  - intros b'. unfold BeaconState_UnmarshalSSZ. cbv zeta.
    destruct (Z.ltb_spec (len buf) 2787217) as [Hlt|Hge]; [discriminate | ].
    intros H. apply bind_Ok_inv in H as ([b1 o] & H1 & _).
    apply unmarshalFixed_ok_inv in H1 as [-> H1]. exact H1.
Qed.

End Offsets.

Lemma len_replicate (n : Z) (x : Byte.byte) :
  0 <= n -> len (replicate (Z.to_nat n) x) = n.
Proof. intros H. unfold len. rewrite length_replicate. lia. Qed.

(** A buffer of the size of the fixed part whose first offset is
    [0xffffffff]. *)
Definition bad_buffer : bytes :=
  replicate (Z.to_nat 524464) Byte.x00 ++
  [Byte.xff; Byte.xff; Byte.xff; Byte.xff] ++
  replicate (Z.to_nat 2262749) Byte.x00.

Lemma len_bad_buffer : len bad_buffer = 2787217.
Proof.
  unfold bad_buffer. rewrite !len_app, !len_replicate by lia. reflexivity.
Qed.

Lemma bad_buffer_o7 : o7 (read_offsets bad_buffer) = 4294967295.
Proof.
  unfold read_offsets, bad_buffer. cbn [o7].
  rewrite slice_middle.
  - reflexivity.
  - rewrite len_replicate by lia. reflexivity.
  - reflexivity.
Qed.

Lemma C8_offset_validation_witness :
  BeaconState_UnmarshalSSZ (external := ExampleCodec.external)
    State.Inner.zero bad_buffer = Err ErrOffset.
Proof.
  refine (proj1 (proj2 (C8_offset_validation
                          (external := ExampleCodec.external)
                          (law_total _ _ _ _ _ BeaconBlockHeader_laws)
                          (law_total _ _ _ _ _ Eth1Data_laws)
                          State.Inner.zero bad_buffer _)) _ _).
  - rewrite len_bad_buffer. lia.
  - intros (H & _). rewrite bad_buffer_o7, len_bad_buffer in H. lia.
  - reflexivity.
Defined.

(** *** Codecs as parts of a larger record *)

Section Laws.
Context {T : Type} {new : T} {size : Z} {typed : T -> Prop}
  {marshal : T -> bytes -> result bytes} {unmarshal : T -> bytes -> result T}.
Hypothesis L : codec_laws new size typed marshal unmarshal.

Lemma marshal_valid x dst :
  is_ok (marshal x []) = true ->
  marshal x dst = Ok (dst ++ encoding marshal x).
Proof.
  intros H. rewrite (law_dst _ _ _ _ _ L). unfold encoding.
  destruct (marshal x []); [reflexivity | discriminate].
Qed.

Lemma marshal_step {B} x dst (k : bytes -> result B) out :
  (d ← marshal x dst; k d) = Ok out ->
  is_ok (marshal x []) = true /\ k (dst ++ encoding marshal x) = Ok out.
Proof.
  rewrite (law_dst _ _ _ _ _ L). unfold encoding.
  destruct (marshal x []); [ | discriminate ].
  cbn. intros H. split; [reflexivity | exact H].
Qed.

Lemma encoding_eq x :
  is_ok (marshal x []) = true -> marshal x [] = Ok (encoding marshal x).
Proof. intros H. rewrite (marshal_valid x [] H). reflexivity. Qed.

Lemma encoding_size x :
  is_ok (marshal x []) = true -> len (encoding marshal x) = size.
Proof. intros H. apply (law_size _ _ _ _ _ L x). apply encoding_eq. exact H. Qed.

Lemma encoding_roundtrip x :
  typed x -> is_ok (marshal x []) = true ->
  unmarshal new (encoding marshal x) = Ok x.
Proof.
  intros Ht H. apply (law_roundtrip _ _ _ _ _ L x); [exact Ht | ].
  apply encoding_eq. exact H.
Qed.

Lemma marshalled_not_nil (p : option T) :
  is_ok (marshal (or_new new p) []) = true -> p = Some (or_new new p).
Proof.
  destruct p as [x|]; [reflexivity | ]. cbn [or_new default].
  rewrite (law_new _ _ _ _ _ L). discriminate.
Qed.

End Laws.

Lemma vector_step {B} size v dst (k : bytes -> result B) out :
  (d ← marshal_bytes_vector size v dst; k d) = Ok out ->
  Forall (fun x => len x = size) v /\ k (dst ++ concat v) = Ok out.
Proof.
  intros H. apply bind_Ok_inv in H as (d & E & H).
  apply marshal_bytes_vector_ok in E as [F ->]. auto.
Qed.

(** Lists of records *)

Definition valid_element {T} (marshal : option T -> bytes -> result bytes)
  (p : option T) : Prop :=
  match p with
  | Some x => is_ok (marshal (Some x) []) = true
  | None => False
  end.

Definition elements_encoding {T} (marshal : option T -> bytes -> result bytes)
  (v : list (option T)) : bytes :=
  concat (map (encoding marshal) v).

Section Elements.
Context {T : Type} {new : T} {size : Z} {typed : T -> Prop}
  {marshal : option T -> bytes -> result bytes}
  {unmarshal : T -> bytes -> result T}.
Hypothesis L :
  codec_laws new size typed (fun x => marshal (Some x)) unmarshal.
Hypothesis marshal_nil : forall dst, is_ok (marshal None dst) = false.

Lemma elements_valid v dst :
  Forall (valid_element marshal) v ->
  marshal_elements marshal v dst = Ok (dst ++ elements_encoding marshal v).
Proof.
  intros Hv. revert dst. unfold elements_encoding.
  induction Hv as [|p rest Hp _ IH]; intros dst;
    cbn [marshal_elements map concat].
  - rewrite app_nil_r. reflexivity.
  - destruct p as [x|]; [ | destruct Hp ]. cbn [valid_element] in Hp.
    rewrite (marshal_valid L x dst Hp). cbn [mbind result_bind].
    rewrite IH, app_assoc. reflexivity.
Qed.

Lemma elements_ok v dst out :
  marshal_elements marshal v dst = Ok out ->
  Forall (valid_element marshal) v.
Proof.
  revert dst. induction v as [|p rest IH]; intros dst;
    cbn [marshal_elements]; [constructor | ].
  intros H. destruct p as [x|].
  - apply (marshal_step L) in H as [Hx H]. constructor; [exact Hx | eauto].
  - pose proof (marshal_nil dst) as Hn.
    destruct (marshal None dst); discriminate.
Qed.

Lemma elements_step {B} v dst (k : bytes -> result B) out :
  (d ← marshal_elements marshal v dst; k d) = Ok out ->
  Forall (valid_element marshal) v /\
  k (dst ++ elements_encoding marshal v) = Ok out.
Proof.
  intros H. apply bind_Ok_inv in H as (d & E & H).
  pose proof (elements_ok _ _ _ E) as Hv.
  rewrite (elements_valid v dst Hv) in E. apply Ok_inj in E. subst d. auto.
Qed.

Lemma elements_sizes v :
  Forall (valid_element marshal) v ->
  Forall (fun x => len x = size) (map (encoding marshal) v).
Proof.
  induction 1 as [|p rest Hp _ IH]; cbn [map]; constructor; [ | exact IH ].
  destruct p as [x|]; [ | destruct Hp ]. apply (encoding_size L x Hp).
Qed.

Lemma len_elements_encoding v :
  Forall (valid_element marshal) v ->
  len (elements_encoding marshal v) = len v * size.
Proof.
  intros Hv. unfold elements_encoding.
  rewrite (len_concat_fixed size _ (elements_sizes v Hv)), length_map.
  reflexivity.
Qed.

Lemma elements_roundtrip v :
  Forall (typed_ptr typed) v -> Forall (valid_element marshal) v ->
  unmarshal_elements new unmarshal
    (chunks (length v) size (elements_encoding marshal v)) = Ok v.
Proof.
  intros Ht Hv. unfold elements_encoding.
  pose proof (chunks_concat size _ (elements_sizes v Hv)) as Hc.
  rewrite length_map in Hc. rewrite Hc. clear Hc.
  induction Hv as [|p rest Hp _ IH]; [reflexivity | ].
  destruct p as [x|]; [ | destruct Hp ].
  inversion Ht as [|? ? Hx Ht']; subst. cbn [typed_ptr] in Hx.
  cbn [map unmarshal_elements].
  change (encoding marshal (Some x))
    with (encoding (fun y => marshal (Some y)) x).
  rewrite (encoding_roundtrip L x Hx Hp). cbn [mbind result_bind].
  rewrite (IH Ht'). reflexivity.
Qed.

End Elements.

(** *** The layout of an encoded state *)

Lemma field_app segs extra lo hi x :
  field segs lo hi = Some x -> field (segs ++ extra) lo hi = Some x.
Proof.
  revert lo hi. induction segs as [|[n y] rest IH]; intros lo hi;
    cbn [field app]; [discriminate | ].
  destruct ((lo =? 0) && (hi =? n)); [trivial | apply IH].
Qed.

Lemma slice_field_app segs (rest : bytes) lo hi x :
  laid_out segs -> field segs lo hi = Some x ->
  slice (buffer segs ++ rest) lo hi = x.
Proof.
  intros Hs Hf.
  replace (buffer segs ++ rest) with (buffer (segs ++ [(len rest, rest)])).
  - apply slice_field.
    + apply Forall_app. split; [exact Hs | ].
      apply List.Forall_cons; [reflexivity | apply List.Forall_nil].
    + apply field_app. exact Hf.
  - unfold buffer. rewrite map_app, concat_app. cbn [map snd concat].
    rewrite app_nil_r. reflexivity.
Qed.

Section Roundtrip.
Context {external : External}.
Import State.

(** The start of each variable section, as the encoder counts it. *)
Definition offset7 (b : Inner.t) : Z := 2787217.
Definition offset9 (b : Inner.t) : Z :=
  offset7 b + len_nilable (Inner.HistoricalRoots b) * 32.
Definition offset11 (b : Inner.t) : Z :=
  offset9 b + len_nilable (Inner.Eth1DataVotes b) * 72.
Definition offset12 (b : Inner.t) : Z :=
  offset11 b + len_nilable (Inner.Validators b) * 121.
Definition offset15 (b : Inner.t) : Z :=
  offset12 b + len_nilable (Inner.Balances b) * 8.
Definition offset16 (b : Inner.t) : Z :=
  offset15 b + len_nilable (Inner.PreviousEpochParticipation b).

Definition header_encoding (p : option BeaconBlockHeader.t) : bytes :=
  encoding (fun x => BeaconBlockHeader_MarshalSSZTo (Some x))
    (or_new BeaconBlockHeader.zero p).
Definition eth1data_encoding (p : option Eth1Data.t) : bytes :=
  encoding (fun x => Eth1Data_MarshalSSZTo (Some x)) (or_new Eth1Data.zero p).
Definition checkpoint_encoding (p : option Checkpoint.t) : bytes :=
  encoding (fun x => Checkpoint_MarshalSSZTo (Some x))
    (or_new Checkpoint.zero p).
Definition committee_encoding (p : option SyncCommittee.t) : bytes :=
  encoding SyncCommittee_MarshalSSZTo (or_new SyncCommittee.zero p).

(** The fixed part: the fields of fixed size and the offsets, in order. *)
Definition fixed_segments (b : Inner.t) : list (Z * bytes) :=
  [ (8, le_bytes 8 (Inner.GenesisTime b));
    (32, default [] (Inner.GenesisValidatorsRoot b));
    (8, le_bytes 8 (Inner.Slot b));
    (16, encoding Fork_MarshalSSZTo (or_new Fork.zero (Inner.Fork b)));
    (112, header_encoding (Inner.LatestBlockHeader b));
    (262144, concat (default [] (Inner.BlockRoots b)));
    (262144, concat (default [] (Inner.StateRoots b)));
    (4, le_bytes 4 (offset7 b));
    (72, eth1data_encoding (Inner.Eth1Data b));
    (4, le_bytes 4 (offset9 b));
    (8, le_bytes 8 (Inner.Eth1DepositIndex b));
    (4, le_bytes 4 (offset11 b));
    (4, le_bytes 4 (offset12 b));
    (2097152, concat (default [] (Inner.RandaoMixes b)));
    (65536, concat (map (le_bytes 8) (default [] (Inner.Slashings b))));
    (4, le_bytes 4 (offset15 b));
    (4, le_bytes 4 (offset16 b));
    (1, default [] (Inner.JustificationBits b));
    (40, checkpoint_encoding (Inner.PreviousJustifiedCheckpoint b));
    (40, checkpoint_encoding (Inner.CurrentJustifiedCheckpoint b));
    (40, checkpoint_encoding (Inner.FinalizedCheckpoint b));
    (49920, committee_encoding (Inner.CurrentSyncCommittee b));
    (49920, committee_encoding (Inner.NextSyncCommittee b)) ].

(** The variable sections, in order. *)
Definition variable_sections (b : Inner.t) : list bytes :=
  [ concat (default [] (Inner.HistoricalRoots b));
    elements_encoding Eth1Data_MarshalSSZTo
      (default [] (Inner.Eth1DataVotes b));
    elements_encoding Validator_MarshalSSZTo (default [] (Inner.Validators b));
    concat (map (le_bytes 8) (default [] (Inner.Balances b)));
    default [] (Inner.PreviousEpochParticipation b);
    default [] (Inner.CurrentEpochParticipation b) ].

Definition state_encoding (b : Inner.t) : bytes :=
  buffer (fixed_segments b) ++ concat (variable_sections b).

(** A vector of [n] byte strings of [size] bytes each. *)
Definition is_vector (n size : Z) (v : option (list bytes)) : Prop :=
  len_nilable v = n /\ Forall (fun x => len x = size) (default [] v).

(** What the encoder checks. *)
Record valid (b : Inner.t) : Prop := mkValid {
  valid_genesis_root : len_nilable (Inner.GenesisValidatorsRoot b) = 32;
  valid_fork :
    is_ok (Fork_MarshalSSZTo (or_new Fork.zero (Inner.Fork b)) []) = true;
  valid_header :
    is_ok (BeaconBlockHeader_MarshalSSZTo
             (Some (or_new BeaconBlockHeader.zero (Inner.LatestBlockHeader b)))
             []) = true;
  valid_block_roots : is_vector 8192 32 (Inner.BlockRoots b);
  valid_state_roots : is_vector 8192 32 (Inner.StateRoots b);
  valid_eth1data :
    is_ok (Eth1Data_MarshalSSZTo
             (Some (or_new Eth1Data.zero (Inner.Eth1Data b))) []) = true;
  valid_randao : is_vector 65536 32 (Inner.RandaoMixes b);
  valid_slashings : len_nilable (Inner.Slashings b) = 8192;
  valid_bits : len_nilable (Inner.JustificationBits b) = 1;
  valid_previous :
    is_ok (Checkpoint_MarshalSSZTo
             (Some (or_new Checkpoint.zero
                      (Inner.PreviousJustifiedCheckpoint b))) []) = true;
  valid_current :
    is_ok (Checkpoint_MarshalSSZTo
             (Some (or_new Checkpoint.zero
                      (Inner.CurrentJustifiedCheckpoint b))) []) = true;
  valid_finalized :
    is_ok (Checkpoint_MarshalSSZTo
             (Some (or_new Checkpoint.zero (Inner.FinalizedCheckpoint b)))
             []) = true;
  valid_current_committee :
    is_ok (SyncCommittee_MarshalSSZTo
             (or_new SyncCommittee.zero (Inner.CurrentSyncCommittee b)) [])
    = true;
  valid_next_committee :
    is_ok (SyncCommittee_MarshalSSZTo
             (or_new SyncCommittee.zero (Inner.NextSyncCommittee b)) [])
    = true;
  valid_historical :
    len_nilable (Inner.HistoricalRoots b) <= 16777216 /\
    Forall (fun x => len x = 32) (default [] (Inner.HistoricalRoots b));
  valid_votes :
    len_nilable (Inner.Eth1DataVotes b) <= 2048 /\
    Forall (valid_element Eth1Data_MarshalSSZTo)
      (default [] (Inner.Eth1DataVotes b));
  valid_validators :
    len_nilable (Inner.Validators b) <= 1099511627776 /\
    Forall (valid_element Validator_MarshalSSZTo)
      (default [] (Inner.Validators b));
  valid_balances : len_nilable (Inner.Balances b) <= 1099511627776;
  valid_previous_participation :
    len_nilable (Inner.PreviousEpochParticipation b) <= 1099511627776;
  valid_current_participation :
    len_nilable (Inner.CurrentEpochParticipation b) <= 1099511627776
}.

(** The record with each list of variable size that is [nil] replaced by
    the empty list: as a message the same record. *)
Definition canon (b : Inner.t) : Inner.t :=
  Inner.mk (Inner.GenesisTime b) (Inner.GenesisValidatorsRoot b)
    (Inner.Slot b) (Inner.Fork b) (Inner.LatestBlockHeader b)
    (Inner.BlockRoots b) (Inner.StateRoots b)
    (Some (default [] (Inner.HistoricalRoots b)))
    (Inner.Eth1Data b) (Some (default [] (Inner.Eth1DataVotes b)))
    (Inner.Eth1DepositIndex b) (Some (default [] (Inner.Validators b)))
    (Some (default [] (Inner.Balances b))) (Inner.RandaoMixes b)
    (Inner.Slashings b)
    (Some (default [] (Inner.PreviousEpochParticipation b)))
    (Some (default [] (Inner.CurrentEpochParticipation b)))
    (Inner.JustificationBits b)
    (Inner.PreviousJustifiedCheckpoint b)
    (Inner.CurrentJustifiedCheckpoint b) (Inner.FinalizedCheckpoint b)
    (Inner.CurrentSyncCommittee b) (Inner.NextSyncCommittee b).

Hypothesis laws : ExternalLaws external.

Hypothesis helper : HelperLaws external.

(** On a [nil] slice the helper returns a slice of [n] elements. *)
Lemma extend_new_ok (n : Z) :
  0 <= n -> exists v, ExtendUint64 None n = Ok v /\ length v = Z.to_nat n.
Proof.
  intros Hn. destruct (is_ok_inv _ (extend_new helper n Hn)) as [v E].
  exists v. split; [exact E | ].
  pose proof (extend_len helper None n v Hn E) as Hl. unfold len in Hl. lia.
Qed.

(** One step of an encoder that succeeded. *)
Ltac marshal_inv_step H :=
  match type of H with
  | (if negb (?a =? ?n) then Err _ else _) = Ok _ =>
      let E := fresh "E" in
      destruct (Z.eqb_spec a n) as [E|E]; [ | discriminate H ];
      change (negb true) with false in H; cbv beta iota in H
  | (if ?n <? ?a then Err _ else _) = Ok _ =>
      let E := fresh "E" in
      destruct (Z.ltb_spec n a) as [E|E]; [discriminate H | ]
  | mbind _ (Fork_MarshalSSZTo _ _) = Ok _ =>
      let E := fresh "E" in apply (marshal_step Fork_laws) in H as [E H]
  | mbind _ (SyncCommittee_MarshalSSZTo _ _) = Ok _ =>
      let E := fresh "E" in
      apply (marshal_step SyncCommittee_laws) in H as [E H]
  | mbind _ (BeaconBlockHeader_MarshalSSZTo (Some ?x) ?dst) = Ok _ =>
      let E := fresh "E" in
      apply (marshal_step (header_laws laws) x dst) in H as [E H]
  | mbind _ (Eth1Data_MarshalSSZTo (Some ?x) ?dst) = Ok _ =>
      let E := fresh "E" in
      apply (marshal_step (eth1data_laws laws) x dst) in H as [E H]
  | mbind _ (Checkpoint_MarshalSSZTo (Some ?x) ?dst) = Ok _ =>
      let E := fresh "E" in
      apply (marshal_step (checkpoint_laws laws) x dst) in H as [E H]
  | mbind _ (marshal_bytes_vector _ _ _) = Ok _ =>
      let E := fresh "E" in apply vector_step in H as [E H]
  | mbind _ (marshal_elements Eth1Data_MarshalSSZTo _ _) = Ok _ =>
      let E := fresh "E" in
      apply (elements_step (eth1data_laws laws) (eth1data_nil laws))
        in H as [E H]
  | mbind _ (marshal_elements Validator_MarshalSSZTo _ _) = Ok _ =>
      let E := fresh "E" in
      apply (elements_step (validator_laws laws) (validator_nil laws))
        in H as [E H]
  end.

(** Both sides of an equation between encodings, as one right-nested
    concatenation. *)
Ltac flatten_state :=
  unfold state_encoding, buffer, fixed_segments, variable_sections,
    header_encoding, eth1data_encoding, checkpoint_encoding,
    committee_encoding, offset16, offset15, offset12, offset11, offset9,
    offset7, WriteOffset, MarshalUint64;
  rewrite ?marshal_uint64_vector_eq;
  cbn [map snd concat];
  rewrite ?app_nil_r, <- ?app_assoc; cbn [app].

Lemma BeaconState_MarshalSSZTo_inv b dst out :
  BeaconState_MarshalSSZTo b dst = Ok out ->
  valid b /\ out = dst ++ state_encoding b.
Proof.
  unfold BeaconState_MarshalSSZTo. cbv zeta. intros H.
  repeat marshal_inv_step H.
  apply Ok_inj in H. subst out. split.
  - constructor; unfold is_vector; auto.
  - flatten_state. reflexivity.
Qed.

(** One step of an encoder on a valid record. *)
Ltac marshal_step_tac :=
  match goal with
  | |- (if negb (?a =? ?n) then Err _ else _) = _ =>
      destruct (Z.eqb_spec a n); [ | lia ];
      change (negb true) with false; cbv beta iota
  | |- (if ?n <? ?a then Err _ else _) = _ =>
      destruct (Z.ltb_spec n a); [lia | ]
  | |- mbind _ (Fork_MarshalSSZTo ?x ?dst) = _ =>
      rewrite (marshal_valid Fork_laws x dst) by assumption
  | |- mbind _ (SyncCommittee_MarshalSSZTo ?x ?dst) = _ =>
      rewrite (marshal_valid SyncCommittee_laws x dst) by assumption
  | |- mbind _ (BeaconBlockHeader_MarshalSSZTo (Some ?x) ?dst) = _ =>
      rewrite (marshal_valid (header_laws laws) x dst) by assumption
  | |- mbind _ (Eth1Data_MarshalSSZTo (Some ?x) ?dst) = _ =>
      rewrite (marshal_valid (eth1data_laws laws) x dst) by assumption
  | |- mbind _ (Checkpoint_MarshalSSZTo (Some ?x) ?dst) = _ =>
      rewrite (marshal_valid (checkpoint_laws laws) x dst) by assumption
  | |- mbind _ (marshal_bytes_vector ?s ?v ?dst) = _ =>
      rewrite (marshal_bytes_vector_valid s v dst) by assumption
  | |- mbind _ (marshal_elements Eth1Data_MarshalSSZTo ?v ?dst) = _ =>
      rewrite (elements_valid (eth1data_laws laws) v dst) by assumption
  | |- mbind _ (marshal_elements Validator_MarshalSSZTo ?v ?dst) = _ =>
      rewrite (elements_valid (validator_laws laws) v dst) by assumption
  | |- mbind _ (Ok _) = _ => cbn [mbind result_bind]
  end.

Lemma BeaconState_MarshalSSZTo_valid b dst :
  valid b -> BeaconState_MarshalSSZTo b dst = Ok (dst ++ state_encoding b).
Proof.
  intros [Hg Hf Hh [Hb1 Hb2] [Hs1 Hs2] He [Hr1 Hr2] Hsl Hj Hp Hc Hfi Hsc Hn
            [Hh1 Hh2] [Hv1 Hv2] [Hva1 Hva2] Hba Hpp Hcp].
  unfold BeaconState_MarshalSSZTo. cbv zeta.
  repeat marshal_step_tac.
  f_equal. flatten_state. reflexivity.
Qed.

(** The encoder accepts exactly the valid records. *)
Lemma BeaconState_MarshalSSZ_ok b :
  is_ok (BeaconState_MarshalSSZ b) = true <-> valid b.
Proof.
  unfold BeaconState_MarshalSSZ. split.
  - intros H. apply is_ok_inv in H as [out H].
    apply BeaconState_MarshalSSZTo_inv in H as [Hv _]. exact Hv.
  - intros Hv. rewrite (BeaconState_MarshalSSZTo_valid b [] Hv). reflexivity.
Qed.

(** The decoder on an encoding: the first pass *)

Lemma len_default {A} (v : option (list A)) :
  len (default [] v) = len_nilable v.
Proof. destruct v; reflexivity. Qed.

Lemma not_nil {A} (v : option (list A)) n :
  len_nilable v = n -> n <> 0 -> Some (default [] v) = v.
Proof. destruct v; [reflexivity | ]. cbn. lia. Qed.

Lemma len_uint64_vector (v : list Z) :
  len (concat (map (le_bytes 8) v)) = len v * 8.
Proof.
  rewrite (len_concat_fixed 8).
  - rewrite length_map. reflexivity.
  - apply Forall_map. apply Forall_forall. intros x _. apply len_le_bytes.
Qed.

Lemma uint64_vector_roundtrip (n : Z) (v : list Z) :
  len v = n -> Forall is_uint64 v ->
  unmarshal_uint64_vector (Z.to_nat n) (concat (map (le_bytes 8) v)) = v.
Proof.
  intros <- Hv. rewrite to_nat_len.
  apply unmarshal_uint64_vector_roundtrip. exact Hv.
Qed.

Lemma ptr_roundtrip {T} {new : T} {size typed marshal unmarshal}
  (L : codec_laws new size typed marshal unmarshal) (p : option T) :
  typed_ptr typed p -> is_ok (marshal (or_new new p) []) = true ->
  unmarshal new (encoding marshal (or_new new p)) = Ok (or_new new p) /\
  Some (or_new new p) = p.
Proof.
  intros Ht Hv. pose proof (marshalled_not_nil L p Hv) as Hp.
  split; [ | symmetry; exact Hp ].
  apply (encoding_roundtrip L); [ | exact Hv ].
  rewrite Hp in Ht. exact Ht.
Qed.

Lemma typed_ptr_True {T} (p : option T) : typed_ptr (fun _ => True) p.
Proof. destruct p; exact I. Qed.

Lemma laid_out_fixed b : valid b -> laid_out (fixed_segments b).
Proof.
  intros [Hg Hf Hh [Hb1 Hb2] [Hs1 Hs2] He [Hr1 Hr2] Hsl Hj Hp Hc Hfi Hsc Hn
            _ _ _ _ _ _].
  unfold laid_out, fixed_segments.
  repeat (apply List.Forall_cons;
          [ cbn [fst snd];
            first
              [ apply len_le_bytes
              | rewrite len_default; assumption
              | apply (encoding_size Fork_laws); assumption
              | apply (encoding_size SyncCommittee_laws); assumption
              | apply (encoding_size (header_laws laws)); assumption
              | apply (encoding_size (eth1data_laws laws)); assumption
              | apply (encoding_size (checkpoint_laws laws)); assumption
              | rewrite len_uint64_vector, len_default, Hsl; reflexivity
              | rewrite (len_vector 8192 32);
                [reflexivity | rewrite len_default; assumption | assumption]
              | rewrite (len_vector 65536 32);
                [reflexivity | rewrite len_default; assumption | assumption] ]
          | ]).
  apply List.Forall_nil.
Qed.

Lemma total_length_fixed b : total_length (fixed_segments b) = 2787217.
Proof. reflexivity. Qed.

Lemma len_variable_sections b :
  valid b ->
  len (concat (variable_sections b)) =
  len_nilable (Inner.HistoricalRoots b) * 32 +
  len_nilable (Inner.Eth1DataVotes b) * 72 +
  len_nilable (Inner.Validators b) * 121 +
  len_nilable (Inner.Balances b) * 8 +
  len_nilable (Inner.PreviousEpochParticipation b) +
  len_nilable (Inner.CurrentEpochParticipation b).
Proof.
  intros Hv. destruct Hv. unfold variable_sections. cbn [concat].
  rewrite !len_app, len_nil, len_uint64_vector, !len_default.
  rewrite (len_elements_encoding (eth1data_laws laws))
    by (apply valid_votes0).
  rewrite (len_elements_encoding (validator_laws laws))
    by (apply valid_validators0).
  rewrite (len_concat_fixed 32) by (apply valid_historical0).
  rewrite !len_default.
  change (Z.of_nat (length (default [] (Inner.HistoricalRoots b))))
    with (len (default [] (Inner.HistoricalRoots b))).
  rewrite len_default. lia.
Qed.

(** The declared size is the length of the encoding. *)
Lemma len_state_encoding b :
  valid b -> len (state_encoding b) = BeaconState_SizeSSZ b.
Proof.
  intros Hv. unfold state_encoding.
  rewrite len_app, (len_buffer _ (laid_out_fixed b Hv)), total_length_fixed,
    (len_variable_sections b Hv).
  unfold BeaconState_SizeSSZ. cbv zeta. lia.
Qed.

(** What the first pass leaves in a new record. *)
Definition fixed_of (b : Inner.t) : Inner.t :=
  Inner.mk (Inner.GenesisTime b) (Inner.GenesisValidatorsRoot b)
    (Inner.Slot b) (Inner.Fork b) (Inner.LatestBlockHeader b)
    (Inner.BlockRoots b) (Inner.StateRoots b) None
    (Inner.Eth1Data b) None (Inner.Eth1DepositIndex b) None None
    (Inner.RandaoMixes b) (Inner.Slashings b) None None
    (Inner.JustificationBits b) (Inner.PreviousJustifiedCheckpoint b)
    (Inner.CurrentJustifiedCheckpoint b) (Inner.FinalizedCheckpoint b)
    (Inner.CurrentSyncCommittee b) (Inner.NextSyncCommittee b).

Definition encoded_offsets (b : Inner.t) : offsets :=
  mkOffsets (offset7 b) (offset9 b) (offset11 b) (offset12 b) (offset15 b)
    (offset16 b).

Lemma offsets_ordered b :
  valid b ->
  offset7 b = 2787217 /\ offset7 b <= offset9 b /\ offset9 b <= offset11 b /\
  offset11 b <= offset12 b /\ offset12 b <= offset15 b /\
  offset15 b <= offset16 b /\
  offset16 b + len_nilable (Inner.CurrentEpochParticipation b) =
  len (state_encoding b).
Proof.
  intros Hv. rewrite (len_state_encoding b Hv).
  unfold BeaconState_SizeSSZ, offset16, offset15, offset12, offset11, offset9,
    offset7. cbv zeta.
  pose proof (len_nonneg (default [] (Inner.HistoricalRoots b))).
  pose proof (len_nonneg (default [] (Inner.Eth1DataVotes b))).
  pose proof (len_nonneg (default [] (Inner.Validators b))).
  pose proof (len_nonneg (default [] (Inner.Balances b))).
  pose proof (len_nonneg (default [] (Inner.PreviousEpochParticipation b))).
  pose proof (len_nonneg (default [] (Inner.CurrentEpochParticipation b))).
  rewrite !len_default in *. lia.
Qed.

(** The offsets as written: the low 32 bits of what the encoder counted. *)
Definition written_offsets (b : Inner.t) : offsets :=
  mkOffsets (offset7 b mod 2 ^ 32) (offset9 b mod 2 ^ 32)
    (offset11 b mod 2 ^ 32) (offset12 b mod 2 ^ 32) (offset15 b mod 2 ^ 32)
    (offset16 b mod 2 ^ 32).

(** The checks of the first pass, in the order in which it makes them. *)
Definition offsets_pass (size : Z) (o : offsets) : bool :=
  negb (size <? o7 o) &&
  negb ((size <? o9 o) || (o9 o <? o7 o)) &&
  negb ((size <? o11 o) || (o11 o <? o9 o)) &&
  negb ((size <? o12 o) || (o12 o <? o11 o)) &&
  negb ((size <? o15 o) || (o15 o <? o12 o)) &&
  negb ((size <? o16 o) || (o16 o <? o15 o)).

Lemma unmarshalFixed_encoding b :
  valid b -> BeaconState_typed b ->
  unmarshalFixed Inner.zero (state_encoding b) =
  if offsets_pass (len (state_encoding b)) (written_offsets b)
  then Ok (fixed_of b, written_offsets b)
  else Err ErrOffset.
Proof.
  intros Hv Ht.
  pose proof (laid_out_fixed b Hv) as Hs.
  destruct Ht as (T1 & T2 & T3 & T4 & T5 & _ & T7 & _ & _ & T10 & T11 & T12
                  & T13).
  destruct Hv as [Hg Hf Hh [Hb1 Hb2] [Hs1 Hs2] He [Hr1 Hr2] Hsl Hj Hp Hc Hfi
                    Hsc Hn _ _ _ _ _ _].
  destruct (ptr_roundtrip Fork_laws _ T3 Hf) as [D3 P3].
  destruct (ptr_roundtrip (header_laws laws) _ T4 Hh) as [D4 P4].
  destruct (ptr_roundtrip (eth1data_laws laws) _ T5 He) as [D5 P5].
  destruct (ptr_roundtrip (checkpoint_laws laws) _ T11 Hp) as [D11 P11].
  destruct (ptr_roundtrip (checkpoint_laws laws) _ T12 Hc) as [D12 P12].
  destruct (ptr_roundtrip (checkpoint_laws laws) _ T13 Hfi) as [D13 P13].
  destruct (ptr_roundtrip SyncCommittee_laws _ (typed_ptr_True _) Hsc)
    as [D21 P21].
  destruct (ptr_roundtrip SyncCommittee_laws _ (typed_ptr_True _) Hn)
    as [D22 P22].
  unfold unmarshalFixed, offsets_pass, written_offsets. cbv zeta.
  cbn [o7 o9 o11 o12 o15 o16].
  set (size := len (state_encoding b)) in *.
  unfold state_encoding.
  repeat match goal with
         | |- context [slice (buffer ?S ++ ?R) ?lo ?hi] =>
             rewrite (slice_field_app S R lo hi _ Hs eq_refl)
         end.
  change (or_new Fork.zero (Inner.Fork Inner.zero)) with Fork.zero.
  change (or_new BeaconBlockHeader.zero (Inner.LatestBlockHeader Inner.zero))
    with BeaconBlockHeader.zero.
  change (or_new Eth1Data.zero (Inner.Eth1Data Inner.zero))
    with Eth1Data.zero.
  change (or_new Checkpoint.zero
            (Inner.PreviousJustifiedCheckpoint Inner.zero))
    with Checkpoint.zero.
  change (or_new Checkpoint.zero (Inner.CurrentJustifiedCheckpoint Inner.zero))
    with Checkpoint.zero.
  change (or_new Checkpoint.zero (Inner.FinalizedCheckpoint Inner.zero))
    with Checkpoint.zero.
  change (or_new SyncCommittee.zero (Inner.CurrentSyncCommittee Inner.zero))
    with SyncCommittee.zero.
  change (or_new SyncCommittee.zero (Inner.NextSyncCommittee Inner.zero))
    with SyncCommittee.zero.
  unfold header_encoding, eth1data_encoding, checkpoint_encoding,
    committee_encoding.
  rewrite D3, D4, D5, D11, D12, D13, D21, D22.
  destruct (extend_new_ok 8192 ltac:(lia)) as (sl0 & Esl & Lsl).
  change (Inner.Slashings Inner.zero) with (@None (list Z)).
  rewrite Esl. cbn [mbind result_bind].
  rewrite (fill_uint64_vector_eq sl0 _ _ Lsl).
  rewrite !ReadOffset_le_bytes.
  rewrite !UnmarshallUint64_le_bytes by assumption.
  rewrite (chunks_vector 8192 32 _ ltac:(rewrite len_default; exact Hb1) Hb2).
  rewrite (chunks_vector 8192 32 _ ltac:(rewrite len_default; exact Hs1) Hs2).
  rewrite (chunks_vector 65536 32 _ ltac:(rewrite len_default; exact Hr1) Hr2).
  rewrite (uint64_vector_roundtrip 8192 _
             ltac:(rewrite len_default; exact Hsl) T10).
  change (default [] (Inner.GenesisValidatorsRoot Inner.zero) ++ ?x) with x.
  change (default [] (Inner.JustificationBits Inner.zero) ++ ?x) with x.
  rewrite P3, P4, P5, P11, P12, P13, P21, P22.
  rewrite (not_nil _ 32 Hg), (not_nil _ 8192 Hb1), (not_nil _ 8192 Hs1),
    (not_nil _ 65536 Hr1), (not_nil _ 8192 Hsl), (not_nil _ 1 Hj) by lia.
  fold (fixed_of b).
  repeat (match goal with
          | |- context [?a <? ?c] => destruct (a <? c)
          end; cbn [orb andb negb]; try reflexivity).
Qed.

(** An encoding shorter than [2 ^ 32] bytes holds the offsets the encoder
    counted, and they pass the checks. *)
Lemma written_offsets_small b :
  valid b -> len (state_encoding b) < 2 ^ 32 ->
  written_offsets b = encoded_offsets b /\
  offsets_pass (len (state_encoding b)) (encoded_offsets b) = true.
Proof.
  intros Hv Hsize.
  pose proof (offsets_ordered b Hv) as (O7 & O9 & O11 & O12 & O15 & O16 & Oe).
  pose proof (len_nonneg (default [] (Inner.CurrentEpochParticipation b)))
    as Hcur. rewrite len_default in Hcur.
  split.
  - unfold written_offsets, encoded_offsets.
    rewrite !Z.mod_small by lia. reflexivity.
  - unfold offsets_pass, encoded_offsets. cbn [o7 o9 o11 o12 o15 o16].
    repeat match goal with
           | |- context [?a <? ?c] => destruct (Z.ltb_spec a c); [lia | ]
           end.
    reflexivity.
Qed.

(** The second pass *)

Lemma slice_from_concat (pre : list bytes) (x : bytes) lo :
  lo = len (concat pre) -> slice_from (concat (pre ++ [x])) lo = x.
Proof.
  intros Hlo. rewrite concat_app. cbn [concat]. rewrite app_nil_r.
  apply slice_from_end. exact Hlo.
Qed.

Lemma DivideInt2_exact n size max :
  0 < size -> n <= max -> DivideInt2 (n * size) size max = Ok n.
Proof.
  intros Hs Hn. unfold DivideInt2.
  rewrite Z.mod_mul, Z.div_mul by lia. cbn [Z.eqb negb].
  destruct (Z.ltb_spec max n); [lia | reflexivity].
Qed.

Lemma to_nat_len_nilable {A} (v : option (list A)) :
  Z.to_nat (len_nilable v) = length (default [] v).
Proof. rewrite <- len_default. apply to_nat_len. Qed.

Lemma unmarshalVariable_encoding b :
  valid b -> BeaconState_typed b ->
  unmarshalVariable (fixed_of b) (state_encoding b) (encoded_offsets b) =
  Ok (canon b).
Proof.
  intros Hv Ht.
  pose proof (laid_out_fixed b Hv) as Hs.
  pose proof (len_buffer _ Hs) as LF. rewrite total_length_fixed in LF.
  destruct Ht as (_ & _ & _ & _ & _ & T6 & _ & T8 & T9 & _).
  destruct Hv as [_ _ _ _ _ _ _ _ _ _ _ _ _ _ [Hh1 Hh2] [Hv1 Hv2] [Hva1 Hva2]
                    Hba Hpp Hcp].
  pose proof (len_concat_fixed 32 _ Hh2) as L7.
  pose proof (len_elements_encoding (eth1data_laws laws) _ Hv2) as L9.
  pose proof (len_elements_encoding (validator_laws laws) _ Hva2) as L11.
  pose proof (len_uint64_vector (default [] (Inner.Balances b))) as L12.
  pose proof (len_default (Inner.PreviousEpochParticipation b)) as L15.
  pose proof (len_default (Inner.CurrentEpochParticipation b)) as L16.
  change (Z.of_nat (length (default [] (Inner.HistoricalRoots b))))
    with (len (default [] (Inner.HistoricalRoots b))) in L7.
  rewrite len_default in L7. rewrite len_default in L9.
  rewrite len_default in L11. rewrite len_default in L12.
  unfold unmarshalVariable, encoded_offsets. cbv zeta.
  cbn [o7 o9 o11 o12 o15 o16].
  unfold state_encoding, variable_sections.
  set (F := buffer (fixed_segments b)) in *.
  set (v7 := concat (default [] (Inner.HistoricalRoots b))) in *.
  set (v9 := elements_encoding Eth1Data_MarshalSSZTo _) in *.
  set (v11 := elements_encoding Validator_MarshalSSZTo _) in *.
  set (v12 := concat (map (le_bytes 8) _)) in *.
  set (v15 := default [] (Inner.PreviousEpochParticipation b)) in *.
  set (v16 := default [] (Inner.CurrentEpochParticipation b)) in *.
  change (F ++ concat [v7; v9; v11; v12; v15; v16])
    with (concat [F; v7; v9; v11; v12; v15; v16]).
  assert (S7 : slice (concat [F; v7; v9; v11; v12; v15; v16])
                 (offset7 b) (offset9 b) = v7).
  { apply (slice_concat [F] v7 [v9; v11; v12; v15; v16]);
      unfold offset9, offset7; cbn [concat];
      rewrite ?len_app, ?len_nil; lia. }
  assert (S9 : slice (concat [F; v7; v9; v11; v12; v15; v16])
                 (offset9 b) (offset11 b) = v9).
  { apply (slice_concat [F; v7] v9 [v11; v12; v15; v16]);
      unfold offset11, offset9, offset7; cbn [concat];
      rewrite ?len_app, ?len_nil; lia. }
  assert (S11 : slice (concat [F; v7; v9; v11; v12; v15; v16])
                  (offset11 b) (offset12 b) = v11).
  { apply (slice_concat [F; v7; v9] v11 [v12; v15; v16]);
      unfold offset12, offset11, offset9, offset7; cbn [concat];
      rewrite ?len_app, ?len_nil; lia. }
  assert (S12 : slice (concat [F; v7; v9; v11; v12; v15; v16])
                  (offset12 b) (offset15 b) = v12).
  { apply (slice_concat [F; v7; v9; v11] v12 [v15; v16]);
      unfold offset15, offset12, offset11, offset9, offset7; cbn [concat];
      rewrite ?len_app, ?len_nil; lia. }
  assert (S15 : slice (concat [F; v7; v9; v11; v12; v15; v16])
                  (offset15 b) (offset16 b) = v15).
  { apply (slice_concat [F; v7; v9; v11; v12] v15 [v16]);
      unfold offset16, offset15, offset12, offset11, offset9, offset7;
      cbn [concat]; rewrite ?len_app, ?len_nil; lia. }
  assert (S16 : slice_from (concat [F; v7; v9; v11; v12; v15; v16])
                  (offset16 b) = v16).
  { apply (slice_from_concat [F; v7; v9; v11; v12; v15] v16);
      unfold offset16, offset15, offset12, offset11, offset9, offset7;
      cbn [concat]; rewrite ?len_app, ?len_nil; lia. }
  rewrite S7, S9, S11, S12, S15, S16, L7, L9, L11, L12, L15, L16.
  rewrite !DivideInt2_exact by lia.
  destruct (extend_new_ok (len_nilable (Inner.Balances b))
              ltac:(unfold len_nilable; destruct (Inner.Balances b);
                    [apply len_nonneg | lia]))
    as (ba0 & Eba & Lba).
  change (Inner.Balances (fixed_of b)) with (@None (list Z)).
  cbn [mbind result_bind].
  rewrite Eba. cbn [mbind result_bind].
  rewrite (fill_uint64_vector_eq ba0 _ _ Lba).
  rewrite !to_nat_len_nilable.
  unfold v7, v9, v11, v12.
  rewrite (chunks_concat 32 _ Hh2).
  rewrite (elements_roundtrip (eth1data_laws laws) _ T6 Hv2).
  rewrite (elements_roundtrip (validator_laws laws) _ T8 Hva2).
  rewrite (unmarshal_uint64_vector_roundtrip _ T9).
  cbn [mbind result_bind].
  destruct (Z.ltb_spec 1099511627776
              (len_nilable (Inner.PreviousEpochParticipation b)));
    [lia | ].
  destruct (Z.ltb_spec 1099511627776
              (len_nilable (Inner.CurrentEpochParticipation b)));
    [lia | ].
  reflexivity.
Qed.

(** The whole decoder on an encoding *)

Lemma len_state_encoding_fixed b : valid b -> 2787217 <= len (state_encoding b).
Proof.
  intros Hv.
  pose proof (offsets_ordered b Hv) as (O7 & O9 & O11 & O12 & O15 & O16 & Oe).
  pose proof (len_nonneg (default [] (Inner.CurrentEpochParticipation b)))
    as Hcur. rewrite len_default in Hcur. lia.
Qed.

Lemma BeaconState_UnmarshalSSZ_encoding b :
  valid b -> BeaconState_typed b -> len (state_encoding b) < 2 ^ 32 ->
  BeaconState_UnmarshalSSZ Inner.zero (state_encoding b) = Ok (canon b).
Proof.
  intros Hv Ht Hsize. unfold BeaconState_UnmarshalSSZ. cbv zeta.
  pose proof (len_state_encoding_fixed b Hv) as Hfixed.
  destruct (Z.ltb_spec (len (state_encoding b)) 2787217) as [Hlt|_]; [lia | ].
  rewrite (unmarshalFixed_encoding b Hv Ht).
  destruct (written_offsets_small b Hv Hsize) as [-> ->].
  cbn [mbind result_bind]. apply unmarshalVariable_encoding; assumption.
Qed.


Lemma BeaconState_roundtrip b enc :
  BeaconState_typed b -> BeaconState_MarshalSSZ b = Ok enc ->
  BeaconState_SizeSSZ b = len enc /\
  (len enc < 2 ^ 32 ->
   BeaconState_UnmarshalSSZ Inner.zero enc = Ok (canon b)).
Proof.
  intros Ht H. apply BeaconState_MarshalSSZTo_inv in H as [Hv ->].
  cbn [app]. split.
  - symmetry. apply len_state_encoding. exact Hv.
  - intros Hsize. apply BeaconState_UnmarshalSSZ_encoding; assumption.
Qed.

(** A record that no list of variable size of which is [nil] is its own
    canonical form. *)
Lemma canon_id b :
  Inner.HistoricalRoots b <> None -> Inner.Eth1DataVotes b <> None ->
  Inner.Validators b <> None -> Inner.Balances b <> None ->
  Inner.PreviousEpochParticipation b <> None ->
  Inner.CurrentEpochParticipation b <> None ->
  canon b = b.
Proof.
  destruct b as [? ? ? ? ? ? ? hr ? ev ? va ba ? ? pp cp ? ? ? ? ? ?].
  cbn. intros.
  destruct hr, ev, va, ba, pp, cp; try contradiction. reflexivity.
Qed.

End Roundtrip.

(** *** The claim for all eight records *)

(** Decoding the encoding of a record into a new record gives the record
    back, and the declared size is the length of the encoding. *)
Definition round_trips {T} (new : T) (typed : T -> Prop)
  (marshal : T -> result bytes) (unmarshal : T -> bytes -> result T)
  (sizeof : T -> Z) : Prop :=
  forall r enc,
    typed r -> marshal r = Ok enc ->
    unmarshal new enc = Ok r /\ sizeof r = len enc.

Lemma laws_round_trip {T} {new : T} {size typed marshal unmarshal} :
  codec_laws new size typed marshal unmarshal ->
  round_trips new typed (fun r => marshal r []) unmarshal (fun _ => size).
Proof.
  intros L r enc Ht H. split.
  - apply (law_roundtrip _ _ _ _ _ L r enc Ht H).
  - symmetry. apply (law_size _ _ _ _ _ L r enc H).
Qed.


(** *** A state to run the codec on *)

Module ExampleState.
Import State.

Definition root : bytes := replicate 32 Byte.x2a.
Definition key : bytes := replicate 48 Byte.x07.
Definition version : bytes := replicate 4 Byte.x00.
Definition fork : Fork.t := Fork.mk version version 0.
Definition header : BeaconBlockHeader.t :=
  BeaconBlockHeader.mk 64 1 root root root.
Definition eth1data : Eth1Data.t := Eth1Data.mk root 3 root.
Definition checkpoint : Checkpoint.t := Checkpoint.mk 1 root.
Definition validator : Validator.t :=
  Validator.mk key root 32000000000 false 0 0 18446744073709551615
    18446744073709551615.

(** A state; the vectors, the committees, the validators with their
    balances and the participation flags are given. *)
Definition state (roots mixes : list bytes) (slashings : list Z)
  (committee : SyncCommittee.t) (validators : list (option Validator.t))
  (balances : list Z) (previous current : bytes) : Inner.t :=
  Inner.mk 1606824023 (Some root) 64 (Some fork) (Some header)
    (Some roots) (Some roots) (Some [root]) (Some eth1data)
    (Some [Some eth1data]) 3 (Some validators) (Some balances)
    (Some mixes) (Some slashings) (Some previous) (Some current)
    (Some [Byte.x00]) (Some checkpoint) (Some checkpoint) (Some checkpoint)
    (Some committee) (Some committee).

Definition roots : list bytes := replicate (Z.to_nat 8192) root.
Definition mixes : list bytes := replicate (Z.to_nat 65536) root.
Definition slashings : list Z := replicate (Z.to_nat 8192) 0.
Definition committee : SyncCommittee.t :=
  SyncCommittee.mk (replicate (Z.to_nat 1024) key)
    (replicate (Z.to_nat 16) key).

(** [n] validators, each with its balance and its flags. *)
Definition with_validators (n : Z) : Inner.t :=
  state roots mixes slashings committee
    (replicate (Z.to_nat n) (Some validator))
    (replicate (Z.to_nat n) 32000000000)
    (replicate (Z.to_nat n) Byte.x07) (replicate (Z.to_nat n) Byte.x00).

Definition small : Inner.t := with_validators 4.


End ExampleState.

Section ExampleFacts.
Import State ExampleState.
Variables (n : Z).
Hypothesis n_bounds : 0 <= n <= 1099511627776.

Let b : Inner.t := with_validators n.

Lemma len_replicate_any {A} (k : Z) (x : A) :
  0 <= k -> len (replicate (Z.to_nat k) x) = k.
Proof. intros H. unfold len. rewrite length_replicate. lia. Qed.

Lemma Forall_replicate_any {A} (P : A -> Prop) (k : nat) (x : A) :
  P x -> Forall P (replicate k x).
Proof. intros H. apply Forall_replicate. exact H. Qed.

Lemma example_committee_ok :
  is_ok (SyncCommittee_MarshalSSZTo committee []) = true.
Proof.
  unfold SyncCommittee_MarshalSSZTo, committee.
  cbn [SyncCommittee.Pubkeys SyncCommittee.PubkeyAggregates].
  rewrite !len_replicate_any by lia. cbn [Z.eqb Pos.eqb negb].
  rewrite marshal_bytes_vector_valid
    by (apply Forall_replicate_any; reflexivity).
  cbn [mbind result_bind].
  rewrite marshal_bytes_vector_valid
    by (apply Forall_replicate_any; reflexivity).
  reflexivity.
Qed.

Lemma with_validators_valid : valid (external := ExampleCodec.external) b.
Proof.
  unfold b, with_validators, state, roots, mixes, slashings.
  constructor; unfold is_vector;
    cbn [Inner.GenesisValidatorsRoot Inner.Fork Inner.LatestBlockHeader
         Inner.BlockRoots Inner.StateRoots Inner.HistoricalRoots
         Inner.Eth1Data Inner.Eth1DataVotes Inner.Validators Inner.Balances
         Inner.RandaoMixes Inner.Slashings Inner.PreviousEpochParticipation
         Inner.CurrentEpochParticipation Inner.JustificationBits
         Inner.PreviousJustifiedCheckpoint Inner.CurrentJustifiedCheckpoint
         Inner.FinalizedCheckpoint Inner.CurrentSyncCommittee
         Inner.NextSyncCommittee len_nilable default or_new id];
    rewrite ?len_replicate_any by lia; rewrite ?len_cons, ?len_nil;
    try reflexivity; try exact example_committee_ok; try lia;
    repeat split; try lia; try reflexivity;
    try (apply Forall_replicate_any; reflexivity).
  - repeat constructor.
  - repeat constructor.
Qed.

Lemma with_validators_typed : BeaconState_typed b.
Proof.
  unfold b, with_validators, state, slashings.
  unfold BeaconState_typed;
    cbn [Inner.GenesisTime Inner.Slot Inner.Fork Inner.LatestBlockHeader
         Inner.Eth1Data Inner.Eth1DataVotes Inner.Eth1DepositIndex
         Inner.Validators Inner.Balances Inner.Slashings
         Inner.PreviousJustifiedCheckpoint Inner.CurrentJustifiedCheckpoint
         Inner.FinalizedCheckpoint default typed_ptr].
  repeat split;
    try (apply Forall_replicate_any);
    try (repeat constructor); cbn; try lia.
Qed.

Lemma with_validators_size : BeaconState_SizeSSZ b = 2787321 + 131 * n.
Proof.
  unfold b, with_validators, state, BeaconState_SizeSSZ. cbv zeta.
  cbn [Inner.HistoricalRoots Inner.Eth1DataVotes Inner.Validators
       Inner.Balances Inner.PreviousEpochParticipation
       Inner.CurrentEpochParticipation len_nilable].
  rewrite !len_replicate_any by lia. unfold len. cbn [length]. lia.
Qed.


End ExampleFacts.

Lemma BeaconState_MarshalSSZ_valid {external : External}
  (laws : ExternalLaws external) b :
  valid b -> BeaconState_MarshalSSZ b = Ok (state_encoding b).
Proof.
  intros Hv. unfold BeaconState_MarshalSSZ.
  rewrite (BeaconState_MarshalSSZTo_valid laws b [] Hv). reflexivity.
Qed.

Lemma small_bounds : 0 <= 4 <= 1099511627776.
Proof. lia. Qed.





End P2PFacts.

(** * Hash tree roots *)

(** ** The hasher *)

Module Hasher.
Import SSZ.

Section Hash.
(** The hash of the concatenation of two chunks. *)
Variable hash2 : bytes -> bytes -> bytes.

Definition zero_chunk : bytes := replicate 32 Byte.x00.

(** Modelled from the spec: the root of a tree of [2 ^ depth] zero
    elements. *)
Fixpoint zero_hash (depth : nat) : bytes :=
  match depth with
  | O => zero_chunk
  | S d => let z := zero_hash d in hash2 z z
  end.

(** Modelled from the spec: one step of binary-tree hashing of pairs
    bottom-up; a last node without a sibling is paired with [zero], the
    root of the zero elements that pad the layer. *)
Fixpoint pair_up (zero : bytes) (layer : list bytes) : list bytes :=
  match layer with
  | [] => []
  | [a] => [hash2 a zero]
  | a :: b :: rest => hash2 a b :: pair_up zero rest
  end.

(** Modelled from the spec: [levels] steps of the hashing, from the layer
    at height [level]. *)
Fixpoint climb (levels level : nat) (layer : list bytes) : list bytes :=
  match levels with
  | O => layer
  | S k => climb k (S level) (pair_up (zero_hash level) layer)
  end.

(** Modelled from the spec: the fixed-vector rule for [2 ^ depth]
    elements, the leaves padded with zero elements. *)
Definition merkle_root (depth : nat) (leaves : list bytes) : bytes :=
  match climb depth 0 leaves with
  | r :: _ => r
  | [] => zero_hash depth
  end.

(** Modelled from the spec: the depth of the tree for [limit] leaves, the
    least [d] with [limit <= 2 ^ d]. *)
Definition getDepth (limit : Z) : nat := Z.to_nat (Z.log2_up limit).

(** Modelled from the spec: the mixin, one more hash with the leaf that
    holds the element count as a 32-byte little-endian integer. *)
Definition mix_in_length (root : bytes) (num : Z) : bytes :=
  hash2 root (le_bytes 32 num).

(** Modelled from the spec: the root of a list of at most [limit] leaves,
    the fixed-vector rule applied to [limit], then the mixin. *)
Definition list_root (limit : Z) (leaves : list bytes) (num : Z) : bytes :=
  mix_in_length (merkle_root (getDepth limit) leaves) num.

(** The state of a hasher is its buffer [hh.buf]. *)

(** Modelled from the spec: [hh.Index()], the length of the buffer. *)
Definition Index (hh : bytes) : Z := len hh.

(** Modelled from the spec: [hh.Append(i)] *)
Definition Append (hh i : bytes) : bytes := hh ++ i.

(** Modelled from the spec: [hh.AppendUint64(i)] *)
Definition AppendUint64 (hh : bytes) (i : Z) : bytes := MarshalUint64 hh i.

(** Modelled from the spec: [hh.FillUpTo32()] pads the buffer with zero
    bytes to a multiple of 32 bytes. *)
Definition FillUpTo32 (hh : bytes) : bytes :=
  hh ++ replicate (Z.to_nat ((32 - len hh mod 32) mod 32)) Byte.x00.

(** Modelled from the spec: the 32-byte leaves of a region of the buffer,
    the last one padded with zero bytes. *)
Definition leaves_of (input : bytes) : list bytes :=
  chunks (Z.to_nat ((len input + 31) / 32)) 32 (FillUpTo32 input).

(** Modelled from the spec: [hh.MerkleizeWithMixin(indx, num, limit)]
    replaces the buffer from [indx] on by the root of the list of its
    leaves.  The callers check the count against the limit first. *)
Definition MerkleizeWithMixin (hh : bytes) (indx num limit : Z) : bytes :=
  slice hh 0 indx ++ list_root limit (leaves_of (slice_from hh indx)) num.

(** Modelled from the spec: [ssz.CalculateLimit], the number of leaves of
    a list of at most [maxCapacity] elements of [size] bytes. *)
Definition CalculateLimit (maxCapacity numItems size : Z) : Z :=
  let limit := wrap64 (wrap64 (maxCapacity * size) + 31) / 32 in
  if negb (limit =? 0) then limit
  else if numItems =? 0 then 1 else numItems.

End Hash.
End Hasher.

(** ** The list fields in [BeaconState.HashTreeRootWith] *)

Module P2PHash.
Import SSZ Hasher State.

(** The hashers of the records of package [v1alpha1], outside the
    sources: [x.HashTreeRootWith(hh)] on the buffer of the hasher. *)
Class ElementHashers : Type := mkElementHashers {
  Eth1Data_HashTreeRootWith : option Eth1Data.t -> bytes -> result bytes;
  Validator_HashTreeRootWith : option Validator.t -> bytes -> result bytes
}.

(** The loop [for _, i := range v] that appends roots of 32 bytes. *)
Fixpoint append_roots (v : list bytes) (hh : bytes) : result bytes :=
  match v with
  | [] => Ok hh
  | i :: rest =>
      if negb (len i =? 32) then Err ErrBytesLength
      else append_roots rest (Append hh i)
  end.

(** The loop [for i := uint64(0); i < num; i++] that hashes the elements
    of a list of records. *)
Fixpoint hash_elements {T} (hash : option T -> bytes -> result bytes)
  (v : list (option T)) (hh : bytes) : result bytes :=
  match v with
  | [] => Ok hh
  | x :: rest => hh ← hash x hh; hash_elements hash rest hh
  end.

Section Blocks.
Variable hash2 : bytes -> bytes -> bytes.
Context {hashers : ElementHashers}.

(** Field (7) 'HistoricalRoots' *)
Definition HashTreeRootWith_HistoricalRoots (b : Inner.t) (hh : bytes)
  : result bytes :=
  if 16777216 <? len_nilable (Inner.HistoricalRoots b)
  then Err ErrListTooBig else
  let subIndx := Index hh in
  hh ← append_roots (default [] (Inner.HistoricalRoots b)) hh;
  let numItems := len_nilable (Inner.HistoricalRoots b) in
  Ok (MerkleizeWithMixin hash2 hh subIndx numItems
        (CalculateLimit 16777216 numItems 32)).

(** Field (9) 'Eth1DataVotes' *)
Definition HashTreeRootWith_Eth1DataVotes (b : Inner.t) (hh : bytes)
  : result bytes :=
  let subIndx := Index hh in
  let num := len_nilable (Inner.Eth1DataVotes b) in
  if 2048 <? num then Err ErrIncorrectListSize else
  hh ← hash_elements Eth1Data_HashTreeRootWith
         (default [] (Inner.Eth1DataVotes b)) hh;
  Ok (MerkleizeWithMixin hash2 hh subIndx num 2048).

(** Field (11) 'Validators' *)
Definition HashTreeRootWith_Validators (b : Inner.t) (hh : bytes)
  : result bytes :=
  let subIndx := Index hh in
  let num := len_nilable (Inner.Validators b) in
  if 1099511627776 <? num then Err ErrIncorrectListSize else
  hh ← hash_elements Validator_HashTreeRootWith
         (default [] (Inner.Validators b)) hh;
  Ok (MerkleizeWithMixin hash2 hh subIndx num 1099511627776).

(** Field (12) 'Balances' *)
Definition HashTreeRootWith_Balances (b : Inner.t) (hh : bytes)
  : result bytes :=
  if 1099511627776 <? len_nilable (Inner.Balances b)
  then Err ErrListTooBig else
  let subIndx := Index hh in
  let hh := foldl AppendUint64 hh (default [] (Inner.Balances b)) in
  let hh := FillUpTo32 hh in
  let numItems := len_nilable (Inner.Balances b) in
  Ok (MerkleizeWithMixin hash2 hh subIndx numItems
        (CalculateLimit 1099511627776 numItems 8)).

End Blocks.
End P2PHash.

(** ** Facts about the hash tree roots of the list fields *)

Module P2PHashFacts.
Import SSZ SSZFacts P2P P2PFacts Hasher P2PHash State.

Section Tree.
Variable hash2 : bytes -> bytes -> bytes.

Lemma pair_up_length zero layer k :
  (length layer <= 2 * k)%nat -> (length (pair_up hash2 zero layer) <= k)%nat.
Proof.
  revert k.
  induction layer as [layer IH] using (induction_ltof1 _ (@length bytes)).
  unfold ltof in IH. intros k Hk.
  destruct layer as [|a [|b' rest]]; cbn [pair_up length] in *.
  - lia.
  - lia.
  - destruct k as [|k]; [lia | ].
    specialize (IH rest ltac:(cbn [length]; lia) k ltac:(lia)). lia.
Qed.

Lemma climb_add a c level layer :
  climb hash2 (a + c) level layer =
  climb hash2 c (level + a) (climb hash2 a level layer).
Proof.
  revert level layer. induction a as [|a IH]; intros level layer.
  - cbn [Nat.add climb]. rewrite Nat.add_0_r. reflexivity.
  - cbn [Nat.add climb]. rewrite IH. f_equal. lia.
Qed.

Lemma climb_length d level layer :
  (length layer <= 2 ^ d)%nat ->
  (length (climb hash2 d level layer) <= 1)%nat.
Proof.
  revert level layer. induction d as [|d IH]; intros level layer Hl.
  - cbn [climb]. cbn in Hl. exact Hl.
  - cbn [climb]. apply IH. apply pair_up_length.
    rewrite Nat.pow_succ_r' in Hl. exact Hl.
Qed.

(** One more level: the root under a tree twice as large is the hash of
    the root with the root of as many zero elements. *)
Lemma merkle_root_succ d leaves :
  (length leaves <= 2 ^ d)%nat ->
  merkle_root hash2 (S d) leaves =
  hash2 (merkle_root hash2 d leaves) (zero_hash hash2 d).
Proof.
  intros Hl. unfold merkle_root.
  replace (S d) with (d + 1)%nat by lia. rewrite climb_add.
  pose proof (climb_length d 0 leaves Hl) as Hc.
  destruct (climb hash2 d 0 leaves) as [|r [|r' rest]].
  - cbn [climb pair_up]. rewrite Nat.add_1_r. reflexivity.
  - cbn [climb pair_up Nat.add]. reflexivity.
  - cbn [length] in Hc. lia.
Qed.

Lemma getDepth_double limit :
  0 < limit -> getDepth (2 * limit) = S (getDepth limit).
Proof.
  intros H. unfold getDepth. rewrite Z.log2_up_double by exact H.
  rewrite Z2Nat.inj_succ by apply Z.log2_up_nonneg. reflexivity.
Qed.

Lemma getDepth_fits limit (leaves : list bytes) :
  0 < limit -> len leaves <= limit ->
  (length leaves <= 2 ^ getDepth limit)%nat.
Proof.
  intros H Hl. unfold getDepth, len in *.
  destruct (Z.eq_dec limit 1) as [->|Hne].
  - change (Z.to_nat (Z.log2_up 1)) with 0%nat. rewrite Nat.pow_0_r. lia.
  - pose proof (Z.log2_up_spec limit ltac:(lia)) as [_ Hup].
    pose proof (Z.log2_up_nonneg limit) as Hnn.
    apply Nat2Z.inj_le. rewrite Nat2Z.inj_pow. rewrite Z2Nat.id by exact Hnn.
    change (Z.of_nat 2) with 2. lia.
Qed.

(** The root of a list under twice the limit. *)
Lemma list_root_double limit leaves num :
  0 < limit -> len leaves <= limit ->
  list_root hash2 (2 * limit) leaves num =
  hash2 (hash2 (merkle_root hash2 (getDepth limit) leaves)
           (zero_hash hash2 (getDepth limit)))
    (le_bytes 32 num).
Proof.
  intros H Hl. unfold list_root, mix_in_length.
  rewrite getDepth_double by exact H.
  rewrite merkle_root_succ by (apply getDepth_fits; assumption).
  reflexivity.
Qed.

End Tree.

(** *** The buffer of the hasher *)

Lemma append_roots_ok v hh hh' :
  append_roots v hh = Ok hh' ->
  Forall (fun x => len x = 32) v /\ hh' = hh ++ concat v.
Proof.
  revert hh. induction v as [|x rest IH]; intros hh; cbn [append_roots].
  - intros H. apply Ok_inj in H. subst hh'. rewrite app_nil_r. auto.
  - destruct (Z.eqb_spec (len x) 32) as [Hx|Hx]; [ | discriminate ].
    cbn [negb]. intros H. apply IH in H as [Hrest ->].
    split; [constructor; assumption | ].
    unfold Append. cbn [concat]. rewrite app_assoc. reflexivity.
Qed.

Lemma append_roots_valid v hh :
  Forall (fun x => len x = 32) v -> append_roots v hh = Ok (hh ++ concat v).
Proof.
  intros Hv. revert hh.
  induction Hv as [|x rest Hx _ IH]; intros hh; cbn [append_roots concat].
  - rewrite app_nil_r. reflexivity.
  - rewrite Hx. cbn [Z.eqb Pos.eqb negb]. rewrite IH. unfold Append.
    rewrite app_assoc. reflexivity.
Qed.

Lemma append_roots_invalid v hh :
  ~ Forall (fun x => len x = 32) v -> append_roots v hh = Err ErrBytesLength.
Proof.
  revert hh. induction v as [|x rest IH]; intros hh Hv;
    [destruct Hv; constructor | ].
  cbn [append_roots].
  destruct (Z.eqb_spec (len x) 32) as [Hx|Hx]; [ | reflexivity ].
  cbn [negb]. apply IH. intros Hrest. apply Hv. constructor; assumption.
Qed.

Lemma pad_spec (l : Z) :
  0 <= l ->
  0 <= (32 - l mod 32) mod 32 /\
  (l + (32 - l mod 32) mod 32) mod 32 = 0 /\
  (l + (32 - l mod 32) mod 32 + 31) / 32 = (l + 31) / 32.
Proof. intros H. Z.div_mod_to_equations. lia. Qed.

Lemma len_FillUpTo32 x :
  len (FillUpTo32 x) = len x + (32 - len x mod 32) mod 32.
Proof.
  unfold FillUpTo32. rewrite len_app.
  pose proof (pad_spec (len x) (len_nonneg x)) as [Hp _].
  unfold len at 2. rewrite length_replicate. lia.
Qed.

Lemma FillUpTo32_aligned x : len x mod 32 = 0 -> FillUpTo32 x = x.
Proof.
  intros H. unfold FillUpTo32. rewrite H. cbn. apply app_nil_r.
Qed.

Lemma FillUpTo32_app hh x :
  len hh mod 32 = 0 -> FillUpTo32 (hh ++ x) = hh ++ FillUpTo32 x.
Proof.
  intros H. unfold FillUpTo32. rewrite <- app_assoc, len_app.
  do 3 f_equal.
  rewrite Z.add_mod, H, Z.add_0_l, Z.mod_mod by lia. reflexivity.
Qed.

Lemma leaves_of_FillUpTo32 x : leaves_of (FillUpTo32 x) = leaves_of x.
Proof.
  unfold leaves_of.
  pose proof (pad_spec (len x) (len_nonneg x)) as (_ & Hm & Hd).
  rewrite (FillUpTo32_aligned (FillUpTo32 x))
    by (rewrite len_FillUpTo32; exact Hm).
  rewrite len_FillUpTo32, Hd. reflexivity.
Qed.

Lemma leaves_of_concat v :
  Forall (fun x => len x = 32) v -> leaves_of (concat v) = v.
Proof.
  intros Hv. unfold leaves_of.
  pose proof (len_concat_fixed 32 v Hv) as Hl.
  rewrite FillUpTo32_aligned by (rewrite Hl; apply Z.mod_mul; lia).
  rewrite Hl.
  replace ((Z.of_nat (length v) * 32 + 31) / 32) with (Z.of_nat (length v))
    by (Z.div_mod_to_equations; lia).
  rewrite Nat2Z.id. apply chunks_concat. exact Hv.
Qed.

Section Roots.
Variable hash2 : bytes -> bytes -> bytes.
Context {hashers : ElementHashers}.

Lemma MerkleizeWithMixin_app hh input num limit :
  MerkleizeWithMixin hash2 (hh ++ input) (Index hh) num limit =
  hh ++ list_root hash2 limit (leaves_of input) num.
Proof.
  unfold MerkleizeWithMixin, Index. f_equal.
  - apply (slice_middle [] hh input); [reflexivity | lia].
  - rewrite slice_from_end by reflexivity. reflexivity.
Qed.

(** The root a hasher of an element appends. *)
Definition element_root {T} (hash : option T -> bytes -> result bytes)
  (p : option T) : bytes :=
  encoding hash p.

(** The hasher of an element appends one root of 32 bytes. *)
Definition appends_root {T} (hash : option T -> bytes -> result bytes)
  : Prop :=
  forall p hh hh',
    hash p hh = Ok hh' ->
    hh' = hh ++ element_root hash p /\ len (element_root hash p) = 32.

Lemma hash_elements_ok {T} (hash : option T -> bytes -> result bytes)
  v hh hh' :
  appends_root hash ->
  hash_elements hash v hh = Ok hh' ->
  Forall (fun x => len x = 32) (map (element_root hash) v) /\
  hh' = hh ++ concat (map (element_root hash) v).
Proof.
  intros Hlaw. revert hh.
  induction v as [|x rest IH]; intros hh; cbn [hash_elements map concat].
  - intros H. apply Ok_inj in H. subst hh'. rewrite app_nil_r.
    split; [constructor | reflexivity].
  - intros H. apply bind_Ok_inv in H as (h1 & E & H).
    apply Hlaw in E as [-> Hr]. apply IH in H as [Hrest ->].
    split; [constructor; assumption | ]. rewrite app_assoc. reflexivity.
Qed.

Lemma CalculateLimit_roots n : CalculateLimit 16777216 n 32 = 16777216.
Proof. reflexivity. Qed.

Lemma CalculateLimit_balances n :
  CalculateLimit 1099511627776 n 8 = 1099511627776 * 8 / 32.
Proof. reflexivity. Qed.

(** The hasher of an element accepts the element. *)
Definition hashed {T} (hash : option T -> bytes -> result bytes)
  (p : option T) : Prop :=
  is_ok (hash p []) = true.

(** Whether the hasher of an element accepts it does not depend on what
    the buffer holds. *)
Definition any_buffer {T} (hash : option T -> bytes -> result bytes)
  : Prop :=
  forall p hh, is_ok (hash p hh) = is_ok (hash p []).

Lemma hash_elements_valid {T} (hash : option T -> bytes -> result bytes)
  v hh :
  appends_root hash -> any_buffer hash ->
  Forall (hashed hash) v ->
  hash_elements hash v hh = Ok (hh ++ concat (map (element_root hash) v)).
Proof.
  intros Hlaw Hany Hv. revert hh.
  induction Hv as [|x rest Hx _ IH]; intros hh;
    cbn [hash_elements map concat].
  - rewrite app_nil_r. reflexivity.
  - unfold hashed in Hx. rewrite <- (Hany x hh) in Hx.
    apply is_ok_inv in Hx as [h1 E]. rewrite E. cbn [mbind result_bind].
    apply Hlaw in E as [-> _]. rewrite IH, app_assoc. reflexivity.
Qed.

Lemma hash_elements_hashed {T} (hash : option T -> bytes -> result bytes)
  v hh hh' :
  any_buffer hash ->
  hash_elements hash v hh = Ok hh' -> Forall (hashed hash) v.
Proof.
  intros Hany. revert hh.
  induction v as [|x rest IH]; intros hh; cbn [hash_elements];
    [constructor | ].
  intros H. apply bind_Ok_inv in H as (h1 & E & H).
  constructor; [ | exact (IH _ H) ].
  unfold hashed. rewrite <- (Hany x hh), E. reflexivity.
Qed.

Hypothesis eth1data_root : appends_root Eth1Data_HashTreeRootWith.
Hypothesis validator_root : appends_root Validator_HashTreeRootWith.
Hypothesis eth1data_any : any_buffer Eth1Data_HashTreeRootWith.
Hypothesis validator_any : any_buffer Validator_HashTreeRootWith.

(** C7: each of the four list fields of [BeaconState.HashTreeRootWith]
    leaves in the hasher the root of its list: the Merkle root of the
    leaves of the elements in the tree for the limit of the field
    (16777216 leaves for HistoricalRoots, 2048 for Eth1DataVotes,
    1099511627776 for Validators, and for Balances, four to a leaf,
    1099511627776 * 8 / 32), whatever the number of elements, hashed once
    more with the leaf that holds the number of elements.  Each block
    returns this root exactly when the list is within its limit, every
    historical root has 32 bytes and the hasher of every vote and of every
    validator accepts its element; beyond the limit the block fails with
    [ErrListTooBig], for the votes and the validators with
    [ErrIncorrectListSize], and a historical root of another length gives
    [ErrBytesLength].  The root depends on the limit: under twice the
    limit, the tree root is hashed with the root of as many zero elements
    before the count is mixed in.  The hashers of the elements are taken
    to append one root of 32 bytes each and to accept an element whatever
    the buffer holds, and the buffer of the hasher to hold whole leaves
    when the balances are packed. *)
Theorem C7_list_hash_tree_roots (b : Inner.t) (hh hh' : bytes) :
  (HashTreeRootWith_HistoricalRoots hash2 b hh = Ok hh' <->
   len_nilable (Inner.HistoricalRoots b) <= 16777216 /\
   Forall (fun x => len x = 32) (default [] (Inner.HistoricalRoots b)) /\
   hh' = hh ++ list_root hash2 16777216
                 (default [] (Inner.HistoricalRoots b))
                 (len_nilable (Inner.HistoricalRoots b))) /\
  (16777216 < len_nilable (Inner.HistoricalRoots b) ->
   HashTreeRootWith_HistoricalRoots hash2 b hh = Err ErrListTooBig) /\
  (len_nilable (Inner.HistoricalRoots b) <= 16777216 ->
   ~ Forall (fun x => len x = 32) (default [] (Inner.HistoricalRoots b)) ->
   HashTreeRootWith_HistoricalRoots hash2 b hh = Err ErrBytesLength) /\
  (HashTreeRootWith_Eth1DataVotes hash2 b hh = Ok hh' <->
   len_nilable (Inner.Eth1DataVotes b) <= 2048 /\
   Forall (hashed Eth1Data_HashTreeRootWith)
     (default [] (Inner.Eth1DataVotes b)) /\
   hh' = hh ++ list_root hash2 2048
                 (map (element_root Eth1Data_HashTreeRootWith)
                    (default [] (Inner.Eth1DataVotes b)))
                 (len_nilable (Inner.Eth1DataVotes b))) /\
  (2048 < len_nilable (Inner.Eth1DataVotes b) ->
   HashTreeRootWith_Eth1DataVotes hash2 b hh = Err ErrIncorrectListSize) /\
  (HashTreeRootWith_Validators hash2 b hh = Ok hh' <->
   len_nilable (Inner.Validators b) <= 1099511627776 /\
   Forall (hashed Validator_HashTreeRootWith)
     (default [] (Inner.Validators b)) /\
   hh' = hh ++ list_root hash2 1099511627776
                 (map (element_root Validator_HashTreeRootWith)
                    (default [] (Inner.Validators b)))
                 (len_nilable (Inner.Validators b))) /\
  (1099511627776 < len_nilable (Inner.Validators b) ->
   HashTreeRootWith_Validators hash2 b hh = Err ErrIncorrectListSize) /\
  (len hh mod 32 = 0 ->
   (HashTreeRootWith_Balances hash2 b hh = Ok hh' <->
    len_nilable (Inner.Balances b) <= 1099511627776 /\
    hh' = hh ++ list_root hash2 (1099511627776 * 8 / 32)
                  (leaves_of
                     (concat (map (le_bytes 8)
                                (default [] (Inner.Balances b)))))
                  (len_nilable (Inner.Balances b)))) /\
  (1099511627776 < len_nilable (Inner.Balances b) ->
   HashTreeRootWith_Balances hash2 b hh = Err ErrListTooBig) /\
  (forall limit leaves num,
     0 < limit -> len leaves <= limit ->
     list_root hash2 limit leaves num =
     hash2 (merkle_root hash2 (getDepth limit) leaves) (le_bytes 32 num) /\
     list_root hash2 (2 * limit) leaves num =
     hash2 (hash2 (merkle_root hash2 (getDepth limit) leaves)
              (zero_hash hash2 (getDepth limit)))
       (le_bytes 32 num)).
Proof.
  repeat match goal with |- _ /\ _ => split end.
  - (* HistoricalRoots *)
    unfold HashTreeRootWith_HistoricalRoots. cbv zeta.
    destruct (Z.ltb_spec 16777216 (len_nilable (Inner.HistoricalRoots b)))
      as [Hl|Hl].
    + split; [discriminate | intros (? & _); lia].
    + split.
      * intros H. apply bind_Ok_inv in H as (h1 & E & H).
        apply append_roots_ok in E as [Hv ->]. apply Ok_inj in H. subst hh'.
        rewrite MerkleizeWithMixin_app, CalculateLimit_roots,
          (leaves_of_concat _ Hv).
        auto.
      * intros (_ & Hv & ->). rewrite (append_roots_valid _ hh Hv).
        cbn [mbind result_bind].
        rewrite MerkleizeWithMixin_app, CalculateLimit_roots,
          (leaves_of_concat _ Hv).
        reflexivity.
  - intros Hl. unfold HashTreeRootWith_HistoricalRoots. cbv zeta.
    destruct (Z.ltb_spec 16777216 (len_nilable (Inner.HistoricalRoots b)));
      [reflexivity | lia].
  - intros Hl Hv. unfold HashTreeRootWith_HistoricalRoots. cbv zeta.
    destruct (Z.ltb_spec 16777216 (len_nilable (Inner.HistoricalRoots b)));
      [lia | ].
    rewrite (append_roots_invalid _ hh Hv). reflexivity.
  - (* Eth1DataVotes *)
    unfold HashTreeRootWith_Eth1DataVotes. cbv zeta.
    destruct (Z.ltb_spec 2048 (len_nilable (Inner.Eth1DataVotes b)))
      as [Hl|Hl].
    + split; [discriminate | intros (? & _); lia].
    + split.
      * intros H. apply bind_Ok_inv in H as (h1 & E & H).
        pose proof (hash_elements_hashed _ _ _ _ eth1data_any E) as Hh.
        apply (hash_elements_ok _ _ _ _ eth1data_root) in E as [Hv ->].
        apply Ok_inj in H. subst hh'.
        rewrite MerkleizeWithMixin_app, (leaves_of_concat _ Hv). auto.
      * intros (_ & Hh & ->).
        rewrite (hash_elements_valid _ _ hh eth1data_root eth1data_any Hh).
        cbn [mbind result_bind].
        pose proof (hash_elements_valid _ _ hh eth1data_root eth1data_any Hh)
          as E.
        apply (hash_elements_ok _ _ _ _ eth1data_root) in E as [Hv _].
        rewrite MerkleizeWithMixin_app, (leaves_of_concat _ Hv).
        reflexivity.
  - intros Hl. unfold HashTreeRootWith_Eth1DataVotes. cbv zeta.
    destruct (Z.ltb_spec 2048 (len_nilable (Inner.Eth1DataVotes b)));
      [reflexivity | lia].
  - (* Validators *)
    unfold HashTreeRootWith_Validators. cbv zeta.
    destruct (Z.ltb_spec 1099511627776 (len_nilable (Inner.Validators b)))
      as [Hl|Hl].
    + split; [discriminate | intros (? & _); lia].
    + split.
      * intros H. apply bind_Ok_inv in H as (h1 & E & H).
        pose proof (hash_elements_hashed _ _ _ _ validator_any E) as Hh.
        apply (hash_elements_ok _ _ _ _ validator_root) in E as [Hv ->].
        apply Ok_inj in H. subst hh'.
        rewrite MerkleizeWithMixin_app, (leaves_of_concat _ Hv). auto.
      * intros (_ & Hh & ->).
        rewrite (hash_elements_valid _ _ hh validator_root validator_any Hh).
        cbn [mbind result_bind].
        pose proof (hash_elements_valid _ _ hh validator_root validator_any
                      Hh) as E.
        apply (hash_elements_ok _ _ _ _ validator_root) in E as [Hv _].
        rewrite MerkleizeWithMixin_app, (leaves_of_concat _ Hv).
        reflexivity.
  - intros Hl. unfold HashTreeRootWith_Validators. cbv zeta.
    destruct (Z.ltb_spec 1099511627776 (len_nilable (Inner.Validators b)));
      [reflexivity | lia].
  - (* Balances *)
    intros Hal. unfold HashTreeRootWith_Balances. cbv zeta.
    change (foldl AppendUint64 hh (default [] (Inner.Balances b)))
      with (marshal_uint64_vector (default [] (Inner.Balances b)) hh).
    rewrite marshal_uint64_vector_eq, (FillUpTo32_app _ _ Hal).
    rewrite MerkleizeWithMixin_app, CalculateLimit_balances,
      leaves_of_FillUpTo32.
    destruct (Z.ltb_spec 1099511627776 (len_nilable (Inner.Balances b)))
      as [Hl|Hl].
    + split; [discriminate | intros (? & _); lia].
    + split.
      * intros H. apply Ok_inj in H. subst hh'. auto.
      * intros (_ & ->). reflexivity.
  - intros Hl. unfold HashTreeRootWith_Balances. cbv zeta.
    destruct (Z.ltb_spec 1099511627776 (len_nilable (Inner.Balances b)));
      [reflexivity | lia].
  - intros limit leaves num Hl Hn. split; [reflexivity | ].
    apply list_root_double; assumption.
Qed.

End Roots.

(** *** An instance to run the hashing on *)

Module ExampleHash.

(** A stand-in for SHA-256 on two chunks, with a result of 32 bytes. *)
Definition toy_hash (a b : bytes) : bytes :=
  le_bytes 32 (1 + 3 * le_value a + 5 * le_value b).

(** A leaf that holds an integer. *)
Definition uint64_leaf (v : Z) : bytes := le_bytes 32 v.

(** Modelled from the spec: the root of a record is the root of the tree
    of the roots of its fields; the Eth1 data has three fields. *)
Definition Eth1Data_HashTreeRootWith (p : option Eth1Data.t) (hh : bytes)
  : result bytes :=
  match p with
  | None => Err (ErrExternal 0)
  | Some e =>
      Ok (hh ++ merkle_root toy_hash 2
                  [Eth1Data.DepositRoot e;
                   uint64_leaf (Eth1Data.DepositCount e);
                   Eth1Data.BlockHash e])
  end.

(** Modelled from the spec: the root of a validator record, of eight
    fields, the public key of 48 bytes being two leaves. *)
Definition Validator_HashTreeRootWith (p : option Validator.t) (hh : bytes)
  : result bytes :=
  match p with
  | None => Err (ErrExternal 0)
  | Some v =>
      Ok (hh ++ merkle_root toy_hash 3
                  [merkle_root toy_hash 1 (leaves_of (Validator.PublicKey v));
                   Validator.WithdrawalCredentials v;
                   uint64_leaf (Validator.EffectiveBalance v);
                   uint64_leaf (if Validator.Slashed v then 1 else 0);
                   uint64_leaf (Validator.ActivationEligibilityEpoch v);
                   uint64_leaf (Validator.ActivationEpoch v);
                   uint64_leaf (Validator.ExitEpoch v);
                   uint64_leaf (Validator.WithdrawableEpoch v)])
  end.

Definition hashers : ElementHashers :=
  mkElementHashers Eth1Data_HashTreeRootWith Validator_HashTreeRootWith.

End ExampleHash.

Lemma example_eth1data_root :
  appends_root ExampleHash.Eth1Data_HashTreeRootWith.
Proof.
  intros [e|] hh hh' H; unfold ExampleHash.Eth1Data_HashTreeRootWith in H;
    [ | discriminate ].
  apply Ok_inj in H. subst hh'. split; [reflexivity | ].
  unfold element_root, encoding.
  cbn [ExampleHash.Eth1Data_HashTreeRootWith app merkle_root climb pair_up].
  unfold ExampleHash.toy_hash. apply len_le_bytes.
Qed.

Lemma example_validator_root :
  appends_root ExampleHash.Validator_HashTreeRootWith.
Proof.
  intros [v|] hh hh' H; unfold ExampleHash.Validator_HashTreeRootWith in H;
    [ | discriminate ].
  apply Ok_inj in H. subst hh'. split; [reflexivity | ].
  unfold element_root, encoding.
  cbn [ExampleHash.Validator_HashTreeRootWith app merkle_root climb pair_up].
  unfold ExampleHash.toy_hash. apply len_le_bytes.
Qed.

Lemma example_eth1data_any :
  any_buffer ExampleHash.Eth1Data_HashTreeRootWith.
Proof. intros [e|] hh; reflexivity. Qed.

Lemma example_validator_any :
  any_buffer ExampleHash.Validator_HashTreeRootWith.
Proof. intros [v|] hh; reflexivity. Qed.

(** The leaf of the one vote of the example state. *)
Definition example_votes : list bytes :=
  map (element_root ExampleHash.Eth1Data_HashTreeRootWith)
    [Some ExampleState.eth1data].

(** The leaves of the four validators of the example state. *)
Definition example_validators : list bytes :=
  map (element_root ExampleHash.Validator_HashTreeRootWith)
    (replicate 4 (Some ExampleState.validator)).

Lemma C7_list_hash_tree_roots_witness :
  HashTreeRootWith_HistoricalRoots ExampleHash.toy_hash ExampleState.small []
  = Ok (list_root ExampleHash.toy_hash 16777216 [ExampleState.root] 1) /\
  HashTreeRootWith_Eth1DataVotes (hashers := ExampleHash.hashers)
    ExampleHash.toy_hash ExampleState.small [] =
  Ok (list_root ExampleHash.toy_hash 2048 example_votes 1) /\
  HashTreeRootWith_Validators (hashers := ExampleHash.hashers)
    ExampleHash.toy_hash ExampleState.small [] =
  Ok (list_root ExampleHash.toy_hash 1099511627776 example_validators 4) /\
  HashTreeRootWith_Balances ExampleHash.toy_hash ExampleState.small [] =
  Ok (list_root ExampleHash.toy_hash (1099511627776 * 8 / 32)
        (leaves_of (concat (map (le_bytes 8) (replicate 4 32000000000)))) 4) /\
  list_root ExampleHash.toy_hash (2 * 2048) example_votes 1 <>
  list_root ExampleHash.toy_hash 2048 example_votes 1.
Proof.
  pose proof (C7_list_hash_tree_roots ExampleHash.toy_hash
                (hashers := ExampleHash.hashers)
                example_eth1data_root example_validator_root
                example_eth1data_any example_validator_any
                ExampleState.small []) as C7.
  split; [ | split; [ | split; [ | split ] ] ].
  - destruct (C7 (list_root ExampleHash.toy_hash 16777216
                    [ExampleState.root] 1)) as (H & _).
    apply H. split; [intros D; discriminate D | ].
    split; [ | reflexivity ].
    constructor; [reflexivity | constructor].
  - destruct (C7 (list_root ExampleHash.toy_hash 2048 example_votes 1))
      as (_ & _ & _ & H & _).
    apply H. split; [intros D; discriminate D | ].
    split; [ | reflexivity ].
    constructor; [reflexivity | constructor].
  - destruct (C7 (list_root ExampleHash.toy_hash 1099511627776
                    example_validators 4)) as (_ & _ & _ & _ & _ & H & _).
    apply H. split; [intros D; discriminate D | ].
    split; [ | reflexivity ].
    repeat (constructor; [reflexivity | ]). constructor.
  - destruct (C7 (list_root ExampleHash.toy_hash (1099511627776 * 8 / 32)
                    (leaves_of
                       (concat (map (le_bytes 8) (replicate 4 32000000000))))
                    4)) as (_ & _ & _ & _ & _ & _ & _ & H & _).
    apply (H eq_refl). split; [intros D; discriminate D | reflexivity].
  - destruct (C7 []) as (_ & _ & _ & _ & _ & _ & _ & _ & _ & H).
    destruct (H 2048 example_votes 1) as [H1 H2];
      [lia | vm_compute; discriminate | ].
    rewrite H1, H2. intros Heq. vm_compute in Heq. discriminate Heq.
Defined.

End P2PHashFacts.

(** * Package [state]: more of the accessors *)

Module StateGetters.
Import State.

(** [safeCopy2DByteSlice]: a slice of the same length that holds a copy,
    in full, of every element; [nil] for [nil]. *)
Definition safeCopy2DByteSlice (input : option (list bytes))
  : option (list bytes) :=
  match input with
  | None => None
  | Some rs => Some rs
  end.

(** [safeCopyBytesAtIndex]: the element is copied into a slice of 32
    bytes. *)
Definition safeCopyBytesAtIndex (input : option (list bytes)) (idx : Z)
  : outcome (option bytes * option error) :=
  match input with
  | None => mret (None, None)
  | Some rs =>
      if len rs <=? idx then mret (None, Some (ErrIndexOutOfRange idx))
      else r ← index rs idx; mret (Some (copy_into_array 32 r), None)
  end.

(** [b.BlockRoots()] *)
Definition BlockRoots (b : option BeaconState)
  : outcome (option (list bytes)) :=
  if negb (HasInnerState b) then mret None
  else
    st ← inner b;
    match Inner.BlockRoots st with
    | None => mret None
    | Some _ => mret (safeCopy2DByteSlice (Inner.BlockRoots st))
    end.

(** [b.BlockRootAtIndex(idx)] *)
Definition BlockRootAtIndex (b : option BeaconState) (idx : Z)
  : outcome (option bytes * option error) :=
  if negb (HasInnerState b) then mret (None, Some ErrNilInnerState)
  else
    st ← inner b;
    match Inner.BlockRoots st with
    | None => mret (None, None)
    | Some _ => safeCopyBytesAtIndex (Inner.BlockRoots st) idx
    end.

(** [b.StateRoots()] *)
Definition StateRoots (b : option BeaconState)
  : outcome (option (list bytes)) :=
  if negb (HasInnerState b) then mret None
  else
    st ← inner b;
    match Inner.StateRoots st with
    | None => mret None
    | Some _ => mret (safeCopy2DByteSlice (Inner.StateRoots st))
    end.

(** [b.StateRootAtIndex(idx)] *)
Definition StateRootAtIndex (b : option BeaconState) (idx : Z)
  : outcome (option bytes * option error) :=
  if negb (HasInnerState b) then mret (None, Some ErrNilInnerState)
  else
    st ← inner b;
    match Inner.StateRoots st with
    | None => mret (None, None)
    | Some _ => safeCopyBytesAtIndex (Inner.StateRoots st) idx
    end.

(** [b.RandaoMixes()] *)
Definition RandaoMixes (b : option BeaconState)
  : outcome (option (list bytes)) :=
  if negb (HasInnerState b) then mret None
  else
    st ← inner b;
    match Inner.RandaoMixes st with
    | None => mret None
    | Some _ => mret (safeCopy2DByteSlice (Inner.RandaoMixes st))
    end.

(** [b.RandaoMixAtIndex(idx)] *)
Definition RandaoMixAtIndex (b : option BeaconState) (idx : Z)
  : outcome (option bytes * option error) :=
  if negb (HasInnerState b) then mret (None, Some ErrNilInnerState)
  else
    st ← inner b;
    match Inner.RandaoMixes st with
    | None => mret (None, None)
    | Some _ => safeCopyBytesAtIndex (Inner.RandaoMixes st) idx
    end.

(** [b.LatestBlockHeader()]: a copy of the header, [nil] for [nil]. *)
Definition LatestBlockHeader (b : option BeaconState)
  : outcome (option BeaconBlockHeader.t) :=
  if negb (HasInnerState b) then mret None
  else
    st ← inner b;
    match Inner.LatestBlockHeader st with
    | None => mret None
    | Some hdr =>
        mret (Some (BeaconBlockHeader.mk (BeaconBlockHeader.Slot hdr)
                      (BeaconBlockHeader.ProposerIndex hdr)
                      (BeaconBlockHeader.ParentRoot hdr)
                      (BeaconBlockHeader.StateRoot hdr)
                      (BeaconBlockHeader.BodyRoot hdr)))
    end.

(** [b.ParentRoot()]: the parent root is read through
    [b.state.LatestBlockHeader] without a test for [nil]. *)
Definition ParentRoot (b : option BeaconState) : outcome bytes :=
  if negb (HasInnerState b) then mret (replicate 32 Byte.x00)
  else
    st ← inner b;
    hdr ← deref (Inner.LatestBlockHeader st);
    mret (copy_into_array 32 (BeaconBlockHeader.ParentRoot hdr)).

(** [b.MatchCurrentJustifiedCheckpoint(c)]; [bytes.Equal] compares the
    contents of the two roots. *)
Definition MatchCurrentJustifiedCheckpoint (b : option BeaconState)
  (c : option Checkpoint.t) : outcome bool :=
  if negb (HasInnerState b) then mret false
  else
    st ← inner b;
    match Inner.CurrentJustifiedCheckpoint st with
    | None => mret false
    | Some j =>
        c' ← deref c;
        if negb (Checkpoint.Epoch c' =? Checkpoint.Epoch j) then mret false
        else mret (bool_decide (Checkpoint.Root c' = Checkpoint.Root j))
    end.

(** [b.MatchPreviousJustifiedCheckpoint(c)] *)
Definition MatchPreviousJustifiedCheckpoint (b : option BeaconState)
  (c : option Checkpoint.t) : outcome bool :=
  if negb (HasInnerState b) then mret false
  else
    st ← inner b;
    match Inner.PreviousJustifiedCheckpoint st with
    | None => mret false
    | Some j =>
        c' ← deref c;
        if negb (Checkpoint.Epoch c' =? Checkpoint.Epoch j) then mret false
        else mret (bool_decide (Checkpoint.Root c' = Checkpoint.Root j))
    end.

(** [b.FinalizedCheckpointEpoch()] *)
Definition FinalizedCheckpointEpoch (b : option BeaconState) : outcome Z :=
  if negb (HasInnerState b) then mret 0
  else
    st ← inner b;
    match Inner.FinalizedCheckpoint st with
    | None => mret 0
    | Some c => mret (Checkpoint.Epoch c)
    end.

(** [b.Balances()]: a fresh slice with the same balances. *)
Definition Balances (b : option BeaconState) : outcome (option (list Z)) :=
  if negb (HasInnerState b) then mret None
  else
    st ← inner b;
    match Inner.Balances st with
    | None => mret None
    | Some bs => mret (Some bs)
    end.

(** [b.BalancesLength()] *)
Definition BalancesLength (b : option BeaconState) : outcome Z :=
  if negb (HasInnerState b) then mret 0
  else
    st ← inner b;
    match Inner.Balances st with
    | None => mret 0
    | Some bs => mret (len bs)
    end.

(** The errors of [ReadFromEveryValidator]: its own two and those of the
    function it is given. *)
Inductive read_error (E : Type) : Type :=
| ReadNilInnerState
| ReadNilValidators             (* "nil validators in state" *)
| ReadCallback (e : E).
Arguments ReadNilInnerState {E}.
Arguments ReadNilValidators {E}.
Arguments ReadCallback {E} e.

Section ReadFromEveryValidator.
(** The function [f] is a closure: [S] is what it has captured and may
    change, [E] its errors.  It is taken to return. *)
Context {S E : Type}.
Variable f : Z -> ReadOnlyValidator -> S -> S * option E.

(** The loop [for i, v := range validators]. *)
Fixpoint visit (i : Z) (validators : list (option Validator.t)) (s : S)
  : S * option E :=
  match validators with
  | [] => (s, None)
  | v :: rest =>
      match f i (mkReadOnlyValidator v) s with
      | (s', Some err) => (s', Some err)
      | (s', None) => visit (i + 1) rest s'
      end
  end.

(** [b.ReadFromEveryValidator(f)] *)
Definition ReadFromEveryValidator (b : option BeaconState) (s : S)
  : outcome (S * option (read_error E)) :=
  if negb (HasInnerState b) then mret (s, Some ReadNilInnerState)
  else
    st ← inner b;
    match Inner.Validators st with
    | None => mret (s, Some ReadNilValidators)
    | Some validators =>
        match visit 0 validators s with
        | (s', Some err) => mret (s', Some (ReadCallback err))
        | (s', None) => mret (s', None)
        end
    end.

End ReadFromEveryValidator.

End StateGetters.

(** ** Facts about these accessors *)

Module StateGettersFacts.
Import State StateGetters.

Lemma len_copy_into_array (n : nat) (src : bytes) :
  len (copy_into_array n src) = Z.of_nat n.
Proof.
  unfold copy_into_array, len.
  rewrite length_take, length_app, length_replicate. lia.
Qed.

Lemma copy_into_array_exact (n : nat) (src : bytes) :
  length src = n -> copy_into_array n src = src.
Proof.
  intros H. unfold copy_into_array.
  rewrite take_app_length' by (symmetry; exact H). reflexivity.
Qed.

Lemma copy_into_array_same (n : nat) (src : bytes) :
  copy_into_array n src = src <-> length src = n.
Proof.
  split; [ | apply copy_into_array_exact ].
  intros H. apply (f_equal length) in H.
  pose proof (len_copy_into_array n src) as Hl. unfold len in Hl. lia.
Qed.

Lemma index_in_range {A} (rs : list A) (idx : Z) :
  0 <= idx < len rs ->
  exists r, rs !! Z.to_nat idx = Some r /\ index rs idx = Returns r.
Proof.
  intros [H0 H1]. unfold index, len in *.
  destruct (Z.ltb_spec idx 0) as [Hneg|_]; [lia | ].
  destruct (rs !! Z.to_nat idx) as [r|] eqn:E; [eauto | ].
  apply lookup_ge_None in E. lia.
Qed.

(** What [safeCopyBytesAtIndex] returns for the element at [idx]. *)
Lemma safeCopyBytesAtIndex_spec (rs : list bytes) (idx : Z) :
  0 <= idx ->
  (len rs <= idx ->
   safeCopyBytesAtIndex (Some rs) idx
   = Returns (None, Some (ErrIndexOutOfRange idx))) /\
  (idx < len rs ->
   exists r, rs !! Z.to_nat idx = Some r /\
             safeCopyBytesAtIndex (Some rs) idx
             = Returns (Some (copy_into_array 32 r), None)).
Proof.
  intros H0. unfold safeCopyBytesAtIndex. split; intros H.
  - destruct (Z.leb_spec (len rs) idx) as [_|Hlt]; [reflexivity | lia].
  - destruct (Z.leb_spec (len rs) idx) as [Hle|_]; [lia | ].
    destruct (index_in_range rs idx ltac:(lia)) as (r & Hr & ->).
    exists r. split; [exact Hr | reflexivity].
Qed.

(** X1: on a state that holds block roots, state roots and randao mixes,
    [BlockRootAtIndex], [StateRootAtIndex] and [RandaoMixAtIndex] fail
    with "index out of range" exactly for an index at or beyond the length
    of their slice; below it they return a slice of exactly 32 bytes, the
    stored element cut or padded with zero bytes to that length (so the
    element itself when it has 32 bytes). *)
Theorem X1_root_at_index (st : Inner.t) (brs srs rms : list bytes) (idx : Z) :
  0 <= idx ->
  Inner.BlockRoots st = Some brs ->
  Inner.StateRoots st = Some srs ->
  Inner.RandaoMixes st = Some rms ->
  let b := Some (mkBeaconState (Some st)) in
  let at_index (get : option BeaconState -> Z ->
                      outcome (option bytes * option error))
               (rs : list bytes) :=
    (len rs <= idx ->
     get b idx = Returns (None, Some (ErrIndexOutOfRange idx))) /\
    (idx < len rs ->
     exists r, rs !! Z.to_nat idx = Some r /\
               get b idx = Returns (Some (copy_into_array 32 r), None) /\
               len (copy_into_array 32 r) = 32 /\
               (len r = 32 -> copy_into_array 32 r = r)) in
  at_index BlockRootAtIndex brs /\
  at_index StateRootAtIndex srs /\
  at_index RandaoMixAtIndex rms.
Proof.
  intros H0 Hb Hs Hr b at_index. subst at_index. cbv beta.
  assert (Hcopy : forall r : bytes,
            len (copy_into_array 32 r) = 32 /\
            (len r = 32 -> copy_into_array 32 r = r)).
  { intros r. split; [apply len_copy_into_array | ].
    intros Hl. apply copy_into_array_exact. unfold len in Hl. lia. }
  unfold b, BlockRootAtIndex, StateRootAtIndex, RandaoMixAtIndex.
  cbn [HasInnerState state bool_decide negb inner deref mbind outcome_bind
       obind]. 
  rewrite Hb, Hs, Hr.
  destruct (safeCopyBytesAtIndex_spec brs idx H0) as [B1 B2].
  destruct (safeCopyBytesAtIndex_spec srs idx H0) as [S1 S2].
  destruct (safeCopyBytesAtIndex_spec rms idx H0) as [R1 R2].
  repeat split; try assumption;
    intros Hlt;
    [ destruct (B2 Hlt) as (r & Hr' & E)
    | destruct (S2 Hlt) as (r & Hr' & E)
    | destruct (R2 Hlt) as (r & Hr' & E) ];
    exists r; destruct (Hcopy r); auto.
Qed.

(** A state with two block roots, one state root and one randao mix of
    two bytes. *)
Definition example_root (x : Byte.byte) : bytes := replicate 32 x.
Definition example_inner : Inner.t :=
  Inner.mk 0 (Some [Byte.x01; Byte.x02]) 7 None None
    (Some [example_root Byte.x11; example_root Byte.x22])
    (Some [example_root Byte.x33]) None None None 0
    (Some [Some Validator.zero; None]) (Some [5; 6]) (Some [[Byte.xaa; Byte.xbb]])
    None None None None None (Some (Checkpoint.mk 3 (example_root Byte.x44)))
    None None None.
Definition example_state : option BeaconState :=
  Some (mkBeaconState (Some example_inner)).

Lemma X1_root_at_index_witness :
  BlockRootAtIndex example_state 1
  = Returns (Some (example_root Byte.x22), None) /\
  StateRootAtIndex example_state 1
  = Returns (None, Some (ErrIndexOutOfRange 1)) /\
  RandaoMixAtIndex example_state 1
  = Returns (None, Some (ErrIndexOutOfRange 1)).
Proof.
  pose proof (X1_root_at_index example_inner
                [example_root Byte.x11; example_root Byte.x22]
                [example_root Byte.x33] [[Byte.xaa; Byte.xbb]] 1
                ltac:(lia) eq_refl eq_refl eq_refl) as H.
  cbv zeta in H. destruct H as ((_ & HB) & (HS & _) & (HR & _)).
  split; [ | split ].
  - destruct (HB ltac:(reflexivity)) as (r & Hr & E & _).
    inversion Hr; subst r. exact E.
  - apply HS. unfold len. cbn [length]. lia.
  - apply HR. unfold len. cbn [length]. lia.
Defined.

(** X2: [BlockRoots] returns the stored roots as they are, whereas
    [BlockRootAtIndex] returns 32 bytes: for an index in range the two agree
    exactly when the stored root has 32 bytes. *)
Theorem X2_block_root_agrees (st : Inner.t) (rs : list bytes) (idx : Z)
    (r : bytes) :
  Inner.BlockRoots st = Some rs ->
  0 <= idx ->
  rs !! Z.to_nat idx = Some r ->
  let b := Some (mkBeaconState (Some st)) in
  BlockRoots b = Returns (Some rs) /\
  (BlockRootAtIndex b idx = Returns (Some r, None) <-> len r = 32).
Proof.
  intros Hb H0 Hr b. unfold b, BlockRoots, BlockRootAtIndex.
  cbn [HasInnerState state bool_decide negb inner deref mbind outcome_bind
       obind].
  rewrite Hb. split; [reflexivity | ].
  assert (Hlt : idx < len rs).
  { apply lookup_lt_Some in Hr. unfold len. lia. }
  destruct (safeCopyBytesAtIndex_spec rs idx H0) as [_ H2].
  destruct (H2 Hlt) as (r' & Hr' & ->).
  rewrite Hr in Hr'. inversion Hr'; subst r'.
  split.
  - intros H.
    assert (Hc : Returns (Some (copy_into_array 32 r), @None error)
                 = Returns (Some r, None)) by exact H.
    injection Hc as Hc. apply copy_into_array_same in Hc.
    unfold len. lia.
  - intros Hl. rewrite copy_into_array_exact; [reflexivity | ].
    unfold len in Hl. lia.
Qed.

Lemma X2_block_root_agrees_witness :
  BlockRoots example_state
  = Returns (Some [example_root Byte.x11; example_root Byte.x22]) /\
  (BlockRootAtIndex example_state 0
   = Returns (Some (example_root Byte.x11), None) <->
   len (example_root Byte.x11) = 32).
Proof.
  exact (X2_block_root_agrees example_inner
           [example_root Byte.x11; example_root Byte.x22] 0
           (example_root Byte.x11) eq_refl ltac:(lia) eq_refl).
Defined.

(** X3: on a state whose latest block header is [nil],
    [LatestBlockHeader] returns [nil] but [ParentRoot], which reads the
    header without testing it, panics with a nil dereference; with a header
    it returns 32 bytes, the parent root itself when that has 32 bytes. *)
Theorem X3_parent_root (st : Inner.t) :
  let b := Some (mkBeaconState (Some st)) in
  (Inner.LatestBlockHeader st = None ->
   LatestBlockHeader b = Returns None /\
   ParentRoot b = Panics NilDereference) /\
  (forall hdr,
     Inner.LatestBlockHeader st = Some hdr ->
     exists root,
       ParentRoot b = Returns root /\ len root = 32 /\
       (len (BeaconBlockHeader.ParentRoot hdr) = 32 ->
        root = BeaconBlockHeader.ParentRoot hdr)).
Proof.
  intros b. unfold b, LatestBlockHeader, ParentRoot.
  cbn [HasInnerState state bool_decide negb inner deref mbind outcome_bind
       obind].
  split.
  - intros ->. split; reflexivity.
  - intros hdr ->. cbn [deref obind].
    exists (copy_into_array 32 (BeaconBlockHeader.ParentRoot hdr)).
    split; [reflexivity | ]. split; [apply len_copy_into_array | ].
    intros Hl. apply copy_into_array_exact. unfold len in Hl. lia.
Qed.

(** X4: for a checkpoint [c] that is not [nil],
    [MatchCurrentJustifiedCheckpoint] is true exactly when
    [CurrentJustifiedCheckpoint] returns a checkpoint with the epoch and
    root of [c], and likewise for the previous justified checkpoint; with
    [c] nil the functions panic when the state holds the checkpoint. *)
Theorem X4_match_justified_checkpoint (b : option BeaconState)
    (c : Checkpoint.t) :
  (MatchCurrentJustifiedCheckpoint b (Some c) = Returns true <->
   CurrentJustifiedCheckpoint b = Returns (Some c)) /\
  (MatchPreviousJustifiedCheckpoint b (Some c) = Returns true <->
   PreviousJustifiedCheckpoint b = Returns (Some c)) /\
  (forall j, CurrentJustifiedCheckpoint b = Returns (Some j) ->
             MatchCurrentJustifiedCheckpoint b None = Panics NilDereference) /\
  (forall j, PreviousJustifiedCheckpoint b = Returns (Some j) ->
             MatchPreviousJustifiedCheckpoint b None = Panics NilDereference).
Proof.
  unfold MatchCurrentJustifiedCheckpoint, MatchPreviousJustifiedCheckpoint,
    CurrentJustifiedCheckpoint, PreviousJustifiedCheckpoint.
  destruct b as [[[st|]]|];
    cbn [HasInnerState state bool_decide negb inner deref mbind outcome_bind
         obind mret outcome_ret];
    try (repeat split; intros; discriminate).
  assert (Hm : forall j : Checkpoint.t,
            (if negb (Checkpoint.Epoch c =? Checkpoint.Epoch j)
             then Returns false
             else Returns (bool_decide (Checkpoint.Root c = Checkpoint.Root j)))
            = Returns true <->
            Returns (safeCopyCheckpoint (Some j)) = Returns (Some c)).
  { intros [je jr]. destruct c as [ce cr].
    cbn [Checkpoint.Epoch Checkpoint.Root safeCopyCheckpoint].
    destruct (Z.eqb_spec ce je) as [->|Hne]; cbn [negb].
    - split.
      + intros H. inversion H as [Hd]. apply bool_decide_eq_true in Hd.
        subst. reflexivity.
      + intros H. inversion H; subst. rewrite bool_decide_eq_true_2 by auto.
        reflexivity.
    - split; [discriminate | ]. intros H. inversion H; subst. contradiction. }
  destruct (Inner.CurrentJustifiedCheckpoint st) as [jc|];
    destruct (Inner.PreviousJustifiedCheckpoint st) as [jp|];
    cbn [deref obind]; repeat split; try apply Hm; try discriminate;
    intros; try discriminate; reflexivity.
Qed.

Lemma copy_into_array_cut_pad (n : nat) (src : bytes) :
  copy_into_array n src = take n src ++ replicate (n - length src) Byte.x00.
Proof.
  unfold copy_into_array. rewrite take_app, take_replicate. f_equal.
  f_equal. lia.
Qed.

(** X5: on a state, [GenesisValidatorRoot] returns exactly 32 bytes: the
    zero hash when no root is stored, else the stored root cut or padded:
    its first 32 bytes, followed by as many zero bytes as it has less than
    32, which is the stored root when that has 32 bytes. *)
Theorem X5_genesis_validator_root (st : Inner.t) :
  exists root,
    GenesisValidatorRoot (Some (mkBeaconState (Some st)))
    = Returns (Some root) /\
    len root = 32 /\
    (Inner.GenesisValidatorsRoot st = None -> root = ZeroHash) /\
    (forall r, Inner.GenesisValidatorsRoot st = Some r ->
               root = take 32 r ++ replicate (32 - length r) Byte.x00 /\
               (len r = 32 -> root = r)).
Proof.
  unfold GenesisValidatorRoot.
  cbn [HasInnerState state bool_decide negb inner deref mbind outcome_bind
       obind].
  destruct (Inner.GenesisValidatorsRoot st) as [r|].
  - exists (copy_into_array 32 r). split; [reflexivity | ].
    split; [apply len_copy_into_array | ]. split; [discriminate | ].
    intros r' H. inversion H; subst r'. split.
    + apply copy_into_array_cut_pad.
    + intros Hl. apply copy_into_array_exact. unfold len in Hl. lia.
  - exists ZeroHash. split; [reflexivity | ]. split; [reflexivity | ].
    split; [reflexivity | discriminate].
Qed.

Section Visit.
Context {St E : Type}.
Variable f : Z -> ReadOnlyValidator -> St -> St * option E.

Lemma visit_app i (pre post : list (option Validator.t)) (s : St) :
  visit f i (pre ++ post) s =
  match visit f i pre s with
  | (s', Some err) => (s', Some err)
  | (s', None) => visit f (i + len pre) post s'
  end.
Proof.
  revert i s. induction pre as [|v pre IH]; intros i s; cbn [app visit].
  - unfold len. cbn [length]. rewrite Z.add_0_r. reflexivity.
  - destruct (f i (mkReadOnlyValidator v) s) as [s' [err|]];
      [reflexivity | ].
    rewrite IH. unfold len. cbn [length].
    replace (i + 1 + Z.of_nat (length pre))
      with (i + Z.of_nat (S (length pre))) by lia.
    reflexivity.
Qed.

(** X6: [ReadFromEveryValidator] calls the function on the validators in
    the order of the registry, each with its index and on what the earlier
    calls left in the closure.  The first error stops the loop and is
    returned as it is, the later validators not being visited; after a call
    without error the loop goes on with the next index. *)
Theorem X6_read_from_every_validator (st : Inner.t)
    (pre post : list (option Validator.t)) (v : option Validator.t)
    (s s1 : St) :
  Inner.Validators st = Some (pre ++ v :: post) ->
  visit f 0 pre s = (s1, None) ->
  let b := Some (mkBeaconState (Some st)) in
  (forall s2 e,
     f (len pre) (mkReadOnlyValidator v) s1 = (s2, Some e) ->
     ReadFromEveryValidator f b s = Returns (s2, Some (ReadCallback e))) /\
  (forall s2,
     f (len pre) (mkReadOnlyValidator v) s1 = (s2, None) ->
     ReadFromEveryValidator f b s =
     match visit f (len pre + 1) post s2 with
     | (s', Some e) => Returns (s', Some (ReadCallback e))
     | (s', None) => Returns (s', None)
     end).
Proof.
  intros Hv Hpre b. unfold b, ReadFromEveryValidator.
  cbn [HasInnerState state bool_decide negb inner deref mbind outcome_bind
       obind].
  rewrite Hv, visit_app, Hpre. cbn [visit]. rewrite Z.add_0_l.
  split.
  - intros s2 e ->. reflexivity.
  - intros s2 ->. reflexivity.
Qed.

End Visit.

(** A function that records the indices it is called with and refuses a
    nil validator. *)
Definition example_visitor (i : Z) (v : ReadOnlyValidator) (s : list Z)
  : list Z * option Z :=
  (s ++ [i], if IsNil v then Some i else None).

Lemma X6_read_from_every_validator_witness :
  ReadFromEveryValidator example_visitor example_state []
  = Returns ([0; 1], Some (ReadCallback 1)).
Proof.
  exact (proj1 (X6_read_from_every_validator example_visitor example_inner
                  [Some Validator.zero] [] None [] [0] eq_refl eq_refl)
           [0; 1] 1 eq_refl).
Defined.

End StateGettersFacts.

(** * Package [blocks]: the attestations of a block *)

Module SignedBeaconBlock.
(** The fields of [ethpb.SignedBeaconBlock] the sources read:
    [b.Block.Body.Attestations]. *)
Record body : Type := mkBody {
  Attestations : list (option Attestation.t)
}.
Record block : Type := mkBlock {
  Body : option body
}.
Record t : Type := mk {
  Block : option block
}.
End SignedBeaconBlock.

Module BlockAttestations.
Import Blocks.

(** An error of the two block-level functions: the one of the nil check,
    or the one of an attestation, wrapped with ["could not verify
    attestation at index %d in block"]. *)
Inductive block_error : Type :=
| ErrNilBlock (cause : error)
| ErrAttestationAt (idx : Z) (cause : error).

(** What a block-level function returns: the state pointer with a nil
    error, or nil with an error.  The store is the object the pointer it
    was given points to. *)
Inductive block_res : Type :=
| BlockOk
| BlockFail (e : block_error)
| BlockCrash (p : panic).

Section Block.
Variable cfg : BeaconChainConfig.
Context {helpers : Helpers}.
(** [helpers.VerifyNilBeaconBlock], outside the sources. *)
Variable VerifyNilBeaconBlock : option SignedBeaconBlock.t -> option error.

(** The loop [for idx, attestation := range attestations]. *)
Fixpoint processEach (process : option Attestation.t -> M unit) (idx : Z)
  (attestations : list (option Attestation.t)) (h : store)
  : store * block_res :=
  match attestations with
  | [] => (h, BlockOk)
  | attestation :: rest =>
      match process attestation h with
      | (h', Ok _) => processEach process (idx + 1) rest h'
      | (h', Fail err) => (h', BlockFail (ErrAttestationAt idx err))
      | (h', Crash p) => (h', BlockCrash p)
      end
  end.

(** [b.Block.Body.Attestations] *)
Definition attestationsOf (b : option SignedBeaconBlock.t)
  : outcome (list (option Attestation.t)) :=
  sb ← deref b;
  blk ← deref (SignedBeaconBlock.Block sb);
  body ← deref (SignedBeaconBlock.Body blk);
  mret (SignedBeaconBlock.Attestations body).

(** [ProcessAttestations] *)
Definition ProcessAttestations (b : option SignedBeaconBlock.t) (h : store)
  : store * block_res :=
  match VerifyNilBeaconBlock b with
  | Some err => (h, BlockFail (ErrNilBlock err))
  | None =>
      match attestationsOf b with
      | Panics p => (h, BlockCrash p)
      | Returns attestations =>
          processEach (ProcessAttestation cfg) 0 attestations h
      end
  end.

(** [ProcessAttestationsNoVerifySignature] *)
Definition ProcessAttestationsNoVerifySignature
    (b : option SignedBeaconBlock.t) (h : store) : store * block_res :=
  match VerifyNilBeaconBlock b with
  | Some err => (h, BlockFail (ErrNilBlock err))
  | None =>
      match attestationsOf b with
      | Panics p => (h, BlockCrash p)
      | Returns attestations =>
          processEach (ProcessAttestationNoVerifySignature cfg) 0
            attestations h
      end
  end.

End Block.
End BlockAttestations.

(** ** Facts about the attestations of a block *)

Module BlockAttestationsFacts.
Import Blocks BlocksFacts BlockAttestations.

Section Facts.
Variable cfg : BeaconChainConfig.
Context {helpers : Helpers}.
Variable VerifyNilBeaconBlock : option SignedBeaconBlock.t -> option error.

Lemma processEach_app process idx pre post h :
  processEach process idx (pre ++ post) h =
  match processEach process idx pre h with
  | (h', BlockOk) => processEach process (idx + len pre) post h'
  | r => r
  end.
Proof.
  revert idx h. induction pre as [|a pre IH]; intros idx h;
    cbn [app processEach].
  - unfold len. cbn [length]. rewrite Z.add_0_r. reflexivity.
  - destruct (process a h) as [h' [[]|e|p]]; [ | reflexivity | reflexivity ].
    rewrite IH. unfold len. cbn [length].
    replace (idx + 1 + Z.of_nat (length pre))
      with (idx + Z.of_nat (S (length pre))) by lia.
    reflexivity.
Qed.

(** A block that passes the nil check and holds the attestations. *)
Definition holds (b : option SignedBeaconBlock.t)
  (attestations : list (option Attestation.t)) : Prop :=
  VerifyNilBeaconBlock b = None /\
  attestationsOf b = Returns attestations.

(** X7: the attestations of a block are processed in their order, each on
    the state the earlier ones have left.  The first attestation that
    fails stops the processing: the error names its position in the block
    and wraps its error, the later attestations are not looked at, and the
    state keeps what the earlier attestations, and the failing one up to
    its failure, have written. *)
Theorem X7_first_failing_attestation (b : option SignedBeaconBlock.t)
    (pre post : list (option Attestation.t)) (att : option Attestation.t)
    (h h1 h2 : store) (err : error) :
  holds b (pre ++ att :: post) ->
  processEach (ProcessAttestationNoVerifySignature cfg) 0 pre h
  = (h1, BlockOk) ->
  ProcessAttestationNoVerifySignature cfg att h1 = (h2, Fail err) ->
  ProcessAttestationsNoVerifySignature cfg VerifyNilBeaconBlock b h
  = (h2, BlockFail (ErrAttestationAt (len pre) err)).
Proof.
  intros [Hnil Hatts] Hpre Hatt. unfold ProcessAttestationsNoVerifySignature.
  rewrite Hnil, Hatts, processEach_app, Hpre. cbn [processEach].
  rewrite Hatt, Z.add_0_l. reflexivity.
Qed.

Lemma ProcessAttestation_ok_inv att h h' u :
  ProcessAttestation cfg att h = (h', Ok u) ->
  ProcessAttestationNoVerifySignature cfg att h = (h', Ok tt) /\
  VerifyAttestationSignature cfg att h' = (h', Ok tt).
Proof.
  unfold ProcessAttestation. intros H.
  apply bind_ok_inv in H as ([] & h1 & E1 & E2).
  pose proof (VerifyAttestationSignature_readonly cfg att h1) as Hro.
  rewrite E2 in Hro. cbn in Hro. subst h1. destruct u. auto.
Qed.

Lemma processEach_verified idx attestations h h' :
  processEach (ProcessAttestation cfg) idx attestations h = (h', BlockOk) ->
  processEach (ProcessAttestationNoVerifySignature cfg) idx attestations h
  = (h', BlockOk).
Proof.
  revert idx h. induction attestations as [|a rest IH]; intros idx h;
    cbn [processEach]; [trivial | ].
  destruct (ProcessAttestation cfg a h) as [h1 [u|e|p]] eqn:E;
    [ | discriminate | discriminate ].
  apply ProcessAttestation_ok_inv in E as [-> _]. apply IH.
Qed.

(** X8: a block whose attestations [ProcessAttestations] accepts is
    accepted by [ProcessAttestationsNoVerifySignature] as well, with the
    same resulting state: verifying the signatures adds a check and changes
    nothing in the state. *)
Theorem X8_signature_check_changes_nothing (b : option SignedBeaconBlock.t)
    (h h' : store) :
  ProcessAttestations cfg VerifyNilBeaconBlock b h = (h', BlockOk) ->
  ProcessAttestationsNoVerifySignature cfg VerifyNilBeaconBlock b h
  = (h', BlockOk).
Proof.
  unfold ProcessAttestations, ProcessAttestationsNoVerifySignature.
  destruct (VerifyNilBeaconBlock b); [discriminate | ].
  destruct (attestationsOf b); [ | discriminate ].
  apply processEach_verified.
Qed.

End Facts.

(** A nil check that accepts a block with a body. *)
Definition example_verify_nil (b : option SignedBeaconBlock.t)
  : option error :=
  match attestationsOf b with
  | Returns _ => None
  | Panics _ => Some (ErrExternal 5)
  end.

Definition example_block (attestations : list (option Attestation.t))
  : option SignedBeaconBlock.t :=
  Some (SignedBeaconBlock.mk
          (Some (SignedBeaconBlock.mkBlock
                   (Some (SignedBeaconBlock.mkBody attestations))))).

Lemma X7_first_failing_attestation_witness :
  let good := Example.attestation 5 0 Example.good_signature in
  let late := Example.attestation 5 7 Example.good_signature in
  let h1 :=
    (ProcessAttestationNoVerifySignature Example.config good
       (Example.state_at 6)).1 in
  ProcessAttestationsNoVerifySignature Example.config example_verify_nil
    (example_block [good; late; good]) (Example.state_at 6)
  = (h1, BlockFail (ErrAttestationAt 1 (ErrTargetEpoch 7 0 0))).
Proof.
  intros good late h1.
  apply (X7_first_failing_attestation Example.config example_verify_nil
           (example_block [good; late; good]) [good] [good] late
           (Example.state_at 6) h1 h1 (ErrTargetEpoch 7 0 0)).
  - split; reflexivity.
  - vm_compute. reflexivity.
  - vm_compute. reflexivity.
Defined.

Lemma X8_signature_check_changes_nothing_witness :
  let b :=
    example_block [Example.attestation 5 0 Example.good_signature;
                   Example.attestation 4 0 Example.good_signature] in
  let h' :=
    (ProcessAttestations Example.config example_verify_nil b
       (Example.state_at 6)).1 in
  ProcessAttestationsNoVerifySignature Example.config example_verify_nil b
    (Example.state_at 6)
  = (h', BlockOk).
Proof.
  intros b h'.
  apply (X8_signature_check_changes_nothing Example.config example_verify_nil
           b (Example.state_at 6) h').
  vm_compute. reflexivity.
Defined.

End BlockAttestationsFacts.

(** ** Facts about the verification of an indexed attestation *)

Module VerifyFacts.
Import Blocks BlocksFacts.

Section Keys.
Variable cfg : BeaconChainConfig.
Context {helpers : Helpers}.

(** The key of the validator at [i] parses to [pk]. *)
Definition key_of (h : store) (i : Z) (pk : PublicKey) : Prop :=
  exists raw,
    State.PubkeyAtIndex ToBytes48 h i = Returns raw /\
    PublicKeyFromBytes raw = Ok pk.

Lemma collectPubkeys_ok_inv indices acc h h' pubkeys :
  collectPubkeys indices acc h = (h', Ok pubkeys) ->
  h' = h /\
  exists keys, pubkeys = acc ++ keys /\ Forall2 (key_of h) indices keys.
Proof.
  revert acc h'. induction indices as [|i rest IH]; intros acc h' H;
    cbn [collectPubkeys] in H.
  - apply mret_ok_inv in H as [-> ->]. split; [reflexivity | ].
    exists []. rewrite app_nil_r. split; [reflexivity | constructor].
  - inv_bind H. inv_prim E. inv_bind H. inv_prim E0.
    apply IH in H as [-> (keys & -> & Hkeys)]. split; [reflexivity | ].
    exists (v0 :: keys). rewrite <- app_assoc. split; [reflexivity | ].
    constructor; [ | exact Hkeys ].
    exists v. split; [exact E | ].
    destruct (PublicKeyFromBytes v); congruence.
Qed.

(** X9: when [VerifyIndexedAttestation] accepts an indexed attestation,
    its indices have passed [IsValidAttestationIndices] and the signature
    has been checked against one public key for each attesting index, in
    the order of the indices: the key [PubkeyAtIndex] returns for the
    index, parsed by [PublicKeyFromBytes], under the domain of the target
    epoch.  The state is left as it was. *)
Theorem X9_verified_against_the_attesting_keys
    (ia : IndexedAttestation.t) (h h' : store) :
  VerifyIndexedAttestation cfg (Some ia) h = (h', Ok tt) ->
  h' = h /\
  IsValidAttestationIndices (Some ia) = None /\
  exists d t fork root domain pubkeys,
    IndexedAttestation.Data ia = Some d /\
    AttestationData.Target d = Some t /\
    State.Fork h = Returns fork /\
    State.GenesisValidatorRoot h = Returns root /\
    Domain fork (Checkpoint.Epoch t) (DomainBeaconAttester cfg) root
    = Ok domain /\
    Forall2 (key_of h) (IndexedAttestation.AttestingIndices ia) pubkeys /\
    VerifyIndexedAttestationSig (Some ia) pubkeys domain = None.
Proof.
  unfold VerifyIndexedAttestation. intros H.
  inv_bind H. inv_prim E.
  inv_bind H. inv_prim E0. cbn in E0. inversion E0; subst v0.
  inv_bind H. inv_prim E1.
  inv_bind H. inv_prim E2.
  inv_bind H. inv_prim E3.
  inv_bind H. inv_prim E4.
  inv_bind H. inv_prim E5.
  inv_bind H. apply collectPubkeys_ok_inv in E6 as [-> (keys & -> & Hkeys)].
  apply check_ok_inv in H as [-> Hsig].
  split; [reflexivity | ]. split; [exact E | ].
  destruct (IndexedAttestation.Data ia) as [d|] eqn:Hd; [ | discriminate ].
  cbn in E1. inversion E1; subst v0.
  destruct (AttestationData.Target d) as [t|] eqn:Ht; [ | discriminate ].
  cbn in E2. inversion E2; subst v1.
  exists d, t, v2, v3, v4, keys. cbn [app] in Hsig.
  repeat split; auto.
Qed.

End Keys.

(** An indexed attestation by the validators 0 and 1 and by the index 5,
    which the registry of four validators does not have. *)
Definition example_indexed : IndexedAttestation.t :=
  IndexedAttestation.mk [0; 1; 5]
    (Some (AttestationData.mk 5 0 Example.root_a (Some Example.checkpoint0)
             (Some Example.checkpoint0)))
    Example.good_signature.

Lemma X9_verified_against_the_attesting_keys_witness :
  VerifyIndexedAttestation Example.config (Some example_indexed)
    (Example.state_at 6) = (Example.state_at 6, Ok tt) /\
  Forall2 (key_of (Example.state_at 6)) [0; 1; 5]
    [replicate 48 Byte.x01; replicate 48 Byte.x02; replicate 48 Byte.x00].
Proof.
  assert (H : VerifyIndexedAttestation Example.config (Some example_indexed)
                (Example.state_at 6) = (Example.state_at 6, Ok tt))
    by (vm_compute; reflexivity).
  split; [exact H | ].
  destruct (X9_verified_against_the_attesting_keys Example.config
              example_indexed _ _ H)
    as (_ & _ & d & t & fork & root & domain & pubkeys & _ & _ & _ & _ & _
        & Hkeys & _).
  cbn [example_indexed IndexedAttestation.AttestingIndices] in Hkeys.
  repeat match goal with
         | Hk : Forall2 _ (_ :: _) _ |- _ =>
             apply Forall2_cons_inv_l in Hk as (? & ? & ? & Hk & ->)
         | Hk : Forall2 _ [] _ |- _ => apply Forall2_nil_inv_l in Hk as ->
         end.
  repeat match goal with
         | Hk : key_of _ _ _ |- _ =>
             destruct Hk as (? & Hraw & Hpk); vm_compute in Hraw, Hpk;
             injection Hraw as <-; injection Hpk as <-
         end.
  repeat constructor; eexists; split; vm_compute; reflexivity.
Defined.

End VerifyFacts.

(** ** Facts about what an accepted attestation satisfies *)

Module AcceptedFacts.
Import Blocks BlocksFacts.

Section Accepted.
Variable cfg : BeaconChainConfig.
Context {helpers : Helpers}.

(** The checks on the committee that [passed] does not record. *)
Lemma attestationChecks_committee_inv att h h' c :
  attestationChecks cfg att h = (h', Ok c) ->
  exists t n ia,
    AttestationData.Target (c_data c) = Some t /\
    ActiveValidatorCount h (Checkpoint.Epoch t) = Ok n /\
    AttestationData.CommitteeIndex (c_data c) < SlotCommitteeCount n /\
    VerifyAttestationBitfieldLengths h att = None /\
    ConvertToIndexed att (c_committee c) = Ok ia /\
    IsValidAttestationIndices ia = None.
Proof.
  intros H. unfold attestationChecks in H.
  inv_bind H. inv_prim E.
  inv_bind H. inv_prim E0.
  inv_bind H. inv_prim E1.
  inv_bind H. inv_prim E2.
  inv_bind H. inv_prim E3.
  inv_bind H. inv_prim E4.
  destruct (negb (bool_decide (Checkpoint.Epoch v4 = v1))
            && negb (bool_decide (Checkpoint.Epoch v4 = v0))) eqn:Hep;
    [ exfalso; eapply fail_not_ok; exact H | ].
  inv_bind H. inv_prim E5.
  inv_bind H. inv_prim E6.
  inv_bind H. apply inclusionDelayChecks_ok_inv in E7
    as [-> (slot & Hslot & Hmin & Hmax)].
  inv_bind H. inv_prim E7.
  destruct (Z.leb_spec (SlotCommitteeCount v8)
              (AttestationData.CommitteeIndex v3)) as [Hle|Hlt];
    [ exfalso; eapply fail_not_ok; exact H | ].
  inv_bind H. inv_prim E8.
  inv_bind H. inv_prim E9.
  inv_bind H. inv_prim E10.
  inv_bind H. inv_prim E11.
  inv_bind H. destruct v13 as [[j ffg] p].
  apply selectEpoch_ok_inv in E12 as [-> Hsel].
  destruct (negb (bool_decide (Checkpoint.Epoch v4 = ffg))) eqn:Hffg;
    [ exfalso; eapply fail_not_ok; exact H | ].
  destruct (negb (CheckPointIsEqual (AttestationData.Source v3) j)) eqn:Hsrc;
    [ exfalso; eapply fail_not_ok; exact H | ].
  inv_bind H. inv_prim E12.
  inv_bind H. inv_prim E13.
  apply mret_ok_inv in H as [-> ->].
  cbn [c_data c_committee].
  exists v4, v8, v11.
  destruct (VerifyAttestationBitfieldLengths h att) eqn:Hbits;
    [discriminate | ].
  destruct (AttestationData.Target v3) as [t|] eqn:Ht; [ | discriminate ].
  cbn in E4. inversion E4; subst v4.
  repeat split; auto.
Qed.

(** X10: an attestation that [ProcessAttestationNoVerifySignature]
    accepts has passed every check before the flags: it is not nil and has
    data and a target; the target epoch is the current or the previous
    epoch of the state and is the epoch of the attested slot; the committee
    index is below the committee count of that epoch; the bitfield length
    check and the check of the attesting indices of the committee have
    passed; and the source equals the justified checkpoint the state holds
    for the target epoch. *)
Theorem X10_accepted_attestation (att : option Attestation.t)
    (h h' : store) (u : unit) :
  ProcessAttestationNoVerifySignature cfg att h = (h', Ok u) ->
  exists a d t slot n committee ia justified,
    att = Some a /\ Attestation.Data a = Some d /\
    AttestationData.Target d = Some t /\
    State.Slot h = Returns slot /\
    (Checkpoint.Epoch t = slot / SlotsPerEpoch cfg \/
     Checkpoint.Epoch t = (if slot / SlotsPerEpoch cfg =? 0 then 0
                           else slot / SlotsPerEpoch cfg - 1)) /\
    AttestationData.Slot d / SlotsPerEpoch cfg = Checkpoint.Epoch t /\
    ActiveValidatorCount h (Checkpoint.Epoch t) = Ok n /\
    AttestationData.CommitteeIndex d < SlotCommitteeCount n /\
    VerifyAttestationBitfieldLengths h att = None /\
    BeaconCommitteeFromState h (AttestationData.Slot d)
      (AttestationData.CommitteeIndex d) = Ok committee /\
    ConvertToIndexed att committee = Ok ia /\
    IsValidAttestationIndices ia = None /\
    (if bool_decide (Checkpoint.Epoch t = slot / SlotsPerEpoch cfg)
     then State.CurrentJustifiedCheckpoint h = Returns justified
     else State.PreviousJustifiedCheckpoint h = Returns justified) /\
    CheckPointIsEqual (AttestationData.Source d) justified = true.
Proof.
  unfold ProcessAttestationNoVerifySignature. intros H.
  inv_bind H. clear H.
  pose proof (attestationChecks_committee_inv _ _ _ _ E)
    as (t & n & ia & Ht & Hn & Hidx & Hbits & Hconv & Hvalid).
  apply attestationChecks_ok_inv in E as [_ Hp].
  destruct Hp as [slot j tr hr (a & -> & Hd) Htarget Hslot Hspe Hcurr Hep Hse
                    Hmin Hmax Hcom Hsel [_ Hsrc] Htr Hhr].
  rewrite Ht in Htarget. inversion Htarget as [Hteq]. rewrite <- Hteq in *.
  rewrite Hcurr in *.
  exists a, (c_data v), t, slot, n, (c_committee v), ia, j.
  repeat split; auto.
  destruct (bool_decide (Checkpoint.Epoch t = slot / SlotsPerEpoch cfg));
    tauto.
Qed.

End Accepted.

Lemma X10_accepted_attestation_witness :
  let att := Example.attestation 5 0 Example.good_signature in
  let h := Example.state_at 6 in
  exists a d t slot n committee ia justified,
    att = Some a /\ Attestation.Data a = Some d /\
    AttestationData.Target d = Some t /\
    State.Slot h = Returns slot /\
    (Checkpoint.Epoch t = slot / SlotsPerEpoch Example.config \/
     Checkpoint.Epoch t = (if slot / SlotsPerEpoch Example.config =? 0 then 0
                           else slot / SlotsPerEpoch Example.config - 1)) /\
    AttestationData.Slot d / SlotsPerEpoch Example.config
      = Checkpoint.Epoch t /\
    ActiveValidatorCount h (Checkpoint.Epoch t) = Ok n /\
    AttestationData.CommitteeIndex d < SlotCommitteeCount n /\
    VerifyAttestationBitfieldLengths h att = None /\
    BeaconCommitteeFromState h (AttestationData.Slot d)
      (AttestationData.CommitteeIndex d) = Ok committee /\
    ConvertToIndexed att committee = Ok ia /\
    IsValidAttestationIndices ia = None /\
    (if bool_decide (Checkpoint.Epoch t = slot / SlotsPerEpoch Example.config)
     then State.CurrentJustifiedCheckpoint h = Returns justified
     else State.PreviousJustifiedCheckpoint h = Returns justified) /\
    CheckPointIsEqual (AttestationData.Source d) justified = true.
Proof.
  intros att h.
  apply (X10_accepted_attestation Example.config att h
           (ProcessAttestationNoVerifySignature Example.config att h).1 tt).
  vm_compute. reflexivity.
Defined.

End AcceptedFacts.

(** ** The remaining records of the p2p messages *)

Module BeaconBlocksByRangeRequest.
Record t : Type := mk {
  StartSlot : Z;
  Count : Z;
  Step : Z
}.
Definition zero : t := mk 0 0 0.
End BeaconBlocksByRangeRequest.

Module ENRForkID.
Record t : Type := mk {
  CurrentForkDigest : bytes;
  NextForkVersion : bytes;
  NextForkEpoch : Z
}.
Definition zero : t := mk [] [] 0.
End ENRForkID.

Module MetaData.
Record t : Type := mk {
  SeqNumber : Z;
  Attnets : bytes
}.
Definition zero : t := mk 0 [].
End MetaData.

Module P2PMessages.
Import SSZ.

(** *** BeaconBlocksByRangeRequest *)

Definition BeaconBlocksByRangeRequest_MarshalSSZTo
    (b : BeaconBlocksByRangeRequest.t) (buf : bytes) : result bytes :=
  let dst := buf in
  let dst := MarshalUint64 dst (BeaconBlocksByRangeRequest.StartSlot b) in
  let dst := MarshalUint64 dst (BeaconBlocksByRangeRequest.Count b) in
  let dst := MarshalUint64 dst (BeaconBlocksByRangeRequest.Step b) in
  Ok dst.

Definition BeaconBlocksByRangeRequest_MarshalSSZ
    (b : BeaconBlocksByRangeRequest.t) : result bytes :=
  BeaconBlocksByRangeRequest_MarshalSSZTo b [].

Definition BeaconBlocksByRangeRequest_UnmarshalSSZ
    (b : BeaconBlocksByRangeRequest.t) (buf : bytes)
  : result BeaconBlocksByRangeRequest.t :=
  let size := len buf in
  if negb (size =? 24) then Err ErrSize else
  Ok (BeaconBlocksByRangeRequest.mk
        (UnmarshallUint64 (slice buf 0 8))
        (UnmarshallUint64 (slice buf 8 16))
        (UnmarshallUint64 (slice buf 16 24))).

Definition BeaconBlocksByRangeRequest_SizeSSZ
    (b : BeaconBlocksByRangeRequest.t) : Z := 24.

(** *** ENRForkID *)

Definition ENRForkID_MarshalSSZTo (e : ENRForkID.t) (buf : bytes)
  : result bytes :=
  let dst := buf in
  if negb (len (ENRForkID.CurrentForkDigest e) =? 4)
  then Err ErrBytesLength else
  let dst := dst ++ ENRForkID.CurrentForkDigest e in
  if negb (len (ENRForkID.NextForkVersion e) =? 4)
  then Err ErrBytesLength else
  let dst := dst ++ ENRForkID.NextForkVersion e in
  let dst := MarshalUint64 dst (ENRForkID.NextForkEpoch e) in
  Ok dst.

Definition ENRForkID_MarshalSSZ (e : ENRForkID.t) : result bytes :=
  ENRForkID_MarshalSSZTo e [].

Definition ENRForkID_UnmarshalSSZ (e : ENRForkID.t) (buf : bytes)
  : result ENRForkID.t :=
  let size := len buf in
  if negb (size =? 16) then Err ErrSize else
  Ok (ENRForkID.mk
        (ENRForkID.CurrentForkDigest e ++ slice buf 0 4)
        (ENRForkID.NextForkVersion e ++ slice buf 4 8)
        (UnmarshallUint64 (slice buf 8 16))).

Definition ENRForkID_SizeSSZ (e : ENRForkID.t) : Z := 16.

(** *** MetaData *)

Definition MetaData_MarshalSSZTo (m : MetaData.t) (buf : bytes)
  : result bytes :=
  let dst := buf in
  let dst := MarshalUint64 dst (MetaData.SeqNumber m) in
  if negb (len (MetaData.Attnets m) =? 8) then Err ErrBytesLength else
  let dst := dst ++ MetaData.Attnets m in
  Ok dst.

Definition MetaData_MarshalSSZ (m : MetaData.t) : result bytes :=
  MetaData_MarshalSSZTo m [].

Definition MetaData_UnmarshalSSZ (m : MetaData.t) (buf : bytes)
  : result MetaData.t :=
  let size := len buf in
  if negb (size =? 16) then Err ErrSize else
  Ok (MetaData.mk
        (UnmarshallUint64 (slice buf 0 8))
        (MetaData.Attnets m ++ slice buf 8 16)).

Definition MetaData_SizeSSZ (m : MetaData.t) : Z := 16.

(** Typing of the model: an integer field holds a [uint64]. *)
Definition BeaconBlocksByRangeRequest_typed
    (b : BeaconBlocksByRangeRequest.t) : Prop :=
  is_uint64 (BeaconBlocksByRangeRequest.StartSlot b) /\
  is_uint64 (BeaconBlocksByRangeRequest.Count b) /\
  is_uint64 (BeaconBlocksByRangeRequest.Step b).
Definition ENRForkID_typed (e : ENRForkID.t) : Prop :=
  is_uint64 (ENRForkID.NextForkEpoch e).
Definition MetaData_typed (m : MetaData.t) : Prop :=
  is_uint64 (MetaData.SeqNumber m).

End P2PMessages.

Module P2PMessagesFacts.
Import SSZ SSZFacts P2P P2PFacts P2PMessages.

Lemma BeaconBlocksByRangeRequest_round_trips :
  round_trips BeaconBlocksByRangeRequest.zero BeaconBlocksByRangeRequest_typed
    BeaconBlocksByRangeRequest_MarshalSSZ
    BeaconBlocksByRangeRequest_UnmarshalSSZ
    BeaconBlocksByRangeRequest_SizeSSZ.
Proof.
  intros [s c st] e (Hs & Hc & Hst) H.
  unfold BeaconBlocksByRangeRequest_MarshalSSZ,
    BeaconBlocksByRangeRequest_MarshalSSZTo in H.
  cbn [BeaconBlocksByRangeRequest.StartSlot BeaconBlocksByRangeRequest.Count
       BeaconBlocksByRangeRequest.Step] in *.
  cbv zeta in H. apply Ok_inj in H; subst e.
  set (segs := [(8, le_bytes 8 s); (8, le_bytes 8 c); (8, le_bytes 8 st)]).
  assert (Hl : laid_out segs) by laid_out_tac.
  replace (MarshalUint64 _ _) with (buffer segs) by flatten.
  split.
  - unfold BeaconBlocksByRangeRequest_UnmarshalSSZ.
    run_unmarshal Hl. reflexivity.
  - rewrite (len_buffer _ Hl). reflexivity.
Qed.

Lemma ENRForkID_laws :
  codec_laws ENRForkID.zero 16 ENRForkID_typed ENRForkID_MarshalSSZTo
    ENRForkID_UnmarshalSSZ.
Proof.
  split.
  - intros x dst. unfold ENRForkID_MarshalSSZTo.
    repeat (destruct (negb _); [reflexivity | ]).
    cbn. f_equal. flatten.
  - intros x e H. unfold ENRForkID_MarshalSSZTo in H. run_marshal H.
    apply Ok_inj in H; subst e. unfold MarshalUint64.
    rewrite ?len_app, ?len_le_bytes, ?len_cons, ?len_nil. lia.
  - reflexivity.
  - intros [d v ep] e Ht H. unfold ENRForkID_MarshalSSZTo in H.
    cbn [ENRForkID.CurrentForkDigest ENRForkID.NextForkVersion
         ENRForkID.NextForkEpoch] in H.
    run_marshal H. apply Ok_inj in H; subst e.
    set (segs := [(4, d); (4, v); (8, le_bytes 8 ep)]).
    assert (Hs : laid_out segs) by laid_out_tac.
    replace (MarshalUint64 _ _) with (buffer segs) by flatten.
    unfold ENRForkID_UnmarshalSSZ. unfold ENRForkID_typed in Ht. cbn in Ht.
    run_unmarshal Hs. reflexivity.
  - intros r buf H. unfold ENRForkID_UnmarshalSSZ. rewrite H. reflexivity.
Qed.

Lemma MetaData_laws :
  codec_laws MetaData.zero 16 MetaData_typed MetaData_MarshalSSZTo
    MetaData_UnmarshalSSZ.
Proof.
  split.
  - intros x dst. unfold MetaData_MarshalSSZTo.
    repeat (destruct (negb _); [reflexivity | ]).
    cbn. f_equal. flatten.
  - intros x e H. unfold MetaData_MarshalSSZTo in H. run_marshal H.
    apply Ok_inj in H; subst e. unfold MarshalUint64.
    rewrite ?len_app, ?len_le_bytes, ?len_cons, ?len_nil. lia.
  - reflexivity.
  - intros [n a] e Ht H. unfold MetaData_MarshalSSZTo in H.
    cbn [MetaData.SeqNumber MetaData.Attnets] in H.
    run_marshal H. apply Ok_inj in H; subst e.
    set (segs := [(8, le_bytes 8 n); (8, a)]).
    assert (Hs : laid_out segs) by laid_out_tac.
    replace (_ ++ a) with (buffer segs) by flatten.
    unfold MetaData_UnmarshalSSZ. unfold MetaData_typed in Ht. cbn in Ht.
    run_unmarshal Hs. reflexivity.
  - intros r buf H. unfold MetaData_UnmarshalSSZ. rewrite H. reflexivity.
Qed.

(** X11: for each of BeaconBlocksByRangeRequest, ENRForkID and MetaData
    whose integer fields hold a [uint64], decoding what [MarshalSSZ]
    returns into a new record gives the record back, and [SizeSSZ] is the
    length of the encoding. *)
Theorem X11_message_roundtrip :
  round_trips BeaconBlocksByRangeRequest.zero BeaconBlocksByRangeRequest_typed
    BeaconBlocksByRangeRequest_MarshalSSZ
    BeaconBlocksByRangeRequest_UnmarshalSSZ
    BeaconBlocksByRangeRequest_SizeSSZ /\
  round_trips ENRForkID.zero ENRForkID_typed ENRForkID_MarshalSSZ
    ENRForkID_UnmarshalSSZ ENRForkID_SizeSSZ /\
  round_trips MetaData.zero MetaData_typed MetaData_MarshalSSZ
    MetaData_UnmarshalSSZ MetaData_SizeSSZ.
Proof.
  split; [exact BeaconBlocksByRangeRequest_round_trips | ].
  split; [exact (laws_round_trip ENRForkID_laws) | ].
  exact (laws_round_trip MetaData_laws).
Qed.

End P2PMessagesFacts.

(** ** Decoding, then encoding *)

Module DecodeFacts.
Import SSZ SSZFacts P2P P2PFacts P2PMessages.

Lemma byte_of_Z_of_byte (b : Byte.byte) (r : Z) :
  byte_of_Z (Z_of_byte b + 256 * r) = b.
Proof.
  pose proof (Z_of_byte_range b) as Hb.
  unfold byte_of_Z.
  replace ((Z_of_byte b + 256 * r) mod 256) with (Z_of_byte b)
    by (apply (Z.mod_unique_pos _ 256 r); lia).
  unfold Z_of_byte. rewrite N2Z.id, Byte.of_to_N. reflexivity.
Qed.

Lemma le_bytes_le_value (bs : bytes) :
  le_bytes (length bs) (le_value bs) = bs.
Proof.
  induction bs as [|b rest IH]; [reflexivity | ].
  cbn [length le_bytes le_value]. rewrite byte_of_Z_of_byte. f_equal.
  pose proof (Z_of_byte_range b) as Hb.
  replace ((Z_of_byte b + 256 * le_value rest) / 256) with (le_value rest)
    by (apply (Z.div_unique_pos _ 256 _ (Z_of_byte b)); lia).
  exact IH.
Qed.

(** What [MarshalUint64] appends for an integer read from eight bytes. *)
Lemma le_bytes_UnmarshallUint64 (s : bytes) :
  len s = 8 -> le_bytes 8 (UnmarshallUint64 s) = s.
Proof.
  intros H. unfold UnmarshallUint64.
  assert (Hl : length s = 8%nat) by (unfold len in H; lia).
  rewrite take_ge by lia. rewrite <- Hl at 1. apply le_bytes_le_value.
Qed.

Lemma UnmarshallUint64_typed (s : bytes) : is_uint64 (UnmarshallUint64 s).
Proof.
  unfold UnmarshallUint64, is_uint64, uint64_limit.
  pose proof (le_value_range (take 8 s)) as H.
  assert (Hl : 0 <= len (take 8 s) <= 8)
    by (unfold len; rewrite length_take; lia).
  assert (256 ^ len (take 8 s) <= 256 ^ 8)
    by (apply Z.pow_le_mono_r; lia).
  change (256 ^ 8) with (2 ^ 64) in *. lia.
Qed.

Lemma slice_split (buf : bytes) (a b c : Z) :
  0 <= a <= b -> b <= c ->
  slice buf a b ++ slice buf b c = slice buf a c.
Proof.
  intros H1 H2. unfold slice.
  replace (Z.to_nat b) with (Z.to_nat a + Z.to_nat (b - a))%nat by lia.
  rewrite <- drop_drop, take_take_drop. f_equal. lia.
Qed.

Lemma slice_all (buf : bytes) (n : Z) : n = len buf -> slice buf 0 n = buf.
Proof.
  intros ->. unfold slice. rewrite Z.sub_0_r, to_nat_len.
  change (Z.to_nat 0) with 0%nat. rewrite drop_0. apply firstn_all.
Qed.

Lemma len_chunks (n : nat) (size : Z) (buf : bytes) :
  len (chunks n size buf) = Z.of_nat n.
Proof. unfold chunks, len. rewrite length_map, length_seq. reflexivity. Qed.

Lemma chunks_shape (n : nat) (size : Z) (buf : bytes) :
  0 <= size -> Z.of_nat n * size <= len buf ->
  Forall (fun x => len x = size) (chunks n size buf).
Proof.
  intros Hs Hn. unfold chunks. apply Forall_map, Forall_forall.
  intros ii Hi. apply List.in_seq in Hi. cbn beta.
  rewrite len_slice; nia.
Qed.

Lemma concat_chunks (n : nat) (size : Z) (buf : bytes) :
  0 <= size ->
  concat (chunks n size buf) = slice buf 0 (Z.of_nat n * size).
Proof.
  intros Hs. unfold chunks.
  assert (Hgen : forall k,
            concat (map (fun ii => slice buf (Z.of_nat ii * size)
                                     ((Z.of_nat ii + 1) * size)) (seq k n))
            = slice buf (Z.of_nat k * size) (Z.of_nat (k + n) * size)).
  { induction n as [|n IH]; intros k.
    - cbn [seq map concat]. rewrite Nat.add_0_r. unfold slice.
      rewrite Z.sub_diag. reflexivity.
    - cbn [seq map concat]. rewrite IH.
      replace ((Z.of_nat k + 1) * size) with (Z.of_nat (S k) * size) by lia.
      replace (Z.of_nat (k + S n)) with (Z.of_nat (S k + n)) by lia.
      apply slice_split; nia. }
  apply (Hgen 0%nat).
Qed.

(** A vector read from a region of exactly its size is written back as
    the region. *)
Lemma marshal_chunks (n size : Z) (buf dst : bytes) :
  0 <= n -> 0 <= size -> len buf = n * size ->
  marshal_bytes_vector size (chunks (Z.to_nat n) size buf) dst
  = Ok (dst ++ buf).
Proof.
  intros Hn Hs Hl.
  rewrite marshal_bytes_vector_valid
    by (apply chunks_shape; [exact Hs | rewrite Z2Nat.id; lia]).
  rewrite concat_chunks by exact Hs. rewrite Z2Nat.id by exact Hn.
  rewrite slice_all by (symmetry; exact Hl). reflexivity.
Qed.

(** A buffer that decodes into a new record is what the encoder returns
    for the record decoded, whose integer fields hold a [uint64]. *)
Definition reencodes {T} (new : T) (typed : T -> Prop)
  (marshal : T -> result bytes) (unmarshal : T -> bytes -> result T)
  : Prop :=
  forall buf x, unmarshal new buf = Ok x -> typed x /\ marshal x = Ok buf.

(** Runs a decoder of a record of fixed size that succeeded. *)
Ltac decoded H size :=
  cbv zeta in H;
  match type of H with
  | context [negb (len ?buf =? size)] =>
      destruct (Z.eqb_spec (len buf) size); [ | discriminate H ]
  end;
  change (negb true) with false in H; cbv beta iota in H;
  apply Ok_inj in H; subst.

(** Runs the encoder on the record decoded. *)
Ltac reencode :=
  cbv zeta; cbn [app];
  rewrite ?len_slice by lia;
  repeat match goal with
         | |- context [negb (?a =? ?b)] =>
             let v := eval vm_compute in (negb (a =? b)) in
             change (negb (a =? b)) with v; cbv beta iota
         end;
  unfold MarshalUint64;
  rewrite ?le_bytes_UnmarshallUint64 by (rewrite len_slice; lia);
  f_equal; rewrite <- ?app_assoc; rewrite ?slice_split by lia;
  apply slice_all; lia.

(** A record of two vectors read from a buffer of exactly its size is
    written back as the buffer. *)
Lemma two_vectors_reencode (n1 s1 n2 s2 : Z) (buf : bytes) :
  0 <= n1 -> 0 <= s1 -> 0 <= n2 -> 0 <= s2 ->
  len buf = n1 * s1 + n2 * s2 ->
  (if negb (len (chunks (Z.to_nat n1) s1 (slice buf 0 (n1 * s1))) =? n1)
   then Err ErrVectorLength else
   dst ← marshal_bytes_vector s1
           (chunks (Z.to_nat n1) s1 (slice buf 0 (n1 * s1))) [];
   if negb (len (chunks (Z.to_nat n2) s2
                   (slice buf (n1 * s1) (n1 * s1 + n2 * s2))) =? n2)
   then Err ErrVectorLength else
   dst ← marshal_bytes_vector s2
           (chunks (Z.to_nat n2) s2
              (slice buf (n1 * s1) (n1 * s1 + n2 * s2))) dst;
   Ok dst) = Ok buf.
Proof.
  intros H1 H2 H3 H4 Hl.
  rewrite !len_chunks, !Z2Nat.id by assumption.
  rewrite !Z.eqb_refl. change (negb true) with false. cbv beta iota.
  rewrite marshal_chunks by (try rewrite len_slice; nia).
  rewrite app_nil_l.
  change (mbind ?k (Ok ?a)) with (k a). cbv beta.
  rewrite marshal_chunks by (try rewrite len_slice; nia).
  change (mbind ?k (Ok ?a)) with (k a). cbv beta.
  f_equal. rewrite slice_split by nia. apply slice_all. lia.
Qed.

Lemma Fork_reencodes :
  reencodes Fork.zero Fork_typed Fork_MarshalSSZ Fork_UnmarshalSSZ.
Proof.
  intros buf x H. unfold Fork_UnmarshalSSZ in H. decoded H 16. split.
  - apply UnmarshallUint64_typed.
  - unfold Fork_MarshalSSZ, Fork_MarshalSSZTo.
    cbn [Fork.PreviousVersion Fork.CurrentVersion Fork.Epoch Fork.zero].
    reencode.
Qed.

Lemma Status_reencodes :
  reencodes Status.zero Status_typed Status_MarshalSSZ Status_UnmarshalSSZ.
Proof.
  intros buf x H. unfold Status_UnmarshalSSZ in H. decoded H 84. split.
  - split; apply UnmarshallUint64_typed.
  - unfold Status_MarshalSSZ, Status_MarshalSSZTo.
    cbn [Status.ForkDigest Status.FinalizedRoot Status.FinalizedEpoch
         Status.HeadRoot Status.HeadSlot Status.zero].
    reencode.
Qed.

Lemma SigningData_reencodes :
  reencodes SigningData.zero (fun _ => True) SigningData_MarshalSSZ
    SigningData_UnmarshalSSZ.
Proof.
  intros buf x H. unfold SigningData_UnmarshalSSZ in H. decoded H 64.
  split; [exact I | ].
  unfold SigningData_MarshalSSZ, SigningData_MarshalSSZTo.
  cbn [SigningData.ObjectRoot SigningData.Domain SigningData.zero].
  reencode.
Qed.

Lemma ForkData_reencodes :
  reencodes ForkData.zero (fun _ => True) ForkData_MarshalSSZ
    ForkData_UnmarshalSSZ.
Proof.
  intros buf x H. unfold ForkData_UnmarshalSSZ in H. decoded H 36.
  split; [exact I | ].
  unfold ForkData_MarshalSSZ, ForkData_MarshalSSZTo.
  cbn [ForkData.CurrentVersion ForkData.GenesisValidatorsRoot ForkData.zero].
  reencode.
Qed.

Lemma DepositMessage_reencodes :
  reencodes DepositMessage.zero DepositMessage_typed DepositMessage_MarshalSSZ
    DepositMessage_UnmarshalSSZ.
Proof.
  intros buf x H. unfold DepositMessage_UnmarshalSSZ in H. decoded H 88.
  split.
  - apply UnmarshallUint64_typed.
  - unfold DepositMessage_MarshalSSZ, DepositMessage_MarshalSSZTo.
    cbn [DepositMessage.PublicKey DepositMessage.WithdrawalCredentials
         DepositMessage.Amount DepositMessage.zero].
    reencode.
Qed.

Lemma SyncCommittee_reencodes :
  reencodes SyncCommittee.zero (fun _ => True) SyncCommittee_MarshalSSZ
    SyncCommittee_UnmarshalSSZ.
Proof.
  intros buf x H. unfold SyncCommittee_UnmarshalSSZ in H. decoded H 49920.
  split; [exact I | ].
  apply (two_vectors_reencode 1024 48 16 48 buf); lia.
Qed.

Lemma HistoricalBatch_reencodes :
  reencodes HistoricalBatch.zero (fun _ => True) HistoricalBatch_MarshalSSZ
    HistoricalBatch_UnmarshalSSZ.
Proof.
  intros buf x H. unfold HistoricalBatch_UnmarshalSSZ in H.
  decoded H 524288. split; [exact I | ].
  apply (two_vectors_reencode 8192 32 8192 32 buf); lia.
Qed.

Lemma BeaconBlocksByRangeRequest_reencodes :
  reencodes BeaconBlocksByRangeRequest.zero BeaconBlocksByRangeRequest_typed
    BeaconBlocksByRangeRequest_MarshalSSZ
    BeaconBlocksByRangeRequest_UnmarshalSSZ.
Proof.
  intros buf x H. unfold BeaconBlocksByRangeRequest_UnmarshalSSZ in H.
  decoded H 24. split.
  - repeat split; apply UnmarshallUint64_typed.
  - unfold BeaconBlocksByRangeRequest_MarshalSSZ,
      BeaconBlocksByRangeRequest_MarshalSSZTo.
    cbn [BeaconBlocksByRangeRequest.StartSlot
         BeaconBlocksByRangeRequest.Count BeaconBlocksByRangeRequest.Step].
    reencode.
Qed.

Lemma ENRForkID_reencodes :
  reencodes ENRForkID.zero ENRForkID_typed ENRForkID_MarshalSSZ
    ENRForkID_UnmarshalSSZ.
Proof.
  intros buf x H. unfold ENRForkID_UnmarshalSSZ in H. decoded H 16. split.
  - apply UnmarshallUint64_typed.
  - unfold ENRForkID_MarshalSSZ, ENRForkID_MarshalSSZTo.
    cbn [ENRForkID.CurrentForkDigest ENRForkID.NextForkVersion
         ENRForkID.NextForkEpoch ENRForkID.zero].
    reencode.
Qed.

Lemma MetaData_reencodes :
  reencodes MetaData.zero MetaData_typed MetaData_MarshalSSZ
    MetaData_UnmarshalSSZ.
Proof.
  intros buf x H. unfold MetaData_UnmarshalSSZ in H. decoded H 16. split.
  - apply UnmarshallUint64_typed.
  - unfold MetaData_MarshalSSZ, MetaData_MarshalSSZTo.
    cbn [MetaData.SeqNumber MetaData.Attnets MetaData.zero].
    reencode.
Qed.

(** X12: for each of the ten records of fixed size, a buffer that
    [UnmarshalSSZ] accepts into a new record is the encoding of the record
    decoded: [MarshalSSZ] returns the buffer for it, and its integer fields
    hold a [uint64]. *)
Theorem X12_decoded_buffer_is_the_encoding :
  reencodes Fork.zero Fork_typed Fork_MarshalSSZ Fork_UnmarshalSSZ /\
  reencodes Status.zero Status_typed Status_MarshalSSZ Status_UnmarshalSSZ /\
  reencodes SigningData.zero (fun _ => True) SigningData_MarshalSSZ
    SigningData_UnmarshalSSZ /\
  reencodes ForkData.zero (fun _ => True) ForkData_MarshalSSZ
    ForkData_UnmarshalSSZ /\
  reencodes DepositMessage.zero DepositMessage_typed DepositMessage_MarshalSSZ
    DepositMessage_UnmarshalSSZ /\
  reencodes SyncCommittee.zero (fun _ => True) SyncCommittee_MarshalSSZ
    SyncCommittee_UnmarshalSSZ /\
  reencodes HistoricalBatch.zero (fun _ => True) HistoricalBatch_MarshalSSZ
    HistoricalBatch_UnmarshalSSZ /\
  reencodes BeaconBlocksByRangeRequest.zero BeaconBlocksByRangeRequest_typed
    BeaconBlocksByRangeRequest_MarshalSSZ
    BeaconBlocksByRangeRequest_UnmarshalSSZ /\
  reencodes ENRForkID.zero ENRForkID_typed ENRForkID_MarshalSSZ
    ENRForkID_UnmarshalSSZ /\
  reencodes MetaData.zero MetaData_typed MetaData_MarshalSSZ
    MetaData_UnmarshalSSZ.
Proof.
  split; [exact Fork_reencodes | ].
  split; [exact Status_reencodes | ].
  split; [exact SigningData_reencodes | ].
  split; [exact ForkData_reencodes | ].
  split; [exact DepositMessage_reencodes | ].
  split; [exact SyncCommittee_reencodes | ].
  split; [exact HistoricalBatch_reencodes | ].
  split; [exact BeaconBlocksByRangeRequest_reencodes | ].
  split; [exact ENRForkID_reencodes | ].
  exact MetaData_reencodes.
Qed.

(** *** Decoding into a record that holds data *)

(** A record decoded into a record that was itself decoded is refused by
    the encoder. *)
Definition refuses_reuse {T} (new : T) (marshal : T -> result bytes)
  (unmarshal : T -> bytes -> result T) : Prop :=
  forall buf1 buf2 x1 x2,
    unmarshal new buf1 = Ok x1 -> unmarshal x1 buf2 = Ok x2 ->
    marshal x2 = Err ErrBytesLength.

(** The decoder gives the same result whatever the receiver holds. *)
Definition ignores_receiver {T} (unmarshal : T -> bytes -> result T) : Prop :=
  forall r r' buf, unmarshal r buf = unmarshal r' buf.

(** Runs the encoder up to the length check that fails. *)
Ltac refused :=
  cbv zeta; cbn [app];
  rewrite ?len_app, ?len_slice by lia;
  repeat match goal with
         | |- context [negb (?a =? ?b)] =>
             let v := eval vm_compute in (negb (a =? b)) in
             change (negb (a =? b)) with v; cbv beta iota
         end;
  reflexivity.

(** X13: [UnmarshalSSZ] appends to the byte fields of its receiver.  For
    each of Fork, Status, SigningData, ForkData, DepositMessage, ENRForkID
    and MetaData, a record obtained by decoding a buffer into a record that
    was itself decoded from a buffer is refused by [MarshalSSZ] with
    [ErrBytesLength].  The decoders of SyncCommittee, HistoricalBatch and
    BeaconBlocksByRangeRequest, which have no byte field, give the same
    result for every receiver. *)
Theorem X13_decoding_into_a_used_record :
  refuses_reuse Fork.zero Fork_MarshalSSZ Fork_UnmarshalSSZ /\
  refuses_reuse Status.zero Status_MarshalSSZ Status_UnmarshalSSZ /\
  refuses_reuse SigningData.zero SigningData_MarshalSSZ
    SigningData_UnmarshalSSZ /\
  refuses_reuse ForkData.zero ForkData_MarshalSSZ ForkData_UnmarshalSSZ /\
  refuses_reuse DepositMessage.zero DepositMessage_MarshalSSZ
    DepositMessage_UnmarshalSSZ /\
  refuses_reuse ENRForkID.zero ENRForkID_MarshalSSZ ENRForkID_UnmarshalSSZ /\
  refuses_reuse MetaData.zero MetaData_MarshalSSZ MetaData_UnmarshalSSZ /\
  ignores_receiver SyncCommittee_UnmarshalSSZ /\
  ignores_receiver HistoricalBatch_UnmarshalSSZ /\
  ignores_receiver BeaconBlocksByRangeRequest_UnmarshalSSZ.
Proof.
  repeat match goal with |- _ /\ _ => split end;
    try (intros r r' buf; reflexivity);
    intros buf1 buf2 x1 x2 H1 H2.
  - unfold Fork_UnmarshalSSZ in H1, H2. decoded H1 16. decoded H2 16.
    unfold Fork_MarshalSSZ, Fork_MarshalSSZTo.
    cbn [Fork.PreviousVersion Fork.CurrentVersion Fork.Epoch Fork.zero].
    refused.
  - unfold Status_UnmarshalSSZ in H1, H2. decoded H1 84. decoded H2 84.
    unfold Status_MarshalSSZ, Status_MarshalSSZTo.
    cbn [Status.ForkDigest Status.FinalizedRoot Status.FinalizedEpoch
         Status.HeadRoot Status.HeadSlot Status.zero].
    refused.
  - unfold SigningData_UnmarshalSSZ in H1, H2. decoded H1 64. decoded H2 64.
    unfold SigningData_MarshalSSZ, SigningData_MarshalSSZTo.
    cbn [SigningData.ObjectRoot SigningData.Domain SigningData.zero].
    refused.
  - unfold ForkData_UnmarshalSSZ in H1, H2. decoded H1 36. decoded H2 36.
    unfold ForkData_MarshalSSZ, ForkData_MarshalSSZTo.
    cbn [ForkData.CurrentVersion ForkData.GenesisValidatorsRoot
         ForkData.zero].
    refused.
  - unfold DepositMessage_UnmarshalSSZ in H1, H2.
    decoded H1 88. decoded H2 88.
    unfold DepositMessage_MarshalSSZ, DepositMessage_MarshalSSZTo.
    cbn [DepositMessage.PublicKey DepositMessage.WithdrawalCredentials
         DepositMessage.Amount DepositMessage.zero].
    refused.
  - unfold ENRForkID_UnmarshalSSZ in H1, H2. decoded H1 16. decoded H2 16.
    unfold ENRForkID_MarshalSSZ, ENRForkID_MarshalSSZTo.
    cbn [ENRForkID.CurrentForkDigest ENRForkID.NextForkVersion
         ENRForkID.NextForkEpoch ENRForkID.zero].
    refused.
  - unfold MetaData_UnmarshalSSZ in H1, H2. decoded H1 16. decoded H2 16.
    unfold MetaData_MarshalSSZ, MetaData_MarshalSSZTo.
    cbn [MetaData.SeqNumber MetaData.Attnets MetaData.zero].
    refused.
Qed.

End DecodeFacts.

(** ** The shape of an encoded and of a decoded state *)

Module StateCodecFacts.
Import SSZ SSZFacts P2P P2PFacts State DecodeFacts.

(** A committee that is not [nil] and holds its two vectors of keys. *)
Definition committee_shape (c : option SyncCommittee.t) : Prop :=
  exists s, c = Some s /\
    len (SyncCommittee.Pubkeys s) = 1024 /\
    Forall (fun x => len x = 48) (SyncCommittee.Pubkeys s) /\
    len (SyncCommittee.PubkeyAggregates s) = 16 /\
    Forall (fun x => len x = 48) (SyncCommittee.PubkeyAggregates s).

(** The vectors of a state have their fixed lengths. *)
Definition vectors_shape (b : Inner.t) : Prop :=
  is_vector 8192 32 (Inner.BlockRoots b) /\
  is_vector 8192 32 (Inner.StateRoots b) /\
  is_vector 65536 32 (Inner.RandaoMixes b) /\
  len_nilable (Inner.Slashings b) = 8192 /\
  committee_shape (Inner.CurrentSyncCommittee b) /\
  committee_shape (Inner.NextSyncCommittee b).

(** The lists of a state are within their limits, and hold no [nil]
    record. *)
Definition lists_shape (b : Inner.t) : Prop :=
  len_nilable (Inner.HistoricalRoots b) <= 16777216 /\
  Forall (fun x => len x = 32) (default [] (Inner.HistoricalRoots b)) /\
  len_nilable (Inner.Eth1DataVotes b) <= 2048 /\
  Forall is_Some (default [] (Inner.Eth1DataVotes b)) /\
  len_nilable (Inner.Validators b) <= 1099511627776 /\
  Forall is_Some (default [] (Inner.Validators b)) /\
  len_nilable (Inner.Balances b) <= 1099511627776.

(** No pointer to a record of the state is [nil]. *)
Definition records_set (b : Inner.t) : Prop :=
  is_Some (Inner.Fork b) /\ is_Some (Inner.LatestBlockHeader b) /\
  is_Some (Inner.Eth1Data b) /\
  is_Some (Inner.PreviousJustifiedCheckpoint b) /\
  is_Some (Inner.CurrentJustifiedCheckpoint b) /\
  is_Some (Inner.FinalizedCheckpoint b).

Lemma DivideInt2_inv {A} (l : list A) (b max n : Z) :
  DivideInt2 (len l) b max = Ok n -> 0 < b ->
  0 <= n <= max /\ n * b = len l.
Proof.
  unfold DivideInt2.
  destruct (Z.eqb_spec (len l mod b) 0) as [Hm|]; [ | discriminate ].
  cbn [negb].
  destruct (Z.ltb_spec max (len l / b)) as [|Hd]; [discriminate | ].
  intros Hn Hb. apply Ok_inj in Hn. subst n.
  pose proof (len_nonneg l) as Hl.
  pose proof (Z.div_pos (len l) b Hl Hb).
  pose proof (Z.div_mod (len l) b). lia.
Qed.

Lemma len_fill_uint64_vector (v : list Z) (n : nat) (buf : bytes) :
  len (fill_uint64_vector v n buf) = len v.
Proof.
  unfold fill_uint64_vector, len. f_equal. generalize (seq 0 n) as l.
  intros l. revert v. induction l as [|ii l IH]; intros v; cbn [foldl];
    [reflexivity | ].
  rewrite IH, length_insert. reflexivity.
Qed.

Lemma vector_decoded (n size : Z) (buf : bytes) :
  0 <= n -> 0 <= size -> n * size <= len buf ->
  is_vector n size (Some (chunks (Z.to_nat n) size buf)).
Proof.
  intros Hn Hs Hl. unfold is_vector. cbn [len_nilable default].
  rewrite len_chunks, Z2Nat.id by exact Hn. split; [reflexivity | ].
  apply chunks_shape; [exact Hs | rewrite Z2Nat.id; lia].
Qed.

Lemma unmarshal_elements_shape {T} (new : T) unmarshal regions l :
  unmarshal_elements new unmarshal regions = Ok l ->
  len l = len regions /\ Forall is_Some l.
Proof.
  revert l. induction regions as [|r rest IH]; intros l H;
    cbn [unmarshal_elements] in H.
  - apply Ok_inj in H. subst l. split; [reflexivity | constructor].
  - apply bind_Ok_inv in H as (x & _ & H).
    apply bind_Ok_inv in H as (xs & Hxs & H).
    apply Ok_inj in H. subst l. destruct (IH xs Hxs) as [Hl Hf].
    split; [rewrite !len_cons, Hl; reflexivity | ].
    constructor; [eexists; reflexivity | exact Hf].
Qed.

Lemma committee_decoded r buf s :
  SyncCommittee_UnmarshalSSZ r buf = Ok s -> committee_shape (Some s).
Proof.
  unfold SyncCommittee_UnmarshalSSZ. intros H. decoded H 49920.
  eexists. split; [reflexivity | ].
  cbn [SyncCommittee.Pubkeys SyncCommittee.PubkeyAggregates].
  rewrite !len_chunks.
  repeat split; try reflexivity;
    apply chunks_shape; try rewrite len_slice; lia.
Qed.

Lemma committee_encoded (c : option SyncCommittee.t) :
  is_ok (SyncCommittee_MarshalSSZTo (or_new SyncCommittee.zero c) []) = true ->
  committee_shape c.
Proof.
  intros H.
  pose proof (marshalled_not_nil SyncCommittee_laws c H) as Hc.
  apply is_ok_inv in H as [e H].
  apply two_vectors_inv in H as (H1 & F1 & H2 & F2 & _).
  exists (or_new SyncCommittee.zero c). auto.
Qed.

Lemma not_nil_is_Some {T} (p : option T) (x : T) : p = Some x -> is_Some p.
Proof. intros ->. eexists. reflexivity. Qed.

Lemma valid_elements_set {T} (marshal : option T -> bytes -> result bytes)
    (v : list (option T)) :
  Forall (valid_element marshal) v -> Forall is_Some v.
Proof.
  apply Forall_impl. intros [x|] H; [eexists; reflexivity | destruct H].
Qed.

Section Decoder.
Context {external : External}.
Hypothesis laws : ExternalLaws external.

(** *** The encoder *)

(** X14: [MarshalSSZTo] succeeds on a target exactly when [MarshalSSZ]
    succeeds, and then returns the target followed by what [MarshalSSZ]
    returns: the bytes the target holds are kept, the encoding is appended
    to them. *)
Theorem X14_MarshalSSZTo_appends (b : Inner.t) (dst out : bytes) :
  BeaconState_MarshalSSZTo b dst = Ok out <->
  exists enc, BeaconState_MarshalSSZ b = Ok enc /\ out = dst ++ enc.
Proof.
  split.
  - intros H. apply (BeaconState_MarshalSSZTo_inv laws) in H as [Hv ->].
    exists (state_encoding b). split; [ | reflexivity ].
    apply (BeaconState_MarshalSSZ_valid laws). exact Hv.
  - intros (enc & H & ->). unfold BeaconState_MarshalSSZ in H.
    apply (BeaconState_MarshalSSZTo_inv laws) in H as [Hv ->].
    rewrite app_nil_l. apply (BeaconState_MarshalSSZTo_valid laws). exact Hv.
Qed.

(** X15: a state that [MarshalSSZ] encodes has its vectors at their fixed
    lengths, its lists within their limits and without a [nil] record, no
    pointer to a record [nil], a genesis validators root of 32 bytes, one
    byte of justification bits and at most [2 ^ 40] bytes of participation
    for each of the two epochs; any other state is refused. *)
Theorem X15_encoded_state_shape (b : Inner.t) (enc : bytes) :
  BeaconState_MarshalSSZ b = Ok enc ->
  vectors_shape b /\ lists_shape b /\ records_set b /\
  len_nilable (Inner.GenesisValidatorsRoot b) = 32 /\
  len_nilable (Inner.JustificationBits b) = 1 /\
  len_nilable (Inner.PreviousEpochParticipation b) <= 1099511627776 /\
  len_nilable (Inner.CurrentEpochParticipation b) <= 1099511627776.
Proof.
  intros H. unfold BeaconState_MarshalSSZ in H.
  apply (BeaconState_MarshalSSZTo_inv laws) in H as [Hv _].
  destruct Hv as [Hg Hf Hh Hb Hs He Hr Hsl Hj Hp Hc Hfi Hsc Hn
                    [Hh1 Hh2] [Hv1 Hv2] [Hva1 Hva2] Hba Hpp Hcp].
  split; [ | split; [ | split ] ].
  - unfold vectors_shape.
    repeat match goal with |- _ /\ _ => split end; try assumption;
      apply committee_encoded; assumption.
  - unfold lists_shape.
    repeat match goal with |- _ /\ _ => split end; try assumption;
      eapply valid_elements_set; eassumption.
  - unfold records_set.
    pose proof (marshalled_not_nil Fork_laws _ Hf).
    pose proof (marshalled_not_nil (header_laws laws) _ Hh).
    pose proof (marshalled_not_nil (eth1data_laws laws) _ He).
    pose proof (marshalled_not_nil (checkpoint_laws laws) _ Hp).
    pose proof (marshalled_not_nil (checkpoint_laws laws) _ Hc).
    pose proof (marshalled_not_nil (checkpoint_laws laws) _ Hfi).
    repeat match goal with |- _ /\ _ => split end;
      eapply not_nil_is_Some; eassumption.
  - auto.
Qed.

(** *** The decoder *)

(** Runs a decoder of the state that succeeded: the checks it passed and
    the results of the decoders it called become hypotheses, and the state
    decoded becomes the record the two passes build. *)
Ltac decode_inv H :=
  let Hsize := fresh "Hsize" in
  let Hfixed := fresh "Hfixed" in
  let b1 := fresh "b1" in
  let o := fresh "o" in
  unfold BeaconState_UnmarshalSSZ in H; cbv zeta in H;
  match type of H with
  | (if ?c then _ else _) = _ =>
      destruct c eqn:Hsize; [discriminate H | ]
  end;
  apply Z.ltb_ge in Hsize;
  apply bind_Ok_inv in H as ([b1 o] & Hfixed & H);
  unfold unmarshalFixed in Hfixed; cbv zeta in Hfixed;
  repeat match type of Hfixed with
         | mbind _ _ = Ok _ =>
             let E := fresh "E" in
             apply bind_Ok_inv in Hfixed as (? & E & Hfixed)
         | (if ?c then Err _ else _) = Ok _ =>
             let E := fresh "C" in
             destruct c eqn:E; [discriminate Hfixed | ]
         end;
  apply Ok_inj in Hfixed; apply pair_equal_spec in Hfixed as [<- <-];
  unfold unmarshalVariable in H; cbv zeta in H;
  cbn [Inner.GenesisTime Inner.GenesisValidatorsRoot Inner.Slot Inner.Fork
       Inner.LatestBlockHeader Inner.BlockRoots Inner.StateRoots
       Inner.HistoricalRoots Inner.Eth1Data Inner.Eth1DataVotes
       Inner.Eth1DepositIndex Inner.Validators Inner.Balances
       Inner.RandaoMixes Inner.Slashings Inner.PreviousEpochParticipation
       Inner.CurrentEpochParticipation Inner.JustificationBits
       Inner.PreviousJustifiedCheckpoint Inner.CurrentJustifiedCheckpoint
       Inner.FinalizedCheckpoint Inner.CurrentSyncCommittee
       Inner.NextSyncCommittee o7 o9 o11 o12 o15 o16] in H;
  repeat match type of H with
         | mbind _ (DivideInt2 _ _ _) = Ok _ =>
             let E := fresh "D" in
             apply bind_Ok_inv in H as (? & E & H);
             apply DivideInt2_inv in E; [ | lia ]
         | mbind _ (ExtendUint64 _ _) = Ok _ =>
             let E := fresh "X" in
             apply bind_Ok_inv in H as (? & E & H)
         | mbind _ _ = Ok _ =>
             let E := fresh "U" in
             apply bind_Ok_inv in H as (? & E & H);
             apply unmarshal_elements_shape in E
         | (if ?c then Err _ else _) = Ok _ =>
             let E := fresh "L" in
             destruct c eqn:E; [discriminate H | ]
         end;
  apply Ok_inj in H; subst.

(** The helper [ssz.ExtendUint64] returns a slice of the length asked
    for. *)
Hypothesis helper_length : forall b n v,
  0 <= n -> ExtendUint64 b n = Ok v -> len v = n.

(** X16: a state that [UnmarshalSSZ] returns has its vectors at their
    fixed lengths (8192 block roots and 8192 state roots of 32 bytes, 65536
    randao mixes of 32 bytes, 8192 slashings, two committees of 1024 keys
    and 16 aggregate keys of 48 bytes), its lists within their limits
    (16777216 historical roots of 32 bytes, 2048 votes, [2 ^ 40] validators
    and balances) and without a [nil] record, and no pointer to a record is
    [nil], whatever the receiver held; the slashings and the balances are
    written into the slice the helper [ssz.ExtendUint64] returns, a slice
    of the length asked for. *)
Theorem X16_decoded_state_shape (b : Inner.t) (buf : bytes) (b' : Inner.t) :
  BeaconState_UnmarshalSSZ b buf = Ok b' ->
  vectors_shape b' /\ lists_shape b' /\ records_set b'.
Proof.
  intros H. decode_inv H.
  unfold vectors_shape, lists_shape, records_set.
  cbn [Inner.Fork Inner.LatestBlockHeader Inner.BlockRoots Inner.StateRoots
       Inner.HistoricalRoots Inner.Eth1Data Inner.Eth1DataVotes
       Inner.Validators Inner.Balances Inner.RandaoMixes Inner.Slashings
       Inner.PreviousJustifiedCheckpoint Inner.CurrentJustifiedCheckpoint
       Inner.FinalizedCheckpoint Inner.CurrentSyncCommittee
       Inner.NextSyncCommittee].
  repeat match goal with H : _ /\ _ |- _ => destruct H end.
  repeat match goal with |- _ /\ _ => split end;
    cbn [len_nilable];
    repeat match goal with
           | |- context [default [] (Some ?x)] =>
               change (default [] (Some x)) with x
           end;
    try match goal with
        | |- is_vector _ _ (Some (chunks _ _ _)) =>
            apply vector_decoded; rewrite ?len_slice by lia; lia
        | |- committee_shape (Some _) =>
            eapply committee_decoded; eassumption
        | |- is_Some (Some _) => eexists; reflexivity
        | |- Forall is_Some _ => assumption
        | |- Forall _ (chunks _ _ _) =>
            apply chunks_shape; [lia | rewrite Z2Nat.id by lia; lia]
        | E : ExtendUint64 _ ?n = Ok ?v
          |- len (fill_uint64_vector ?v _ _) = _ =>
            rewrite len_fill_uint64_vector,
              (helper_length _ n v ltac:(lia) E); reflexivity
        | E : ExtendUint64 _ ?n = Ok ?v
          |- len (fill_uint64_vector ?v _ _) <= _ =>
            rewrite len_fill_uint64_vector,
              (helper_length _ n v ltac:(lia) E); lia
        | |- len (chunks _ _ _) <= _ =>
            rewrite len_chunks, Z2Nat.id by lia; lia
        | U : len ?l = len (chunks _ _ _) |- len ?l <= _ =>
            rewrite U, len_chunks, Z2Nat.id by lia; lia
        end.
Qed.

(** *** Decoding into a state that holds data *)

(** The root a decoder leaves: what the receiver held, followed by the
    32 bytes of the buffer. *)
Lemma decoded_root b buf b' :
  BeaconState_UnmarshalSSZ b buf = Ok b' ->
  2787217 <= len buf /\
  Inner.GenesisValidatorsRoot b' =
    Some (default [] (Inner.GenesisValidatorsRoot b) ++ slice buf 8 40).
Proof.
  intros H. decode_inv H. split; [assumption | reflexivity].
Qed.

(** X17: [UnmarshalSSZ] appends to the byte fields of its receiver: a
    state obtained by decoding a buffer into a state that was itself
    decoded from a buffer has a genesis validators root of 64 bytes, and
    [MarshalSSZ] refuses it with [ErrBytesLength]. *)
Theorem X17_decoding_into_a_used_state (buf1 buf2 : bytes)
    (x1 x2 : Inner.t) :
  BeaconState_UnmarshalSSZ Inner.zero buf1 = Ok x1 ->
  BeaconState_UnmarshalSSZ x1 buf2 = Ok x2 ->
  len_nilable (Inner.GenesisValidatorsRoot x2) = 64 /\
  BeaconState_MarshalSSZ x2 = Err ErrBytesLength.
Proof.
  intros H1 H2.
  apply decoded_root in H1 as [Hs1 R1].
  apply decoded_root in H2 as [Hs2 R2].
  rewrite R1 in R2. cbn [Inner.GenesisValidatorsRoot Inner.zero] in R2.
  assert (Hl : len_nilable (Inner.GenesisValidatorsRoot x2) = 64).
  { rewrite R2. cbn [len_nilable].
    change (default [] (Some ?x)) with x.
    change (default [] None) with (@nil Byte.byte).
    rewrite app_nil_l, len_app, !len_slice by lia. reflexivity. }
  split; [exact Hl | ].
  unfold BeaconState_MarshalSSZ, BeaconState_MarshalSSZTo. cbv zeta.
  rewrite Hl. reflexivity.
Qed.

(** *** Where the helper always returns *)

(** With a helper that returns on every slice, as the one of the examples
    does, whether a pass of the decoder succeeds does not depend on the
    receiver. *)
Hypothesis helper_total : forall r n, is_ok (ExtendUint64 r n) = true.

Lemma unmarshalFixed_receiver r r' buf :
  2787217 <= len buf ->
  is_ok (unmarshalFixed r buf) = true -> is_ok (unmarshalFixed r' buf) = true.
Proof.
  intros Hsize. unfold unmarshalFixed. cbv zeta.
  repeat match goal with
         | |- context [Fork_UnmarshalSSZ ?x ?s] =>
             let f := fresh "f" in
             destruct (is_ok_inv _ (law_total _ _ _ _ _ Fork_laws x s
                                      ltac:(rewrite len_slice; lia)))
               as [f ->]
         | |- context [BeaconBlockHeader_UnmarshalSSZ ?x ?s] =>
             let f := fresh "h" in
             destruct (is_ok_inv _ (law_total _ _ _ _ _ (header_laws laws) x s
                                      ltac:(rewrite len_slice; lia)))
               as [f ->]
         | |- context [Eth1Data_UnmarshalSSZ ?x ?s] =>
             let f := fresh "e" in
             destruct (is_ok_inv _ (law_total _ _ _ _ _ (eth1data_laws laws)
                                      x s ltac:(rewrite len_slice; lia)))
               as [f ->]
         | |- context [Checkpoint_UnmarshalSSZ ?x ?s] =>
             let f := fresh "c" in
             destruct (is_ok_inv _ (law_total _ _ _ _ _
                                      (checkpoint_laws laws) x s
                                      ltac:(rewrite len_slice; lia)))
               as [f ->]
         | |- context [SyncCommittee_UnmarshalSSZ ?x ?s] =>
             let f := fresh "s" in
             destruct (is_ok_inv _ (law_total _ _ _ _ _ SyncCommittee_laws
                                      x s ltac:(rewrite len_slice; lia)))
               as [f ->]
         | |- context [ExtendUint64 ?x ?n] =>
             let f := fresh "v" in
             destruct (is_ok_inv _ (helper_total x n)) as [f ->]
         end.
  cbn [mbind result_bind].
  repeat match goal with
         | |- context [if ?c then Err _ else _] =>
             destruct c; [intros D; discriminate D | ]
         end.
  reflexivity.
Qed.

Lemma unmarshalVariable_receiver r r' buf o :
  is_ok (unmarshalVariable r buf o) = true ->
  is_ok (unmarshalVariable r' buf o) = true.
Proof.
  unfold unmarshalVariable. cbv zeta.
  repeat match goal with
         | |- context [ExtendUint64 ?x ?n] =>
             let f := fresh "v" in
             destruct (is_ok_inv _ (helper_total x n)) as [f ->];
             cbn [mbind result_bind]
         | |- context [mbind _ ?x] =>
             destruct x; cbn [mbind result_bind];
             [ | intros D; discriminate D ]
         | |- context [if ?c then Err _ else _] =>
             destruct c; [intros D; discriminate D | ]
         end.
  reflexivity.
Qed.

Lemma BeaconState_UnmarshalSSZ_receiver r r' buf :
  is_ok (BeaconState_UnmarshalSSZ r buf) = true ->
  is_ok (BeaconState_UnmarshalSSZ r' buf) = true.
Proof.
  unfold BeaconState_UnmarshalSSZ. cbv zeta.
  destruct (Z.ltb_spec (len buf) 2787217) as [|Hsize];
    [intros D; discriminate D | ].
  pose proof (unmarshalFixed_receiver r r' buf Hsize) as Hf.
  destruct (unmarshalFixed r buf) as [[b1 o]|] eqn:E1;
    [ | intros D; discriminate D ].
  destruct (unmarshalFixed r' buf) as [[b1' o']|] eqn:E2;
    [ | discriminate (Hf eq_refl) ].
  cbn [mbind result_bind].
  apply unmarshalFixed_ok_inv in E1 as [-> _].
  apply unmarshalFixed_ok_inv in E2 as [-> _].
  apply unmarshalVariable_receiver.
Qed.

End Decoder.

(** *** The example state *)

Lemma example_small_encodes :
  BeaconState_MarshalSSZ (external := ExampleCodec.external) ExampleState.small
  = Ok (state_encoding (external := ExampleCodec.external) ExampleState.small).
Proof.
  apply (BeaconState_MarshalSSZ_valid example_external_laws).
  exact (with_validators_valid 4 small_bounds).
Qed.

Lemma example_small_decodes :
  BeaconState_UnmarshalSSZ (external := ExampleCodec.external) Inner.zero
    (state_encoding (external := ExampleCodec.external) ExampleState.small)
  = Ok ExampleState.small.
Proof.
  destruct (BeaconState_roundtrip example_external_laws example_helper_laws
              ExampleState.small _
              (with_validators_typed 4) example_small_encodes)
    as [Hsize Hdec].
  apply Hdec. rewrite <- Hsize. unfold ExampleState.small.
  rewrite (with_validators_size 4 small_bounds). lia.
Qed.

Lemma X14_MarshalSSZTo_appends_witness :
  let enc :=
    state_encoding (external := ExampleCodec.external) ExampleState.small in
  BeaconState_MarshalSSZTo (external := ExampleCodec.external)
    ExampleState.small [Byte.x01] = Ok ([Byte.x01] ++ enc).
Proof.
  intros enc.
  apply (X14_MarshalSSZTo_appends example_external_laws).
  exists enc. split; [exact example_small_encodes | reflexivity].
Defined.

Lemma X15_encoded_state_shape_witness :
  vectors_shape ExampleState.small /\ lists_shape ExampleState.small /\
  records_set ExampleState.small /\
  len_nilable (Inner.GenesisValidatorsRoot ExampleState.small) = 32 /\
  len_nilable (Inner.JustificationBits ExampleState.small) = 1 /\
  len_nilable (Inner.PreviousEpochParticipation ExampleState.small)
    <= 1099511627776 /\
  len_nilable (Inner.CurrentEpochParticipation ExampleState.small)
    <= 1099511627776.
Proof.
  apply (X15_encoded_state_shape example_external_laws ExampleState.small
           (state_encoding (external := ExampleCodec.external)
              ExampleState.small)).
  exact example_small_encodes.
Defined.

Lemma X16_decoded_state_shape_witness :
  vectors_shape ExampleState.small /\ lists_shape ExampleState.small /\
  records_set ExampleState.small.
Proof.
  apply (X16_decoded_state_shape (external := ExampleCodec.external)
           (extend_len example_helper_laws)
           Inner.zero
           (state_encoding (external := ExampleCodec.external)
              ExampleState.small)
           ExampleState.small).
  exact example_small_decodes.
Defined.

(** The helper of the examples returns on every slice: the encoding of the
    example state is decoded into the example state as well. *)
Lemma example_small_decodes_again :
  is_ok (BeaconState_UnmarshalSSZ (external := ExampleCodec.external)
           ExampleState.small
           (state_encoding (external := ExampleCodec.external)
              ExampleState.small)) = true.
Proof.
  apply (BeaconState_UnmarshalSSZ_receiver example_external_laws
           (fun _ _ => eq_refl) Inner.zero).
  rewrite example_small_decodes. reflexivity.
Qed.

Lemma X17_decoding_into_a_used_state_witness :
  let enc :=
    state_encoding (external := ExampleCodec.external) ExampleState.small in
  exists x2,
    BeaconState_UnmarshalSSZ (external := ExampleCodec.external)
      ExampleState.small enc = Ok x2 /\
    len_nilable (Inner.GenesisValidatorsRoot x2) = 64 /\
    BeaconState_MarshalSSZ (external := ExampleCodec.external) x2
    = Err ErrBytesLength.
Proof.
  intros enc.
  destruct (is_ok_inv _ example_small_decodes_again) as [x2 H2].
  exists x2. split; [exact H2 | ].
  exact (X17_decoding_into_a_used_state enc enc ExampleState.small x2
           example_small_decodes H2).
Defined.

End StateCodecFacts.
